(** * pcre2test: codec, width conversion, modifiers, data lines, global matching

    A shallow embedding of the parts of [src/pcre2test.c] that turn text
    into code-unit buffers and drive repeated matching, with the properties
    the specification states about them.

    Conventions.  A C byte string is a [list Z] of values in [0,256); the
    terminating NUL is implicit, so reading at or past the end of the list
    yields 0.  Unsigned w-bit arithmetic is written on [Z] with its
    wrap-around explicit ([u8], [u16], [u32], [usize]). *)

From Stdlib Require Import ZArith List Lia Bool String Ascii.
From stdpp Require Import base tactics option list.
Import ListNotations.
Local Open Scope Z_scope.

(** ** Machine integers *)

Definition u8 (x : Z) : Z := x mod 2 ^ 8.
Definition u16 (x : Z) : Z := x mod 2 ^ 16.
Definition u32 (x : Z) : Z := x mod 2 ^ 32.
(** [size_t] on the LP64 targets the harness is built for. *)
Definition usize (x : Z) : Z := x mod 2 ^ 64.

(** [*p] for a NUL-terminated byte string and [p + n]. *)
Definition peek (p : list Z) : Z := hd 0 p.
Definition advance (n : nat) (p : list Z) : list Z := skipn n p.

Definition bytes_of_string (s : string) : list Z :=
  map (fun a => Z.of_nat (nat_of_ascii a)) (list_ascii_of_string s).

(** ** Codepoint codec: [utf82ord] and [ord2utf8] *)

Module Codec.

(** Modelled from the spec: [pcre2_tables.c], which defines the three UTF-8
    tables, is not part of the tree.  The codec "supports codepoints up to
    0x7fffffff" in sequences of up to 6 bytes (RFC 2279): [utf8_table1] holds
    the largest value of each length, [utf8_table2] the lead-byte marker and
    [utf8_table3] the lead-byte payload mask. *)
Definition utf8_table1 : list Z :=
  [0x7f; 0x7ff; 0xffff; 0x1fffff; 0x3ffffff; 0x7fffffff].
Definition utf8_table1_size : Z := 6.
Definition utf8_table2 : list Z := [0; 0xc0; 0xe0; 0xf0; 0xf8; 0xfc].
Definition utf8_table3 : list Z := [0xff; 0x1f; 0x0f; 0x07; 0x03; 0x01].

Definition tbl (t : list Z) (i : Z) : Z := nth (Z.to_nat i) t 0.

(** [for (j = 0; j < utf8_table1_size; j++) if (v <= utf8_table1[j]) break;]
    yields the final [j]. *)
Fixpoint table1_scan (t : list Z) (j v : Z) : Z :=
  match t with
  | [] => j
  | m :: t' => if v <=? m then j else table1_scan t' (j + 1) v
  end.

Definition table1_index (v : Z) : Z := table1_scan utf8_table1 0 v.

(** [for (i = -1; i < 6; i++) { if ((d & 0x80) == 0) break; d <<= 1; }]
    with [n] bounding the iterations that remain. *)
Fixpoint lead_loop (n : nat) (i d : Z) : Z :=
  match n with
  | O => i
  | S n' =>
      if Z.land d 0x80 =? 0 then i
      else lead_loop n' (i + 1) (u32 (Z.shiftl d 1))
  end.

(** The loop over the [i] additional bytes; [inl r] is an early [return r]. *)
Fixpoint cont_loop (n : nat) (j s d : Z) (utf8bytes : list Z) : Z + Z :=
  match n with
  | O => inr d
  | S n' =>
      let c := peek utf8bytes in
      if negb (Z.land c 0xc0 =? 0x80) then inl (- (j + 1))
      else
        let s := s - 6 in
        cont_loop n' (j + 1) s (Z.lor d (u32 (Z.shiftl (Z.land c 0x3f) s)))
                  (advance 1 utf8bytes)
  end.

(** [utf82ord(utf8bytes, vptr)]: the return value, and the value stored
    through [vptr] when one is stored. *)
Definition utf82ord (utf8bytes : list Z) : Z * option Z :=
  let c := peek utf8bytes in
  let i := lead_loop 7 (-1) c in
  if i =? -1 then (1, Some c)
  else if (i =? 0) || (i =? 6) then (0, None)
  else
    let s := 6 * i in
    let d := u32 (Z.shiftl (Z.land c (tbl utf8_table3 i)) s) in
    match cont_loop (Z.to_nat i) 0 s d (advance 1 utf8bytes) with
    | inl r => (r, None)
    | inr d =>
        if negb (table1_index d =? i) then (- (i + 1), None)
        else (i + 1, Some d)
    end.

(** [for (j = i; j > 0; j--) { *utf8bytes-- = 0x80 | (cvalue & 0x3f);
    cvalue >>= 6; }]: the bytes are produced last first, so they are
    accumulated in front of [acc]. *)
Fixpoint ord_loop (j : nat) (cvalue : Z) (acc : list Z) : Z * list Z :=
  match j with
  | O => (cvalue, acc)
  | S j' =>
      ord_loop j' (u32 (Z.shiftr cvalue 6))
               (u8 (Z.lor 0x80 (Z.land cvalue 0x3f)) :: acc)
  end.

(** [ord2utf8(cvalue, utf8bytes)]: the return value and the bytes stored. *)
Definition ord2utf8 (cvalue : Z) : Z * list Z :=
  if cvalue >? 0x7fffffff then (-1, [])
  else
    let i := table1_index cvalue in
    let '(cv, tail) := ord_loop (Z.to_nat i) cvalue [] in
    (i + 1, u8 (Z.lor (tbl utf8_table2 i) cv) :: tail).

End Codec.

(** ** Width converter: [to16] *)

Module Width.
Import Codec.

(** What a call of [to16] leaves behind: the return value, the 16-bit items
    stored in [pbuffer16] from its start (with the closing zero when the
    call gets that far) and the new [pbuffer16_size]. *)
Record to16_result := {
  to16_rc : Z;
  to16_units : list Z;
  to16_size : Z
}.

(** The [while (len > 0)] loop.  [pp] is the list of items stored so far.
    Every turn consumes at least one byte of [len], so [fuel] counts the
    turns; [None] is the loop still running when the fuel is spent. *)
Fixpoint to16_loop (fuel : nat) (p : list Z) (utf : bool) (len : Z)
    (pp : list Z) : option (Z * list Z) :=
  if negb (len >? 0) then Some (Z.of_nat (length pp), pp ++ [0])
  else
    match fuel with
    | O => None
    | S fuel' =>
        let '(chlen, v) := utf82ord p in
        if chlen <=? 0 then Some (-1, pp)
        else
          let c := default 0 v in
          if c >? 0x10ffff then Some (-2, pp)
          else
            let p := advance (Z.to_nat chlen) p in
            let len := len - chlen in
            if c <? 0x10000 then to16_loop fuel' p utf len (pp ++ [u16 c])
            else if negb utf then Some (-3, pp)
            else
              let c := u32 (c - 0x10000) in
              to16_loop fuel' p utf len
                (pp ++ [u16 (Z.lor 0xD800 (Z.shiftr c 10));
                        u16 (Z.lor 0xDC00 (Z.land c 0x3ff))])
    end.

(** [to16(p, utf, len)] with the current [pbuffer16_size] passed in. *)
Definition to16 (pbuffer16_size : Z) (p : list Z) (utf : bool) (len : Z)
    : option to16_result :=
  let size :=
    if pbuffer16_size <? 2 * len + 2
    then (if 2 * len + 2 <? 256 then 256 else 2 * len + 2)
    else pbuffer16_size in
  match to16_loop (Z.to_nat len) p utf len [] with
  | Some (rc, units) =>
      Some {| to16_rc := rc; to16_units := units; to16_size := size |}
  | None => None
  end.

End Width.

(** ** Data-line encoder: the first half of [process_data] *)

Module DataLine.
Import Codec.

Definition PCRE8_MODE : Z := 8.
Definition PCRE16_MODE : Z := 16.
Definition PCRE32_MODE : Z := 32.

(** <ctype.h> in the "C" locale. *)
Definition isspace (c : Z) : bool := (c =? 32) || ((9 <=? c) && (c <=? 13)).
Definition isdigit (c : Z) : bool := (48 <=? c) && (c <=? 57).
Definition isxdigit (c : Z) : bool :=
  isdigit c || ((97 <=? c) && (c <=? 102)) || ((65 <=? c) && (c <=? 70)).
Definition tolower (c : Z) : Z := if (65 <=? c) && (c <=? 90) then c + 32 else c.

(** [int] arithmetic, two's complement. *)
Definition sint (x : Z) : Z := (x + 2 ^ 31) mod 2 ^ 32 - 2 ^ 31.

(** What is written to [outfile] or [stderr], one constructor per format. *)
Inductive diag :=
| Invalid_utf8_input          (* ** Failed: invalid UTF-8 string cannot be used as input in UTF mode *)
| Expected_open_brace         (* ** Expected '{' after \[....] *)
| Expected_close_brace        (* ** Expected '}' after \[...]{... *)
| Zero_repeat                 (* ** Zero repeat not allowed *)
| Nested_duplication          (* ** Nested duplication is not supported *)
| Too_many_octal_digits       (* ** Too many octal digits in \o{...} item; using only the first twelve. *)
| Missing_octal_brace         (* ** Missing } after \o{ (assumed) *)
| Too_many_hex_digits         (* ** Too many hex digits in \x{...} item; using only the first eight. *)
| Unrecognized_escape (c : Z) (* ** Unrecognized escape sequence "\c" *)
| Greater_than_7fffffff (c : Z)
| Greater_than_255 (c : Z)    (* ... and UTF-8 mode is not enabled. ** Truncation will probably give the wrong result. *)
| Greater_than_10ffff (c : Z)
| Greater_than_ffff (c : Z)
| Realloc_failed (size : Z).  (* pcre2test: realloc(size) failed *)

(** Behaviour the C standard leaves undefined. *)
Inductive fault :=
| Out_of_bounds      (* an access outside the allocation *)
| Use_after_free     (* an access through a pointer into a freed allocation *)
| Null_pointer.

(** The heap as far as [dbuffer] goes.  [dbuffer] names the live allocation
    ([None] is NULL); a [realloc] that moves the block gives it the next
    name, and pointers that still carry the old name dangle.  [cells] holds
    the allocation as code units of the active width, fresh ones read 0. *)
Record dmem := {
  dbuffer : option nat;
  dbuffer_size : Z;
  cells : list Z
}.

(** A pointer into [dbuffer]: the allocation it was taken from and the byte
    offset in it. *)
Definition dptr : Type := nat * Z.

(** The variables of the scanning loop.  [q] is [CAST8VAR(q) - dbuffer],
    a byte offset into the live allocation. *)
Record scan_st := {
  p : list Z;
  q : Z;
  start_dup : option dptr;
  needlen : Z;
  mem : dmem;
  out : list diag
}.

Definition set_p (v : list Z) (s : scan_st) : scan_st :=
  {| p := v; q := q s; start_dup := start_dup s; needlen := needlen s;
     mem := mem s; out := out s |}.
Definition set_q (v : Z) (s : scan_st) : scan_st :=
  {| p := p s; q := v; start_dup := start_dup s; needlen := needlen s;
     mem := mem s; out := out s |}.
Definition set_start_dup (v : option dptr) (s : scan_st) : scan_st :=
  {| p := p s; q := q s; start_dup := v; needlen := needlen s;
     mem := mem s; out := out s |}.
Definition set_needlen (v : Z) (s : scan_st) : scan_st :=
  {| p := p s; q := q s; start_dup := start_dup s; needlen := v;
     mem := mem s; out := out s |}.
Definition set_mem (v : dmem) (s : scan_st) : scan_st :=
  {| p := p s; q := q s; start_dup := start_dup s; needlen := needlen s;
     mem := v; out := out s |}.
Definition say (d : diag) (s : scan_st) : scan_st :=
  {| p := p s; q := q s; start_dup := start_dup s; needlen := needlen s;
     mem := mem s; out := out s ++ [d] |}.

(** How a piece of the loop body ends. *)
Inductive flow :=
| Continue (s : scan_st)           (* go on with the loop *)
| EndString (s : scan_st)          (* goto ENDSTRING, after \= *)
| EndOfLine (s : scan_st)          (* the loop ends at the NUL *)
| Return (s : scan_st)             (* return PR_OK *)
| Exit (s : scan_st)               (* exit(1) *)
| Undefined (f : fault) (s : scan_st).

Section Encoder.

(** [test_mode] and [utf] are fixed while a data line is processed.  The
    allocator is a parameter: asked to resize the allocation [a] to [size]
    bytes it fails ([None]), moves the block ([Some true]) or resizes it in
    place ([Some false]). *)
Variable test_mode : Z.
Variable utf : bool.
Variable allocator : option nat -> Z -> option bool.

Definition code_unit_size : Z := test_mode / 8.

(** [realloc(dbuffer, size)]. *)
Definition realloc (m : dmem) (size : Z) : option dmem :=
  match allocator (dbuffer m) size with
  | None => None
  | Some moved =>
      let a := match dbuffer m with
               | None => O
               | Some a => if moved then S a else a
               end in
      Some {| dbuffer := Some a; dbuffer_size := size;
              cells := resize (Z.to_nat (size / code_unit_size)) 0 (cells m) |}
  end.

(** The width in bytes of the pointer that the mode macros select: [q8],
    [q16], or [q32] in their final [else]. *)
Definition ptr_width : Z :=
  if test_mode =? PCRE8_MODE then 1
  else if test_mode =? PCRE16_MODE then 2 else 4.

(** [*q = c] through a pointer [w] bytes wide, and then [q++]. *)
Definition store_cell (w : Z) (c : Z) (s : scan_st) : fault + scan_st :=
  match dbuffer (mem s) with
  | None => inl Null_pointer
  | Some a =>
      if (0 <=? q s) && (q s + w <=? dbuffer_size (mem s)) then
        let m := mem s in
        inr (set_q (q s + w)
          (set_mem {| dbuffer := Some a; dbuffer_size := dbuffer_size m;
                      cells := <[Z.to_nat (q s / code_unit_size) :=
                                   c mod 2 ^ (8 * w)]> (cells m) |} s))
      else inl Out_of_bounds
  end.

Definition store (w : Z) (c : Z) (s : scan_st) : flow :=
  match store_cell w c s with
  | inr s' => Continue s'
  | inl f => Undefined f s
  end.

Fixpoint store_all (w : Z) (cs : list Z) (s : scan_st) : flow :=
  match cs with
  | [] => Continue s
  | c :: cs' =>
      match store w c s with
      | Continue s' => store_all w cs' s'
      | r => r
      end
  end.

(** [memcpy(CAST8VAR(q), start_dup, duplen)]. *)
Definition memcpy_dup (src : dptr) (duplen : Z) (s : scan_st) : flow :=
  let m := mem s in
  match dbuffer m with
  | None => Undefined Null_pointer s
  | Some a =>
      if negb (Nat.eqb (fst src) a) then Undefined Use_after_free s
      else if negb ((0 <=? snd src) && (snd src + duplen <=? dbuffer_size m)
                    && (0 <=? q s) && (q s + duplen <=? dbuffer_size m))
      then Undefined Out_of_bounds s
      else
        let n := Z.to_nat (duplen / code_unit_size) in
        let from := Z.to_nat (snd src / code_unit_size) in
        let to := Z.to_nat (q s / code_unit_size) in
        let block := take n (drop from (cells m)) in
        Continue (set_mem
          {| dbuffer := Some a; dbuffer_size := dbuffer_size m;
             cells := take to (cells m) ++ block ++ drop (to + n) (cells m) |} s)
  end.

(** [while (needlen >= dbuffer_size)] of the duplication code.  The macro
    [SETCASTPTR(q, dbuffer + qoffset)] expands to
    a cast of [dbuffer] to a pointer of the active width followed by
    [+ qoffset], the cast binding tighter than the sum: [q] ends [qoffset]
    code units, not bytes, into the new block.  [None] is the
    loop still running when the fuel is spent. *)
Fixpoint dup_grow (fuel : nat) (qoffset : Z) (s : scan_st) : option flow :=
  if negb (needlen s >=? dbuffer_size (mem s)) then Some (Continue s)
  else
    match fuel with
    | O => None
    | S fuel' =>
        let size := usize (dbuffer_size (mem s) * 2) in
        match realloc (mem s) size with
        | None =>
            Some (Exit (say (Realloc_failed size)
              (set_mem {| dbuffer := None; dbuffer_size := size;
                          cells := [] |} s)))
        | Some m =>
            dup_grow fuel' qoffset
              (set_q (qoffset * code_unit_size) (set_mem m s))
        end
    end.

(** [while (i-- > 0) { memcpy(...); SETPLUS(q, duplen/code_unit_size); }]
    run [n] times. *)
Fixpoint dup_copy (n : nat) (src : dptr) (duplen : Z) (s : scan_st) : flow :=
  match n with
  | O => Continue s
  | S n' =>
      match memcpy_dup src duplen s with
      | Continue s' =>
          dup_copy n' src duplen
            (set_q (q s' + duplen / code_unit_size * code_unit_size) s')
      | r => r
      end
  end.

(** [while (isdigit( *p)) i = i * 10 + *p++ - '0';] *)
Fixpoint read_decimal (p : list Z) (i : Z) : Z * list Z :=
  match p with
  | c :: p' => if isdigit c then read_decimal p' (sint (i * 10 + c - 48))
               else (i, p)
  | [] => (i, p)
  end.

(** The body of [if (c == ']' && start_dup != NULL)]; [s] is the state
    after [c = *p++]. *)
Definition close_dup (src : dptr) (s : scan_st) : option flow :=
  let qoffset := q s in
  if negb (peek (p s) =? 123) then Some (Return (say Expected_open_brace (set_p (advance 1 (p s)) s)))
  else
    let '(i, p1) := read_decimal (advance 1 (p s)) 0 in
    if negb (peek p1 =? 125) then Some (Return (say Expected_close_brace (set_p (advance 1 p1) s)))
    else
      let s := set_p (advance 1 p1) s in
      if i =? 0 then Some (Return (say Zero_repeat s))
      else
        let i := sint (i - 1) in
        match dbuffer (mem s) with
        | None => Some (Undefined Null_pointer s)
        | Some a =>
            if negb (Nat.eqb (fst src) a) then Some (Undefined Use_after_free s)
            else
              let duplen := usize (q s - snd src) in
              let s := set_needlen (usize (needlen s + duplen * sint (i - 1))) s in
              match dup_grow 128 qoffset s with
              | Some (Continue s) =>
                  match dup_copy (Z.to_nat i) src duplen s with
                  | Continue s => Some (Continue (set_start_dup None s))
                  | r => Some r
                  end
              | r => r
              end
        end.

(** [GETUTF8INC(c, p)] under [HASUTF8EXTRALEN(c)].

    Modelled from the spec: the two macros come from [pcre2_internal.h],
    which is not part of the tree.  The line has passed the validation of
    section 4.1 when they are used, and they read the character that this
    decoding yields: the value of the sequence that starts with [c], [p]
    moved past its additional bytes. *)
Definition HASUTF8EXTRALEN (c : Z) : bool := c >=? 0xc0.
Definition GETUTF8INC (c : Z) (p : list Z) : Z * list Z :=
  match utf82ord (c :: p) with
  | (n, Some v) => (v, advance (Z.to_nat (n - 1)) p)
  | _ => (c, p)
  end.

Definition hexval (c : Z) : Z :=
  tolower c - (if isdigit c then 48 else 97 - 10).

(** [while (i++ < 2 && isdigit( *p) && *p != '8' && *p != '9')
      c = c * 8 + *p++ - '0';] *)
Fixpoint read_octal (n : nat) (p : list Z) (i c : Z) : Z * list Z :=
  match n with
  | O => (c, p)
  | S n' =>
      let d := peek p in
      if (i <? 2) && isdigit d && negb (d =? 56) && negb (d =? 57)
      then read_octal n' (advance 1 p) (i + 1) (u32 (c * 8 + d - 48))
      else (c, p)
  end.

(** The loop of [\o{...}]: [pt] runs over the octal digits, the twelfth
    gives the warning, every other one is shifted into [c]. *)
Fixpoint brace_octal (pt : list Z) (i c : Z) (w : list diag)
    : Z * Z * list Z * list diag :=
  match pt with
  | d :: pt' =>
      if isdigit d && negb (d =? 56) && negb (d =? 57) then
        let i := sint (i + 1) in
        if i =? 12 then brace_octal pt' i c (w ++ [Too_many_octal_digits])
        else brace_octal pt' i (u32 (c * 8 + d - 48)) w
      else (i, c, pt, w)
  | [] => (i, c, pt, w)
  end.

(** The loop of [\x{...}]: [pt] runs over the hex digits, the ninth gives
    the warning, every other one is shifted into [c]. *)
Fixpoint brace_hex (pt : list Z) (i c : Z) (w : list diag)
    : Z * Z * list Z * list diag :=
  match pt with
  | d :: pt' =>
      if isxdigit d then
        let i := sint (i + 1) in
        if i =? 9 then brace_hex pt' i c (w ++ [Too_many_hex_digits])
        else brace_hex pt' i (u32 (c * 16 + hexval d)) w
      else (i, c, pt, w)
  | [] => (i, c, pt, w)
  end.

(** [while (i++ < 2 && isxdigit( *p)) { c = c * 16 + ...; p++; }] *)
Fixpoint read_hex (n : nat) (p : list Z) (i c : Z) : Z * list Z :=
  match n with
  | O => (c, p)
  | S n' =>
      if (i <? 2) && isxdigit (peek p)
      then read_hex n' (advance 1 p) (i + 1) (u32 (c * 16 + hexval (peek p)))
      else (c, p)
  end.

Definition says (w : list diag) (s : scan_st) : scan_st :=
  fold_left (fun s d => say d s) w s.

(** The end of the loop body: the character value [c] is stored in the form
    the mode asks for. *)
Definition commit (c : Z) (s : scan_st) : flow :=
  if test_mode =? PCRE8_MODE then
    if utf then
      if c >? 0x7fffffff then Return (say (Greater_than_7fffffff c) s)
      else store_all 1 (snd (ord2utf8 c)) s
    else
      store 1 c (if c >? 0xff then say (Greater_than_255 c) s else s)
  else if test_mode =? PCRE16_MODE then
    if utf then
      if c >? 0x10ffff then Return (say (Greater_than_10ffff c) s)
      else if c >=? 0x10000 then
        let c := u32 (c - 0x10000) in
        store_all 2 [Z.lor 0xD800 (Z.shiftr c 10);
                     Z.lor 0xDC00 (Z.land c 0x3ff)] s
      else store 2 c s
    else
      store 2 c (if c >? 0xffff then say (Greater_than_ffff c) s else s)
  else store 4 c s.

(** The part of the [\x] case below the brace form: [i] is what the brace
    loop left in it. *)
Definition hex_escape (i : Z) (s : scan_st) : flow :=
  let '(c, p1) := read_hex 2 (p s) i 0 in
  let s := set_p p1 s in
  if utf && (test_mode =? PCRE8_MODE) then store 1 c s
  else commit c s.

(** The [switch] on the character after a backslash. *)
Definition escape (s : scan_st) : flow :=
  let c := peek (p s) in
  if c =? 0 then Continue s                               (* p--; continue *)
  else
    let s := set_p (advance 1 (p s)) s in
    if c =? 92 then commit c s
    else if c =? 97 then commit 7 s
    else if c =? 98 then commit 8 s
    else if c =? 101 then commit 27 s
    else if c =? 102 then commit 12 s
    else if c =? 110 then commit 10 s
    else if c =? 114 then commit 13 s
    else if c =? 116 then commit 9 s
    else if c =? 118 then commit 11 s
    else if (48 <=? c) && (c <=? 55) then
      let '(c, p1) := read_octal 3 (p s) 0 (u32 (c - 48)) in
      commit c (set_p p1 s)
    else if c =? 111 then
      if peek (p s) =? 123 then
        let '(_, c, pt, w) := brace_octal (advance 1 (p s)) 0 0 [] in
        let s := says w s in
        if peek pt =? 125 then commit c (set_p (advance 1 pt) s)
        else commit c (say Missing_octal_brace s)
      else commit c s
    else if c =? 120 then
      if peek (p s) =? 123 then
        let '(i, c, pt, w) := brace_hex (advance 1 (p s)) 0 0 [] in
        let s := says w s in
        if peek pt =? 125 then commit c (set_p (advance 1 pt) s)
        else hex_escape i s
      else hex_escape 0 s
    else if c =? 61 then EndString s
    else if c =? 91 then
      match start_dup s with
      | Some _ => Return (say Nested_duplication s)
      | None =>
          match dbuffer (mem s) with
          | Some a => Continue (set_start_dup (Some (a, q s)) s)
          | None => Undefined Null_pointer s
          end
      end
    else Return (say (Unrecognized_escape c) s).

(** One turn of [while ((c = *p++) != 0)]: [c] has been read and is not 0,
    [p] has moved on. *)
Definition scan_body (c : Z) (s : scan_st) : option flow :=
  match (if c =? 93 then start_dup s else None) with
  | Some src => close_dup src s
  | None =>
      if negb (c =? 92) then
        if utf && HASUTF8EXTRALEN c then
          let '(c, p1) := GETUTF8INC c (p s) in
          Some (commit c (set_p p1 s))
        else Some (commit c s)
      else Some (escape s)
  end.

Fixpoint scan_loop (fuel : nat) (s : scan_st) : option flow :=
  let c := peek (p s) in
  if c =? 0 then Some (EndOfLine s)
  else
    match fuel with
    | O => None
    | S fuel' =>
        match scan_body c (set_p (advance 1 (p s)) s) with
        | Some (Continue s') => scan_loop fuel' s'
        | r => r
        end
    end.

(** [for (q = p; n > 0 && *q; q += n) n = utf82ord(q, &cc);] yields the
    final [n]. *)
Fixpoint utf8_check (fuel : nat) (q : list Z) (n : Z) : Z :=
  match fuel with
  | O => n
  | S fuel' =>
      if (n >? 0) && negb (peek q =? 0) then
        let n := fst (utf82ord q) in
        utf8_check fuel' (advance (Z.to_nat n) q) n
      else n
  end.

(** [while (dbuffer == NULL || needlen >= dbuffer_size)] before the scan. *)
Fixpoint first_grow (fuel : nat) (needlen : Z) (m : dmem) (o : list diag)
    : option (dmem * list diag + list diag) :=
  if negb (match dbuffer m with None => true | Some _ => false end
           || (needlen >=? dbuffer_size m))
  then Some (inl (m, o))
  else
    match fuel with
    | O => None
    | S fuel' =>
        let size := usize (dbuffer_size m * 2) in
        match realloc m size with
        | None => Some (inr (o ++ [Realloc_failed size]))
        | Some m' => first_grow fuel' needlen m' o
        end
    end.

(** [strlen]: a byte string ends at its first NUL. *)
Fixpoint cstring (l : list Z) : list Z :=
  match l with
  | c :: l' => if c =? 0 then [] else c :: cstring l'
  | [] => []
  end.

(** [while (len > 0 && isspace(buffer[len-1])) len--; buffer[len] = 0;] *)
Fixpoint rtrim (l : list Z) : list Z :=
  match l with
  | [] => []
  | c :: l' =>
      match rtrim l' with
      | [] => if isspace c then [] else [c]
      | t => c :: t
      end
  end.

(** [while (isspace( *p)) p++;] *)
Fixpoint skip_space (p : list Z) : list Z :=
  match p with
  | c :: p' => if isspace c then skip_space p' else p
  | [] => []
  end.

(** How the encoding half of [process_data] ends. *)
Inductive encoded :=
| Subject (m : dmem) (pp len ulen : Z) (modifiers : option (list Z))
          (o : list diag)
| Rejected (m : dmem) (o : list diag)       (* return PR_OK *)
| Fatal (o : list diag)                     (* exit(1) *)
| Crashed (f : fault) (m : dmem) (o : list diag).

(** [memmove(pp + dbuffer_size - len - c, pp, len + c)] with [pp = dbuffer];
    [c] is 1 under the POSIX interface, which is confined to 8-bit mode. *)
Definition move_to_end (m : dmem) (len c : Z) : dmem * Z :=
  let pp := dbuffer_size m - len - c in
  let n := Z.to_nat ((len + c) / code_unit_size) in
  let to := Z.to_nat (pp / code_unit_size) in
  ({| dbuffer := dbuffer m; dbuffer_size := dbuffer_size m;
      cells := take to (cells m) ++ take n (cells m)
               ++ drop (to + n) (cells m) |}, pp).

(** [ENDSTRING:] and what follows, up to the data modifiers. *)
Definition end_string (posix : bool) (s : scan_st) (by_eq : bool) : encoded :=
  match store_cell ptr_width 0 s with
  | inr s' =>
      let len := q s in
      let ulen := len / code_unit_size in
      let c := if posix then 1 else 0 in
      let '(m, pp) := move_to_end (mem s') len c in
      Subject m pp len ulen (if by_eq then Some (p s) else None) (out s)
  | inl f => Crashed f (mem s) (out s)
  end.

(** [process_data] from its start to the decoding of the data modifiers:
    [buffer] is the line, [m] the state of [dbuffer] left by the lines
    before it. *)
Definition encode_data_line (posix : bool) (buffer : list Z) (m : dmem)
    : option encoded :=
  let line := rtrim (cstring buffer) in
  let len := Z.of_nat (length line) in
  let p0 := skip_space line in
  if utf && (utf8_check (length p0) p0 1 <=? 0)
  then Some (Rejected m [Invalid_utf8_input])
  else
    let needlen := usize (len * code_unit_size) in
    match first_grow 128 needlen m [] with
    | None => None
    | Some (inr o) => Some (Fatal o)
    | Some (inl (m, o)) =>
        let s := {| p := p0; q := 0; start_dup := None; needlen := needlen;
                    mem := m; out := o |} in
        match scan_loop (length p0) s with
        | None => None
        | Some (EndOfLine s) => Some (end_string posix s false)
        | Some (EndString s) => Some (end_string posix s true)
        | Some (Continue s) => None
        | Some (Return s) => Some (Rejected (mem s) (out s))
        | Some (Exit s) => Some (Fatal (out s))
        | Some (Undefined f s) => Some (Crashed f (mem s) (out s))
        end
    end.

(** The subject handed to the matcher: [ulen] code units from [pp]. *)
Definition subject_units (m : dmem) (pp ulen : Z) : list Z :=
  take (Z.to_nat ulen) (drop (Z.to_nat (pp / code_unit_size)) (cells m)).

End Encoder.

(** [dbuffer] and [dbuffer_size] as the program starts. *)
Definition initial_dmem : dmem :=
  {| dbuffer := None; dbuffer_size := 2 ^ 14; cells := [] |}.

End DataLine.

(** ** Modifier grammar engine: [decode_modifiers] *)

Module Modifiers.
Import DataLine.
Local Open Scope string_scope.
Local Open Scope Z_scope.

(** The constants of [pcre2.h] that the harness uses.  The header is not
    part of the tree, so its values are a parameter of the model. *)
Record pcre2_h := {
  PCRE2_ALLOW_EMPTY_CLASS : Z; PCRE2_ALT_BSUX : Z; PCRE2_ANCHORED : Z;
  PCRE2_AUTO_CALLOUT : Z; PCRE2_CASELESS : Z; PCRE2_DFA_RESTART : Z;
  PCRE2_DFA_SHORTEST : Z; PCRE2_DOLLAR_ENDONLY : Z; PCRE2_DOTALL : Z;
  PCRE2_DUPNAMES : Z; PCRE2_EXTENDED : Z; PCRE2_FIRSTLINE : Z;
  PCRE2_MATCH_UNSET_BACKREF : Z; PCRE2_MULTILINE : Z; PCRE2_NEVER_UCP : Z;
  PCRE2_NEVER_UTF : Z; PCRE2_NO_AUTO_CAPTURE : Z; PCRE2_NO_AUTO_POSSESS : Z;
  PCRE2_NO_START_OPTIMIZE : Z; PCRE2_NO_UTF_CHECK : Z; PCRE2_NOTBOL : Z;
  PCRE2_NOTEMPTY : Z; PCRE2_NOTEMPTY_ATSTART : Z; PCRE2_NOTEOL : Z;
  PCRE2_PARTIAL_HARD : Z; PCRE2_PARTIAL_SOFT : Z; PCRE2_UCP : Z;
  PCRE2_UNGREEDY : Z; PCRE2_UTF : Z;
  PCRE2_BSR_ANYCRLF : Z; PCRE2_BSR_UNICODE : Z;
  PCRE2_ERROR_NOMATCH : Z; PCRE2_ERROR_PARTIAL : Z;
  PCRE2_ERROR_BADUTF : Z; PCRE2_ERROR_BADUTF_OFFSET : Z;
  PCRE2_ERROR_BADOFFSET : Z;
  PCRE2_UNSET : Z
}.

(** Modifier types and applicability, one [enum] in the source. *)
Inductive modkind :=
| MOD_CTC | MOD_CTM | MOD_PAT | MOD_DAT | MOD_PD
| MOD_CTL | MOD_BSR | MOD_IN2 | MOD_INT | MOD_NL | MOD_NN | MOD_OPT | MOD_STR.

Definition modkind_eqb (a b : modkind) : bool :=
  match a, b with
  | MOD_CTC, MOD_CTC | MOD_CTM, MOD_CTM | MOD_PAT, MOD_PAT
  | MOD_DAT, MOD_DAT | MOD_PD, MOD_PD | MOD_CTL, MOD_CTL
  | MOD_BSR, MOD_BSR | MOD_IN2, MOD_IN2 | MOD_INT, MOD_INT
  | MOD_NL, MOD_NL | MOD_NN, MOD_NN | MOD_OPT, MOD_OPT
  | MOD_STR, MOD_STR => true
  | _, _ => false
  end.

Definition CTL_AFTERTEXT : Z := 0x00000001.
Definition CTL_ALLAFTERTEXT : Z := 0x00000002.
Definition CTL_ALLCAPTURES : Z := 0x00000004.
Definition CTL_ALTGLOBAL : Z := 0x00000008.
Definition CTL_BYTECODE : Z := 0x00000010.
Definition CTL_CALLOUT_CAPTURE : Z := 0x00000020.
Definition CTL_CALLOUT_NONE : Z := 0x00000040.
Definition CTL_DFA : Z := 0x00000080.
Definition CTL_FLIPBYTES : Z := 0x00000100.
Definition CTL_FULLBYTECODE : Z := 0x00000200.
Definition CTL_GETALL : Z := 0x00000400.
Definition CTL_GLOBAL : Z := 0x00000800.
Definition CTL_INFO : Z := 0x00001000.
Definition CTL_JITVERIFY : Z := 0x00002000.
Definition CTL_LIMITS : Z := 0x00004000.
Definition CTL_MARK : Z := 0x00008000.
Definition CTL_MEMORY : Z := 0x00010000.
Definition CTL_PERLCOMPAT : Z := 0x00020000.
Definition CTL_POSIX : Z := 0x00040000.
Definition CTL_DEBUG : Z := Z.lor CTL_FULLBYTECODE CTL_INFO.
Definition CTL_ANYGLOB : Z := Z.lor CTL_ALTGLOBAL CTL_GLOBAL.
Definition CTL_ALLPD : Z :=
  fold_right Z.lor 0
    [CTL_AFTERTEXT; CTL_ALLAFTERTEXT; CTL_ALLCAPTURES; CTL_ALTGLOBAL;
     CTL_GLOBAL; CTL_JITVERIFY; CTL_MARK; CTL_MEMORY].

(** [word |= bits] and [word &= ~bits] on a [uint32_t]. *)
Definition or_bits (word bits : Z) : Z := Z.lor word bits.
Definition clear_bits (word bits : Z) : Z := Z.land word (u32 (Z.lnot bits)).

Definition MAXCPYGET : Z := 10.
Definition LENCPYGET : Z := 64.

Record patctl := {
  pat_options : Z;
  pat_control : Z;
  jit : Z;
  stackguard_test : Z;
  tables_id : Z;
  locale : list Z;          (* char[32] *)
  save : list Z             (* char[64] *)
}.

Record datctl := {
  dat_options : Z;
  dat_control : Z;
  cfail : list Z;           (* uint32_t[2] *)
  copy_numbers : list Z;    (* uint32_t[MAXCPYGET] *)
  get_numbers : list Z;     (* uint32_t[MAXCPYGET] *)
  jitstack : Z;
  oveccount : Z;
  offset : Z;
  copy_names : list Z;      (* uint8_t[LENCPYGET] *)
  get_names : list Z        (* uint8_t[LENCPYGET] *)
}.

(** The fields of the compile and match contexts that modifiers reach. *)
Record compile_context := {
  bsr_convention : Z; newline_convention : Z; parens_nest_limit : Z
}.
Record match_context := { match_limit : Z; recursion_limit : Z }.

(** [offsetof]: byte offsets in [patctl] and [datctl], computed from the
    two declarations, whose members are all 4-byte aligned; the members of
    the two context structures, declared outside the tree, by name. *)
Inductive offset_of :=
| At (n : Z)
| CO_bsr_convention | CO_newline_convention | CO_parens_nest_limit
| MO_match_limit | MO_recursion_limit.

Definition PO_options := At 0.
Definition PO_control := At 4.
Definition PO_jit := At 8.
Definition PO_stackguard_test := At 12.
Definition PO_tables_id := At 16.
Definition PO_locale := At 20.
Definition PO_save := At 52.
Definition DO_options := At 0.
Definition DO_control := At 4.
Definition DO_cfail := At 8.
Definition DO_copy_numbers := At 16.
Definition DO_get_numbers := At 56.
Definition DO_jitstack := At 96.
Definition DO_oveccount := At 100.
Definition DO_offset := At 104.
Definition DO_copy_names := At 108.
Definition DO_get_names := At 172.

(** In an entry of kind [MOD_NN] the [value] is an offset as well. *)
Inductive modvalue := Bits (v : Z) | Offset (o : offset_of).

Record modstruct := {
  name : string;
  which : modkind;
  type : modkind;
  value : modvalue;
  offset_ : offset_of
}.

Definition M (n : string) (w t : modkind) (v : Z) (o : offset_of) :=
  {| name := n; which := w; type := t; value := Bits v; offset_ := o |}.

Section Table.
Variable h : pcre2_h.

Definition modlist : list modstruct := [
  M "aftertext"           MOD_PD  MOD_CTL CTL_AFTERTEXT                 PO_control;
  M "allaftertext"        MOD_PD  MOD_CTL CTL_ALLAFTERTEXT              PO_control;
  M "allcaptures"         MOD_PD  MOD_CTL CTL_ALLCAPTURES               PO_control;
  M "allow_empty_class"   MOD_PAT MOD_OPT (PCRE2_ALLOW_EMPTY_CLASS h)   PO_options;
  M "alt_bsux"            MOD_PAT MOD_OPT (PCRE2_ALT_BSUX h)            PO_options;
  M "altglobal"           MOD_PD  MOD_CTL CTL_ALTGLOBAL                 PO_control;
  M "anchored"            MOD_PD  MOD_OPT (PCRE2_ANCHORED h)            PO_options;
  M "auto_callout"        MOD_PAT MOD_OPT (PCRE2_AUTO_CALLOUT h)        PO_options;
  M "bsr"                 MOD_CTC MOD_BSR 0                             CO_bsr_convention;
  M "bytecode"            MOD_PAT MOD_CTL CTL_BYTECODE                  PO_control;
  M "callout_capture"     MOD_DAT MOD_CTL CTL_CALLOUT_CAPTURE           DO_control;
  M "callout_fail"        MOD_DAT MOD_IN2 0                             DO_cfail;
  M "callout_none"        MOD_DAT MOD_CTL CTL_CALLOUT_NONE              DO_control;
  M "caseless"            MOD_PAT MOD_OPT (PCRE2_CASELESS h)            PO_options;
  {| name := "copy"; which := MOD_DAT; type := MOD_NN;
     value := Offset DO_copy_numbers; offset_ := DO_copy_names |};
  M "debug"               MOD_PAT MOD_CTL CTL_DEBUG                     PO_control;
  M "dfa"                 MOD_DAT MOD_CTL CTL_DFA                       DO_control;
  M "dfa_restart"         MOD_DAT MOD_OPT (PCRE2_DFA_RESTART h)         DO_options;
  M "dfa_shortest"        MOD_DAT MOD_OPT (PCRE2_DFA_SHORTEST h)        DO_options;
  M "dollar_endonly"      MOD_PAT MOD_OPT (PCRE2_DOLLAR_ENDONLY h)      PO_options;
  M "dotall"              MOD_PAT MOD_OPT (PCRE2_DOTALL h)              PO_options;
  M "dupnames"            MOD_PAT MOD_OPT (PCRE2_DUPNAMES h)            PO_options;
  M "extended"            MOD_PAT MOD_OPT (PCRE2_EXTENDED h)            PO_options;
  M "firstline"           MOD_PAT MOD_OPT (PCRE2_FIRSTLINE h)           PO_options;
  M "flipbytes"           MOD_PAT MOD_CTL CTL_FLIPBYTES                 PO_control;
  M "fullbytecode"        MOD_PAT MOD_CTL CTL_FULLBYTECODE              PO_control;
  {| name := "get"; which := MOD_DAT; type := MOD_NN;
     value := Offset DO_get_numbers; offset_ := DO_get_names |};
  M "getall"              MOD_DAT MOD_CTL CTL_GETALL                    DO_control;
  M "global"              MOD_PD  MOD_CTL CTL_GLOBAL                    PO_control;
  M "info"                MOD_PAT MOD_CTL CTL_INFO                      PO_control;
  M "jit"                 MOD_PAT MOD_INT 1                             PO_jit;
  M "jitstack"            MOD_DAT MOD_INT 0                             DO_jitstack;
  M "jitverify"           MOD_PD  MOD_CTL CTL_JITVERIFY                 PO_control;
  M "limits"              MOD_DAT MOD_CTL CTL_LIMITS                    DO_control;
  M "locale"              MOD_PAT MOD_STR 0                             PO_locale;
  M "mark"                MOD_PD  MOD_CTL CTL_MARK                      PO_control;
  M "match_limit"         MOD_CTM MOD_INT 0                             MO_match_limit;
  M "match_unset_backref" MOD_PAT MOD_OPT (PCRE2_MATCH_UNSET_BACKREF h) PO_options;
  M "memory"              MOD_PD  MOD_CTL CTL_MEMORY                    PO_control;
  M "multiline"           MOD_PAT MOD_OPT (PCRE2_MULTILINE h)           PO_options;
  M "never_ucp"           MOD_PAT MOD_OPT (PCRE2_NEVER_UCP h)           PO_options;
  M "never_utf"           MOD_PAT MOD_OPT (PCRE2_NEVER_UTF h)           PO_options;
  M "newline"             MOD_CTC MOD_NL  0                             CO_newline_convention;
  M "no_auto_capture"     MOD_PAT MOD_OPT (PCRE2_NO_AUTO_CAPTURE h)     PO_options;
  M "no_auto_possess"     MOD_PAT MOD_OPT (PCRE2_NO_AUTO_POSSESS h)     PO_options;
  M "no_start_optimize"   MOD_PD  MOD_OPT (PCRE2_NO_START_OPTIMIZE h)   PO_options;
  M "no_utf_check"        MOD_PD  MOD_OPT (PCRE2_NO_UTF_CHECK h)        PO_options;
  M "notbol"              MOD_DAT MOD_OPT (PCRE2_NOTBOL h)              DO_options;
  M "notempty"            MOD_DAT MOD_OPT (PCRE2_NOTEMPTY h)            DO_options;
  M "notempty_atstart"    MOD_DAT MOD_OPT (PCRE2_NOTEMPTY_ATSTART h)    DO_options;
  M "noteol"              MOD_DAT MOD_OPT (PCRE2_NOTEOL h)              DO_options;
  M "offset"              MOD_DAT MOD_INT 0                             DO_offset;
  M "ovector"             MOD_DAT MOD_INT 0                             DO_oveccount;
  M "parens_nest_limit"   MOD_CTC MOD_INT 0                             CO_parens_nest_limit;
  M "partial_hard"        MOD_DAT MOD_OPT (PCRE2_PARTIAL_HARD h)        DO_options;
  M "partial_soft"        MOD_DAT MOD_OPT (PCRE2_PARTIAL_SOFT h)        DO_options;
  M "perlcompat"          MOD_PAT MOD_CTL CTL_PERLCOMPAT                PO_control;
  M "posix"               MOD_PAT MOD_CTL CTL_POSIX                     PO_control;
  M "recursion_limit"     MOD_CTM MOD_INT 0                             MO_recursion_limit;
  M "save"                MOD_PAT MOD_STR 0                             PO_save;
  M "stackguard"          MOD_PAT MOD_INT 0                             PO_stackguard_test;
  M "tables"              MOD_PAT MOD_INT 0                             PO_tables_id;
  M "ucp"                 MOD_PAT MOD_OPT (PCRE2_UCP h)                 PO_options;
  M "ungreedy"            MOD_PAT MOD_OPT (PCRE2_UNGREEDY h)            PO_options;
  M "utf"                 MOD_PAT MOD_OPT (PCRE2_UTF h)                 PO_options
].

Definition MODLISTCOUNT : Z := Z.of_nat (length modlist).

End Table.

(** The abbreviation table; its [index] member, the cache of resolved
    entries, is kept apart in the state since it is the part that changes. *)
Record c1modstruct := { fullname : string; onechar : Z }.

Definition c1modlist : list c1modstruct := [
  {| fullname := "bytecode";     onechar := 66 |};
  {| fullname := "fullbytecode"; onechar := Z.lor (Z.shiftl 66 8) 66 |};
  {| fullname := "debug";        onechar := 68 |};
  {| fullname := "info";         onechar := 73 |};
  {| fullname := "partial_soft"; onechar := 80 |};
  {| fullname := "partial_hard"; onechar := Z.lor (Z.shiftl 80 8) 80 |};
  {| fullname := "global";       onechar := 103 |};
  {| fullname := "altglobal";    onechar := Z.lor (Z.shiftl 103 8) 103 |};
  {| fullname := "caseless";     onechar := 105 |};
  {| fullname := "multiline";    onechar := 109 |};
  {| fullname := "dotall";       onechar := 115 |};
  {| fullname := "extended";     onechar := 120 |}
].

Definition C1MODLISTCOUNT : Z := Z.of_nat (length c1modlist).

Definition newlines : list string :=
  ["DEFAULT"; "CR"; "LF"; "CRLF"; "ANY"; "ANYCRLF"].

Inductive ctx := CTX_PAT | CTX_DEFPAT | CTX_DAT | CTX_DEFDAT | CTX_DEFANY.

(** What [decode_modifiers] writes to [outfile]. *)
Inductive mdiag :=
| Not_valid_here (n : string)                 (* ** 'name' is not valid here *)
| Char_not_valid_here (c : Z)                 (* ** /c is not valid here *)
| Unrecognized_modifier (item : list Z)       (* ** Unrecognized modifier 'item' *)
| Single_character_first                      (* ** Single-character modifiers must come first *)
| Unrecognized_in (c : Z) (item : list Z)     (* ** Unrecognized modifier 'c' in 'item' *)
| Internal_error (n : string)
| Equals_expected (n : string)                (* ** '=' expected after 'name' *)
| Minus_not_valid (n : string)                (* ** '-' is not valid for 'name' *)
| Too_many_numeric (n : string)
| Too_many_named (n : string)
| Comma_expected (n : string)                 (* ** Comma expected after modifier item 'name' *)
| Invalid_value (item : list Z).              (* ** Invalid value in 'item' *)

(** The objects a modifier can reach.  [pctl] and [dctl] are the two
    pointer arguments of [decode_modifiers], [None] for NULL; [c1index] is
    the [index] column of [c1modlist]. *)
Record mstate := {
  pctl : option patctl;
  dctl : option datctl;
  pat_context : compile_context;
  default_pat_context : compile_context;
  dat_context : match_context;
  default_dat_context : match_context;
  c1index : list Z;
  outfile : list mdiag
}.

Definition set_pctl (v : option patctl) (s : mstate) : mstate :=
  {| pctl := v; dctl := dctl s; pat_context := pat_context s;
     default_pat_context := default_pat_context s;
     dat_context := dat_context s;
     default_dat_context := default_dat_context s;
     c1index := c1index s; outfile := outfile s |}.
Definition set_dctl (v : option datctl) (s : mstate) : mstate :=
  {| pctl := pctl s; dctl := v; pat_context := pat_context s;
     default_pat_context := default_pat_context s;
     dat_context := dat_context s;
     default_dat_context := default_dat_context s;
     c1index := c1index s; outfile := outfile s |}.
Definition set_pat_context (v : compile_context) (s : mstate) : mstate :=
  {| pctl := pctl s; dctl := dctl s; pat_context := v;
     default_pat_context := default_pat_context s;
     dat_context := dat_context s;
     default_dat_context := default_dat_context s;
     c1index := c1index s; outfile := outfile s |}.
Definition set_default_pat_context (v : compile_context) (s : mstate) : mstate :=
  {| pctl := pctl s; dctl := dctl s; pat_context := pat_context s;
     default_pat_context := v;
     dat_context := dat_context s;
     default_dat_context := default_dat_context s;
     c1index := c1index s; outfile := outfile s |}.
Definition set_dat_context (v : match_context) (s : mstate) : mstate :=
  {| pctl := pctl s; dctl := dctl s; pat_context := pat_context s;
     default_pat_context := default_pat_context s;
     dat_context := v;
     default_dat_context := default_dat_context s;
     c1index := c1index s; outfile := outfile s |}.
Definition set_default_dat_context (v : match_context) (s : mstate) : mstate :=
  {| pctl := pctl s; dctl := dctl s; pat_context := pat_context s;
     default_pat_context := default_pat_context s;
     dat_context := dat_context s;
     default_dat_context := v;
     c1index := c1index s; outfile := outfile s |}.
Definition set_c1index (v : list Z) (s : mstate) : mstate :=
  {| pctl := pctl s; dctl := dctl s; pat_context := pat_context s;
     default_pat_context := default_pat_context s;
     dat_context := dat_context s;
     default_dat_context := default_dat_context s;
     c1index := v; outfile := outfile s |}.
Definition msay (d : mdiag) (s : mstate) : mstate :=
  {| pctl := pctl s; dctl := dctl s; pat_context := pat_context s;
     default_pat_context := default_pat_context s;
     dat_context := dat_context s;
     default_dat_context := default_dat_context s;
     c1index := c1index s; outfile := outfile s ++ [d] |}.

(** Where a [field] pointer points: the object and the offset in it. *)
Inductive base :=
| B_pctl | B_dctl | B_pat_context | B_default_pat_context
| B_dat_context | B_default_dat_context.
Definition fieldptr : Type := base * offset_of.

(** Reading and writing a [uint32_t] at a byte offset of the two control
    blocks; [None] where the offset is not that of such a member. *)
Definition patctl_load32 (n : Z) (c : patctl) : option Z :=
  if n =? 0 then Some (pat_options c)
  else if n =? 4 then Some (pat_control c)
  else if n =? 8 then Some (jit c)
  else if n =? 12 then Some (stackguard_test c)
  else if n =? 16 then Some (tables_id c)
  else None.

Definition patctl_store32 (n v : Z) (c : patctl) : option patctl :=
  let mk o ct j sg t :=
    Some {| pat_options := o; pat_control := ct; jit := j;
            stackguard_test := sg; tables_id := t;
            locale := locale c; save := save c |} in
  if n =? 0 then mk v (pat_control c) (jit c) (stackguard_test c) (tables_id c)
  else if n =? 4 then mk (pat_options c) v (jit c) (stackguard_test c) (tables_id c)
  else if n =? 8 then mk (pat_options c) (pat_control c) v (stackguard_test c) (tables_id c)
  else if n =? 12 then mk (pat_options c) (pat_control c) (jit c) v (tables_id c)
  else if n =? 16 then mk (pat_options c) (pat_control c) (jit c) (stackguard_test c) v
  else None.

Definition word_index (n from : Z) : nat := Z.to_nat ((n - from) / 4).
Definition aligned_in (n from to : Z) : bool :=
  (from <=? n) && (n <? to) && ((n - from) mod 4 =? 0).

Definition datctl_load32 (n : Z) (c : datctl) : option Z :=
  if n =? 0 then Some (dat_options c)
  else if n =? 4 then Some (dat_control c)
  else if aligned_in n 8 16 then cfail c !! word_index n 8
  else if aligned_in n 16 56 then copy_numbers c !! word_index n 16
  else if aligned_in n 56 96 then get_numbers c !! word_index n 56
  else if n =? 96 then Some (jitstack c)
  else if n =? 100 then Some (oveccount c)
  else if n =? 104 then Some (offset c)
  else None.

Definition datctl_store32 (n v : Z) (c : datctl) : option datctl :=
  let mk o ct cf cn gn js ov off :=
    Some {| dat_options := o; dat_control := ct; cfail := cf;
            copy_numbers := cn; get_numbers := gn; jitstack := js;
            oveccount := ov; offset := off;
            copy_names := copy_names c; get_names := get_names c |} in
  if n =? 0 then mk v (dat_control c) (cfail c) (copy_numbers c) (get_numbers c) (jitstack c) (oveccount c) (offset c)
  else if n =? 4 then mk (dat_options c) v (cfail c) (copy_numbers c) (get_numbers c) (jitstack c) (oveccount c) (offset c)
  else if aligned_in n 8 16 then mk (dat_options c) (dat_control c) (<[word_index n 8 := v]> (cfail c)) (copy_numbers c) (get_numbers c) (jitstack c) (oveccount c) (offset c)
  else if aligned_in n 16 56 then mk (dat_options c) (dat_control c) (cfail c) (<[word_index n 16 := v]> (copy_numbers c)) (get_numbers c) (jitstack c) (oveccount c) (offset c)
  else if aligned_in n 56 96 then mk (dat_options c) (dat_control c) (cfail c) (copy_numbers c) (<[word_index n 56 := v]> (get_numbers c)) (jitstack c) (oveccount c) (offset c)
  else if n =? 96 then mk (dat_options c) (dat_control c) (cfail c) (copy_numbers c) (get_numbers c) v (oveccount c) (offset c)
  else if n =? 100 then mk (dat_options c) (dat_control c) (cfail c) (copy_numbers c) (get_numbers c) (jitstack c) v (offset c)
  else if n =? 104 then mk (dat_options c) (dat_control c) (cfail c) (copy_numbers c) (get_numbers c) (jitstack c) (oveccount c) v
  else None.

(** Bytes of the character arrays, addressed the same way. *)
Definition patctl_loadb (n : Z) (c : patctl) : option Z :=
  if (20 <=? n) && (n <? 52) then locale c !! Z.to_nat (n - 20)
  else if (52 <=? n) && (n <? 116) then save c !! Z.to_nat (n - 52)
  else None.

Definition patctl_storeb (n v : Z) (c : patctl) : option patctl :=
  let mk l sv :=
    Some {| pat_options := pat_options c; pat_control := pat_control c;
            jit := jit c; stackguard_test := stackguard_test c;
            tables_id := tables_id c; locale := l; save := sv |} in
  if (20 <=? n) && (n <? 52) then mk (<[Z.to_nat (n - 20) := v]> (locale c)) (save c)
  else if (52 <=? n) && (n <? 116) then mk (locale c) (<[Z.to_nat (n - 52) := v]> (save c))
  else None.

Definition datctl_loadb (n : Z) (c : datctl) : option Z :=
  if (108 <=? n) && (n <? 172) then copy_names c !! Z.to_nat (n - 108)
  else if (172 <=? n) && (n <? 236) then get_names c !! Z.to_nat (n - 172)
  else None.

Definition datctl_storeb (n v : Z) (c : datctl) : option datctl :=
  let mk cn gn :=
    Some {| dat_options := dat_options c; dat_control := dat_control c;
            cfail := cfail c; copy_numbers := copy_numbers c;
            get_numbers := get_numbers c; jitstack := jitstack c;
            oveccount := oveccount c; offset := offset c;
            copy_names := cn; get_names := gn |} in
  if (108 <=? n) && (n <? 172) then mk (<[Z.to_nat (n - 108) := v]> (copy_names c)) (get_names c)
  else if (172 <=? n) && (n <? 236) then mk (copy_names c) (<[Z.to_nat (n - 172) := v]> (get_names c))
  else None.

Definition cctx_store (o : offset_of) (v : Z) (c : compile_context)
    : option compile_context :=
  match o with
  | CO_bsr_convention =>
      Some {| bsr_convention := v; newline_convention := newline_convention c;
              parens_nest_limit := parens_nest_limit c |}
  | CO_newline_convention =>
      Some {| bsr_convention := bsr_convention c; newline_convention := v;
              parens_nest_limit := parens_nest_limit c |}
  | CO_parens_nest_limit =>
      Some {| bsr_convention := bsr_convention c;
              newline_convention := newline_convention c;
              parens_nest_limit := v |}
  | _ => None
  end.

Definition mctx_store (o : offset_of) (v : Z) (c : match_context)
    : option match_context :=
  match o with
  | MO_match_limit =>
      Some {| match_limit := v; recursion_limit := recursion_limit c |}
  | MO_recursion_limit =>
      Some {| match_limit := match_limit c; recursion_limit := v |}
  | _ => None
  end.

(** [*((uint32_t * )field)] read and written; [None] is an access that no
    member of the object answers to. *)
Definition load32 (f : fieldptr) (s : mstate) : option Z :=
  match f with
  | (B_pctl, At n) => c ← pctl s; patctl_load32 n c
  | (B_dctl, At n) => c ← dctl s; datctl_load32 n c
  | (B_pat_context, CO_parens_nest_limit) => Some (parens_nest_limit (pat_context s))
  | (B_default_pat_context, CO_parens_nest_limit) => Some (parens_nest_limit (default_pat_context s))
  | (B_dat_context, MO_match_limit) => Some (match_limit (dat_context s))
  | (B_dat_context, MO_recursion_limit) => Some (recursion_limit (dat_context s))
  | (B_default_dat_context, MO_match_limit) => Some (match_limit (default_dat_context s))
  | (B_default_dat_context, MO_recursion_limit) => Some (recursion_limit (default_dat_context s))
  | _ => None
  end.

(** A store of [v] through [field], 32 or 16 bits wide as the member is. *)
Definition store_field (f : fieldptr) (v : Z) (s : mstate) : option mstate :=
  match f with
  | (B_pctl, At n) =>
      c ← pctl s; c' ← patctl_store32 n v c; Some (set_pctl (Some c') s)
  | (B_dctl, At n) =>
      c ← dctl s; c' ← datctl_store32 n v c; Some (set_dctl (Some c') s)
  | (B_pat_context, o) =>
      c' ← cctx_store o v (pat_context s); Some (set_pat_context c' s)
  | (B_default_pat_context, o) =>
      c' ← cctx_store o v (default_pat_context s);
      Some (set_default_pat_context c' s)
  | (B_dat_context, o) =>
      c' ← mctx_store o v (dat_context s); Some (set_dat_context c' s)
  | (B_default_dat_context, o) =>
      c' ← mctx_store o v (default_dat_context s);
      Some (set_default_dat_context c' s)
  | _ => None
  end.

Definition loadb (b : base) (n : Z) (s : mstate) : option Z :=
  match b with
  | B_pctl => c ← pctl s; patctl_loadb n c
  | B_dctl => c ← dctl s; datctl_loadb n c
  | _ => None
  end.

Definition storeb (b : base) (n v : Z) (s : mstate) : option mstate :=
  match b with
  | B_pctl => c ← pctl s; c' ← patctl_storeb n v c; Some (set_pctl (Some c') s)
  | B_dctl => c ← dctl s; c' ← datctl_storeb n v c; Some (set_dctl (Some c') s)
  | _ => None
  end.

Definition strlen (n : string) : Z := Z.of_nat (String.length n).

(** [strncmp(s, t, n)] *)
Fixpoint strncmp (s t : list Z) (n : nat) : Z :=
  match n with
  | O => 0
  | S n' =>
      let a := peek s in
      let b := peek t in
      if negb (a =? b) then a - b
      else if a =? 0 then 0
      else strncmp (advance 1 s) (advance 1 t) n'
  end.

(** [strncmpic(s, t, n)] *)
Fixpoint strncmpic (s t : list Z) (n : nat) : Z :=
  match n with
  | O => 0
  | S n' =>
      let c := tolower (peek s) - tolower (peek t) in
      if negb (c =? 0) then c
      else strncmpic (advance 1 s) (advance 1 t) n'
  end.

(** [(uint32_t)strtoul(pp, &endptr, 10)]: white space, an optional sign,
    decimal digits; a value out of range gives [ULONG_MAX], no digits give
    0 and leave [endptr] at [pp]. *)
Fixpoint strtoul_digits (pp : list Z) (acc : Z) : Z * list Z :=
  match pp with
  | c :: pp' => if isdigit c then strtoul_digits pp' (acc * 10 + (c - 48))
                else (acc, pp)
  | [] => (acc, pp)
  end.

Definition strtoul (pp : list Z) : Z * list Z :=
  let p1 := skip_space pp in
  let neg := peek p1 =? 45 in
  let p2 := if neg || (peek p1 =? 43) then advance 1 p1 else p1 in
  if negb (isdigit (peek p2)) then (0, pp)
  else
    let '(v, endptr) := strtoul_digits p2 0 in
    let v := if v >? 2 ^ 64 - 1 then 2 ^ 64 - 1
             else if neg then usize (- v) else v in
    (u32 v, endptr).

Section Decode.
Variable h : pcre2_h.

(** The binary chop of [scan_modifiers]; the interval halves at each turn,
    so the length of the table bounds the turns. *)
Fixpoint scan_chop (fuel : nat) (p : list Z) (len bot top : Z) : Z :=
  match fuel with
  | O => -1
  | S fuel' =>
      if negb (top >? bot) then -1
      else
        let mid := (bot + top) / 2 in
        match modlist h !! Z.to_nat mid with
        | None => -1
        | Some m =>
            let mlen := strlen (name m) in
            let c := strncmp p (bytes_of_string (name m))
                       (Z.to_nat (if len <? mlen then len else mlen)) in
            if (c =? 0) && (len =? mlen) then mid
            else
              let c := if c =? 0 then len - mlen else c in
              if c >? 0 then scan_chop fuel' p len (mid + 1) top
              else scan_chop fuel' p len bot mid
        end
  end.

Definition scan_modifiers (p : list Z) (len : Z) : Z :=
  scan_chop (S (length (modlist h))) p len 0 (MODLISTCOUNT h).

(** [check_modifier(m, ctx, pctl, dctl, c)]: the field pointer, [None] for
    NULL, and the message that goes with NULL. *)
Definition check_modifier (m : modstruct) (c : ctx) (s : mstate) (ch : Z)
    : option fieldptr * mstate :=
  let is_some {A} (o : option A) := match o with Some _ => true | None => false end in
  let field :=
    match which m with
    | MOD_CTC =>
        match c with
        | CTX_DEFPAT | CTX_DEFANY => Some B_default_pat_context
        | CTX_PAT => Some B_pat_context
        | _ => None
        end
    | MOD_CTM =>
        match c with
        | CTX_DEFDAT | CTX_DEFANY => Some B_default_dat_context
        | CTX_DAT => Some B_dat_context
        | _ => None
        end
    | MOD_DAT => if is_some (dctl s) then Some B_dctl else None
    | MOD_PAT => if is_some (pctl s) then Some B_pctl else None
    | MOD_PD =>
        if is_some (dctl s) then Some B_dctl
        else if is_some (pctl s) then Some B_pctl else None
    | _ => None
    end in
  match field with
  | None =>
      (None, msay (if ch =? 0 then Not_valid_here (name m)
                   else Char_not_valid_here ch) s)
  | Some b => (Some (b, offset_ m), s)
  end.

(** How a call of [decode_modifiers], or a piece of it, ends. *)
Inductive outcome :=
| Done (ok : bool) (s : mstate)       (* return TRUE / return FALSE *)
| Broken (s : mstate).                (* an access outside every member *)

Definition bits_of (v : modvalue) : Z :=
  match v with Bits b => b | Offset _ => 0 end.

(** [for (i = 0; i < C1MODLISTCOUNT; i++) if (cc == c1modlist[i].onechar) break;] *)
Fixpoint c1_search (l : list c1modstruct) (i cc : Z) : Z :=
  match l with
  | [] => i
  | e :: l' => if cc =? onechar e then i else c1_search l' (i + 1) cc
  end.

(** One abbreviation, [cc], found at [*p = ch] within [item]. *)
Definition abbreviation (c : ctx) (cc ch : Z) (item : list Z) (s : mstate)
    : outcome + mstate :=
  let i := c1_search c1modlist 0 cc in
  if i >=? C1MODLISTCOUNT then inl (Done false (msay (Unrecognized_in ch item) s))
  else
    match c1modlist !! Z.to_nat i, c1index s !! Z.to_nat i with
    | Some e, Some cached =>
        let index := if cached >=? 0 then cached
                     else scan_modifiers (bytes_of_string (fullname e))
                                         (strlen (fullname e)) in
        if index <? 0 then inl (Done false (msay (Internal_error (fullname e)) s))
        else
          let s := if cached >=? 0 then s
                   else set_c1index (<[Z.to_nat i := index]> (c1index s)) s in
          match modlist h !! Z.to_nat index with
          | None => inl (Broken s)
          | Some m =>
              match check_modifier m c s ch with
              | (None, s) => inl (Done false s)
              | (Some f, s) =>
                  match load32 f s with
                  | None => inl (Broken s)
                  | Some old =>
                      match store_field f (or_bits old (bits_of (value m))) s with
                      | None => inl (Broken s)
                      | Some s => inr s
                      end
                  end
              end
          end
    | _, _ => inl (Broken s)
    end.

(** [for (cc = *p; cc != ',' && cc != '\n' && cc != 0; cc = *(++p))] *)
Fixpoint abbreviations (c : ctx) (p item : list Z) (s : mstate)
    : outcome + list Z * mstate :=
  match p with
  | [] => inr (p, s)
  | cc :: p1 =>
      if (cc =? 44) || (cc =? 10) || (cc =? 0) then inr (p, s)
      else
        match p1 with
        | c2 :: p2 =>
            if c2 =? cc then
              match abbreviation c (u32 (Z.lor (Z.shiftl cc 8) cc)) c2 item s with
              | inl r => inl r
              | inr s => abbreviations c p2 item s
              end
            else
              match abbreviation c cc cc item s with
              | inl r => inl r
              | inr s => abbreviations c p1 item s
              end
        | [] =>
            match abbreviation c cc cc item s with
            | inl r => inl r
            | inr s => inr ([], s)
            end
        end
  end.

(** [for (ep = p; *ep != 0 && *ep != ',' && !isspace( *ep); ep++);] *)
Fixpoint item_end (ep : list Z) : list Z :=
  match ep with
  | c :: ep' => if (c =? 0) || (c =? 44) || isspace c then ep else item_end ep'
  | [] => []
  end.

(** [while (pp < ep && *pp != '=') pp++;] with [n] the distance to [ep]. *)
Fixpoint name_end (n : nat) (pp : list Z) : list Z :=
  match n, pp with
  | S n', c :: pp' => if c =? 61 then pp else name_end n' pp'
  | _, _ => pp
  end.

Fixpoint skip_sep (commas : bool) (p : list Z) : list Z :=
  match p with
  | c :: p' => if isspace c || (commas && (c =? 44)) then skip_sep commas p'
               else p
  | [] => []
  end.

(** The distance [b - a] of two pointers into one string, [a] before [b]. *)
Definition distance (a b : list Z) : Z := Z.of_nat (length a - length b).
Definition ends_item (c : Z) : bool := (c =? 44) || (c =? 10) || (c =? 0).

(** The [while] loops of [MOD_NN]: the first free slot of the numbers, and
    the end of the names stored so far. *)
Fixpoint free_number (fuel : nat) (b : base) (n ct : Z) (s : mstate)
    : option (Z * Z) :=
  match load32 (b, At n) s with
  | None => None
  | Some v =>
      if (v =? 0) then Some (n, ct)
      else if negb (ct >? 0) then Some (n, ct - 1)
      else
        match fuel with
        | O => None
        | S fuel' => free_number fuel' b (n + 4) (ct - 1) s
        end
  end.

Fixpoint c_strlen (fuel : nat) (b : base) (n : Z) (s : mstate) : option Z :=
  match fuel with
  | O => None
  | S fuel' =>
      match loadb b n s with
      | None => None
      | Some v => if v =? 0 then Some 0
                  else k ← c_strlen fuel' b (n + 1) s; Some (k + 1)
      end
  end.

Fixpoint names_end (fuel : nat) (b : base) (nn : Z) (s : mstate) : option Z :=
  match fuel with
  | O => None
  | S fuel' =>
      match loadb b nn s with
      | None => None
      | Some v =>
          if v =? 0 then Some nn
          else k ← c_strlen 256 b nn s; names_end fuel' b (nn + k + 1) s
      end
  end.

(** [memcpy(field + n, pp, len)] byte by byte. *)
Fixpoint copy_bytes (b : base) (n : Z) (pp : list Z) (len : nat) (s : mstate)
    : option mstate :=
  match len with
  | O => Some s
  | S len' =>
      s' ← storeb b n (peek pp) s;
      copy_bytes b (n + 1) (advance 1 pp) len' s'
  end.

(** What the [switch (m->type)] leads to. *)
Inductive applied :=
| Applied (pp : list Z) (s : mstate)    (* break *)
| Invalid                               (* goto INVALID_VALUE *)
| Refused (s : mstate)                  (* return FALSE *)
| Wild (s : mstate).

Definition or_wild (s : mstate) (pp : list Z) (r : option mstate) : applied :=
  match r with Some s' => Applied pp s' | None => Wild s end.

Definition apply_modifier (m : modstruct) (off : bool) (f : fieldptr)
    (pp ep : list Z) (s : mstate) : applied :=
  let len := distance pp ep in
  match type m with
  | MOD_CTL | MOD_OPT =>
      match load32 f s with
      | None => Wild s
      | Some old =>
          let v := bits_of (value m) in
          or_wild s pp
            (store_field f (if off then clear_bits old v
                            else or_bits old v) s)
      end
  | MOD_BSR =>
      if (len =? 7) && (strncmpic pp (bytes_of_string "anycrlf") 7 =? 0)
      then or_wild s ep (store_field f (PCRE2_BSR_ANYCRLF h) s)
      else if (len =? 7) && (strncmpic pp (bytes_of_string "unicode") 7 =? 0)
      then or_wild s ep (store_field f (PCRE2_BSR_UNICODE h) s)
      else Invalid
  | MOD_IN2 =>
      if negb (isdigit (peek pp)) then Invalid
      else
        match f with
        | (b, At n) =>
            let '(v0, endptr) := strtoul pp in
            let '(v1, endptr) :=
              if peek endptr =? 47 then strtoul (advance 1 endptr)
              else (0, endptr) in
            or_wild s endptr
              (s' ← store_field (b, At n) v0 s; store_field (b, At (n + 4)) v1 s')
        | _ => Wild s
        end
  | MOD_INT =>
      if negb (isdigit (peek pp)) then Invalid
      else
        let '(v, endptr) := strtoul pp in
        or_wild s endptr (store_field f v s)
  | MOD_NL =>
      let fix find (l : list string) (i : Z) : Z :=
        match l with
        | [] => i
        | n :: l' =>
            if (len =? strlen n)
               && (strncmpic pp (bytes_of_string n) (Z.to_nat len) =? 0)
            then i else find l' (i + 1)
        end in
      let i := find newlines 0 in
      if i >=? Z.of_nat (length newlines) then Invalid
      else or_wild s ep (store_field f (u16 i) s)
  | MOD_NN =>
      match f, value m with
      | (b, At names), Offset (At numbers) =>
          if isdigit (peek pp) then
            match free_number 16 b numbers (MAXCPYGET - 1) s with
            | None => Wild s
            | Some (n, ct) =>
                if ct <=? 0 then Refused (msay (Too_many_numeric (name m)) s)
                else
                  let '(v, endptr) := strtoul pp in
                  or_wild s endptr (store_field (b, At n) v s)
            end
          else
            match names_end 256 b names s with
            | None => Wild s
            | Some nn =>
                if nn + len + 1 - names >? LENCPYGET
                then Refused (msay (Too_many_named (name m)) s)
                else
                  or_wild s ep
                    (s1 ← copy_bytes b nn pp (Z.to_nat len) s;
                     s2 ← storeb b (nn + len) 0 s1;
                     storeb b (nn + len + 1) 0 s2)
            end
      | _, _ => Wild s
      end
  | MOD_STR =>
      match f with
      | (b, At n) =>
          or_wild s ep
            (s1 ← copy_bytes b n pp (Z.to_nat len) s; storeb b (n + len) 0 s1)
      | _ => Wild s
      end
  | _ => Applied pp s
  end.

(** A full-name item: [m] is its table entry, [p] the start of the name,
    [pp] its end.  [inr] carries the new [p]. *)
Definition full_name_item (m : modstruct) (c : ctx) (off : bool)
    (p pp ep : list Z) (s : mstate) : outcome + list Z * mstate :=
  let flag := modkind_eqb (type m) MOD_CTL || modkind_eqb (type m) MOD_OPT in
  let item := take (Z.to_nat (distance p ep)) p in
  if negb flag && negb (peek pp =? 61)
  then inl (Done false (msay (Equals_expected (name m)) s))
  else if negb flag && off
  then inl (Done false (msay (Minus_not_valid (name m)) s))
  else if flag && negb (ends_item (peek pp))
  then inl (Done false (msay (Unrecognized_modifier item) s))
  else
    let pp := if flag then pp else advance 1 pp in
    match check_modifier m c s 0 with
    | (None, s) => inl (Done false s)
    | (Some f, s) =>
        match apply_modifier m off f pp ep s with
        | Wild s => inl (Broken s)
        | Refused s => inl (Done false s)
        | Invalid => inl (Done false (msay (Invalid_value item) s))
        | Applied pp s =>
            if negb (ends_item (peek pp))
            then inl (Done false (msay (Comma_expected (name m)) s))
            else inr (pp, s)
        end
    end.

(** The [for (;;)] of [decode_modifiers]; every turn that does not return
    moves [p] forward, so [fuel] counts the turns, and [None] is the loop
    still running when it is spent. *)
Fixpoint decode_items (fuel : nat) (c : ctx) (p : list Z) (first : bool)
    (s : mstate) : option outcome :=
  let p := skip_sep false p in
  let first := if peek p =? 44 then false else first in
  let p := skip_sep true p in
  if peek p =? 0 then Some (Done true s)
  else
    match fuel with
    | O => None
    | S fuel' =>
        let ep := item_end p in
        let off := peek p =? 45 in
        let p := if off then advance 1 p else p in
        let pp := name_end (Z.to_nat (distance p ep)) p in
        let index := scan_modifiers p (distance p pp) in
        if index <? 0 then
          let item := take (Z.to_nat (distance p ep)) p in
          if negb first then
            let s := msay (Unrecognized_modifier item) s in
            Some (Done false
              (if distance p ep =? 1 then msay Single_character_first s else s))
          else
            match abbreviations c p item s with
            | inl r => Some r
            | inr (p, s) => decode_items fuel' c p first s
            end
        else
          match modlist h !! Z.to_nat index with
          | None => Some (Broken s)
          | Some m =>
              match full_name_item m c off p pp ep s with
              | inl r => Some r
              | inr (p, s) => decode_items fuel' c p first s
              end
          end
    end.

(** [decode_modifiers(p, ctx, pctl, dctl)]; the two pointers are the
    [pctl] and [dctl] of the state. *)
Definition decode_modifiers (p : list Z) (c : ctx) (s : mstate)
    : option outcome :=
  decode_items (S (length p)) c p true s.

End Decode.

(** The control blocks as static storage starts them, all zero, and the
    abbreviation cache as the table initialises it. *)
Definition zero_patctl : patctl :=
  {| pat_options := 0; pat_control := 0; jit := 0; stackguard_test := 0;
     tables_id := 0; locale := replicate 32 0; save := replicate 64 0 |}.
Definition zero_datctl : datctl :=
  {| dat_options := 0; dat_control := 0; cfail := [0; 0];
     copy_numbers := replicate 10 0; get_numbers := replicate 10 0;
     jitstack := 0; oveccount := 0; offset := 0;
     copy_names := replicate 64 0; get_names := replicate 64 0 |}.
Definition fresh_c1index : list Z := replicate (length c1modlist) (-1).

End Modifiers.

(** ** Global-match driver: the second half of [process_data] *)

Module Global.
Import DataLine Modifiers.

Definition PCRE2_NEWLINE_CRLF : Z := 3.
Definition PCRE2_NEWLINE_ANY : Z := 4.
Definition PCRE2_NEWLINE_ANYCRLF : Z := 5.

Inductive retcode := PR_OK | PR_SKIP | PR_ABEND.

(** The members of the match data block that the driver reads or writes. *)
Record match_data := {
  ovector : list Z;
  md_oveccount : Z;
  leftchar : Z;
  startchar : Z;
  utf_reason : Z;
  mark : option (list Z)
}.

Definition set_ovector (v : list Z) (m : match_data) : match_data :=
  {| ovector := v; md_oveccount := md_oveccount m; leftchar := leftchar m;
     startchar := startchar m; utf_reason := utf_reason m; mark := mark m |}.
Definition set_md_oveccount (v : Z) (m : match_data) : match_data :=
  {| ovector := ovector m; md_oveccount := v; leftchar := leftchar m;
     startchar := startchar m; utf_reason := utf_reason m; mark := mark m |}.

(** [pcre2_match_data_create(n, NULL)] *)
Definition match_data_create (n : Z) : match_data :=
  {| ovector := replicate (Z.to_nat (2 * n)) 0; md_oveccount := n;
     leftchar := 0; startchar := 0; utf_reason := 0; mark := None |}.

(** The lines written to [outfile], one constructor per kind of line; a
    span stands for the text that [PCHARSV] prints for it. *)
Inductive report :=
| Too_small                          (* Matched, but offsets vector is too small to show all matches *)
| Too_many_substrings                (* Matched, but too many substrings *)
| Count_too_big (capcount oveccount : Z)
| Global_loop_abandoned
| Start_beyond_end
| Unset_line (n : Z)                 (* nn: <unset> *)
| Match_line (n start stop : Z)      (* nn: text of [start, stop) *)
| After_line (n from : Z)            (* nn+ text of [from, ulen) *)
| Extra_line (text : list Z)         (* mark, copy, get and list lines *)
| Partial_line (startchar leftchar : Z)
| No_match_line
| Bad_utf (capcount startchar reason : Z)
| Bad_utf_offset (capcount : Z)
| Failed_line (capcount : Z)
| Limits_ignored
| Global_ignored.

(** The variables of the matching loop.  [pp] is a byte offset into
    [dbuffer]; [len] and [ulen] are the subject's length in bytes and in
    code units. *)
Record gstate := {
  pp : Z;
  len : Z;
  ulen : Z;
  g_notempty : Z;
  gmatched : Z;
  dat_datctl : datctl;
  pat_patctl : patctl;
  mdata : match_data;
  max_oveccount : Z;
  dfa_matched : Z;
  glog : list report
}.

Definition gsay (r : report) (s : gstate) : gstate :=
  {| pp := pp s; len := len s; ulen := ulen s; g_notempty := g_notempty s;
     gmatched := gmatched s; dat_datctl := dat_datctl s;
     pat_patctl := pat_patctl s; mdata := mdata s;
     max_oveccount := max_oveccount s; dfa_matched := dfa_matched s;
     glog := glog s ++ [r] |}.
Definition gsays (l : list report) (s : gstate) : gstate :=
  {| pp := pp s; len := len s; ulen := ulen s; g_notempty := g_notempty s;
     gmatched := gmatched s; dat_datctl := dat_datctl s;
     pat_patctl := pat_patctl s; mdata := mdata s;
     max_oveccount := max_oveccount s; dfa_matched := dfa_matched s;
     glog := glog s ++ l |}.
Definition set_mdata (v : match_data) (s : gstate) : gstate :=
  {| pp := pp s; len := len s; ulen := ulen s; g_notempty := g_notempty s;
     gmatched := gmatched s; dat_datctl := dat_datctl s;
     pat_patctl := pat_patctl s; mdata := v;
     max_oveccount := max_oveccount s; dfa_matched := dfa_matched s;
     glog := glog s |}.
Definition set_max_oveccount (v : Z) (s : gstate) : gstate :=
  {| pp := pp s; len := len s; ulen := ulen s; g_notempty := g_notempty s;
     gmatched := gmatched s; dat_datctl := dat_datctl s;
     pat_patctl := pat_patctl s; mdata := mdata s;
     max_oveccount := v; dfa_matched := dfa_matched s;
     glog := glog s |}.
Definition set_dfa_matched (v : Z) (s : gstate) : gstate :=
  {| pp := pp s; len := len s; ulen := ulen s; g_notempty := g_notempty s;
     gmatched := gmatched s; dat_datctl := dat_datctl s;
     pat_patctl := pat_patctl s; mdata := mdata s;
     max_oveccount := max_oveccount s; dfa_matched := v;
     glog := glog s |}.
Definition set_pat_patctl (v : patctl) (s : gstate) : gstate :=
  {| pp := pp s; len := len s; ulen := ulen s; g_notempty := g_notempty s;
     gmatched := gmatched s; dat_datctl := dat_datctl s;
     pat_patctl := v; mdata := mdata s;
     max_oveccount := max_oveccount s; dfa_matched := dfa_matched s;
     glog := glog s |}.
Definition set_gmatched (v : Z) (s : gstate) : gstate :=
  {| pp := pp s; len := len s; ulen := ulen s; g_notempty := g_notempty s;
     gmatched := v; dat_datctl := dat_datctl s;
     pat_patctl := pat_patctl s; mdata := mdata s;
     max_oveccount := max_oveccount s; dfa_matched := dfa_matched s;
     glog := glog s |}.

Definition set_offset (v : Z) (d : datctl) : datctl :=
  {| dat_options := dat_options d; dat_control := dat_control d;
     cfail := cfail d; copy_numbers := copy_numbers d;
     get_numbers := get_numbers d; jitstack := jitstack d;
     oveccount := oveccount d; offset := v;
     copy_names := copy_names d; get_names := get_names d |}.
Definition set_dat_control (v : Z) (d : datctl) : datctl :=
  {| dat_options := dat_options d; dat_control := v;
     cfail := cfail d; copy_numbers := copy_numbers d;
     get_numbers := get_numbers d; jitstack := jitstack d;
     oveccount := oveccount d; offset := offset d;
     copy_names := copy_names d; get_names := get_names d |}.
Definition set_pat_options (v : Z) (c : patctl) : patctl :=
  {| pat_options := v; pat_control := pat_control c; jit := jit c;
     stackguard_test := stackguard_test c; tables_id := tables_id c;
     locale := locale c; save := save c |}.

(** The matching engine, outside the harness.  A call is given the subject
    as the harness passes it (the buffer, the pointer [pp] into it, the
    length in code units), the start offset, the options and the match
    data, and yields the return value and the match data it leaves. *)
Record engine := {
  pcre2_match : dmem -> Z -> Z -> Z -> Z -> match_data -> Z * match_data;
  (** the same with the workspace, whose first word is -1 on the first use *)
  pcre2_dfa_match : bool -> dmem -> Z -> Z -> Z -> Z -> match_data
                    -> Z * match_data;
  (** [pattern_info(PCRE2_INFO_CAPTURECOUNT, &capcount)]: result and count *)
  pattern_info_capturecount : Z * Z;
  (** the lines of the mark, the copy and get tests and the list test *)
  substring_lines : match_data -> datctl -> Z -> list (list Z)
}.

(** How one turn of the loop ends. *)
Inductive gflow :=
| Again (s : gstate)                 (* next turn *)
| Break (s : gstate)                 (* out of the loop: return PR_OK *)
| Leave (rc : retcode) (s : gstate)  (* return from inside the loop *)
| Astray (f : fault) (s : gstate).   (* undefined behaviour *)

Section Driver.

Variable h : pcre2_h.
Variable e : engine.
Variable test_mode : Z.
Variable utf : bool.
(** [FLD(compiled_code, newline_convention)] *)
Variable newline_convention : Z.
(** The byte order of the machine, which shows where an 8-bit subject is
    read through a 16-bit pointer. *)
Variable big_endian : bool.
(** The buffer that holds the subject. *)
Variable m : dmem.

Definition flagged (word bits : Z) : bool := negb (Z.land word bits =? 0).

(** [CODE_UNIT(pp, i)] and the two typed reads of the loops below; a read
    outside the allocation is undefined. *)
Definition unit_at (s : gstate) (i : Z) : fault + Z :=
  let w := ptr_width test_mode in
  let b := pp s + i * w in
  if (0 <=? b) && (b + w <=? dbuffer_size m) then
    inr (nth (Z.to_nat (b / code_unit_size test_mode)) (cells m) 0)
  else inl Out_of_bounds.

Definition byte_at (s : gstate) (i : Z) : fault + Z :=
  let b := pp s + i in
  if (0 <=? b) && (b + 1 <=? dbuffer_size m) then
    inr (nth (Z.to_nat b) (cells m) 0)
  else inl Out_of_bounds.

(** [((PCRE2_SPTR16)pp)[i]] while the buffer holds bytes. *)
Definition half_at (s : gstate) (i : Z) : fault + Z :=
  let b := pp s + 2 * i in
  if (0 <=? b) && (b + 2 <=? dbuffer_size m) then
    let b0 := nth (Z.to_nat b) (cells m) 0 in
    let b1 := nth (Z.to_nat (b + 1)) (cells m) 0 in
    inr (if big_endian then b0 * 256 + b1 else b1 * 256 + b0)
  else inl Out_of_bounds.

(** The inner loop
    [for (; end_offset < ulen; end_offset++)
       if ((((PCRE2_SPTR16)pp)[end_offset] & 0xfc00) != 0xdc00) break;] *)
Fixpoint skip_low_surrogates (fuel : nat) (s : gstate) (end_offset : Z)
    : fault + Z :=
  match fuel with
  | O => inr end_offset
  | S fuel' =>
      if negb (end_offset <? ulen s) then inr end_offset
      else
        match half_at s end_offset with
        | inl f => inl f
        | inr c =>
            if negb (Z.land c 0xfc00 =? 0xdc00) then inr end_offset
            else skip_low_surrogates fuel' s (usize (end_offset + 1))
        end
  end.

(** The statement
    [if (test_mode == PCRE8_MODE)
       for (; end_offset < ulen; end_offset++)
         if ((pp8[end_offset] & 0xc0) != 0x80) break;
     else
       for (; end_offset < ulen; end_offset++)
         if ((pp16[end_offset] & 0xfc00) != 0xdc00) break;]
    as C reads it: the [else] belongs to the nearest [if], the one inside
    the first loop, so the second loop is the body of that [else] and runs
    in 8-bit mode only. *)
Fixpoint skip_continuation (fuel : nat) (s : gstate) (end_offset : Z)
    : fault + Z :=
  match fuel with
  | O => inr end_offset
  | S fuel' =>
      if negb (end_offset <? ulen s) then inr end_offset
      else
        match byte_at s end_offset with
        | inl f => inl f
        | inr c =>
            if negb (Z.land c 0xc0 =? 0x80) then inr end_offset
            else
              match skip_low_surrogates fuel' s end_offset with
              | inl f => inl f
              | inr end_offset =>
                  skip_continuation fuel' s (usize (end_offset + 1))
              end
        end
  end.

(** The fake match after a failed retry: [ovector[0]] and [ovector[1]]
    become the start offset and the offset one character on. *)
Definition fake_match (s : gstate) : gflow :=
  let nl := newline_convention in
  let start_offset := offset (dat_datctl s) in
  let end_offset := usize (start_offset + 1) in
  let crlf_aware := (nl =? PCRE2_NEWLINE_CRLF) || (nl =? PCRE2_NEWLINE_ANY)
                    || (nl =? PCRE2_NEWLINE_ANYCRLF) in
  let store r :=
    match r with
    | inl f => Astray f s
    | inr end_offset =>
        Again (set_mdata
          (set_ovector (<[1%nat := end_offset]>
                          (<[0%nat := start_offset]> (ovector (mdata s))))
                       (mdata s)) s)
    end in
  let otherwise :=
    if utf && negb (test_mode =? PCRE32_MODE) then
      if test_mode =? PCRE8_MODE
      then skip_continuation (Z.to_nat (ulen s)) s end_offset
      else inr end_offset
    else inr end_offset in
  if crlf_aware && (start_offset <? usize (ulen s - 1)) then
    match unit_at s start_offset with
    | inl f => Astray f s
    | inr c0 =>
        if c0 =? 13 then
          match unit_at s end_offset with
          | inl f => Astray f s
          | inr c1 =>
              if c1 =? 10 then store (inr (usize (end_offset + 1)))
              else store otherwise
          end
        else store otherwise
    end
  else store otherwise.

(** What [utf82ord] reads of the string it is given: the first byte, and
    of the [i] additional bytes that the first one announces those up to
    and including the first that is no continuation byte. *)
Fixpoint cont_reads (n : nat) (utf8bytes : list Z) : Z :=
  match n with
  | O => 0
  | S n' =>
      if negb (Z.land (peek utf8bytes) 0xc0 =? 0x80) then 1
      else 1 + cont_reads n' (advance 1 utf8bytes)
  end.

Definition utf82ord_reads (utf8bytes : list Z) : Z :=
  let i := Codec.lead_loop 7 (-1) (peek utf8bytes) in
  if (i =? -1) || (i =? 0) || (i =? 6) then 1
  else 1 + cont_reads (Z.to_nat i) (advance 1 utf8bytes).

(** [utf82ord(p, &c)] with [p] the byte [i] of the subject: the return
    value, or the fault of a read outside the allocation. *)
Definition utf82ord_at (s : gstate) (i : Z) : fault + Z :=
  let b := pp s + i in
  let bytes := drop (Z.to_nat b) (cells m) in
  if (0 <=? b) && (b + utf82ord_reads bytes <=? dbuffer_size m)
  then inr (fst (Codec.utf82ord bytes))
  else inl Out_of_bounds.

(** [strlen], [strlen16] or [strlen32] from the item [i] of the subject,
    read by [read]: the items before the first zero are counted, and the
    search runs off the allocation when there is none.  The allocation
    bounds the turns, so the fuel is not spent before one or the other. *)
Fixpoint strlen_at (fuel : nat) (read : Z -> fault + Z) (i count : Z)
    : fault + Z :=
  match read i with
  | inl f => inl f
  | inr c =>
      if c =? 0 then inr (sint count)
      else
        match fuel with
        | O => inl Out_of_bounds
        | S fuel' => strlen_at fuel' read (i + 1) (count + 1)
        end
  end.

(** The reads of [pchars8(p, length, utf, f)] with [p] the byte [i] of the
    subject, after the test of [length < 0]: [None] when every read is
    inside the allocation.  What is printed is not kept. *)
Fixpoint pchars8_reads (fuel : nat) (s : gstate) (i length : Z)
    : option fault :=
  match fuel with
  | O => None
  | S fuel' =>
      if negb (length >? 0) then None
      else
        let length := length - 1 in
        if utf then
          match utf82ord_at s i with
          | inl f => Some f
          | inr rc =>
              if (rc >? 0) && (rc <=? length + 1)
              then pchars8_reads fuel' s (i + rc) (length - (rc - 1))
              else pchars8_reads fuel' s (i + 1) length
          end
        else
          match byte_at s i with
          | inl f => Some f
          | inr _ => pchars8_reads fuel' s (i + 1) length
          end
  end.

(** The reads of [pchars16]: the item, and behind a high surrogate in UTF
    mode, when the length allows, the next one. *)
Fixpoint pchars16_reads (fuel : nat) (s : gstate) (i length : Z)
    : option fault :=
  match fuel with
  | O => None
  | S fuel' =>
      if negb (length >? 0) then None
      else
        let length := length - 1 in
        match unit_at s i with
        | inl f => Some f
        | inr c =>
            let c := Z.land c 0xffff in
            if utf && (c >=? 0xD800) && (c <? 0xDC00) && (length >? 0) then
              match unit_at s (i + 1) with
              | inl f => Some f
              | inr d =>
                  let d := Z.land d 0xffff in
                  if (d >=? 0xDC00) && (d <=? 0xDFFF)
                  then pchars16_reads fuel' s (i + 2) (length - 1)
                  else pchars16_reads fuel' s (i + 1) length
              end
            else pchars16_reads fuel' s (i + 1) length
        end
  end.

(** The reads of [pchars32]. *)
Fixpoint pchars32_reads (fuel : nat) (s : gstate) (i length : Z)
    : option fault :=
  match fuel with
  | O => None
  | S fuel' =>
      if negb (length >? 0) then None
      else
        match unit_at s i with
        | inl f => Some f
        | inr _ => pchars32_reads fuel' s (i + 1) (length - 1)
        end
  end.

(** The reads of [PCHARSV(pp, offset, len, utf, outfile)]: [len] is a
    [size_t] expression that the [int] parameter of the printing function
    receives, and a negative length makes the function look for the
    terminating zero. *)
Definition PCHARSV_reads (s : gstate) (offset len : Z) : option fault :=
  let length := sint len in
  let run (read : Z -> fault + Z)
          (reads : nat -> gstate -> Z -> Z -> option fault) :=
    if length <? 0 then
      match strlen_at (Z.to_nat (dbuffer_size m)) read offset 0 with
      | inl f => Some f
      | inr length => reads (Z.to_nat length) s offset length
      end
    else reads (Z.to_nat length) s offset length in
  if test_mode =? PCRE32_MODE then run (unit_at s) pchars32_reads
  else if test_mode =? PCRE16_MODE then run (unit_at s) pchars16_reads
  else run (byte_at s) pchars8_reads.

(** The lines for the captured substrings:
    [for (i = 0; i < 2*capcount; i += 2)], with the fault that ends them
    when the text of a line is read outside the allocation. *)
Fixpoint capture_lines (n : nat) (i : Z) (s : gstate)
    : list report * option fault :=
  match n with
  | O => ([], None)
  | S n' =>
      let ov := ovector (mdata s) in
      let a := nth (Z.to_nat i) ov 0 in
      let b := nth (Z.to_nat (i + 1)) ov 0 in
      let swapped := a >? b in
      let start := if swapped then b else a in
      let stop := if swapped then a else b in
      let ctl := dat_control (dat_datctl s) in
      let head := if swapped then [Start_beyond_end] else [] in
      let more (lines : list report) :=
        let '(rest, f) := capture_lines n' (i + 2) s in
        (head ++ lines ++ rest, f) in
      if start =? PCRE2_UNSET h then more [Unset_line (i / 2)]
      else
        match PCHARSV_reads s start (usize (stop - start)) with
        | Some f => (head, Some f)
        | None =>
            if flagged ctl CTL_ALLAFTERTEXT
               || ((i =? 0) && flagged ctl CTL_AFTERTEXT)
            then
              match PCHARSV_reads s b (usize (ulen s - b)) with
              | Some f => (head ++ [Match_line (i / 2) start stop], Some f)
              | None => more [Match_line (i / 2) start stop; After_line (i / 2) b]
              end
            else more [Match_line (i / 2) start stop]
        end
  end.

(** The branch [if (capcount >= 0)]. *)
Definition matched (capcount : Z) (s : gstate) : gflow :=
  let d := dat_datctl s in
  let over := capcount >? sint (oveccount d) in
  let s :=
    if over then
      let s := gsay (Count_too_big capcount (oveccount d)) s in
      if flagged (dat_control d) CTL_ANYGLOB then
        set_pat_patctl
          (set_pat_options
             (clear_bits (pat_options (pat_patctl s)) CTL_ANYGLOB)
             (pat_patctl s))
          (gsay Global_loop_abandoned s)
      else s
    else s in
  let capcount := if over then sint (oveccount d) else capcount in
  let all := flagged (dat_control d) CTL_ALLCAPTURES in
  if all && (fst (pattern_info_capturecount e) <? 0) then Leave PR_SKIP s
  else
    let capcount :=
      if all then
        let c := sint (snd (pattern_info_capturecount e) + 1) in
        if c >? sint (oveccount d) then sint (oveccount d) else c
      else capcount in
    let '(lines, f) := capture_lines (Z.to_nat capcount) 0 s in
    let s := gsays lines s in
    match f with
    | Some f => Astray f s
    | None =>
        Again (gsays (map Extra_line (substring_lines e (mdata s) d capcount)) s)
    end.

(** The final [else]: a match failure that ends the loop. *)
Definition failed (capcount : Z) (s : gstate) : gflow :=
  if capcount =? PCRE2_ERROR_NOMATCH h then
    Break (if gmatched s =? 0 then gsay No_match_line s else s)
  else if capcount =? PCRE2_ERROR_BADUTF h then
    Break (gsay (Bad_utf capcount (startchar (mdata s)) (utf_reason (mdata s))) s)
  else if capcount =? PCRE2_ERROR_BADUTF_OFFSET h then
    Break (gsay (Bad_utf_offset capcount) s)
  else Break (gsay (Failed_line capcount) s).

(** The end of the loop body, reached after a match or a fake match. *)
Definition advance_global (s : gstate) : gflow :=
  let d := dat_datctl s in
  if Z.land (dat_control d) CTL_ANYGLOB =? 0 then Break s
  else
    let end_offset := nth 1 (ovector (mdata s)) 0 in
    let empty := nth 0 (ovector (mdata s)) 0 =? end_offset in
    if empty && (end_offset =? ulen s) then Break s
    else
      let g := if empty
               then Z.lor (PCRE2_NOTEMPTY_ATSTART h) (PCRE2_ANCHORED h)
               else 0 in
      if flagged (dat_control d) CTL_GLOBAL then
        Again {| pp := pp s; len := len s; ulen := ulen s; g_notempty := g;
                 gmatched := gmatched s;
                 dat_datctl := set_offset (u32 end_offset) d;
                 pat_patctl := pat_patctl s; mdata := mdata s;
                 max_oveccount := max_oveccount s;
                 dfa_matched := dfa_matched s; glog := glog s |}
      else
        Again {| pp := pp s + end_offset * code_unit_size test_mode;
                 len := usize (len s - end_offset);
                 ulen := usize (ulen s - end_offset * code_unit_size test_mode);
                 g_notempty := g; gmatched := gmatched s;
                 dat_datctl := d;
                 pat_patctl := pat_patctl s; mdata := mdata s;
                 max_oveccount := max_oveccount s;
                 dfa_matched := dfa_matched s; glog := glog s |}.

(** One turn of [for (gmatched = 0;; gmatched++)], without the increment.
    Timing runs ([timeitm > 0]) are left out. *)
Definition global_turn (s : gstate) : gflow :=
  let d := dat_datctl s in
  let s :=
    if oveccount d <=? max_oveccount s
    then set_mdata (set_md_oveccount (oveccount d) (mdata s)) s
    else set_mdata (match_data_create (oveccount d))
                   (set_max_oveccount (oveccount d) s) in
  let options := Z.lor (dat_options d) (g_notempty s) in
  let '(capcount, s) :=
    if flagged (dat_control d) CTL_DFA then
      let '(rc, md) := pcre2_dfa_match e (dfa_matched s =? 0) m (pp s) (ulen s)
                         (offset d) options (mdata s) in
      let s := set_mdata md (set_dfa_matched (u32 (dfa_matched s + 1)) s) in
      if rc =? 0 then (sint (oveccount d), gsay Too_small s) else (rc, s)
    else
      let '(rc, md) := pcre2_match e m (pp s) (ulen s) (offset d) options
                         (mdata s) in
      let s := set_mdata md s in
      if rc =? 0 then (sint (oveccount d), gsay Too_many_substrings s)
      else (rc, s) in
  let after r :=
    match r with
    | Again s => advance_global s
    | r => r
    end in
  if capcount >=? 0 then after (matched capcount s)
  else if capcount =? PCRE2_ERROR_PARTIAL h then
    match PCHARSV_reads s (leftchar (mdata s))
            (usize (ulen s - leftchar (mdata s))) with
    | Some f => Astray f s
    | None =>
        Break (gsay (Partial_line (startchar (mdata s)) (leftchar (mdata s))) s)
    end
  else if negb (g_notempty s =? 0) then after (fake_match s)
  else failed capcount s.

(** How the loop ends: a [return], or undefined behaviour. *)
Inductive gend :=
| Returned (rc : retcode) (s : gstate)
| Faulted (f : fault) (s : gstate).

(** The loop; [None] is the loop still running when the fuel is spent. *)
Fixpoint global_loop (fuel : nat) (s : gstate) : option gend :=
  match fuel with
  | O => None
  | S fuel' =>
      match global_turn s with
      | Again s => global_loop fuel' (set_gmatched (u32 (gmatched s + 1)) s)
      | Break s => Some (Returned PR_OK s)
      | Leave rc s => Some (Returned rc s)
      | Astray f s => Some (Faulted f s)
      end
  end.

(** From the consistency checks of the modifiers to the end of the
    function, for the native interface. *)
Definition run_matches (fuel : nat) (pp0 len0 ulen0 : Z) (d : datctl)
    (c : patctl) (md : match_data) (max_ovec dfa_count : Z)
    : option gend :=
  let limits := Z.lor CTL_DFA CTL_LIMITS in
  let l1 := if Z.land (dat_control d) limits =? limits
            then [Limits_ignored] else [] in
  let drop_glob := flagged (dat_control d) CTL_ANYGLOB && (oveccount d <? 1) in
  let d := if drop_glob
           then set_dat_control (clear_bits (dat_control d) CTL_ANYGLOB) d
           else d in
  global_loop fuel
    {| pp := pp0; len := len0; ulen := ulen0; g_notempty := 0; gmatched := 0;
       dat_datctl := d; pat_patctl := c; mdata := md;
       max_oveccount := max_ovec; dfa_matched := dfa_count;
       glog := l1 ++ (if drop_glob then [Global_ignored] else []) |}.

End Driver.

(** *** [process_data] as a whole *)

(** The static variables that [process_data] reads and leaves behind. *)
Record statics := {
  st_dbuffer : dmem;
  def_datctl : datctl;
  st_pat_patctl : patctl;
  st_default_dat_context : match_context;
  st_match_data : match_data;
  st_max_oveccount : Z;
  st_dfa_matched : Z;
  st_c1index : list Z;
  (** [FLD(compiled_code, compile_options)] and [newline_convention] *)
  compile_options : Z;
  code_newline : Z
}.

Inductive line :=
| Encoder_line (d : diag)
| Modifier_line (d : mdiag)
| Match_report (r : report).

(** How a call ends, with what it wrote. *)
Inductive processed :=
| Data_done (rc : retcode) (o : list line)
| Data_exit (o : list line)                      (* exit(1) *)
| Data_undefined (f : fault) (o : list line).

Section Process.

Variable h : pcre2_h.
Variable e : engine.
Variable test_mode : Z.
Variable allocator : option nat -> Z -> option bool.
Variable big_endian : bool.
(** The POSIX wrapper with what it prints: outside the harness. *)
Variable regexec_lines : dmem -> Z -> datctl -> list report.

Definition process_data (fuel : nat) (buffer : list Z) (g : statics)
    : option processed :=
  let c := st_pat_patctl g in
  let d := set_dat_control
             (or_bits (dat_control (def_datctl g))
                      (Z.land (pat_control c) CTL_ALLPD))
             (def_datctl g) in
  let posix := flagged (pat_control c) CTL_POSIX in
  let utf := negb posix && flagged (compile_options g) (PCRE2_UTF h) in
  match encode_data_line test_mode utf allocator posix buffer (st_dbuffer g) with
  | None => None
  | Some (Rejected _ o) => Some (Data_done PR_OK (map Encoder_line o))
  | Some (Fatal o) => Some (Data_exit (map Encoder_line o))
  | Some (Crashed f _ o) => Some (Data_undefined f (map Encoder_line o))
  | Some (Subject m pp0 len0 ulen0 mods o) =>
      let o := map Encoder_line o in
      let ms := {| pctl := None; dctl := Some d;
                   pat_context := {| bsr_convention := 0;
                                     newline_convention := 0;
                                     parens_nest_limit := 0 |};
                   default_pat_context := {| bsr_convention := 0;
                                             newline_convention := 0;
                                             parens_nest_limit := 0 |};
                   dat_context := st_default_dat_context g;
                   default_dat_context := st_default_dat_context g;
                   c1index := st_c1index g; outfile := [] |} in
      let decoded :=
        match mods with
        | None => Some (Done true ms)
        | Some p => decode_modifiers h p CTX_DAT ms
        end in
      match decoded with
      | None => None
      | Some (Broken ms) =>
          Some (Data_undefined Out_of_bounds
                  (o ++ map Modifier_line (outfile ms)))
      | Some (Done false ms) =>
          Some (Data_done PR_OK (o ++ map Modifier_line (outfile ms)))
      | Some (Done true ms) =>
          let o := o ++ map Modifier_line (outfile ms) in
          let d := default d (dctl ms) in
          if posix then
            Some (Data_done PR_OK (o ++ map Match_report (regexec_lines m pp0 d)))
          else
            match run_matches h e test_mode utf (code_newline g) big_endian m
                    fuel pp0 len0 ulen0 d c (st_match_data g)
                    (st_max_oveccount g) (st_dfa_matched g) with
            | None => None
            | Some (Returned rc s) =>
                Some (Data_done rc (o ++ map Match_report (glog s)))
            | Some (Faulted f s) =>
                Some (Data_undefined f (o ++ map Match_report (glog s)))
            end
      end
  end.

End Process.

(** Modelled from the spec: the match primitive ([pcre2_match] and
    [pcre2_dfa_match]) is outside the tree.  This is the primitive for a
    pattern that matches the empty string, and nothing else, at every
    position: a call finds the empty match at the start offset; when
    not-empty-at-start excludes that one it finds the next one, unless the
    match is anchored or the subject ends here; with [PCRE2_NOTEMPTY] it
    finds nothing, and a start offset beyond the subject is an error. *)
Definition empty_match_engine (h : pcre2_h) : engine :=
  let run (m : dmem) (pp ulen start options : Z) (md : match_data) :=
    let found k :=
      (1, set_ovector (<[1%nat := k]> (<[0%nat := k]> (ovector md))) md) in
    if start >? ulen then (PCRE2_ERROR_BADOFFSET h, md)
    else if flagged options (PCRE2_NOTEMPTY h) then (PCRE2_ERROR_NOMATCH h, md)
    else if flagged options (PCRE2_NOTEMPTY_ATSTART h) then
      if flagged options (PCRE2_ANCHORED h) || (ulen <=? start)
      then (PCRE2_ERROR_NOMATCH h, md)
      else found (start + 1)
    else found start in
  {| pcre2_match := run;
     pcre2_dfa_match := fun _ => run;
     pattern_info_capturecount := (0, 0);
     substring_lines := fun _ _ _ => [] |}.

(** One assignment of the constants of [pcre2.h], to run examples with. *)
Definition sample_h : pcre2_h := {|
  PCRE2_ALLOW_EMPTY_CLASS := 0x00000001; PCRE2_ALT_BSUX := 0x00000002;
  PCRE2_ANCHORED := 0x80000000; PCRE2_AUTO_CALLOUT := 0x00000004;
  PCRE2_CASELESS := 0x00000008; PCRE2_DFA_RESTART := 0x00000040;
  PCRE2_DFA_SHORTEST := 0x00000080; PCRE2_DOLLAR_ENDONLY := 0x00000010;
  PCRE2_DOTALL := 0x00000020; PCRE2_DUPNAMES := 0x00000040;
  PCRE2_EXTENDED := 0x00000080; PCRE2_FIRSTLINE := 0x00000100;
  PCRE2_MATCH_UNSET_BACKREF := 0x00000200; PCRE2_MULTILINE := 0x00000400;
  PCRE2_NEVER_UCP := 0x00000800; PCRE2_NEVER_UTF := 0x00001000;
  PCRE2_NO_AUTO_CAPTURE := 0x00002000; PCRE2_NO_AUTO_POSSESS := 0x00004000;
  PCRE2_NO_START_OPTIMIZE := 0x00010000; PCRE2_NO_UTF_CHECK := 0x40000000;
  PCRE2_NOTBOL := 0x00000001; PCRE2_NOTEMPTY := 0x00000004;
  PCRE2_NOTEMPTY_ATSTART := 0x00000008; PCRE2_NOTEOL := 0x00000002;
  PCRE2_PARTIAL_HARD := 0x00000020; PCRE2_PARTIAL_SOFT := 0x00000010;
  PCRE2_UCP := 0x00020000; PCRE2_UNGREEDY := 0x00040000;
  PCRE2_UTF := 0x00080000;
  PCRE2_BSR_ANYCRLF := 2; PCRE2_BSR_UNICODE := 1;
  PCRE2_ERROR_NOMATCH := -1; PCRE2_ERROR_PARTIAL := -2;
  PCRE2_ERROR_BADUTF := -3; PCRE2_ERROR_BADUTF_OFFSET := -4;
  PCRE2_ERROR_BADOFFSET := -33;
  PCRE2_UNSET := 2 ^ 64 - 1
|}.

End Global.

(** ** Width converter: [to32] *)

Module Width32.
Import Codec DataLine.

(** What a call of [to32] leaves behind: the return value, the 32-bit items
    stored in [pbuffer32] from its start (with the closing zero when the
    call gets that far) and the new [pbuffer32_size]. *)
Record to32_result := {
  to32_rc : Z;
  to32_units : list Z;
  to32_size : Z
}.

(** The [while (len > 0)] loop of [to32]; [pp] is the list of items stored
    so far, [None] the loop still running when the fuel is spent. *)
Fixpoint to32_loop (fuel : nat) (p : list Z) (utf : bool) (len : Z)
    (pp : list Z) : option (Z * list Z) :=
  if negb (len >? 0) then Some (Z.of_nat (length pp), pp ++ [0])
  else
    match fuel with
    | O => None
    | S fuel' =>
        let '(chlen, v) := utf82ord p in
        if chlen <=? 0 then Some (-1, pp)
        else
          let c := default 0 v in
          if utf && (c >? 0x10ffff) then Some (-2, pp)
          else
            to32_loop fuel' (advance (Z.to_nat chlen) p) utf (len - chlen)
              (pp ++ [c])
    end.

(** [to32(p, utf, len)] with the current [pbuffer32_size] passed in; the
    [malloc] of a larger buffer is taken to succeed. *)
Definition to32 (pbuffer32_size : Z) (p : list Z) (utf : bool) (len : Z)
    : option to32_result :=
  let want := sint (4 * len + 4) in
  let size :=
    if pbuffer32_size <? want
    then (if want <? 256 then 256 else want)
    else pbuffer32_size in
  match to32_loop (Z.to_nat len) p utf len [] with
  | Some (rc, units) =>
      Some {| to32_rc := rc; to32_units := units; to32_size := size |}
  | None => None
  end.

End Width32.

(** ** Rendering: [pchar], [strlen16], [strlen32], [pchars8/16/32] *)

Module Render.
Import Codec DataLine.

(** [PRINTABLE(c)], ASCII build. *)
Definition PRINTABLE (c : Z) : bool := (c >=? 32) && (c <? 127).

(** The digits that [printf] writes for [%x], most significant first;
    eight digits hold a [uint32_t]. *)
Definition hex_char (d : Z) : Z := if d <? 10 then 48 + d else 87 + d.
Fixpoint hex_digits (fuel : nat) (c : Z) (acc : list Z) : list Z :=
  match fuel with
  | O => acc
  | S fuel' =>
      let acc := hex_char (c mod 16) :: acc in
      if c / 16 =? 0 then acc else hex_digits fuel' (c / 16) acc
  end.

(** [%02x]: at least two digits, padded with a zero. *)
Definition format_02x (c : Z) : list Z :=
  let ds := hex_digits 8 c [] in
  match ds with
  | [d] => [48; d]
  | _ => ds
  end.

Section Printing.

(** [locale_set] and, for when it is set, the [isprint] of the locale. *)
Variable locale_set : bool.
Variable isprint : Z -> bool.

Definition PRINTOK (c : Z) : bool :=
  if locale_set then isprint c else PRINTABLE c.

(** [pchar(c, utf, f)]: the return value and the characters written to
    [f]; [f] is [false] for a NULL file.  Output that [fprintf] accepts is
    output written: the write errors of the C library are left out. *)
Definition pchar (c : Z) (utf : bool) (f : bool) : Z * list Z :=
  if PRINTOK c then (1, if f then [u8 c] else [])
  else if c <? 0x100 then
    if utf
    then (6, if f then bytes_of_string "\x{" ++ format_02x c ++ [125] else [])
    else (4, if f then bytes_of_string "\x" ++ format_02x c else [])
  else if f then
    let o := bytes_of_string "\x{" ++ format_02x c ++ [125] in
    (Z.of_nat (length o), o)
  else (0, []).

(** [strlen16] and [strlen32]: the number of items before the first
    zero, as an [int]. *)
Definition strlen16 (p : list Z) : Z :=
  sint (Z.of_nat (List.length (cstring p))).
Definition strlen32 (p : list Z) : Z :=
  sint (Z.of_nat (List.length (cstring p))).

(** The [while (length-- > 0)] loop of [pchars8]; [yield] and what has been
    written so far are carried along.  Every turn takes at least one from
    [length], which bounds the turns. *)
Fixpoint pchars8_loop (fuel : nat) (p : list Z) (length : Z) (utf f : bool)
    (yield : Z) (out : list Z) : Z * list Z :=
  match fuel with
  | O => (yield, out)
  | S fuel' =>
      if negb (length >? 0) then (yield, out)
      else
        let length := length - 1 in
        let '(rc, v) := utf82ord p in
        if utf && (rc >? 0) && (rc <=? length + 1) then
          let '(n, o) := pchar (default 0 v) utf f in
          pchars8_loop fuel' (advance (Z.to_nat rc) p) (length - (rc - 1))
            utf f (sint (yield + n)) (out ++ o)
        else
          let '(n, o) := pchar (peek p) utf f in
          pchars8_loop fuel' (advance 1 p) length utf f
            (sint (yield + n)) (out ++ o)
  end.

(** [pchars8(p, length, utf, f)] *)
Definition pchars8 (p : list Z) (length : Z) (utf f : bool) : Z * list Z :=
  let length :=
    if length <? 0 then sint (Z.of_nat (List.length (cstring p)))
    else length in
  pchars8_loop (Z.to_nat length) p length utf f 0 [].

(** The loop of [pchars16]: a high surrogate followed, within the length,
    by a low one is one character in UTF mode. *)
Fixpoint pchars16_loop (fuel : nat) (p : list Z) (length : Z) (utf f : bool)
    (yield : Z) (out : list Z) : Z * list Z :=
  match fuel with
  | O => (yield, out)
  | S fuel' =>
      if negb (length >? 0) then (yield, out)
      else
        let length := length - 1 in
        let c := Z.land (peek p) 0xffff in
        let p := advance 1 p in
        let d := Z.land (peek p) 0xffff in
        if utf && (c >=? 0xD800) && (c <? 0xDC00) && (length >? 0)
           && (d >=? 0xDC00) && (d <=? 0xDFFF)
        then
          let c := u32 (Z.shiftl (Z.land c 0x3ff) 10 + Z.land d 0x3ff
                        + 0x10000) in
          let '(n, o) := pchar c utf f in
          pchars16_loop fuel' (advance 1 p) (length - 1) utf f
            (sint (yield + n)) (out ++ o)
        else
          let '(n, o) := pchar c utf f in
          pchars16_loop fuel' p length utf f (sint (yield + n)) (out ++ o)
  end.

Definition pchars16 (p : list Z) (length : Z) (utf f : bool) : Z * list Z :=
  let length := if length <? 0 then strlen16 p else length in
  pchars16_loop (Z.to_nat length) p length utf f 0 [].

(** The loop of [pchars32]. *)
Fixpoint pchars32_loop (fuel : nat) (p : list Z) (length : Z) (utf f : bool)
    (yield : Z) (out : list Z) : Z * list Z :=
  match fuel with
  | O => (yield, out)
  | S fuel' =>
      if negb (length >? 0) then (yield, out)
      else
        let '(n, o) := pchar (peek p) utf f in
        pchars32_loop fuel' (advance 1 p) (length - 1) utf f
          (sint (yield + n)) (out ++ o)
  end.

Definition pchars32 (p : list Z) (length : Z) (utf f : bool) : Z * list Z :=
  let length := if length <? 0 then strlen32 p else length in
  pchars32_loop (Z.to_nat length) p length utf f 0 [].

End Printing.

End Render.

(** ** Numbers among the program arguments *)

Module Arguments.
Import DataLine.

(** [get_value(str, &endptr)]: white space is passed over, then decimal
    digits are read into an [int]; the result and [endptr]. *)
Definition get_value (str : list Z) : Z * list Z :=
  read_decimal (skip_space str) 0.

End Arguments.

(** * Notions in which the properties are stated *)

(** ** Code points and their bytes *)

Module CodecTerms.
Import Codec.

(** The [n] continuation bytes of [v], first byte first. *)
Fixpoint digits (n : nat) (v : Z) : list Z :=
  match n with
  | O => []
  | S n' => digits n' (v / 64) ++ [128 + v mod 64]
  end.

(** The weight of the payload above [n] continuation bytes. *)
Definition P6 (n : nat) : Z := 2 ^ (6 * Z.of_nat n).

(** What the lead byte of class [k] must satisfy, as a check on the
    payload [hi] it carries. *)
Definition lead_ok (k hi : Z) : bool :=
  let b := tbl utf8_table2 k + hi in
  (lead_loop 7 (-1) b =? k) && (Z.land b (tbl utf8_table3 k) =? hi)
  && (Z.lor (tbl utf8_table2 k) hi =? b) && (b <? 256) && (0xc0 <=? b).

(** What a byte below 128 must satisfy to be read back as itself. *)
Definition ascii_ok (c : Z) : bool :=
  (lead_loop 7 (-1) c =? -1) && (u8 (Z.lor 0 c) =? c).

(** The textual form of a list of code points. *)
Definition utf8_text (cs : list Z) : list Z :=
  concat (map (fun c => snd (ord2utf8 c)) cs).

(** The 16-bit items of one code point, in the words of the policy. *)
Definition units16 (c : Z) : list Z :=
  if c <? 0x10000 then [c]
  else [Z.lor 0xD800 (Z.shiftr (c - 0x10000) 10);
        Z.lor 0xDC00 (Z.land (c - 0x10000) 0x3FF)].

(** What [to16] does, code point by code point. *)
Fixpoint to16_points (utf : bool) (cs : list Z) (pp : list Z) : Z * list Z :=
  match cs with
  | [] => (Z.of_nat (length pp), pp ++ [0])
  | c :: cs' =>
      if c >? 0x10ffff then (-2, pp)
      else if c <? 0x10000 then to16_points utf cs' (pp ++ [c])
      else if negb utf then (-3, pp)
      else to16_points utf cs' (pp ++ units16 c)
  end.

End CodecTerms.

(** ** Digits in a data line *)

Module DataLineTerms.
Import DataLine.

(** The value of a string of decimal digits, read after [acc]. *)
Definition decimal (ds : list Z) (acc : Z) : Z :=
  fold_left (fun v d => v * 10 + (d - 48)) ds acc.

(** The hex digits [ds] shifted into [c], as [c = c * 16 + digit] does it
    in a [uint32_t]. *)
Definition hex_value (ds : list Z) (c : Z) : Z :=
  fold_left (fun c d => u32 (c * 16 + hexval d)) ds c.

End DataLineTerms.

(** ** Flags of a pattern control block *)

Module ModifierTerms.
Import DataLine Modifiers.

(** The table entry that an abbreviation stands for, as the decoder finds
    it: by looking its full name up. *)
Definition bound_entry (h : pcre2_h) (e : c1modstruct) : option modstruct :=
  modlist h !! Z.to_nat (scan_modifiers h (bytes_of_string (fullname e))
                                        (strlen (fullname e))).

(** The characters that select an abbreviation: one, or the same one twice. *)
Definition abbreviation_text (e : c1modstruct) : list Z :=
  if onechar e <? 256 then [onechar e]
  else [Z.shiftr (onechar e) 8; Z.land (onechar e) 0xff].

(** The word of a pattern control block that holds the flag of [m]. *)
Definition flag_word (m : modstruct) (c : option patctl) : option Z :=
  match offset_ m, c with
  | At n, Some c => patctl_load32 n c
  | _, _ => None
  end.

(** The flag of [m] in the block: all its bits set, or none of them. *)
Definition flag_is_set (m : modstruct) (c : option patctl) : Prop :=
  exists w, flag_word m c = Some w
            /\ Z.land w (bits_of (value m)) = bits_of (value m).

Definition flag_is_clear (m : modstruct) (c : option patctl) : Prop :=
  exists w, flag_word m c = Some w /\ Z.land w (bits_of (value m)) = 0.

(** A pattern control block under decoding, nothing written yet. *)
Definition pattern_state (c : patctl) (cc : compile_context)
    (mc : match_context) : mstate :=
  {| pctl := Some c; dctl := None; pat_context := cc;
     default_pat_context := cc; dat_context := mc;
     default_dat_context := mc; c1index := fresh_c1index; outfile := [] |}.

(** What decoding [text] in a pattern context leaves in the block. *)
Definition overlay (h : pcre2_h) (text : list Z) (s : mstate)
    : option (bool * option patctl) :=
  match decode_modifiers h text CTX_PAT s with
  | Some (Done ok s') => Some (ok, pctl s')
  | _ => None
  end.

End ModifierTerms.

(** ** Runs of the global loop *)

Module GlobalTerms.
Import DataLine Modifiers Global.

(** What the driver needs of the constants of [pcre2.h]. *)
Record header_ok (h : pcre2_h) : Prop := {
  notempty_atstart_bit : PCRE2_NOTEMPTY_ATSTART h <> 0;
  anchored_bit : PCRE2_ANCHORED h <> 0;
  nomatch_negative : PCRE2_ERROR_NOMATCH h < 0;
  nomatch_not_partial : PCRE2_ERROR_NOMATCH h <> PCRE2_ERROR_PARTIAL h;
  unset_large : 2 ^ 32 <= PCRE2_UNSET h
}.

(** The newline conventions under which CR LF is one newline. *)
Definition crlf_aware (nl : Z) : bool :=
  (nl =? PCRE2_NEWLINE_CRLF) || (nl =? PCRE2_NEWLINE_ANY)
  || (nl =? PCRE2_NEWLINE_ANYCRLF).

(** The code unit [k] of a subject that starts [pp] bytes into the buffer. *)
Definition subject_unit (test_mode : Z) (m : dmem) (pp k : Z) : Z :=
  nth (Z.to_nat ((pp + k * ptr_width test_mode) / code_unit_size test_mode))
      (cells m) 0.

(** The lines that show a match: [nn: text]. *)
Definition is_match_line (r : report) : bool :=
  match r with Match_line _ _ _ => true | _ => false end.
Definition match_lines (l : list report) : list report :=
  List.filter is_match_line l.

(** The text behind the whole match is asked for. *)
Definition after_text (control : Z) : bool :=
  flagged control CTL_ALLAFTERTEXT || flagged control CTL_AFTERTEXT.

(** A state of a /g run over a subject of [N] code units in which the
    advance after an empty match is one character of one code unit: the
    subject lies in the buffer, has no CR LF pair where the newline
    convention knows that sequence, no UTF-8 continuation byte where UTF-8
    is decoded and no low surrogate where UTF-16 is.  Where the text behind
    the match is printed, the subject is shorter than 2^31 code units, the
    printing function's length being an [int], and in 8-bit UTF mode it
    does not end in a lead byte, behind which [utf82ord] reads on. *)
Record empty_run (h : pcre2_h) (test_mode : Z) (utf : bool) (nl : Z)
    (m : dmem) (N : Z) (s : gstate) : Prop := {
  er_mode : test_mode = 8 \/ test_mode = 16 \/ test_mode = 32;
  er_ulen : ulen s = N;
  er_N : 0 <= N < 2 ^ 32;
  er_pp : 0 <= pp s /\ pp s + N * code_unit_size test_mode <= dbuffer_size m;
  er_global : flagged (dat_control (dat_datctl s)) CTL_GLOBAL = true;
  er_dfa : flagged (dat_control (dat_datctl s)) CTL_DFA = false;
  er_all : flagged (dat_control (dat_datctl s)) CTL_ALLCAPTURES = false;
  er_notempty : flagged (dat_options (dat_datctl s)) (PCRE2_NOTEMPTY h) = false;
  er_atstart :
    flagged (dat_options (dat_datctl s)) (PCRE2_NOTEMPTY_ATSTART h) = false;
  er_oveccount : 1 <= oveccount (dat_datctl s) < 2 ^ 31;
  er_ovector : (2 <= length (ovector (mdata s)))%nat;
  er_offset : 0 <= offset (dat_datctl s) <= N;
  er_retry : g_notempty s = 0 \/
             (g_notempty s = Z.lor (PCRE2_NOTEMPTY_ATSTART h) (PCRE2_ANCHORED h)
              /\ offset (dat_datctl s) < N);
  er_crlf : crlf_aware nl = true ->
            forall k, 0 <= k -> k + 1 < N ->
            ~ (subject_unit test_mode m (pp s) k = 13
               /\ subject_unit test_mode m (pp s) (k + 1) = 10);
  er_cont : utf = true -> test_mode = 8 ->
            forall k, 0 <= k < N ->
            Z.land (subject_unit test_mode m (pp s) k) 0xc0 <> 0x80;
  er_surrogate : utf = true -> test_mode = 16 ->
                 forall k, 0 <= k < N ->
                 Z.land (subject_unit test_mode m (pp s) k) 0xfc00 <> 0xdc00;
  er_after : after_text (dat_control (dat_datctl s)) = true ->
             N < 2 ^ 31 /\
             (utf = true -> test_mode = 8 -> 0 < N ->
              0 <= subject_unit test_mode m (pp s) (N - 1) < 0xc0)
}.

(** The measure that every turn of such a run decreases. *)
Definition turns_left (N : Z) (s : gstate) : Z :=
  2 * (N - offset (dat_datctl s)) + (if g_notempty s =? 0 then 1 else 0).

End GlobalTerms.

(** ** Observations and sample inputs *)

Module Samples.
Import DataLine Modifiers Global.

(** Two allocators: one that always resizes in place and one that always
    moves the block. *)
Definition in_place : option nat -> Z -> option bool := fun _ _ => Some false.
Definition moving : option nat -> Z -> option bool := fun _ _ => Some true.

(** What a run of the encoder shows: the subject it hands over, what it
    wrote to [outfile], the undefined behaviour it ran into. *)
Definition subject_of (test_mode : Z) (r : option encoded)
    : option (list Z) :=
  match r with
  | Some (Subject m pp0 _ ulen0 _ _) =>
      Some (subject_units test_mode m pp0 ulen0)
  | _ => None
  end.
Definition diagnostics_of (r : option encoded) : list diag :=
  match r with
  | Some (Subject _ _ _ _ _ o) | Some (Rejected _ o) | Some (Fatal o)
  | Some (Crashed _ _ o) => o
  | None => []
  end.
Definition fault_of (r : option encoded) : option fault :=
  match r with
  | Some (Crashed f _ _) => Some f
  | _ => None
  end.

(** A data line from its text; [\[] + [n] times [A] + []{k}]. *)
Definition line_of (s : string) : list Z := bytes_of_string s.
Definition long_block (n : Z) (count : string) : list Z :=
  line_of "\[" ++ replicate (Z.to_nat n) 65 ++ line_of "]{" ++ line_of count
  ++ line_of "}".

(** [DEFAULT_OVECCOUNT] *)
Definition DEFAULT_OVECCOUNT : Z := 15.

(** The static variables as [main] leaves them for the first data line of
    a pattern compiled with the options [options] and the control bits
    [control], under the newline convention [nl]. *)
Definition first_line_statics (options control nl : Z) : statics :=
  {| st_dbuffer := initial_dmem;
     def_datctl :=
       {| dat_options := 0; dat_control := 0; cfail := [0; 0];
          copy_numbers := replicate 10 0; get_numbers := replicate 10 0;
          jitstack := 0; oveccount := DEFAULT_OVECCOUNT; offset := 0;
          copy_names := replicate 64 0; get_names := replicate 64 0 |};
     st_pat_patctl :=
       {| pat_options := 0; pat_control := control; jit := 0;
          stackguard_test := 0; tables_id := 0; locale := replicate 32 0;
          save := replicate 64 0 |};
     st_default_dat_context := {| match_limit := 0; recursion_limit := 0 |};
     st_match_data := match_data_create DEFAULT_OVECCOUNT;
     st_max_oveccount := DEFAULT_OVECCOUNT;
     st_dfa_matched := 0;
     st_c1index := fresh_c1index;
     compile_options := options;
     code_newline := nl |}.

(** A data line run against the pattern that matches the empty string. *)
Definition empty_pattern_run (test_mode : Z) (control nl : Z) (fuel : nat)
    (text : string) : option processed :=
  process_data sample_h (empty_match_engine sample_h) test_mode in_place
    false (fun _ _ _ => []) fuel (line_of text)
    (first_line_statics 0 control nl).

(** The state of the driver at a match from [a] to [b] of a subject of
    [bytes] bytes and [units] code units at the start of a buffer, searched
    from [start] under the control bits [control]. *)
Definition at_match (control bytes units start a b : Z) : gstate :=
  {| pp := 0; len := bytes; ulen := units; g_notempty := 0; gmatched := 0;
     dat_datctl :=
       {| dat_options := 0; dat_control := control; cfail := [0; 0];
          copy_numbers := replicate 10 0; get_numbers := replicate 10 0;
          jitstack := 0; oveccount := DEFAULT_OVECCOUNT; offset := start;
          copy_names := replicate 64 0; get_names := replicate 64 0 |};
     pat_patctl := zero_patctl;
     mdata := set_ovector (<[1%nat := b]> (<[0%nat := a]>
                (ovector (match_data_create DEFAULT_OVECCOUNT))))
                (match_data_create DEFAULT_OVECCOUNT);
     max_oveccount := DEFAULT_OVECCOUNT; dfa_matched := 0; glog := [] |}.

(** What is left of a turn that goes round again. *)
Definition next_view (r : gflow) : option (Z * Z * Z * Z) :=
  match r with
  | Again s => Some (pp s, len s, ulen s, offset (dat_datctl s))
  | _ => None
  end.

(** A pattern control block with PCRE2_EXTENDED set, and the options that
    decoding [text] over it leaves. *)
Definition extended_set : patctl :=
  set_pat_options (PCRE2_EXTENDED sample_h) zero_patctl.
Definition no_compile_context : compile_context :=
  {| bsr_convention := 0; newline_convention := 0; parens_nest_limit := 0 |}.
Definition no_match_context : match_context :=
  {| match_limit := 0; recursion_limit := 0 |}.
Definition options_after (text : string) (c : patctl) : option Z :=
  match decode_modifiers sample_h (line_of text) CTX_PAT
          {| pctl := Some c; dctl := None;
             pat_context := no_compile_context;
             default_pat_context := no_compile_context;
             dat_context := no_match_context;
             default_dat_context := no_match_context;
             c1index := fresh_c1index; outfile := [] |} with
  | Some (Done true s) => option_map pat_options (pctl s)
  | _ => None
  end.

(** The scan of [A\[BC]{3}D] in a buffer of 16 bytes, as it stands after
    the closing bracket. *)
Definition after_bracket : scan_st :=
  {| p := line_of "{3}D"; q := 3; start_dup := Some (0%nat, 1);
     needlen := 10;
     mem := {| dbuffer := Some 0%nat; dbuffer_size := 16;
               cells := [65] ++ [66; 67] ++ replicate 13 0 |};
     out := [] |}.

(** A buffer that holds the subject [abc] and its terminating zero. *)
Definition abc_buffer : dmem :=
  {| dbuffer := Some 0%nat; dbuffer_size := 4; cells := [97; 98; 99; 0] |}.

(** The match lines of a finished call. *)
Definition reports_of (r : option processed) : option (list report) :=
  match r with
  | Some (Data_done _ o) =>
      Some (omap (fun l => match l with Match_report r => Some r | _ => None end)
                 o)
  | _ => None
  end.

End Samples.

(** ** Lead and continuation bytes *)

Module ByteTerms.
Import Codec.

(** What a lead byte must satisfy for its class, the number of additional
    bytes that [utf82ord] finds for it: below 128 in class -1, and in the
    classes 1 to 5 the marker of the class with a payload that fits under
    it. *)
Definition lead_canonical (b : Z) : bool :=
  let i := lead_loop 7 (-1) b in
  let hi := Z.land b (tbl utf8_table3 i) in
  if i =? -1 then b <? 128
  else if (1 <=? i) && (i <=? 5) then
    (hi <? 2 ^ (6 - i)) && (Z.lor (tbl utf8_table2 i) hi =? b)
  else true.

(** A byte that passes for a continuation byte is 128 and six bits. *)
Definition continuation_canonical (c : Z) : bool :=
  if Z.land c 0xc0 =? 0x80 then (128 <=? c) && (c <? 192) else true.

End ByteTerms.

(** ** The table of modifiers *)

Module TableTerms.
Import DataLine Modifiers.

(** The bytes of a modifier name. *)
Definition name_bytes (m : modstruct) : list Z := bytes_of_string (name m).

(** The table answers for itself: the entry at [i] is found at [i] when
    its own name is looked up. *)
Definition found_at (h : pcre2_h) (i : nat) : bool :=
  match modlist h !! i with
  | Some m => scan_modifiers h (name_bytes m) (strlen (name m)) =? Z.of_nat i
  | None => false
  end.

(** The characters of modifier names: lower-case letters and [_]. *)
Definition name_char (c : Z) : bool := ((97 <=? c) && (c <=? 122)) || (c =? 95).
Definition well_named (m : modstruct) : bool :=
  forallb name_char (name_bytes m) && (0 <? strlen (name m)).

(** The entries that take no value: flags of the options and controls. *)
Definition is_flag (m : modstruct) : bool :=
  modkind_eqb (type m) MOD_CTL || modkind_eqb (type m) MOD_OPT.

(** A character that belongs to an item: no NUL, comma or white space. *)
Definition in_item (c : Z) : Prop := isspace c = false /\ c <> 44 /\ c <> 0.

(** What may follow a name: the end of the item, or [=]. *)
Definition closes_name (tail : list Z) : Prop :=
  match tail with
  | [] => True
  | c :: _ => c = 61 \/ c = 0 \/ c = 44 \/ isspace c = true
  end.

End TableTerms.

(** ** Data lines of plain characters *)

Module EncoderTerms.
Import Codec DataLine CodecTerms.

(** The bytes of a data line that holds the characters [cs]: their UTF-8
    form under [utf], one byte each otherwise. *)
Definition line_text (utf : bool) (cs : list Z) : list Z :=
  if utf then utf8_text cs else cs.

(** The code units that stand for the character [c] in a subject. *)
Definition character_units (test_mode : Z) (utf : bool) (c : Z) : list Z :=
  if utf then
    if test_mode =? PCRE8_MODE then snd (ord2utf8 c)
    else if test_mode =? PCRE16_MODE then units16 c
    else [c]
  else [c].

(** The code units of the characters [cs], one character after the
    other. *)
Definition subject_text (test_mode : Z) (utf : bool) (cs : list Z) : list Z :=
  flat_map (character_units test_mode utf) cs.

(** The largest character a data line can hold in the mode. *)
Definition character_max (test_mode : Z) (utf : bool) : Z :=
  if utf then
    if test_mode =? PCRE16_MODE then 0x10ffff else 0x7fffffff
  else 0xff.

(** A character that stands for itself in a data line. *)
Definition plain (test_mode : Z) (utf : bool) (c : Z) : Prop :=
  0 < c <= character_max test_mode utf /\ c <> 92.

(** [dbuffer] between two data lines: untouched since the program started,
    or an allocation of [2 ^ k] bytes that [cells] fills. *)
Definition buffer_ok (test_mode : Z) (m : dmem) : Prop :=
  m = initial_dmem \/
  exists (a : nat) (k : Z),
    dbuffer m = Some a /\ 14 <= k <= 62 /\ dbuffer_size m = 2 ^ k /\
    Z.of_nat (length (cells m)) * code_unit_size test_mode = 2 ^ k.

(** The scanning loop at work: [written] is what it has stored from the
    start of the allocation [a], [junk] the cells behind that, and no
    duplication block is open. *)
Definition writing (a : nat) (size needlen w : Z)
    (text written junk : list Z) : scan_st :=
  {| p := text; q := Z.of_nat (length written) * w; start_dup := None;
     needlen := needlen;
     mem := {| dbuffer := Some a; dbuffer_size := size;
               cells := written ++ junk |};
     out := [] |}.

(** The letters that the [switch] on the character after a backslash
    turns into a control character, with the character of each; the
    backslash itself stays what it is. *)
Definition control_escapes : list (Z * Z) :=
  [(97, 7); (98, 8); (101, 27); (102, 12); (110, 10); (114, 13); (116, 9);
   (118, 11); (92, 92)].

End EncoderTerms.

(** ** A subject in front of the matching loop *)

Module DriverTerms.
Import DataLine Modifiers Global.

(** The variables of the matching loop at a retry behind an empty match
    at [start]: the subject of [ulen] code units lies [pp] bytes into the
    buffer. *)
Definition retry_at (pp ulen start : Z) : gstate :=
  {| Global.pp := pp; len := ulen; Global.ulen := ulen; g_notempty := 1;
     gmatched := 1; dat_datctl := set_offset start zero_datctl;
     pat_patctl := zero_patctl; mdata := match_data_create 1;
     max_oveccount := 1; dfa_matched := 0; glog := [] |}.

End DriverTerms.

(** * Properties *)

(** ** Machine integers *)

Module MachineFacts.
Import DataLine.

Lemma sint_small (x : Z) : - 2 ^ 31 <= x < 2 ^ 31 -> sint x = x.
Proof. intros. unfold sint. rewrite Z.mod_small by lia. lia. Qed.

Lemma usize_small (x : Z) : 0 <= x < 2 ^ 64 -> usize x = x.
Proof. intros. unfold usize. apply Z.mod_small. lia. Qed.

End MachineFacts.

(** ** The codec *)

Module CodecFacts.
Import Codec CodecTerms.

(** Bitwise operations on disjoint ranges are additions. *)
Lemma land_disjoint (d y k : Z) :
  0 <= k -> 0 <= y < 2 ^ k -> d mod 2 ^ k = 0 -> Z.land d y = 0.
Proof.
  intros Hk Hy Hd.
  apply Z.bits_inj'; intros i Hi.
  rewrite Z.land_spec, Z.bits_0.
  destruct (Z.lt_ge_cases i k) as [Hlt | Hge].
  - rewrite <- (Z.mod_pow2_bits_low d k i) by lia.
    rewrite Hd, Z.bits_0. reflexivity.
  - rewrite <- (Z.mod_small y (2 ^ k)) by lia.
    rewrite Z.mod_pow2_bits_high by lia. apply andb_false_r.
Qed.

Lemma lor_disjoint_add (d y k : Z) :
  0 <= k -> 0 <= y < 2 ^ k -> d mod 2 ^ k = 0 -> Z.lor d y = d + y.
Proof.
  intros Hk Hy Hd.
  pose proof (land_disjoint d y k Hk Hy Hd) as H0.
  rewrite <- Z.lxor_lor by exact H0.
  symmetry. apply Z.add_nocarry_lxor. exact H0.
Qed.

Lemma land_low_mask (x k : Z) : 0 <= k -> Z.land x (2 ^ k - 1) = x mod 2 ^ k.
Proof.
  intros Hk. rewrite <- Z.land_ones by trivial.
  f_equal. rewrite Z.ones_equiv. lia.
Qed.

Lemma u32_small (x : Z) : 0 <= x < 2 ^ 32 -> u32 x = x.
Proof. intros. unfold u32. apply Z.mod_small. lia. Qed.

Lemma u8_small (x : Z) : 0 <= x < 256 -> u8 x = x.
Proof. intros. unfold u8. apply Z.mod_small. lia. Qed.

Lemma P6_pos n : 0 < P6 n.
Proof. unfold P6. apply Z.pow_pos_nonneg; lia. Qed.

Lemma P6_S n : P6 (S n) = 64 * P6 n.
Proof.
  unfold P6. replace (6 * Z.of_nat (S n)) with (6 + 6 * Z.of_nat n) by lia.
  rewrite Z.pow_add_r by lia. reflexivity.
Qed.

Lemma P6_0 : P6 0 = 1.
Proof. reflexivity. Qed.

Lemma lor_128 (x : Z) : 0 <= x < 64 -> Z.lor 128 x = 128 + x.
Proof. intros. apply (lor_disjoint_add 128 x 6); [lia | lia | reflexivity]. Qed.

Lemma land_63 (x : Z) : Z.land x 63 = x mod 64.
Proof. apply (land_low_mask x 6). lia. Qed.

Lemma ord_loop_spec n : forall c acc,
  0 <= c < 2 ^ 32 ->
  ord_loop n c acc = (c / P6 n, digits n c ++ acc).
Proof.
  induction n as [|n IH]; intros c acc Hc.
  - simpl. rewrite P6_0, Z.div_1_r. reflexivity.
  - cbn [ord_loop digits].
    rewrite Z.shiftr_div_pow2 by lia. change (2 ^ 6) with 64.
    assert (Hq : 0 <= c / 64 < 2 ^ 32).
    { split; [apply Z.div_pos; lia|].
      apply Z.div_lt_upper_bound; lia. }
    rewrite u32_small by exact Hq.
    rewrite IH by exact Hq.
    rewrite land_63, lor_128 by (apply Z.mod_pos_bound; lia).
    rewrite u8_small by (pose proof (Z.mod_pos_bound c 64); lia).
    rewrite P6_S, Z.div_div by (pose proof (P6_pos n); lia).
    rewrite <- app_assoc. reflexivity.
Qed.

Lemma digits_cons n : forall v,
  digits (S n) v = (128 + (v / P6 n) mod 64) :: digits n v.
Proof.
  induction n as [|n IH]; intros v.
  - simpl. rewrite P6_0, Z.div_1_r. reflexivity.
  - change (digits (S (S n)) v) with (digits (S n) (v / 64) ++ [128 + v mod 64]).
    rewrite IH. rewrite Z.div_div by (pose proof (P6_pos n); lia).
    rewrite <- P6_S. reflexivity.
Qed.

Lemma digits_length n v : length (digits n v) = n.
Proof.
  revert v; induction n as [|n IH]; intros v; simpl; trivial.
  rewrite length_app, IH. simpl. lia.
Qed.

Lemma land_c0_continuation (x : Z) :
  0 <= x < 64 -> Z.land (128 + x) 0xc0 = 0x80.
Proof.
  intros Hx.
  assert (H : Z.land (128 + x) 0xc0 = Z.land (Z.lor 128 x) (Z.lor 128 64)).
  { rewrite lor_128 by lia. reflexivity. }
  rewrite H. apply Z.bits_inj'; intros i Hi.
  rewrite Z.land_spec, !Z.lor_spec.
  destruct (Z.lt_ge_cases i 6) as [Hlt | Hge].
  - replace (Z.testbit 64 i) with false
      by (symmetry; apply (Z.pow2_bits_false 6 i); lia).
    rewrite orb_false_r, andb_comm.
    destruct (Z.testbit 128 i); simpl; trivial.
  - rewrite <- (Z.mod_small x (2 ^ 6)) by lia.
    rewrite Z.mod_pow2_bits_high by lia.
    rewrite orb_false_r.
    destruct (Z.eq_dec i 6) as [-> | Hne]; [reflexivity|].
    replace (Z.testbit 64 i) with false
      by (symmetry; apply (Z.pow2_bits_false 6 i); lia).
    rewrite orb_false_r. apply andb_diag.
Qed.

Lemma land_3f_continuation (x : Z) : 0 <= x < 64 -> Z.land (128 + x) 0x3f = x.
Proof.
  intros Hx. rewrite land_63.
  replace (128 + x) with (x + 2 * 64) by lia.
  rewrite Z.mod_add by lia. apply Z.mod_small. lia.
Qed.

Lemma cont_loop_spec n : forall j s d v rest,
  s = 6 * Z.of_nat n -> 0 <= d -> d mod P6 n = 0 -> d + P6 n <= 2 ^ 32 ->
  cont_loop n j s d (digits n v ++ rest) = inr (d + v mod P6 n).
Proof.
  induction n as [|n IH]; intros j s d v rest Hs Hd Hm Hb.
  - simpl. rewrite P6_0, Z.mod_1_r, Z.add_0_r. reflexivity.
  - rewrite digits_cons. cbn [app cont_loop peek hd advance skipn].
    pose proof (P6_pos n) as Hp. rewrite P6_S in Hm, Hb.
    set (x := (v / P6 n) mod 64).
    assert (Hx : 0 <= x < 64) by (apply Z.mod_pos_bound; lia).
    rewrite land_c0_continuation by exact Hx.
    change (negb (0x80 =? 0x80)) with false. cbv iota.
    rewrite land_3f_continuation by exact Hx.
    replace (s - 6) with (6 * Z.of_nat n) by lia.
    rewrite Z.shiftl_mul_pow2 by lia. fold (P6 n).
    rewrite u32_small by nia.
    rewrite (lor_disjoint_add d (x * P6 n) (6 * Z.of_nat (S n))).
    + rewrite skipn_O, IH; try lia.
      * f_equal. rewrite P6_S.
        rewrite (Z.mul_comm 64 (P6 n)), Z.rem_mul_r by lia.
        fold x. lia.
      * rewrite Z.add_mod, Z.mod_mul, Z.add_0_r, Z.mod_mod by lia.
        replace d with (d / (64 * P6 n) * 64 * P6 n).
        { apply Z.mod_mul. lia. }
        pose proof (Z.div_mod d (64 * P6 n) ltac:(lia)). nia.
      * nia.
    + lia.
    + fold (P6 (S n)). rewrite P6_S. nia.
    + fold (P6 (S n)). rewrite P6_S. exact Hm.
Qed.

(** A boolean property checked on [0, n) holds on [0, n). *)
Lemma below_forall (P : Z -> bool) (n : nat) :
  forallb P (map Z.of_nat (seq 0 n)) = true ->
  forall x, 0 <= x < Z.of_nat n -> P x = true.
Proof.
  intros H x Hx. rewrite forallb_forall in H. apply H.
  apply in_map_iff. exists (Z.to_nat x). split; [lia|].
  apply in_seq. lia.
Qed.

Lemma lead_ok_class (k : nat) (hi : Z) :
  (1 <= k <= 5)%nat -> 0 <= hi < 2 ^ (6 - Z.of_nat k) ->
  lead_ok (Z.of_nat k) hi = true.
Proof.
  intros Hk Hhi.
  assert (Hc : k = 1%nat \/ k = 2%nat \/ k = 3%nat \/ k = 4%nat \/ k = 5%nat)
    by lia.
  destruct Hc as [-> | [-> | [-> | [-> | ->]]]].
  - apply (below_forall (lead_ok 1) 32); [vm_compute; reflexivity | exact Hhi].
  - apply (below_forall (lead_ok 2) 16); [vm_compute; reflexivity | exact Hhi].
  - apply (below_forall (lead_ok 3) 8); [vm_compute; reflexivity | exact Hhi].
  - apply (below_forall (lead_ok 4) 4); [vm_compute; reflexivity | exact Hhi].
  - apply (below_forall (lead_ok 5) 2); [vm_compute; reflexivity | exact Hhi].
Qed.

Lemma ascii_ok_all (c : Z) : 0 <= c < 128 -> ascii_ok c = true.
Proof. apply (below_forall ascii_ok 128). vm_compute. reflexivity. Qed.

(** The class of a value: the index that both table scans stop at. *)
Lemma table1_index_class (c : Z) :
  0 <= c <= 0x7fffffff ->
  exists k : nat,
    (k <= 5)%nat /\ table1_index c = Z.of_nat k /\
    c < 2 ^ (if (k =? 0)%nat then 7 else 5 * Z.of_nat k + 6) /\
    (k <> 0%nat -> 128 <= c).
Proof.
  intros Hc. unfold table1_index, utf8_table1. cbn [table1_scan].
  repeat match goal with
         | |- context [?a <=? ?b] => destruct (Z.leb_spec a b)
         end.
  - exists 0%nat. cbn. repeat split; lia.
  - exists 1%nat. cbn. repeat split; lia.
  - exists 2%nat. cbn. repeat split; lia.
  - exists 3%nat. cbn. repeat split; lia.
  - exists 4%nat. cbn. repeat split; lia.
  - exists 5%nat. cbn. repeat split; lia.
  - lia.
Qed.

(** The bytes [ord2utf8] stores: the lead byte and the continuation bytes. *)
Lemma ord2utf8_bytes (c : Z) (k : nat) :
  0 <= c <= 0x7fffffff -> table1_index c = Z.of_nat k ->
  ord2utf8 c =
    (Z.of_nat k + 1,
     u8 (Z.lor (tbl utf8_table2 (Z.of_nat k)) (c / P6 k)) :: digits k c).
Proof.
  intros Hc Hk. unfold ord2utf8.
  destruct (Z.gtb_spec c 0x7fffffff) as [Hgt | _]; [lia|].
  rewrite Hk, Nat2Z.id, ord_loop_spec by lia.
  rewrite app_nil_r. reflexivity.
Qed.

Lemma ord2utf8_return (c : Z) :
  0 <= c <= 0x7fffffff ->
  fst (ord2utf8 c) = Z.of_nat (length (snd (ord2utf8 c))) /\ 0 < fst (ord2utf8 c).
Proof.
  intros Hc. destruct (table1_index_class c Hc) as (k & _ & Hk & _).
  rewrite (ord2utf8_bytes c k Hc Hk). cbn [fst snd length].
  rewrite digits_length. lia.
Qed.

(** Decoding what was encoded, with anything after it. *)
Lemma utf82ord_ord2utf8 (c : Z) (rest : list Z) :
  0 <= c <= 0x7fffffff ->
  utf82ord (snd (ord2utf8 c) ++ rest) = (fst (ord2utf8 c), Some c).
Proof.
  intros Hc. destruct (table1_index_class c Hc) as (k & Hk5 & Hk & Hlt & Hge).
  rewrite (ord2utf8_bytes c k Hc Hk). cbn [fst snd app].
  destruct k as [|k'].
  - cbn in Hlt. pose proof (ascii_ok_all c ltac:(lia)) as Ha.
    unfold ascii_ok in Ha. apply andb_prop in Ha as [Ha1 Ha2].
    apply Z.eqb_eq in Ha1, Ha2.
    change (tbl utf8_table2 (Z.of_nat 0)) with 0.
    rewrite P6_0, Z.div_1_r, Ha2.
    unfold utf82ord. cbn [peek hd]. rewrite Ha1. reflexivity.
  - remember (S k') as k eqn:Ek.
    assert (Hk1 : (1 <= k <= 5)%nat) by lia.
    clear Ek k'.
    pose proof (P6_pos k) as Hp.
    assert (Hpk : P6 k * 2 ^ (6 - Z.of_nat k) = 2 ^ (5 * Z.of_nat k + 6)).
    { unfold P6. rewrite <- Z.pow_add_r by lia. f_equal. lia. }
    assert (Hlt' : c < 2 ^ (5 * Z.of_nat k + 6)).
    { destruct k; [lia | exact Hlt]. }
    set (hi := c / P6 k).
    assert (Hhi : 0 <= hi < 2 ^ (6 - Z.of_nat k)).
    { subst hi. split; [apply Z.div_pos; lia|].
      apply Z.div_lt_upper_bound; [lia|]. rewrite Hpk. exact Hlt'. }
    pose proof (lead_ok_class k hi Hk1 Hhi) as Hl. unfold lead_ok in Hl.
    repeat (apply andb_prop in Hl as [Hl ?]).
    repeat match goal with
           | H : (_ =? _) = true |- _ => apply Z.eqb_eq in H
           | H : (_ <? _) = true |- _ => apply Z.ltb_lt in H
           | H : (_ <=? _) = true |- _ => apply Z.leb_le in H
           end.
    match goal with H : Z.lor _ hi = _ |- _ => rewrite H end.
    set (b := tbl utf8_table2 (Z.of_nat k) + hi) in *.
    rewrite u8_small by lia.
    unfold utf82ord. cbn [peek hd advance skipn]. rewrite Hl.
    replace (Z.of_nat k =? -1) with false by (symmetry; apply Z.eqb_neq; lia).
    replace (Z.of_nat k =? 0) with false by (symmetry; apply Z.eqb_neq; lia).
    replace (Z.of_nat k =? 6) with false by (symmetry; apply Z.eqb_neq; lia).
    cbn [orb]. cbv iota.
    match goal with H : Z.land b _ = hi |- _ => rewrite H end.
    rewrite Z.shiftl_mul_pow2 by lia. fold (P6 k).
    assert (Hd : hi * P6 k + P6 k <= 2 ^ 32).
    { assert (hi * P6 k + P6 k <= 2 ^ (5 * Z.of_nat k + 6)) by nia.
      assert (2 ^ (5 * Z.of_nat k + 6) <= 2 ^ 32)
        by (apply Z.pow_le_mono_r; lia).
      lia. }
    rewrite u32_small by nia.
    rewrite Nat2Z.id, skipn_O.
    rewrite (cont_loop_spec k 0 (6 * Z.of_nat k) (hi * P6 k) c rest);
      [| reflexivity | nia | apply Z.mod_mul; lia | exact Hd].
    replace (hi * P6 k + c mod P6 k) with c
      by (subst hi; pose proof (Z.div_mod c (P6 k) ltac:(lia)); lia).
    rewrite Hk, Z.eqb_refl. reflexivity.
Qed.

(** The first byte of an encoding starts no other way than this: it is the
    value itself below 0x80, and at least 0xc0 otherwise; no byte of the
    encoding of a non-zero value is zero. *)
Lemma ord2utf8_shape (c : Z) :
  0 <= c <= 0x7fffffff ->
  (c < 128 /\ snd (ord2utf8 c) = [c]) \/
  (exists b t, snd (ord2utf8 c) = b :: t /\ 0xc0 <= b < 256
               /\ Forall (fun x => 128 <= x) t).
Proof.
  intros Hc. destruct (table1_index_class c Hc) as (k & Hk5 & Hk & Hlt & Hge).
  rewrite (ord2utf8_bytes c k Hc Hk). cbn [snd].
  destruct k as [|k'].
  - left. cbn in Hlt. split; [lia|].
    pose proof (ascii_ok_all c ltac:(lia)) as Ha.
    unfold ascii_ok in Ha. apply andb_prop in Ha as [_ Ha2].
    apply Z.eqb_eq in Ha2.
    change (tbl utf8_table2 (Z.of_nat 0)) with 0.
    rewrite P6_0, Z.div_1_r, Ha2. reflexivity.
  - right. remember (S k') as k eqn:Ek.
    assert (Hk1 : (1 <= k <= 5)%nat) by lia. clear Ek k'.
    pose proof (P6_pos k) as Hp.
    assert (Hpk : P6 k * 2 ^ (6 - Z.of_nat k) = 2 ^ (5 * Z.of_nat k + 6)).
    { unfold P6. rewrite <- Z.pow_add_r by lia. f_equal. lia. }
    assert (Hlt' : c < 2 ^ (5 * Z.of_nat k + 6)).
    { destruct k; [lia | exact Hlt]. }
    set (hi := c / P6 k).
    assert (Hhi : 0 <= hi < 2 ^ (6 - Z.of_nat k)).
    { subst hi. split; [apply Z.div_pos; lia|].
      apply Z.div_lt_upper_bound; [lia|]. rewrite Hpk. exact Hlt'. }
    pose proof (lead_ok_class k hi Hk1 Hhi) as Hl. unfold lead_ok in Hl.
    repeat (apply andb_prop in Hl as [Hl ?]).
    repeat match goal with
           | H : (_ =? _) = true |- _ => apply Z.eqb_eq in H
           | H : (_ <? _) = true |- _ => apply Z.ltb_lt in H
           | H : (_ <=? _) = true |- _ => apply Z.leb_le in H
           end.
    match goal with H : Z.lor _ hi = _ |- _ => rewrite H end.
    rewrite u8_small by lia.
    eexists _, _. split; [reflexivity|]. split; [lia|].
    clear. generalize c. induction k as [|k IH]; intros v; cbn [digits].
    + constructor.
    + apply Forall_app. split; [apply IH|].
      constructor; [|constructor].
      pose proof (Z.mod_pos_bound v 64). lia.
Qed.

(** C2: for every code point [c] from 0 to 0x10FFFF outside the surrogate
    range, [utf82ord] applied to the bytes that [ord2utf8] wrote for [c]
    yields [c] and consumes as many bytes as [ord2utf8] returned, a positive
    number that is the number of bytes written. *)
Theorem utf82ord_inverts_ord2utf8 (c : Z) :
  0 <= c <= 0x10FFFF -> ~ (0xD800 <= c <= 0xDFFF) ->
  utf82ord (snd (ord2utf8 c)) = (fst (ord2utf8 c), Some c)
  /\ fst (ord2utf8 c) = Z.of_nat (length (snd (ord2utf8 c)))
  /\ 0 < fst (ord2utf8 c).
Proof.
  intros Hc _. assert (Hr : 0 <= c <= 0x7fffffff) by lia. split.
  - rewrite <- (app_nil_r (snd (ord2utf8 c))) at 1.
    apply utf82ord_ord2utf8. exact Hr.
  - apply ord2utf8_return. exact Hr.
Qed.

Lemma utf82ord_inverts_ord2utf8_witness :
  utf82ord (snd (ord2utf8 0x20AC)) = (fst (ord2utf8 0x20AC), Some 0x20AC)
  /\ fst (ord2utf8 0x20AC) = Z.of_nat (length (snd (ord2utf8 0x20AC)))
  /\ 0 < fst (ord2utf8 0x20AC).
Proof. apply (utf82ord_inverts_ord2utf8 0x20AC); lia. Defined.

End CodecFacts.

(** ** The 16-bit converter *)

Module WidthFacts.
Import Codec Width CodecTerms CodecFacts.

Lemma surrogate_units_small (c : Z) :
  0x10000 <= c <= 0x10ffff ->
  [u16 (Z.lor 0xD800 (Z.shiftr (u32 (c - 0x10000)) 10));
   u16 (Z.lor 0xDC00 (Z.land (u32 (c - 0x10000)) 0x3ff))] = units16 c.
Proof.
  intros Hc. unfold units16.
  destruct (Z.ltb_spec c 0x10000) as [Hlt | _]; [lia|].
  rewrite u32_small by lia.
  set (v := c - 0x10000). assert (Hv : 0 <= v < 2 ^ 20) by (subst v; lia).
  assert (Hhi : 0 <= Z.shiftr v 10 < 2 ^ 10).
  { rewrite Z.shiftr_div_pow2 by lia. split; [apply Z.div_pos; lia|].
    apply Z.div_lt_upper_bound; lia. }
  assert (Hlo : 0 <= Z.land v 0x3ff < 2 ^ 10).
  { replace (Z.land v 0x3ff) with (v mod 2 ^ 10)
      by (symmetry; apply (land_low_mask v 10); lia).
    apply Z.mod_pos_bound. lia. }
  rewrite (lor_disjoint_add 0xD800 _ 10), (lor_disjoint_add 0xDC00 _ 10);
    try lia; try reflexivity.
  unfold u16. rewrite !Z.mod_small by lia. reflexivity.
Qed.

Lemma utf8_text_cons c cs : utf8_text (c :: cs) = snd (ord2utf8 c) ++ utf8_text cs.
Proof. reflexivity. Qed.

Lemma to16_loop_points (utf : bool) : forall cs fuel pp,
  Forall (fun c => 0 <= c <= 0x7fffffff) cs ->
  (length (utf8_text cs) <= fuel)%nat ->
  to16_loop fuel (utf8_text cs) utf (Z.of_nat (length (utf8_text cs))) pp
  = Some (to16_points utf cs pp).
Proof.
  induction cs as [|c cs IH]; intros fuel pp Hcs Hfuel.
  - destruct fuel; reflexivity.
  - apply Forall_cons in Hcs as [Hc Hcs].
    rewrite utf8_text_cons in *.
    destruct (ord2utf8_return c Hc) as [Hn Hpos].
    rewrite length_app in *.
    destruct fuel as [|fuel]; [lia|].
    cbn [to16_loop to16_points].
    destruct (Z.gtb_spec (Z.of_nat (length (snd (ord2utf8 c)) + length (utf8_text cs))) 0)
      as [_ | Hle]; [|lia].
    cbn [negb]. rewrite utf82ord_ord2utf8 by exact Hc.
    destruct (Z.leb_spec (fst (ord2utf8 c)) 0) as [Hle | _]; [lia|].
    change (default 0 (Some c)) with c.
    destruct (Z.gtb_spec c 0x10ffff) as [Hbig | Hsmall]; [reflexivity|].
    assert (Hadv : advance (Z.to_nat (fst (ord2utf8 c)))
                     (snd (ord2utf8 c) ++ utf8_text cs) = utf8_text cs).
    { unfold advance. rewrite Hn, Nat2Z.id. apply drop_app_length. }
    assert (Hlen : Z.of_nat (length (snd (ord2utf8 c)) + length (utf8_text cs))
                   - fst (ord2utf8 c) = Z.of_nat (length (utf8_text cs))) by lia.
    rewrite Hadv, Hlen.
    destruct (Z.ltb_spec c 0x10000) as [Hbmp | Hsup].
    + unfold u16. rewrite Z.mod_small by lia. apply IH; [exact Hcs | lia].
    + destruct utf; cbn [negb]; [|reflexivity].
      rewrite surrogate_units_small by lia. apply IH; [exact Hcs | lia].
Qed.

Lemma to16_points_run (size : Z) (utf : bool) (cs : list Z) :
  Forall (fun c => 0 <= c <= 0x7fffffff) cs ->
  exists r,
    to16 size (utf8_text cs) utf (Z.of_nat (length (utf8_text cs))) = Some r
    /\ (to16_rc r, to16_units r) = to16_points utf cs [].
Proof.
  intros Hcs. unfold to16.
  rewrite Nat2Z.id, to16_loop_points by (trivial; lia).
  destruct (to16_points utf cs []) as [rc units]. eexists. split; reflexivity.
Qed.

Lemma points_reject_utf : forall cs pp,
  Exists (fun c => c > 0x10ffff) cs -> fst (to16_points true cs pp) = -2.
Proof.
  induction cs as [|c cs IH]; intros pp Hex; [inversion Hex|].
  cbn [to16_points].
  destruct (Z.gtb_spec c 0x10ffff) as [Hbig | Hsmall]; [reflexivity|].
  apply Exists_cons in Hex as [Hex | Hex]; [lia|].
  destruct (c <? 0x10000); cbn [negb]; apply IH; exact Hex.
Qed.

Lemma points_first_raw (c : Z) (post : list Z) : forall pre pp,
  Forall (fun c => c <= 0xffff) pre -> 0xffff < c ->
  to16_points false (pre ++ c :: post) pp
  = (if c >? 0x10ffff then -2 else -3, pp ++ pre).
Proof.
  induction pre as [|x pre IH]; intros pp Hpre Hc.
  - cbn [app to16_points]. rewrite app_nil_r.
    destruct (c >? 0x10ffff); [reflexivity|].
    destruct (Z.ltb_spec c 0x10000); [lia | reflexivity].
  - apply Forall_cons in Hpre as [Hx Hpre]. cbn [app to16_points].
    destruct (Z.gtb_spec x 0x10ffff); [lia|].
    destruct (Z.ltb_spec x 0x10000); [|lia].
    rewrite IH by trivial. rewrite <- app_assoc. reflexivity.
Qed.

Lemma points_reject_raw_in_range : forall cs pp,
  Exists (fun c => c > 0xffff) cs -> Forall (fun c => c <= 0x10ffff) cs ->
  fst (to16_points false cs pp) = -3.
Proof.
  induction cs as [|c cs IH]; intros pp Hex Hall; [inversion Hex|].
  apply Forall_cons in Hall as [Hc Hall].
  cbn [to16_points].
  destruct (Z.gtb_spec c 0x10ffff) as [Hbig | Hsmall]; [lia|].
  destruct (Z.ltb_spec c 0x10000) as [Hbmp | Hsup].
  - apply Exists_cons in Hex as [Hex | Hex]; [lia|]. apply IH; trivial.
  - reflexivity.
Qed.

Lemma points_single_units (utf : bool) : forall cs pp,
  Forall (fun c => c <= 0xffff) cs ->
  to16_points utf cs pp = (Z.of_nat (length (pp ++ cs)), pp ++ cs ++ [0]).
Proof.
  induction cs as [|c cs IH]; intros pp Hall.
  - cbn. rewrite app_nil_r. reflexivity.
  - apply Forall_cons in Hall as [Hc Hall]. cbn [to16_points].
    destruct (Z.gtb_spec c 0x10ffff) as [Hbig | _]; [lia|].
    destruct (Z.ltb_spec c 0x10000) as [_ | Hsup]; [|lia].
    rewrite IH by exact Hall. rewrite <- !app_assoc. reflexivity.
Qed.

Lemma points_utf16 : forall cs pp,
  Forall (fun c => c <= 0x10ffff) cs ->
  to16_points true cs pp =
    (Z.of_nat (length (pp ++ flat_map units16 cs)),
     pp ++ flat_map units16 cs ++ [0]).
Proof.
  induction cs as [|c cs IH]; intros pp Hall.
  - cbn. rewrite app_nil_r. reflexivity.
  - apply Forall_cons in Hall as [Hc Hall]. cbn [to16_points flat_map].
    destruct (Z.gtb_spec c 0x10ffff) as [Hbig | _]; [lia|].
    destruct (Z.ltb_spec c 0x10000) as [Hbmp | Hsup].
    + rewrite IH by exact Hall.
      assert (Hu : units16 c = [c]).
      { unfold units16. destruct (Z.ltb_spec c 0x10000); [reflexivity | lia]. }
      rewrite Hu, <- !app_assoc. reflexivity.
    + cbn [negb]. rewrite IH by exact Hall.
      rewrite <- !app_assoc. reflexivity.
Qed.

(** C8 (what the code does, against the comment in front of it): on the
    UTF-8 text of the code points [cs], [to16] returns
    - in UTF mode, -2 when a code point is above 0x10FFFF;
    - in non-UTF mode, at the first code point [c] above 0xFFFF, -3 when
      [c] is at most 0x10FFFF, but -2, the value that the comment keeps for
      UTF mode, when [c] is above 0x10FFFF: the test of [c > 0x10ffff] comes
      before the one of [utf]; the items stored are those in front of [c];
    - in non-UTF mode, -3 when a code point is above 0xFFFF and none above
      0x10FFFF;
    - when every code point is at most 0xFFFF, surrogates among them, the
      code points themselves as single items, in either mode;
    - in UTF mode, when every code point is at most 0x10FFFF, the items of
      [units16]: one item below 0x10000, the surrogate pair from there. *)
Theorem to16_policy (size : Z) (cs : list Z) :
  Forall (fun c => 0 <= c <= 0x7fffffff) cs ->
  let text := utf8_text cs in
  let len := Z.of_nat (length text) in
  (Exists (fun c => c > 0x10ffff) cs ->
   exists r, to16 size text true len = Some r /\ to16_rc r = -2)
  /\ (forall pre c post,
      cs = pre ++ c :: post -> Forall (fun c => c <= 0xffff) pre ->
      0xffff < c ->
      exists r, to16 size text false len = Some r
                /\ to16_rc r = (if c >? 0x10ffff then -2 else -3)
                /\ to16_units r = pre)
  /\ (Exists (fun c => c > 0xffff) cs -> Forall (fun c => c <= 0x10ffff) cs ->
      exists r, to16 size text false len = Some r /\ to16_rc r = -3)
  /\ (Forall (fun c => c <= 0xffff) cs -> forall utf,
      exists r, to16 size text utf len = Some r
                /\ to16_rc r = Z.of_nat (length cs)
                /\ to16_units r = cs ++ [0])
  /\ (Forall (fun c => c <= 0x10ffff) cs ->
      exists r, to16 size text true len = Some r
                /\ to16_rc r = Z.of_nat (length (flat_map units16 cs))
                /\ to16_units r = flat_map units16 cs ++ [0]).
Proof.
  intros Hcs text len.
  assert (Hrun : forall utf, exists r,
             to16 size text utf len = Some r
             /\ to16_rc r = fst (to16_points utf cs [])
             /\ to16_units r = snd (to16_points utf cs [])).
  { intros utf. destruct (to16_points_run size utf cs Hcs) as (r & Hr & E).
    exists r. split; [exact Hr|]. rewrite <- E. split; reflexivity. }
  repeat split.
  - intros Hex. destruct (Hrun true) as (r & Hr & Hrc & _).
    exists r. split; [exact Hr|]. rewrite Hrc. apply points_reject_utf, Hex.
  - intros pre c post Ecs Hpre Hc. destruct (Hrun false) as (r & Hr & Hrc & Hu).
    exists r. split; [exact Hr|].
    rewrite Hrc, Hu, Ecs, (points_first_raw c post pre [] Hpre Hc).
    split; reflexivity.
  - intros Hex Hall. destruct (Hrun false) as (r & Hr & Hrc & _).
    exists r. split; [exact Hr|]. rewrite Hrc.
    apply points_reject_raw_in_range; assumption.
  - intros Hall utf. destruct (Hrun utf) as (r & Hr & Hrc & Hu).
    exists r. split; [exact Hr|].
    rewrite Hrc, Hu, (points_single_units utf cs [] Hall). split; reflexivity.
  - intros Hall. destruct (Hrun true) as (r & Hr & Hrc & Hu).
    exists r. split; [exact Hr|].
    rewrite Hrc, Hu, (points_utf16 cs [] Hall). split; reflexivity.
Qed.

Lemma to16_policy_witness :
  exists r,
    to16 0 (utf8_text [0x41; 0x110000]) false 5 = Some r
    /\ to16_rc r = -2
    /\ to16_units r = [0x41].
Proof.
  refine (proj1 (proj2 (to16_policy 0 [0x41; 0x110000] _))
            [0x41] 0x110000 [] eq_refl _ _).
  - repeat constructor; lia.
  - repeat constructor; lia.
  - lia.
Defined.

End WidthFacts.

(** ** The data-line encoder *)

Module DataLineFacts.
Import Codec DataLine Modifiers Global CodecTerms DataLineTerms Samples.
Import MachineFacts CodecFacts WidthFacts.

Lemma isspace_ascii (c : Z) : isspace c = true -> 0 < c < 128.
Proof.
  unfold isspace. intros H. apply orb_prop in H as [H | H].
  - apply Z.eqb_eq in H. lia.
  - apply andb_prop in H as [H1 H2]. apply Z.leb_le in H1, H2. lia.
Qed.

(** The text of code points that are not 0 holds no NUL. *)
Lemma utf8_text_no_nul (cs : list Z) :
  Forall (fun c => 0 < c <= 0x7fffffff) cs ->
  Forall (fun x => x <> 0) (utf8_text cs).
Proof.
  induction 1 as [|c cs Hc Hcs IH]; [constructor|].
  rewrite utf8_text_cons. apply Forall_app. split; [|exact IH].
  destruct (ord2utf8_shape c ltac:(lia)) as [[_ ->] | (b & t & -> & Hb & Ht)].
  - constructor; [lia | constructor].
  - constructor; [lia|]. eapply Forall_impl; [exact Ht|]. cbn. lia.
Qed.

Lemma utf82ord_continuation (b : Z) (r : list Z) :
  0x80 <= b <= 0xBF -> fst (utf82ord (b :: r)) = 0.
Proof.
  intros Hb. unfold utf82ord. cbn [peek hd].
  assert (H : lead_loop 7 (-1) b = 0).
  { apply Z.eqb_eq.
    pose proof (below_forall
             (fun x => if (0x80 <=? x) && (x <=? 0xBF)
                       then lead_loop 7 (-1) x =? 0 else true) 256
             ltac:(vm_compute; reflexivity) b ltac:(lia)) as Hx.
    cbv beta in Hx.
    destruct (Z.leb_spec 0x80 b); [|lia].
    destruct (Z.leb_spec b 0xBF); [|lia]. exact Hx. }
  rewrite H. reflexivity.
Qed.

Lemma peek_text_nonzero (c : Z) (l : list Z) :
  0 < c <= 0x7fffffff -> peek (snd (ord2utf8 c) ++ l) <> 0.
Proof.
  intros Hc.
  destruct (ord2utf8_shape c ltac:(lia)) as [[_ ->] | (f & t & -> & Hf & _)];
    cbn; lia.
Qed.

Section Scan.
Variable test_mode : Z.
Variable utf : bool.
Variable allocator : option nat -> Z -> option bool.

Lemma advance_1 (c : Z) (l : list Z) : advance 1 (c :: l) = l.
Proof. reflexivity. Qed.

Lemma read_decimal_zeros (zs : list Z) (rest : list Z) :
  Forall (fun z => z = 48) zs -> isdigit (peek rest) = false ->
  read_decimal (zs ++ rest) 0 = (0, rest).
Proof.
  intros Hz Hr. induction Hz as [|z zs -> Hz IH]; cbn [app].
  - destruct rest as [|c rest]; [reflexivity|].
    cbn [read_decimal]. cbn in Hr. rewrite Hr. reflexivity.
  - cbn [read_decimal]. change (isdigit 48) with true. cbv iota.
    change (sint (0 * 10 + 48 - 48)) with 0. exact IH.
Qed.

(** A closing bracket with a zero count, met inside a duplication block,
    ends the scan with the diagnostic. *)
Lemma scan_zero_repeat (s : scan_st) (src : dptr) (zs rest : list Z)
    (fuel : nat) :
  start_dup s = Some src ->
  p s = 93 :: 123 :: zs ++ 125 :: rest ->
  Forall (fun z => z = 48) zs ->
  scan_loop test_mode utf allocator (S fuel) s
  = Some (Return (say Zero_repeat (set_p rest s))).
Proof.
  intros Hsrc Hp Hz. cbn [scan_loop]. rewrite Hp. cbn [peek hd].
  change (93 =? 0) with false. cbv iota.
  unfold scan_body. change (93 =? 93) with true. cbv iota.
  cbn [start_dup set_p]. rewrite Hsrc.
  unfold close_dup. cbn [p set_p]. rewrite !advance_1. cbn [peek hd].
  change (negb (123 =? 123)) with false. cbv iota.
  rewrite read_decimal_zeros by (trivial; reflexivity).
  cbn [peek hd]. change (negb (125 =? 125)) with false. cbv iota.
  change (0 =? 0) with true. cbv iota. rewrite advance_1. reflexivity.
Qed.

(** An opening of a block inside a block ends the scan with the
    diagnostic. *)
Lemma scan_nested (s : scan_st) (src : dptr) (rest : list Z) (fuel : nat) :
  start_dup s = Some src ->
  p s = 92 :: 91 :: rest ->
  scan_loop test_mode utf allocator (S fuel) s
  = Some (Return (say Nested_duplication (set_p rest s))).
Proof.
  intros Hsrc Hp. cbn [scan_loop]. rewrite Hp. cbn [peek hd].
  change (92 =? 0) with false. cbv iota.
  unfold scan_body. change (92 =? 93) with false. cbv iota.
  change (negb (92 =? 92)) with false. cbv iota.
  unfold escape. cbn [p set_p]. rewrite !advance_1.
  cbn [p set_p peek hd start_dup].
  change (91 =? 0) with false. cbv iota.
  repeat match goal with
         | |- context [91 =? ?k] =>
             lazymatch k with
             | 91 => fail
             | _ => change (91 =? k) with false
             end
         end.
  cbn [andb]. change (48 <=? 91) with true. change (91 <=? 55) with false.
  cbn [andb]. change (91 =? 91) with true. cbv iota.
  rewrite Hsrc. reflexivity.
Qed.

End Scan.

Lemma isdigit_range (d : Z) : isdigit d = true -> 48 <= d <= 57.
Proof.
  unfold isdigit. intros H. apply andb_prop in H as [H1 H2].
  apply Z.leb_le in H1, H2. lia.
Qed.

Lemma decimal_mono : forall ds acc,
  Forall (fun d => isdigit d = true) ds -> 0 <= acc -> acc <= decimal ds acc.
Proof.
  induction ds as [|d ds IH]; intros acc Hds Hacc; cbn; [lia|].
  apply Forall_cons in Hds as [Hd Hds]. apply isdigit_range in Hd.
  etransitivity; [|apply IH; trivial; lia]. lia.
Qed.

Lemma read_decimal_digits : forall ds acc rest,
  Forall (fun d => isdigit d = true) ds -> isdigit (peek rest) = false ->
  0 <= acc -> decimal ds acc < 2 ^ 31 ->
  read_decimal (ds ++ rest) acc = (decimal ds acc, rest).
Proof.
  induction ds as [|d ds IH]; intros acc rest Hds Hr Hacc Hv; cbn [app].
  - destruct rest as [|c rest]; [reflexivity|].
    cbn [read_decimal]. cbn in Hr. rewrite Hr. reflexivity.
  - apply Forall_cons in Hds as [Hd Hds]. cbn [read_decimal]. rewrite Hd.
    pose proof (isdigit_range d Hd) as Hd'.
    cbn [decimal fold_left] in Hv. fold (decimal ds (acc * 10 + (d - 48))) in Hv.
    pose proof (decimal_mono ds (acc * 10 + (d - 48)) Hds ltac:(lia)).
    replace (acc * 10 + d - 48) with (acc * 10 + (d - 48)) by lia.
    rewrite sint_small by lia.
    apply IH; trivial; lia.
Qed.

(** The copying loop at 8-bit width: with [k] copies of the block already
    behind [q] and room for [n] more, it appends [n] copies. *)
Lemma dup_copy_appends (a : nat) (pre block : list Z) : forall n k tail s,
  dbuffer (mem s) = Some a ->
  cells (mem s) = pre ++ block ++ concat (replicate k block) ++ tail ->
  dbuffer_size (mem s) = Z.of_nat (length (cells (mem s))) ->
  q s = Z.of_nat (length pre + (S k) * length block) ->
  (n * length block <= length tail)%nat ->
  exists s',
    dup_copy 8 n (a, Z.of_nat (length pre)) (Z.of_nat (length block)) s
      = Continue s' /\
    dbuffer (mem s') = Some a /\
    dbuffer_size (mem s') = dbuffer_size (mem s) /\
    cells (mem s') = pre ++ block ++ concat (replicate (k + n) block)
                     ++ drop (n * length block) tail /\
    q s' = Z.of_nat (length pre + (S (k + n)) * length block) /\
    p s' = p s /\ start_dup s' = start_dup s /\ needlen s' = needlen s /\
    out s' = out s.
Proof.
  induction n as [|n IH]; intros k tail s Ha Hcells Hsize Hq Hroom.
  - exists s. cbn [dup_copy]. rewrite Nat.add_0_r, Nat.mul_0_l, drop_0.
    repeat split; trivial.
  - assert (Hroom' : (length block + n * length block <= length tail)%nat)
      by nia.
    cbn [dup_copy]. unfold memcpy_dup. rewrite Ha. cbn [fst snd].
    rewrite Nat.eqb_refl. cbn [negb].
    assert (Hlen : length (cells (mem s)) =
                   (length pre + length block + k * length block
                    + length tail)%nat).
    { rewrite Hcells, !length_app, length_concat.
      rewrite fmap_replicate, sum_list_replicate. lia. }
    assert (Hb : (0 <=? Z.of_nat (length pre)) &&
                 (Z.of_nat (length pre) + Z.of_nat (length block)
                  <=? dbuffer_size (mem s)) && (0 <=? q s)
                 && (q s + Z.of_nat (length block) <=? dbuffer_size (mem s))
                 = true).
    { rewrite Hsize, Hq, Hlen.
      repeat (apply andb_true_intro; split); apply Z.leb_le; lia. }
    rewrite Hb. cbn [negb].
    change (code_unit_size 8) with 1. rewrite !Z.div_1_r, !Nat2Z.id, Hq, Nat2Z.id.
    rewrite Z.mul_1_r.
    set (s1 := set_q _ _).
    assert (Hblock : take (length block) (drop (length pre) (cells (mem s)))
                     = block).
    { rewrite Hcells, drop_app_length, take_app_length. reflexivity. }
    assert (Hhead : take (length pre + S k * length block) (cells (mem s))
                    = pre ++ block ++ concat (replicate k block)).
    { rewrite Hcells, !app_assoc. apply take_app_length'.
      rewrite !length_app, length_concat, fmap_replicate, sum_list_replicate.
      lia. }
    assert (Htail : drop (length pre + S k * length block + length block)
                      (cells (mem s)) = drop (length block) tail).
    { rewrite Hcells, !app_assoc.
      rewrite drop_app_ge
        by (rewrite !length_app, length_concat, fmap_replicate,
              sum_list_replicate; lia).
      f_equal.
      rewrite !length_app, length_concat, fmap_replicate, sum_list_replicate.
      lia. }
    destruct (IH (S k) (drop (length block) tail) s1) as (s' & Hrun & Hres).
    + reflexivity.
    + subst s1. cbn [mem set_q set_mem cells].
      rewrite Hblock, Hhead, Htail.
      replace (S k) with (k + 1)%nat by lia.
      rewrite replicate_add, concat_app. cbn [replicate concat].
      rewrite app_nil_r, <- !app_assoc. reflexivity.
    + subst s1. cbn [mem set_q set_mem cells dbuffer_size].
      rewrite Hblock, Hhead, Htail, Hsize, Hcells.
      f_equal. rewrite !length_app, !length_concat, !fmap_replicate,
        !sum_list_replicate, length_drop.
      lia.
    + subst s1. cbn [q set_q set_mem]. rewrite Hq. nia.
    + rewrite length_drop. lia.
    + exists s'. rewrite Hrun. split; [reflexivity|].
      destruct Hres as (Ha' & Hsz' & Hc' & Hq' & Hp' & Hsd' & Hn' & Ho').
      subst s1. cbn [mem set_q set_mem cells dbuffer_size p start_dup needlen out]
        in *.
      repeat split; trivial.
      * rewrite Hc', drop_drop.
        replace (S k + n)%nat with (k + S n)%nat by lia.
        replace (length block + n * length block)%nat
          with (S n * length block)%nat by lia.
        reflexivity.
      * rewrite Hq'. f_equal. lia.
Qed.

Lemma dup_grow_enough (test_mode : Z)
    (allocator : option nat -> Z -> option bool)
    (fuel : nat) (qoffset : Z) (s : scan_st) :
  needlen s < dbuffer_size (mem s) ->
  dup_grow test_mode allocator fuel qoffset s = Some (Continue s).
Proof.
  intros H. destruct fuel; cbn [dup_grow];
    destruct (Z.geb_spec (needlen s) (dbuffer_size (mem s))); try lia;
    reflexivity.
Qed.

(** Closing a block at 8-bit width, when the buffer has room and need not
    grow: the block [block], written since the opening, ends up [N] times
    in a row. *)
Lemma close_dup_replays (allocator : option nat -> Z -> option bool)
    (s : scan_st) (a : nat)
    (pre block tail ds rest : list Z) :
  let N := decimal ds 0 in
  dbuffer (mem s) = Some a ->
  cells (mem s) = pre ++ block ++ tail ->
  dbuffer_size (mem s) = Z.of_nat (length (cells (mem s))) ->
  dbuffer_size (mem s) < 2 ^ 64 ->
  q s = Z.of_nat (length pre + length block) ->
  p s = 123 :: ds ++ 125 :: rest ->
  Forall (fun d => isdigit d = true) ds -> 1 <= N < 2 ^ 31 ->
  0 <= needlen s + Z.of_nat (length block) * (N - 2) < dbuffer_size (mem s) ->
  (N - 1) * Z.of_nat (length block) <= Z.of_nat (length tail) ->
  exists s',
    close_dup 8 allocator (a, Z.of_nat (length pre)) s = Some (Continue s') /\
    cells (mem s') = pre ++ concat (replicate (Z.to_nat N) block)
                     ++ drop (Z.to_nat (N - 1) * length block) tail /\
    q s' = Z.of_nat (length pre) + N * Z.of_nat (length block) /\
    p s' = rest /\ start_dup s' = None /\ out s' = out s /\
    dbuffer (mem s') = Some a /\ dbuffer_size (mem s') = dbuffer_size (mem s).
Proof.
  intros N Ha Hcells Hsize Hmax Hq Hp Hds HN Hneed Hroom.
  unfold close_dup. rewrite Hp, advance_1. cbn [peek hd].
  change (negb (123 =? 123)) with false. cbv iota.
  rewrite read_decimal_digits by (trivial; try reflexivity; fold N; lia).
  fold N. cbn [peek hd]. change (negb (125 =? 125)) with false. cbv iota.
  destruct (Z.eqb_spec N 0) as [|_]; [lia|].
  cbn [mem set_p]. rewrite Ha. cbn [fst snd]. rewrite Nat.eqb_refl. cbn [negb].
  cbn [q set_p needlen]. rewrite Hq.
  assert (Hlen : length (cells (mem s)) =
                 (length pre + length block + length tail)%nat).
  { rewrite Hcells, !length_app. lia. }
  rewrite (sint_small (N - 1)) by lia.
  rewrite (sint_small (N - 1 - 1)) by lia.
  replace (Z.of_nat (length pre + length block) - Z.of_nat (length pre))
    with (Z.of_nat (length block)) by lia.
  rewrite (usize_small (Z.of_nat (length block))) by lia.
  replace (N - 1 - 1) with (N - 2) by lia.
  rewrite usize_small by lia.
  set (s0 := set_needlen _ _).
  rewrite dup_grow_enough by (subst s0; cbn [needlen set_needlen mem set_p]; lia).
  destruct (dup_copy_appends a pre block (Z.to_nat (N - 1)) 0 tail s0)
    as (s' & Hrun & Ha' & Hsz' & Hc' & Hq' & Hp' & Hsd' & Hn' & Ho').
  - exact Ha.
  - subst s0. cbn [mem set_needlen set_p]. rewrite app_nil_l. exact Hcells.
  - exact Hsize.
  - subst s0. cbn [q set_needlen set_p]. rewrite Hq. f_equal. lia.
  - nia.
  - rewrite Hrun. eexists. split; [reflexivity|].
    cbn [mem set_start_dup q p start_dup out].
    subst s0. cbn [mem set_needlen set_p p out] in *.
    replace (S (0 + Z.to_nat (N - 1))) with (Z.to_nat N) in Hq' by lia.
    change (0 + Z.to_nat (N - 1))%nat with (Z.to_nat (N - 1)) in Hc'.
    repeat split; trivial.
    + rewrite Hc'.
      replace (Z.to_nat N) with (S (Z.to_nat (N - 1))) by lia.
      cbn [replicate concat]. rewrite <- app_assoc. reflexivity.
    + rewrite Hq'. nia.
Qed.

(** Up to the eighth digit every digit is shifted in. *)
Lemma brace_hex_first_digits : forall ds i c w tail,
  Forall (fun d => isxdigit d = true) ds ->
  0 <= i -> i + Z.of_nat (length ds) < 9 ->
  brace_hex (ds ++ tail) i c w
  = brace_hex tail (i + Z.of_nat (length ds)) (hex_value ds c) w.
Proof.
  induction ds as [|d ds IH]; intros i c w tail Hds Hi Hlen.
  - cbn [app length hex_value fold_left]. rewrite Z.add_0_r. reflexivity.
  - inversion Hds as [|? ? Hd Hds']; subst.
    cbn [app brace_hex]. rewrite Hd. cbv zeta.
    cbn [length] in Hlen. rewrite sint_small by lia.
    destruct (Z.eqb_spec (i + 1) 9); [lia|].
    rewrite IH by (trivial; lia).
    cbn [length hex_value fold_left]. f_equal. lia.
Qed.

(** After the ninth digit every digit is shifted in again. *)
Lemma brace_hex_later_digits : forall ds i c w tail,
  Forall (fun d => isxdigit d = true) ds -> isxdigit (peek tail) = false ->
  9 <= i -> i + Z.of_nat (length ds) < 2 ^ 31 ->
  brace_hex (ds ++ tail) i c w
  = (i + Z.of_nat (length ds), hex_value ds c, tail, w).
Proof.
  induction ds as [|d ds IH]; intros i c w tail Hds Htail Hi Hlen.
  - cbn [app length hex_value fold_left]. rewrite Z.add_0_r.
    destruct tail as [|x tail]; [reflexivity|].
    cbn [brace_hex]. cbn [peek hd] in Htail. rewrite Htail. reflexivity.
  - inversion Hds as [|? ? Hd Hds']; subst.
    cbn [app brace_hex]. rewrite Hd. cbv zeta.
    cbn [length] in Hlen. rewrite sint_small by lia.
    destruct (Z.eqb_spec (i + 1) 9); [lia|].
    rewrite IH by (trivial; lia).
    cbn [length hex_value fold_left]. rewrite Nat2Z.inj_succ.
    replace (i + 1 + Z.of_nat (length ds))
      with (i + Z.succ (Z.of_nat (length ds))) by lia.
    reflexivity.
Qed.

(** More than eight digits: the ninth gives the warning and is left out,
    and that digit only. *)
Lemma brace_hex_ninth_digit (first : list Z) (ninth : Z) (later tail : list Z) :
  length first = 8%nat ->
  Forall (fun d => isxdigit d = true) (first ++ ninth :: later) ->
  isxdigit (peek tail) = false ->
  Z.of_nat (length later) < 2 ^ 31 - 9 ->
  brace_hex (first ++ ninth :: later ++ tail) 0 0 []
  = (9 + Z.of_nat (length later), hex_value later (hex_value first 0), tail,
     [Too_many_hex_digits]).
Proof.
  intros Hlen Hds Htail Hlater.
  apply Forall_app in Hds as [Hfirst Hrest].
  inversion Hrest as [|? ? Hninth Hlater']; subst.
  rewrite brace_hex_first_digits by (trivial; lia).
  rewrite Hlen. cbn [brace_hex]. rewrite Hninth. cbv zeta.
  change (sint (0 + Z.of_nat 8 + 1)) with 9. change (9 =? 9) with true.
  cbv iota. rewrite brace_hex_later_digits by (trivial; lia).
  reflexivity.
Qed.

(** C7 (what the code does): in a brace-delimited hex escape of more than
    eight digits the encoder gives the warning and leaves the ninth digit
    out, but shifts the tenth and every later digit into the value; so
    [\x{1234567890}] gives 0x23456780 at 32-bit width, where the first
    eight digits are 0x12345678.  Without a closing brace the escape is
    read as [\x] with no digit, a zero, and the brace and the digits follow
    as text. *)
Theorem hex_brace_later_digits_count (test_mode : Z) (utf : bool)
    (s : scan_st) (first : list Z) (ninth : Z) (later rest : list Z) :
  p s = 120 :: 123 :: first ++ ninth :: later ++ 125 :: rest ->
  length first = 8%nat ->
  Forall (fun d => isxdigit d = true) (first ++ ninth :: later) ->
  Z.of_nat (length later) < 2 ^ 31 - 9 ->
  escape test_mode utf s
  = commit test_mode utf (hex_value later (hex_value first 0))
      (set_p rest (say Too_many_hex_digits s))
  /\ subject_of 32 (encode_data_line 32 false in_place false
                      (line_of "\x{1234567890}") initial_dmem)
     = Some [0x23456780]
  /\ hex_value (line_of "12345678") 0 = 0x12345678
  /\ subject_of 8 (encode_data_line 8 false in_place false
                     (line_of "\x{41") initial_dmem)
     = Some (0 :: line_of "{41").
Proof.
  intros Hp Hlen Hds Hlater.
  split; [|repeat split; vm_compute; reflexivity].
  unfold escape. rewrite Hp. cbn [peek hd].
  change (120 =? 0) with false. cbv iota zeta.
  cbn [p set_p advance skipn peek hd].
  change (120 =? 92) with false. change (120 =? 97) with false.
  change (120 =? 98) with false. change (120 =? 101) with false.
  change (120 =? 102) with false. change (120 =? 110) with false.
  change (120 =? 114) with false. change (120 =? 116) with false.
  change (120 =? 118) with false.
  change ((48 <=? 120) && (120 <=? 55)) with false.
  change (120 =? 111) with false. change (120 =? 120) with true.
  change (123 =? 123) with true. cbv iota.
  rewrite skipn_O.
  rewrite (brace_hex_ninth_digit first ninth later (125 :: rest))
    by (trivial; reflexivity).
  cbn [peek hd skipn says fold_left]. change (125 =? 125) with true.
  cbv iota. reflexivity.
Qed.

Lemma hex_brace_later_digits_count_witness :
  escape 32 false
    {| p := line_of "x{1234567890}"; q := 0; start_dup := None;
       needlen := 56;
       mem := {| dbuffer := Some 0%nat; dbuffer_size := 64;
                 cells := replicate 16 0 |};
       out := [] |}
  = commit 32 false (hex_value [48] (hex_value (line_of "12345678") 0))
      (set_p []
         (say Too_many_hex_digits
            {| p := line_of "x{1234567890}"; q := 0; start_dup := None;
               needlen := 56;
               mem := {| dbuffer := Some 0%nat; dbuffer_size := 64;
                         cells := replicate 16 0 |};
               out := [] |})).
Proof.
  refine (proj1 (hex_brace_later_digits_count 32 false _
                   (line_of "12345678") 57 [48] [] _ _ _ _)).
  - reflexivity.
  - reflexivity.
  - repeat constructor.
  - vm_compute. reflexivity.
Defined.

(** C3 (as the code has it): the block is closed by a plain [ ] ], not by
    [\]].  At 8-bit width, when the closing bracket of a block is met with
    the bytes [block] written since [\[], a count [N] of at least 1 follows
    in braces and the buffer has room, the block is copied N - 1 more times
    behind itself, N copies in all; [\[] inside an open block is rejected;
    and the data line [A\[BC]{3}D] gives the subject [ABCBCBCD], whether
    the allocator moves the buffer or not. *)
Theorem duplication_replays (allocator : option nat -> Z -> option bool)
    (s : scan_st) (a : nat) (pre block tail ds rest : list Z) :
  let N := decimal ds 0 in
  dbuffer (mem s) = Some a ->
  cells (mem s) = pre ++ block ++ tail ->
  dbuffer_size (mem s) = Z.of_nat (length (cells (mem s))) ->
  dbuffer_size (mem s) < 2 ^ 64 ->
  q s = Z.of_nat (length pre + length block) ->
  p s = 123 :: ds ++ 125 :: rest ->
  Forall (fun d => isdigit d = true) ds -> 1 <= N < 2 ^ 31 ->
  0 <= needlen s + Z.of_nat (length block) * (N - 2) < dbuffer_size (mem s) ->
  (N - 1) * Z.of_nat (length block) <= Z.of_nat (length tail) ->
  (exists s',
     close_dup 8 allocator (a, Z.of_nat (length pre)) s = Some (Continue s')
     /\ cells (mem s') = pre ++ concat (replicate (Z.to_nat N) block)
                         ++ drop (Z.to_nat (N - 1) * length block) tail
     /\ q s' = Z.of_nat (length pre) + N * Z.of_nat (length block)
     /\ p s' = rest /\ start_dup s' = None /\ out s' = out s)
  /\ (forall test_mode utf (s0 : scan_st) (src : dptr) (more : list Z)
             (fuel : nat),
      scan_loop test_mode utf allocator (S fuel)
        (set_start_dup (Some src) (set_p (92 :: 91 :: more) s0))
      = Some (Return (say Nested_duplication
                        (set_p more (set_start_dup (Some src) s0)))))
  /\ subject_of 8 (encode_data_line 8 false in_place false
                     (line_of "A\[BC]{3}D") initial_dmem)
     = Some (line_of "ABCBCBCD")
  /\ subject_of 8 (encode_data_line 8 false moving false
                     (line_of "A\[BC]{3}D") initial_dmem)
     = Some (line_of "ABCBCBCD").
Proof.
  intros N H1 H2 H3 H4 H5 H6 H7 H8 H9 H10. split; [|split; [|split]].
  - destruct (close_dup_replays allocator s a pre block tail ds rest
                H1 H2 H3 H4 H5 H6 H7 H8 H9 H10)
      as (s' & E1 & E2 & E3 & E4 & E5 & E6 & _).
    exists s'. repeat split; assumption.
  - intros test_mode utf s0 src more fuel.
    rewrite (scan_nested test_mode utf allocator _ src more fuel);
      reflexivity.
  - vm_compute. reflexivity.
  - vm_compute. reflexivity.
Qed.

Lemma duplication_replays_witness :
  exists s',
    close_dup 8 in_place (0%nat, 1) after_bracket = Some (Continue s')
    /\ cells (mem s')
       = [65] ++ concat (replicate 3 [66; 67]) ++ replicate 9 0
    /\ q s' = 7 /\ p s' = [68] /\ start_dup s' = None /\ out s' = [].
Proof.
  refine (proj1 (duplication_replays in_place after_bracket 0%nat
                   [65] [66; 67] (replicate 13 0) [51] [68]
                   _ _ _ _ _ _ _ _ _ _)).
  all: try reflexivity.
  - repeat constructor.
  - vm_compute. split; [discriminate | reflexivity].
  - vm_compute. split; [discriminate | reflexivity].
  - vm_compute. discriminate.
Defined.

(** C3, counterexample: the data line [A\[BC\]{3}D] is abandoned at the
    [\]], an escape that the encoder does not know; no subject is made. *)
Lemma escaped_bracket_rejected :
  subject_of 8 (encode_data_line 8 false in_place false
                  (line_of "A\[BC\]{3}D") initial_dmem) = None
  /\ diagnostics_of (encode_data_line 8 false in_place false
                       (line_of "A\[BC\]{3}D") initial_dmem)
     = [Unrecognized_escape 93].
Proof. split; vm_compute; reflexivity. Qed.

(** C4 (what the code does): the first data line [\[] + 12000 times [A] +
    []{3}] leaves the buffer at its 32768 bytes and copies beyond its end;
    and when the allocator moves the buffer, [\[] + 100 times [A] +
    []{400}] is copied from the freed block, since only [q] is set into the
    new one. *)
Theorem duplication_growth_faults :
  fault_of (encode_data_line 8 false in_place false
              (long_block 12000 "3") initial_dmem) = Some Out_of_bounds
  /\ fault_of (encode_data_line 8 false moving false
                 (long_block 100 "400") initial_dmem) = Some Use_after_free.
Proof. split; vm_compute; reflexivity. Qed.

(** C10: at the closing bracket of an open block, a count written with
    zeros only (or with no digit at all) ends the scan with the zero-repeat
    message, and the function returns; the data line [A\[BC]{0}D] gives
    that message and no subject. *)
Theorem zero_repeat_rejected (test_mode : Z) (utf : bool)
    (allocator : option nat -> Z -> option bool) (s0 : scan_st) (src : dptr)
    (zeros : nat) (rest : list Z) (fuel : nat) :
  scan_loop test_mode utf allocator (S fuel)
    (set_start_dup (Some src)
       (set_p (93 :: 123 :: replicate zeros 48 ++ 125 :: rest) s0))
  = Some (Return (say Zero_repeat (set_p rest (set_start_dup (Some src) s0))))
  /\ subject_of 8 (encode_data_line 8 false in_place false
                     (line_of "A\[BC]{0}D") initial_dmem) = None
  /\ diagnostics_of (encode_data_line 8 false in_place false
                       (line_of "A\[BC]{0}D") initial_dmem) = [Zero_repeat]
  /\ fault_of (encode_data_line 8 false in_place false
                 (line_of "A\[BC]{0}D") initial_dmem) = None.
Proof.
  split; [|repeat split; vm_compute; reflexivity].
  rewrite (scan_zero_repeat test_mode utf allocator _ src
             (replicate zeros 48) rest fuel); try reflexivity.
  apply Forall_replicate. reflexivity.
Qed.

End DataLineFacts.

(** ** The modifier decoder *)

Module ModifierFacts.
Import DataLine Modifiers Global ModifierTerms Samples.

Lemma land_or_bits (w v : Z) : Z.land (or_bits w v) v = v.
Proof.
  unfold or_bits. apply Z.bits_inj'; intros i Hi.
  rewrite Z.land_spec, Z.lor_spec.
  destruct (Z.testbit w i), (Z.testbit v i); reflexivity.
Qed.

Lemma land_clear_bits (w v : Z) : Z.land (clear_bits w v) v = 0.
Proof.
  unfold clear_bits, u32. apply Z.bits_inj'; intros i Hi.
  rewrite !Z.land_spec, Z.bits_0.
  destruct (Z.lt_ge_cases i 32) as [Hlt | Hge].
  - rewrite Z.mod_pow2_bits_low by lia. rewrite Z.lnot_spec by lia.
    destruct (Z.testbit w i), (Z.testbit v i); reflexivity.
  - rewrite Z.mod_pow2_bits_high by lia.
    rewrite andb_false_r. reflexivity.
Qed.

Ltac run_overlay :=
  eexists; split; [cbv -[or_bits clear_bits]; reflexivity|];
  eexists; split; [reflexivity|];
  first [apply land_or_bits | apply land_clear_bits].

Lemma overlay_abbreviations (h : pcre2_h) (c : patctl) (cc : compile_context)
    (mc : match_context) (e : c1modstruct) (m : modstruct) :
  In e c1modlist -> bound_entry h e = Some m ->
  which m = MOD_PAT \/ which m = MOD_PD ->
  let s := pattern_state c cc mc in
  (exists r, overlay h (45 :: bytes_of_string (fullname e)) s = Some (true, r)
             /\ flag_is_clear m r) /\
  (exists r, overlay h (bytes_of_string (fullname e)) s = Some (true, r)
             /\ flag_is_set m r) /\
  (exists r, overlay h (abbreviation_text e) s = Some (true, r)
             /\ flag_is_set m r) /\
  (exists r, overlay h (45 :: abbreviation_text e) s = Some (true, r)
             /\ flag_is_set m r).
Proof.
  intros He Hm Hw s.
  repeat (destruct He as [<- | He]; [| ]); try contradiction;
    cbv in Hm; injection Hm as <-;
    try (destruct Hw as [Hw | Hw]; cbv in Hw; discriminate);
    subst s; repeat split; run_overlay.
Qed.

(** C5 (as the code has it): for an abbreviation bound to a flag of the
    pattern control block, whatever the block holds before, decoding the
    full name with a minus sign in front leaves the flag cleared, and
    decoding the full name or the abbreviation leaves it set; the
    abbreviation sets the flag also with a minus sign in front of it. *)
Theorem overlay_sets_and_clears (h : pcre2_h) (c : patctl)
    (cc : compile_context) (mc : match_context) (e : c1modstruct)
    (m : modstruct) :
  In e c1modlist -> bound_entry h e = Some m ->
  which m = MOD_PAT \/ which m = MOD_PD ->
  (exists r, overlay h (45 :: bytes_of_string (fullname e))
               (pattern_state c cc mc) = Some (true, r)
             /\ flag_is_clear m r)
  /\ (exists r, overlay h (bytes_of_string (fullname e))
                  (pattern_state c cc mc) = Some (true, r)
                /\ flag_is_set m r)
  /\ (exists r, overlay h (abbreviation_text e)
                  (pattern_state c cc mc) = Some (true, r)
                /\ flag_is_set m r)
  /\ (exists r, overlay h (45 :: abbreviation_text e)
                  (pattern_state c cc mc) = Some (true, r)
                /\ flag_is_set m r).
Proof.
  intros He Hm Hw.
  exact (overlay_abbreviations h c cc mc e m He Hm Hw).
Qed.

Lemma overlay_sets_and_clears_witness :
  exists r, overlay sample_h (45 :: bytes_of_string "extended")
              (pattern_state extended_set no_compile_context
                 no_match_context) = Some (true, r)
            /\ flag_is_clear
                 {| name := "extended"; which := MOD_PAT; type := MOD_OPT;
                    value := Bits 128; offset_ := At 0 |} r.
Proof.
  refine (proj1 (overlay_sets_and_clears sample_h extended_set
                   no_compile_context no_match_context
                   {| fullname := "extended"; onechar := 120 |}
                   {| name := "extended"; which := MOD_PAT; type := MOD_OPT;
                      value := Bits 128; offset_ := At 0 |} _ _ _)).
  - vm_compute. tauto.
  - vm_compute. reflexivity.
  - left. reflexivity.
Defined.

(** C5, counterexample: over a block with PCRE2_EXTENDED set, decoding
    [-x] leaves the flag set; it is [-extended] that clears it. *)
Lemma minus_abbreviation_keeps_flag :
  options_after "-x" extended_set = Some (PCRE2_EXTENDED sample_h)
  /\ options_after "-extended" extended_set = Some 0.
Proof. split; vm_compute; reflexivity. Qed.

End ModifierFacts.

(** ** The global loop *)

Module GlobalFacts.
Import DataLine Modifiers Global GlobalTerms Samples MachineFacts.

Lemma flagged_lor_absorb (o a b : Z) :
  a <> 0 -> flagged (Z.lor o (Z.lor a b)) a = true.
Proof.
  intros Ha. unfold flagged. apply negb_true_iff, Z.eqb_neq.
  replace (Z.land (Z.lor o (Z.lor a b)) a) with a; [exact Ha|].
  apply Z.bits_inj'; intros i _.
  rewrite Z.land_spec, !Z.lor_spec.
  destruct (Z.testbit o i), (Z.testbit a i), (Z.testbit b i); reflexivity.
Qed.

Lemma flagged_lor_absorb_r (o a b : Z) :
  b <> 0 -> flagged (Z.lor o (Z.lor a b)) b = true.
Proof.
  intros Hb. rewrite (Z.lor_comm a b). apply flagged_lor_absorb. exact Hb.
Qed.

Lemma flagged_anyglob (w : Z) :
  flagged w CTL_GLOBAL = true -> flagged w CTL_ANYGLOB = true.
Proof.
  unfold flagged, CTL_ANYGLOB. intros H.
  apply negb_true_iff, Z.eqb_neq in H. apply negb_true_iff, Z.eqb_neq.
  rewrite Z.land_lor_distr_r. intros H0.
  apply Z.lor_eq_0_iff in H0 as [_ H0]. contradiction.
Qed.

Lemma nth_ovector_0 (a b : Z) (l : list Z) :
  (2 <= length l)%nat -> nth 0 (<[1%nat := b]> (<[0%nat := a]> l)) 0 = a.
Proof. destruct l as [|x [|y l]]; cbn; intros; try lia; reflexivity. Qed.

Lemma nth_ovector_1 (a b : Z) (l : list Z) :
  (2 <= length l)%nat -> nth 1 (<[1%nat := b]> (<[0%nat := a]> l)) 0 = b.
Proof. destruct l as [|x [|y l]]; cbn; intros; try lia; reflexivity. Qed.

Lemma length_ovector (a b : Z) (l : list Z) :
  length (<[1%nat := b]> (<[0%nat := a]> l)) = length l.
Proof. rewrite !length_insert. reflexivity. Qed.

Ltac gsimpl :=
  cbn [pp len ulen g_notempty gmatched dat_datctl pat_patctl mdata
       max_oveccount dfa_matched glog gsay gsays set_mdata set_max_oveccount
       set_dfa_matched set_pat_patctl set_gmatched ovector md_oveccount
       leftchar startchar utf_reason mark set_ovector set_md_oveccount
       match_data_create offset dat_control dat_options oveccount set_offset
       set_dat_control fst snd pcre2_match pcre2_dfa_match
       pattern_info_capturecount substring_lines] in *.

Lemma peek_drop (l : list Z) : forall n, peek (drop n l) = nth n l 0.
Proof.
  unfold peek. induction l as [|x l IH]; intros [|n]; cbn; trivial.
Qed.

(** Behind a byte that is no continuation byte [utf82ord] stops reading,
    and it reads one byte when the first is no lead byte. *)
Lemma utf82ord_reads_two (l : list Z) :
  Z.land (peek (advance 1 l)) 0xc0 <> 0x80 -> 1 <= utf82ord_reads l <= 2.
Proof.
  intros H. unfold utf82ord_reads. cbv zeta.
  destruct (_ || _ || _); [lia|].
  destruct (Z.to_nat _) as [|n]; cbn [cont_reads]; [lia|].
  destruct (Z.eqb_spec (Z.land (peek (advance 1 l)) 0xc0) 0x80);
    [contradiction|].
  cbn [negb]. lia.
Qed.

Lemma utf82ord_reads_one (l : list Z) :
  0 <= peek l < 0xc0 -> utf82ord_reads l = 1.
Proof.
  intros H. unfold utf82ord_reads. cbv zeta.
  pose proof (CodecFacts.below_forall
                (fun x => (Codec.lead_loop 7 (-1) x =? -1)
                          || (Codec.lead_loop 7 (-1) x =? 0)) 192
                ltac:(vm_compute; reflexivity) (peek l) ltac:(lia)) as E.
  cbv beta in E. apply orb_true_iff in E as [E | E]; rewrite E.
  - reflexivity.
  - rewrite orb_true_r. reflexivity.
Qed.

Lemma unit_at_inside (test_mode : Z) (m : dmem) (N : Z) (s : gstate) (k : Z) :
  test_mode = 8 \/ test_mode = 16 \/ test_mode = 32 ->
  0 <= pp s -> pp s + N * code_unit_size test_mode <= dbuffer_size m ->
  0 <= k < N ->
  unit_at test_mode m s k = inr (subject_unit test_mode m (pp s) k).
Proof.
  intros Hmode Hpp Hsize Hk. unfold unit_at, subject_unit.
  assert (Hw : ptr_width test_mode = code_unit_size test_mode
               /\ 1 <= code_unit_size test_mode)
    by (destruct Hmode as [-> | [-> | ->]]; vm_compute; split; congruence).
  destruct Hw as [-> Hw].
  destruct (Z.leb_spec 0 (pp s + k * code_unit_size test_mode)); [|nia].
  destruct (Z.leb_spec (pp s + k * code_unit_size test_mode
                        + code_unit_size test_mode) (dbuffer_size m)); [|nia].
  reflexivity.
Qed.

Lemma byte_at_inside (m : dmem) (N : Z) (s : gstate) (k : Z) :
  0 <= pp s -> pp s + N <= dbuffer_size m -> 0 <= k < N ->
  byte_at m s k = inr (subject_unit 8 m (pp s) k).
Proof.
  intros Hpp Hsize Hk. unfold byte_at, subject_unit.
  change (ptr_width 8) with 1. change (code_unit_size 8) with 1.
  rewrite Z.mul_1_r, Z.div_1_r.
  destruct (Z.leb_spec 0 (pp s + k)); [|lia].
  destruct (Z.leb_spec (pp s + k + 1) (dbuffer_size m)); [|lia].
  reflexivity.
Qed.

(** [utf82ord] inside a subject that holds no continuation byte and does
    not end in a lead byte. *)
Lemma utf82ord_at_inside (m : dmem) (N : Z) (s : gstate) (i : Z) :
  0 <= pp s -> pp s + N <= dbuffer_size m -> 0 <= i < N ->
  (forall k, 0 <= k < N -> Z.land (subject_unit 8 m (pp s) k) 0xc0 <> 0x80) ->
  0 <= subject_unit 8 m (pp s) (N - 1) < 0xc0 ->
  exists rc, utf82ord_at m s i = inr rc.
Proof.
  intros Hpp Hsize Hi Hcont Hlast. unfold utf82ord_at. cbv zeta.
  assert (Hunit : forall k, subject_unit 8 m (pp s) k
                            = nth (Z.to_nat (pp s + k)) (cells m) 0).
  { intros k. unfold subject_unit.
    change (ptr_width 8) with 1. change (code_unit_size 8) with 1.
    rewrite Z.mul_1_r, Z.div_1_r. reflexivity. }
  assert (Hreads : pp s + i
                   + utf82ord_reads (drop (Z.to_nat (pp s + i)) (cells m))
                   <= dbuffer_size m).
  { destruct (Z.eq_dec i (N - 1)) as [-> | Hne].
    - rewrite utf82ord_reads_one; [lia|].
      rewrite peek_drop, <- Hunit. exact Hlast.
    - pose proof (utf82ord_reads_two
                    (drop (Z.to_nat (pp s + i)) (cells m))) as H2.
      unfold advance in H2. rewrite drop_drop, peek_drop in H2.
      replace (Z.to_nat (pp s + i) + 1)%nat
        with (Z.to_nat (pp s + (i + 1))) in H2 by lia.
      rewrite <- Hunit in H2. specialize (H2 (Hcont (i + 1) ltac:(lia))).
      lia. }
  destruct (Z.leb_spec 0 (pp s + i)); [|lia].
  destruct (Z.leb_spec
              (pp s + i + utf82ord_reads (drop (Z.to_nat (pp s + i)) (cells m)))
              (dbuffer_size m)); [|lia].
  eexists. reflexivity.
Qed.

(** The printing functions read inside a subject that lies in the buffer
    when they are given no more than what is left of it. *)
Lemma pchars32_reads_inside (test_mode : Z) (m : dmem) (N : Z) (s : gstate) :
  test_mode = 8 \/ test_mode = 16 \/ test_mode = 32 ->
  0 <= pp s -> pp s + N * code_unit_size test_mode <= dbuffer_size m ->
  forall fuel i length, 0 <= i -> i + length <= N ->
  pchars32_reads test_mode m fuel s i length = None.
Proof.
  intros Hmode Hpp Hsize.
  induction fuel as [|fuel IH]; intros i length Hi Hlen; [reflexivity|].
  cbn [pchars32_reads].
  destruct (Z.gtb_spec length 0); cbn [negb]; [|reflexivity].
  rewrite (unit_at_inside test_mode m N) by (trivial; lia).
  apply IH; lia.
Qed.

Lemma pchars16_reads_inside (test_mode : Z) (utf : bool) (m : dmem) (N : Z)
    (s : gstate) :
  test_mode = 8 \/ test_mode = 16 \/ test_mode = 32 ->
  0 <= pp s -> pp s + N * code_unit_size test_mode <= dbuffer_size m ->
  forall fuel i length, 0 <= i -> i + length <= N ->
  pchars16_reads test_mode utf m fuel s i length = None.
Proof.
  intros Hmode Hpp Hsize.
  induction fuel as [|fuel IH]; intros i length Hi Hlen; [reflexivity|].
  cbn [pchars16_reads].
  destruct (Z.gtb_spec length 0); cbn [negb]; [|reflexivity].
  rewrite (unit_at_inside test_mode m N) by (trivial; lia).
  destruct (_ && (length - 1 >? 0)) eqn:E.
  - apply andb_true_iff in E as [_ E].
    destruct (Z.gtb_spec (length - 1) 0); [|discriminate].
    rewrite (unit_at_inside test_mode m N) by (trivial; lia).
    destruct (_ && _); apply IH; lia.
  - apply IH; lia.
Qed.

Lemma pchars8_reads_inside (utf : bool) (m : dmem) (N : Z) (s : gstate) :
  0 <= pp s -> pp s + N <= dbuffer_size m ->
  (utf = true -> 0 < N ->
   (forall k, 0 <= k < N ->
      Z.land (subject_unit 8 m (pp s) k) 0xc0 <> 0x80)
   /\ 0 <= subject_unit 8 m (pp s) (N - 1) < 0xc0) ->
  forall fuel i length, 0 <= i -> i + length <= N ->
  pchars8_reads utf m fuel s i length = None.
Proof.
  intros Hpp Hsize Hutf.
  induction fuel as [|fuel IH]; intros i length Hi Hlen; [reflexivity|].
  cbn [pchars8_reads].
  destruct (Z.gtb_spec length 0); cbn [negb]; [|reflexivity].
  destruct utf.
  - destruct (Hutf eq_refl ltac:(lia)) as [Hcont Hlast].
    destruct (utf82ord_at_inside m N s i Hpp Hsize ltac:(lia) Hcont Hlast)
      as [rc ->].
    destruct ((rc >? 0) && (rc <=? length - 1 + 1)) eqn:E.
    + apply andb_true_iff in E as [E1 E2]. apply IH; lia.
    + apply IH; lia.
  - rewrite (byte_at_inside m N) by (trivial; lia). apply IH; lia.
Qed.

(** The printing loops take a code unit off [length] in every turn, so
    that [length] turns are all there are: more fuel changes nothing. *)
Lemma pchars32_reads_fuel (test_mode : Z) (m : dmem) (s : gstate) :
  forall f1 f2 i length,
  length <= Z.of_nat f1 -> length <= Z.of_nat f2 ->
  pchars32_reads test_mode m f1 s i length
  = pchars32_reads test_mode m f2 s i length.
Proof.
  induction f1 as [|f1 IH]; intros [|f2] i length H1 H2;
    cbn [pchars32_reads]; trivial;
    destruct (Z.gtb_spec length 0); cbn [negb]; trivial; try lia.
  destruct (unit_at test_mode m s i); [reflexivity|]. apply IH; lia.
Qed.

Lemma pchars16_reads_fuel (test_mode : Z) (utf : bool) (m : dmem)
    (s : gstate) :
  forall f1 f2 i length,
  length <= Z.of_nat f1 -> length <= Z.of_nat f2 ->
  pchars16_reads test_mode utf m f1 s i length
  = pchars16_reads test_mode utf m f2 s i length.
Proof.
  induction f1 as [|f1 IH]; intros [|f2] i length H1 H2;
    cbn [pchars16_reads]; trivial;
    destruct (Z.gtb_spec length 0); cbn [negb]; trivial; try lia.
  destruct (unit_at test_mode m s i); [reflexivity|].
  destruct (_ && (length - 1 >? 0)); [|apply IH; lia].
  destruct (unit_at test_mode m s (i + 1)); [reflexivity|].
  destruct (_ && _); apply IH; lia.
Qed.

Lemma pchars8_reads_fuel (utf : bool) (m : dmem) (s : gstate) :
  forall f1 f2 i length,
  length <= Z.of_nat f1 -> length <= Z.of_nat f2 ->
  pchars8_reads utf m f1 s i length = pchars8_reads utf m f2 s i length.
Proof.
  induction f1 as [|f1 IH]; intros [|f2] i length H1 H2;
    cbn [pchars8_reads]; trivial;
    destruct (Z.gtb_spec length 0); cbn [negb]; trivial; try lia.
  destruct utf.
  - destruct (utf82ord_at m s i) as [f | rc]; [reflexivity|].
    destruct ((rc >? 0) && (rc <=? length - 1 + 1)) eqn:E.
    + apply andb_true_iff in E as [E _]. apply IH; lia.
    + apply IH; lia.
  - destruct (byte_at m s i); [reflexivity|]. apply IH; lia.
Qed.

(** The search for the terminating zero ends inside the allocation or
    leaves it: with reads that succeed only inside an allocation of [size]
    bytes, a search that has gone through [size] items has left it, so
    that more fuel than [size] changes nothing. *)
Lemma strlen_at_fuel (read : Z -> fault + Z) (base w size : Z) :
  1 <= w ->
  (forall i c, read i = inr c -> 0 <= base + i * w /\ base + i * w + w <= size) ->
  forall fuel i count,
  0 <= base + (i - count) * w -> size <= Z.of_nat fuel + count -> 0 <= count ->
  forall more,
  strlen_at (fuel + more) read i count = strlen_at fuel read i count.
Proof.
  intros Hw Hread.
  induction fuel as [|fuel IH]; intros i count Hfirst Hsize Hcount more.
  - cbn [Nat.add]. destruct more as [|more]; [reflexivity|].
    cbn [strlen_at].
    destruct (read i) as [f | c] eqn:E; [reflexivity|].
    apply Hread in E. nia.
  - cbn [Nat.add strlen_at].
    destruct (read i) as [f | c]; [reflexivity|].
    destruct (c =? 0); [reflexivity|].
    apply IH; try lia.
Qed.

Lemma unit_at_in_bounds (test_mode : Z) (m : dmem) (s : gstate) (i c : Z) :
  unit_at test_mode m s i = inr c ->
  0 <= pp s + i * ptr_width test_mode
  /\ pp s + i * ptr_width test_mode + ptr_width test_mode <= dbuffer_size m.
Proof.
  unfold unit_at.
  destruct (Z.leb_spec 0 (pp s + i * ptr_width test_mode)); [|discriminate].
  destruct (Z.leb_spec (pp s + i * ptr_width test_mode + ptr_width test_mode)
              (dbuffer_size m)); [|discriminate].
  split; assumption.
Qed.

Lemma byte_at_in_bounds (m : dmem) (s : gstate) (i c : Z) :
  byte_at m s i = inr c ->
  0 <= pp s + i * 1 /\ pp s + i * 1 + 1 <= dbuffer_size m.
Proof.
  unfold byte_at.
  destruct (Z.leb_spec 0 (pp s + i)); [|discriminate].
  destruct (Z.leb_spec (pp s + i + 1) (dbuffer_size m)); [|discriminate].
  split; lia.
Qed.

Lemma PCHARSV_reads_inside (test_mode : Z) (utf : bool) (m : dmem) (N : Z)
    (s : gstate) (i : Z) :
  test_mode = 8 \/ test_mode = 16 \/ test_mode = 32 ->
  0 <= pp s -> pp s + N * code_unit_size test_mode <= dbuffer_size m ->
  0 <= i <= N -> N - i < 2 ^ 31 ->
  (utf = true -> test_mode = 8 -> i < N ->
   (forall k, 0 <= k < N ->
      Z.land (subject_unit test_mode m (pp s) k) 0xc0 <> 0x80)
   /\ 0 <= subject_unit test_mode m (pp s) (N - 1) < 0xc0) ->
  PCHARSV_reads test_mode utf m s i (usize (N - i)) = None.
Proof.
  intros Hmode Hpp Hsize Hi Hint Hutf. unfold PCHARSV_reads.
  rewrite usize_small, sint_small by lia. cbv zeta.
  destruct (Z.ltb_spec (N - i) 0); [lia|].
  destruct (Z.eq_dec i N) as [-> | Hne].
  { rewrite Z.sub_diag. change (Z.to_nat 0) with 0%nat.
    destruct (test_mode =? PCRE32_MODE); [reflexivity|].
    destruct (test_mode =? PCRE16_MODE); reflexivity. }
  destruct Hmode as [E | [E | E]]; rewrite E; cbn [Z.eqb Pos.eqb];
    change (8 =? PCRE32_MODE) with false;
    change (8 =? PCRE16_MODE) with false;
    change (16 =? PCRE32_MODE) with false;
    change (16 =? PCRE16_MODE) with true;
    change (32 =? PCRE32_MODE) with true; cbv iota.
  - rewrite E in Hsize, Hutf. change (code_unit_size 8) with 1 in Hsize.
    apply (pchars8_reads_inside utf m N); trivial; try lia.
    intros U HN. apply (Hutf U eq_refl). lia.
  - rewrite <- E. apply (pchars16_reads_inside test_mode utf m N); trivial; lia.
  - rewrite <- E. apply (pchars32_reads_inside test_mode m N); trivial; lia.
Qed.

Section EmptyRun.

Variable h : pcre2_h.
Variable test_mode : Z.
Variable utf : bool.
Variable nl : Z.
Variable big_endian : bool.
Variable m : dmem.
Variable N : Z.
Hypothesis Hh : header_ok h.

Local Abbreviation turn :=
  (global_turn h (empty_match_engine h) test_mode utf nl big_endian m).
Local Abbreviation run := (empty_run h test_mode utf nl m N).
Local Abbreviation retry_flags :=
  (Z.lor (PCRE2_NOTEMPTY_ATSTART h) (PCRE2_ANCHORED h)).

Lemma retry_flags_nonzero : retry_flags <> 0.
Proof.
  intros H0. apply Z.lor_eq_0_iff in H0 as [H0 _].
  exact (notempty_atstart_bit h Hh H0).
Qed.

(** The engine on a plain call and on a retry. *)
Lemma engine_plain (pp0 start options : Z) (md : match_data) :
  start <= N -> flagged options (PCRE2_NOTEMPTY h) = false ->
  flagged options (PCRE2_NOTEMPTY_ATSTART h) = false ->
  pcre2_match (empty_match_engine h) m pp0 N start options md
  = (1, set_ovector (<[1%nat := start]> (<[0%nat := start]> (ovector md))) md).
Proof.
  intros Hs H1 H2. unfold empty_match_engine. cbn [pcre2_match].
  destruct (Z.gtb_spec start N); [lia|]. rewrite H1, H2. reflexivity.
Qed.

Lemma engine_retry (pp0 start o : Z) (md : match_data) :
  start <= N ->
  pcre2_match (empty_match_engine h) m pp0 N start (Z.lor o retry_flags) md
  = (PCRE2_ERROR_NOMATCH h, md).
Proof.
  intros Hs. unfold empty_match_engine. cbn [pcre2_match].
  destruct (Z.gtb_spec start N); [lia|].
  destruct (flagged (Z.lor o retry_flags) (PCRE2_NOTEMPTY h)); [reflexivity|].
  rewrite flagged_lor_absorb by apply (notempty_atstart_bit h Hh).
  rewrite flagged_lor_absorb_r by apply (anchored_bit h Hh).
  reflexivity.
Qed.

(** The lines of an empty match at [k]: the text of the match is empty,
    and the text behind it, where it is asked for, is read inside the
    subject. *)
Lemma capture_lines_empty (s : gstate) (k : Z) :
  test_mode = 8 \/ test_mode = 16 \/ test_mode = 32 ->
  ulen s = N -> N < 2 ^ 32 ->
  0 <= pp s -> pp s + N * code_unit_size test_mode <= dbuffer_size m ->
  0 <= k <= N ->
  nth 0 (ovector (mdata s)) 0 = k -> nth 1 (ovector (mdata s)) 0 = k ->
  (utf = true -> test_mode = 8 ->
   forall j, 0 <= j < N ->
   Z.land (subject_unit test_mode m (pp s) j) 0xc0 <> 0x80) ->
  (after_text (dat_control (dat_datctl s)) = true ->
   N < 2 ^ 31 /\
   (utf = true -> test_mode = 8 -> 0 < N ->
    0 <= subject_unit test_mode m (pp s) (N - 1) < 0xc0)) ->
  capture_lines h test_mode utf m 1 0 s
  = (Match_line 0 k k
     :: (if after_text (dat_control (dat_datctl s))
         then [After_line 0 k] else []), None).
Proof.
  intros Hmode Hulen HN Hpp Hsize Hk H0 H1 Hcont Hafter.
  assert (Hw : 1 <= code_unit_size test_mode)
    by (destruct Hmode as [-> | [-> | ->]]; vm_compute; congruence).
  pose proof (unset_large h Hh) as Hunset.
  cbn [capture_lines].
  change (Z.to_nat 0) with 0%nat. change (Z.to_nat (0 + 1)) with 1%nat.
  rewrite H0, H1.
  destruct (Z.gtb_spec k k); [lia|].
  destruct (Z.eqb_spec k (PCRE2_UNSET h)); [lia|].
  rewrite (PCHARSV_reads_inside test_mode utf m k)
    by first [ solve [trivial] | nia | intros _ _ ?; lia ].
  change (0 =? 0) with true. cbn [andb]. change (0 / 2) with 0.
  fold (after_text (dat_control (dat_datctl s))).
  destruct (after_text (dat_control (dat_datctl s))) eqn:Ha; [|reflexivity].
  destruct (Hafter eq_refl) as [Hint Hlast].
  rewrite Hulen, (PCHARSV_reads_inside test_mode utf m N)
    by first [ solve [trivial] | lia
             | intros U E8 HN0;
               split; [exact (Hcont U E8) | exact (Hlast U E8 ltac:(lia))] ].
  reflexivity.
Qed.

(** A turn that starts without the retry flag: the empty match at the
    search offset is reported; at the end of the subject the loop stops,
    elsewhere the retry is armed and the offset stays. *)
Lemma turn_plain (s : gstate) :
  run s -> g_notempty s = 0 ->
  let k := offset (dat_datctl s) in
  (k = N ->
   exists s', turn s = Break s'
     /\ match_lines (glog s') = match_lines (glog s) ++ [Match_line 0 k k])
  /\
  (k < N ->
   exists s', turn s = Again s' /\ run s'
     /\ offset (dat_datctl s') = k /\ g_notempty s' = retry_flags
     /\ match_lines (glog s') = match_lines (glog s) ++ [Match_line 0 k k]).
Proof.
  intros Hrun Hg k.
  destruct Hrun as [Hmode Hulen HN Hpp Hglob Hdfa Hall Hne Hna Hov Hovec Hoff
                    Hretry Hcrlf Hcont Hsurr Hafter].
  unfold global_turn. cbv zeta.
  destruct (oveccount (dat_datctl s) <=? max_oveccount s); gsimpl.
  all: rewrite Hdfa, Hg, Z.lor_0_r.
  all: rewrite Hulen, engine_plain by (trivial; lia).
  all: gsimpl.
  all: change (1 =? 0) with false; cbv iota beta.
  all: change (1 >=? 0) with true; cbv iota.
  all: unfold matched; gsimpl; rewrite Hall; cbn [andb].
  all: rewrite (sint_small (oveccount (dat_datctl s))) by lia.
  all: destruct (Z.gtb_spec 1 (oveccount (dat_datctl s))); [lia|].
  all: change (Z.to_nat 1) with 1%nat.
  all: rewrite (capture_lines_empty _ k)
         by (gsimpl;
             rewrite ?nth_ovector_0, ?nth_ovector_1
               by first [exact Hovec | rewrite length_replicate; lia];
             first [exact Hafter | tauto | lia]).
  all: gsimpl.
  all: unfold advance_global; gsimpl.
  all: pose proof (flagged_anyglob _ Hglob) as Hany.
  all: unfold flagged in Hany; apply negb_true_iff in Hany; rewrite Hany.
  all: rewrite !nth_ovector_0, !nth_ovector_1
         by first [exact Hovec | rewrite length_replicate; lia].
  all: fold k; rewrite Z.eqb_refl, Hulen, Hglob; cbn [andb].
  all: change (substring_lines (empty_match_engine h) _ _ _)
         with (@nil (list Z)); cbn [map].
  all: assert (Hlines :
         match_lines
           (Match_line 0 k k
            :: (if after_text (dat_control (dat_datctl s))
                then [After_line 0 k] else []))
         = [Match_line 0 k k])
         by (destruct (after_text _); reflexivity).
  all: assert (Hu : u32 k = k) by (unfold u32; apply Z.mod_small; lia).
  all: split; intros Hk; destruct (Z.eqb_spec k N); try lia.
  all: eexists; split; [reflexivity|]; gsimpl.
  all: unfold match_lines in *.
  all: rewrite ?app_nil_r, ?List.filter_app, ?Hlines, ?Hu; try reflexivity.
  all: split; [|repeat split; reflexivity].
  all: constructor; gsimpl; rewrite ?Hu, ?length_ovector, ?length_replicate;
         trivial; try lia.
  all: right; split; [reflexivity | lia].
Qed.

Lemma width_is_unit_size :
  test_mode = 8 \/ test_mode = 16 \/ test_mode = 32 ->
  ptr_width test_mode = code_unit_size test_mode
  /\ 1 <= code_unit_size test_mode.
Proof. intros [-> | [-> | ->]]; vm_compute; split; congruence. Qed.

Lemma unit_at_subject (s : gstate) (k : Z) :
  test_mode = 8 \/ test_mode = 16 \/ test_mode = 32 ->
  0 <= pp s -> pp s + N * code_unit_size test_mode <= dbuffer_size m ->
  0 <= k < N ->
  unit_at test_mode m s k = inr (subject_unit test_mode m (pp s) k).
Proof.
  intros Hmode Hpp Hsize Hk. unfold unit_at, subject_unit.
  destruct (width_is_unit_size Hmode) as [-> Hw].
  destruct (Z.leb_spec 0 (pp s + k * code_unit_size test_mode)); [|nia].
  destruct (Z.leb_spec (pp s + k * code_unit_size test_mode
                        + code_unit_size test_mode) (dbuffer_size m)); [|nia].
  reflexivity.
Qed.

(** After a failed retry the fake match is one code unit long. *)
Lemma fake_match_one_unit (s : gstate) :
  test_mode = 8 \/ test_mode = 16 \/ test_mode = 32 ->
  ulen s = N -> N < 2 ^ 32 ->
  0 <= pp s -> pp s + N * code_unit_size test_mode <= dbuffer_size m ->
  0 <= offset (dat_datctl s) < N ->
  (crlf_aware nl = true ->
   forall k, 0 <= k -> k + 1 < N ->
   ~ (subject_unit test_mode m (pp s) k = 13
      /\ subject_unit test_mode m (pp s) (k + 1) = 10)) ->
  (utf = true -> test_mode = 8 ->
   forall k, 0 <= k < N ->
   Z.land (subject_unit test_mode m (pp s) k) 0xc0 <> 0x80) ->
  fake_match test_mode utf nl big_endian m s
  = Again (set_mdata
      (set_ovector (<[1%nat := offset (dat_datctl s) + 1]>
                      (<[0%nat := offset (dat_datctl s)]> (ovector (mdata s))))
                   (mdata s)) s).
Proof.
  intros Hmode Hulen HN Hpp Hsize Hk Hcrlf Hcont.
  set (k := offset (dat_datctl s)) in *.
  unfold fake_match. cbv zeta. fold k. fold (crlf_aware nl).
  rewrite Hulen, (usize_small (k + 1)), (usize_small (N - 1)) by lia.
  assert (Hother :
    (if utf && negb (test_mode =? PCRE32_MODE)
     then if test_mode =? PCRE8_MODE
          then skip_continuation big_endian m (Z.to_nat N) s (k + 1)
          else inr (k + 1)
     else inr (k + 1)) = (inr (k + 1) : fault + Z)).
  { destruct utf eqn:Hutf; cbn [andb]; [|reflexivity].
    destruct (negb (test_mode =? PCRE32_MODE)); [|reflexivity].
    destruct (Z.eqb_spec test_mode PCRE8_MODE) as [E8 | _]; [|reflexivity].
    unfold PCRE8_MODE in E8.
    destruct (Z.to_nat N) as [|fuel] eqn:EN; [lia|].
    cbn [skip_continuation]. rewrite Hulen.
    destruct (Z.ltb_spec (k + 1) N) as [Hlt | _]; [|reflexivity].
    cbn [negb]. unfold byte_at.
    assert (Hcus : code_unit_size test_mode = 1) by (rewrite E8; reflexivity).
    rewrite Hcus in Hsize.
    destruct (Z.leb_spec 0 (pp s + (k + 1))); [|lia].
    destruct (Z.leb_spec (pp s + (k + 1) + 1) (dbuffer_size m)); [|lia].
    cbn [andb].
    specialize (Hcont eq_refl E8 (k + 1) ltac:(lia)).
    unfold subject_unit in Hcont. rewrite E8 in Hcont.
    change (ptr_width 8) with 1 in Hcont.
    change (code_unit_size 8) with 1 in Hcont.
    rewrite Z.mul_1_r, Z.div_1_r in Hcont.
    destruct (Z.eqb_spec (Z.land (nth (Z.to_nat (pp s + (k + 1))) (cells m) 0)
                                 192) 128); [contradiction|].
    reflexivity. }
  rewrite Hother.
  destruct (crlf_aware nl) eqn:Haware; cbn [andb]; [|reflexivity].
  destruct (Z.ltb_spec k (N - 1)) as [Hlt | _]; [|reflexivity].
  rewrite unit_at_subject by (trivial; lia).
  destruct (Z.eqb_spec (subject_unit test_mode m (pp s) k) 13) as [E13 | _];
    [|reflexivity].
  rewrite unit_at_subject by (trivial; lia).
  destruct (Z.eqb_spec (subject_unit test_mode m (pp s) (k + 1)) 10)
    as [E10 | _]; [|reflexivity].
  exfalso. apply (Hcrlf eq_refl k); [lia | lia | split; assumption].
Qed.

(** A turn that starts with the retry flag: nothing is reported, the
    offset moves one code unit on and the flag is cleared. *)
Lemma turn_retry (s : gstate) :
  run s -> g_notempty s = retry_flags ->
  exists s', turn s = Again s' /\ run s'
    /\ offset (dat_datctl s') = offset (dat_datctl s) + 1
    /\ g_notempty s' = 0 /\ glog s' = glog s.
Proof.
  intros Hrun Hg.
  destruct Hrun as [Hmode Hulen HN Hpp Hglob Hdfa Hall Hne Hna Hov Hovec Hoff
                    Hretry Hcrlf Hcont Hsurr Hafter].
  pose proof retry_flags_nonzero as Hnz.
  destruct Hretry as [H0 | [_ Hlt]]; [congruence|].
  set (k := offset (dat_datctl s)) in *.
  pose proof (nomatch_negative h Hh) as Hneg.
  pose proof (nomatch_not_partial h Hh) as Hnp.
  pose proof (flagged_anyglob _ Hglob) as Hany.
  unfold flagged in Hany; apply negb_true_iff in Hany.
  assert (Hu : u32 (k + 1) = k + 1) by (unfold u32; apply Z.mod_small; lia).
  unfold global_turn. cbv zeta.
  destruct (oveccount (dat_datctl s) <=? max_oveccount s); gsimpl.
  all: rewrite Hdfa, Hg, Hulen, engine_retry by (fold k; lia).
  all: gsimpl.
  all: destruct (Z.eqb_spec (PCRE2_ERROR_NOMATCH h) 0); [lia|].
  all: destruct (Z.geb_spec (PCRE2_ERROR_NOMATCH h) 0); [lia|].
  all: destruct (Z.eqb_spec (PCRE2_ERROR_NOMATCH h) (PCRE2_ERROR_PARTIAL h));
         [contradiction|].
  all: gsimpl; rewrite Hg.
  all: destruct (Z.eqb_spec retry_flags 0); [contradiction|]; cbn [negb].
  all: rewrite fake_match_one_unit by (gsimpl; trivial; destruct Hpp; lia).
  all: gsimpl; fold k.
  all: unfold advance_global; gsimpl; rewrite Hany.
  all: rewrite !nth_ovector_0, !nth_ovector_1
         by first [exact Hovec | rewrite length_replicate; lia].
  all: destruct (Z.eqb_spec k (k + 1)); [lia|]; cbn [andb].
  all: rewrite Hglob.
  all: eexists; split; [reflexivity|]; gsimpl; rewrite Hu.
  all: split; [|repeat split; reflexivity].
  all: constructor; gsimpl; rewrite ?length_ovector, ?length_replicate;
         trivial; try lia.
  all: left; reflexivity.
Qed.

(** The whole run from the search offset [k]: one report for each of the
    positions [k .. N], in 2 (N - k) + 1 turns. *)
Lemma run_from : forall (n : nat) (s : gstate),
  run s -> g_notempty s = 0 ->
  n = Z.to_nat (N - offset (dat_datctl s)) ->
  exists s',
    global_loop h (empty_match_engine h) test_mode utf nl big_endian m
      (S (2 * n)) s = Some (Returned PR_OK s')
    /\ match_lines (glog s')
       = match_lines (glog s)
         ++ map (fun k => Match_line 0 k k)
                (seqZ (offset (dat_datctl s)) (Z.of_nat n + 1)).
Proof.
  induction n as [|n IH]; intros s Hrun Hg Hn.
  - pose proof (er_offset _ _ _ _ _ _ _ Hrun) as Hoff.
    destruct (turn_plain s Hrun Hg) as [Hend _].
    destruct Hend as (s' & Hturn & Hlines); [lia|].
    exists s'. cbn [Nat.mul global_loop]. rewrite Hturn.
    split; [reflexivity|]. rewrite Hlines. reflexivity.
  - pose proof (er_offset _ _ _ _ _ _ _ Hrun) as Hoff.
    destruct (turn_plain s Hrun Hg) as [_ Hgo].
    destruct Hgo as (s1 & Hturn1 & Hrun1 & Hoff1 & Hg1 & Hlines1); [lia|].
    set (t1 := set_gmatched (u32 (gmatched s1 + 1)) s1).
    assert (Hrun1' : run t1) by (destruct Hrun1; constructor; assumption).
    destruct (turn_retry t1 Hrun1' Hg1)
      as (s2 & Hturn2 & Hrun2 & Hoff2 & Hg2 & Hlog2).
    set (t2 := set_gmatched (u32 (gmatched s2 + 1)) s2).
    assert (Hrun2' : run t2) by (destruct Hrun2; constructor; assumption).
    destruct (IH t2 Hrun2' Hg2) as (s' & Hloop & Hlines).
    { subst t2 t1. gsimpl. lia. }
    exists s'.
    replace (S (2 * S n)) with (S (S (S (2 * n)))) by lia.
    cbn [global_loop]. rewrite Hturn1. fold t1.
    rewrite Hturn2. fold t2. split; [exact Hloop|].
    rewrite Hlines. subst t2 t1. gsimpl. rewrite Hlog2, Hlines1, Hoff2, Hoff1.
    rewrite <- app_assoc. f_equal.
    rewrite (seqZ_cons (offset (dat_datctl s)) (Z.of_nat (S n) + 1)) by lia.
    cbn [map app]. repeat f_equal; lia.
Qed.

(** Progress: a turn that does not stop either moves the search offset
    one code unit on or, after an empty match, arms the retry; either way
    fewer turns are left. *)
Lemma turn_progress (s s' : gstate) :
  run s -> turn s = Again s' ->
  run s' /\ 0 <= turns_left N s' < turns_left N s /\
  ((offset (dat_datctl s') = offset (dat_datctl s) /\ g_notempty s = 0
    /\ g_notempty s' <> 0)
   \/ (offset (dat_datctl s) < offset (dat_datctl s') /\ g_notempty s' = 0)).
Proof.
  intros Hrun Hturn.
  pose proof (er_offset _ _ _ _ _ _ _ Hrun) as Hoff.
  pose proof retry_flags_nonzero as Hnz.
  destruct (er_retry _ _ _ _ _ _ _ Hrun) as [Hg | [Hg Hlt]].
  - destruct (turn_plain s Hrun Hg) as [Hend Hgo].
    destruct (Z.eq_dec (offset (dat_datctl s)) N) as [E | Hne].
    + destruct (Hend E) as (t & Ht & _). congruence.
    + destruct Hgo as (t & Ht & Hrun' & Hoff' & Hg' & _); [lia|].
      rewrite Ht in Hturn. injection Hturn as <-.
      split; [exact Hrun'|]. unfold turns_left. rewrite Hoff', Hg', Hg.
      destruct (Z.eqb_spec retry_flags 0); [contradiction|].
      change (0 =? 0) with true. cbv iota.
      split; [lia|]. left. repeat split; trivial.
  - destruct (turn_retry s Hrun Hg) as (t & Ht & Hrun' & Hoff' & Hg' & _).
    rewrite Ht in Hturn. injection Hturn as <-.
    split; [exact Hrun'|]. unfold turns_left. rewrite Hoff', Hg', Hg.
    destruct (Z.eqb_spec retry_flags 0); [contradiction|].
    change (0 =? 0) with true. cbv iota.
    split; [lia|]. right. lia.
Qed.

Lemma turn_defined (s : gstate) :
  run s -> exists s', turn s = Again s' \/ turn s = Break s'.
Proof.
  intros Hrun.
  pose proof (er_offset _ _ _ _ _ _ _ Hrun) as Hoff.
  destruct (er_retry _ _ _ _ _ _ _ Hrun) as [Hg | [Hg Hlt]].
  - destruct (turn_plain s Hrun Hg) as [Hend Hgo].
    destruct (Z.eq_dec (offset (dat_datctl s)) N) as [E | Hne].
    + destruct (Hend E) as (t & Ht & _). eauto.
    + destruct Hgo as (t & Ht & _); [lia|]. eauto.
  - destruct (turn_retry s Hrun Hg) as (t & Ht & _). eauto.
Qed.

End EmptyRun.

Lemma altglobal_is_anyglob (w : Z) :
  flagged w CTL_ALTGLOBAL = true -> (Z.land w CTL_ANYGLOB =? 0) = false.
Proof.
  unfold flagged, CTL_ANYGLOB. intros H.
  apply negb_true_iff, Z.eqb_neq in H. apply Z.eqb_neq.
  rewrite Z.land_lor_distr_r. intros H0.
  apply Z.lor_eq_0_iff in H0 as [H0 _]. contradiction.
Qed.

(** C6 (as the code has it): under /G, after a match that does not end the
    loop, the subject pointer moves on by the match end in code units
    (match end times the code unit size, in bytes) and the search offset is
    left as it was; where a code unit is one byte, the byte length and the
    code unit length both shrink by the match end. *)
Theorem altglobal_shrinks_view (h : pcre2_h) (test_mode : Z) (s : gstate) :
  let end_offset := nth 1 (ovector (mdata s)) 0 in
  flagged (dat_control (dat_datctl s)) CTL_ALTGLOBAL = true ->
  flagged (dat_control (dat_datctl s)) CTL_GLOBAL = false ->
  (nth 0 (ovector (mdata s)) 0 = end_offset -> end_offset <> ulen s) ->
  exists s',
    advance_global h test_mode s = Again s'
    /\ pp s' = pp s + end_offset * code_unit_size test_mode
    /\ dat_datctl s' = dat_datctl s
    /\ (code_unit_size test_mode = 1 ->
        len s' = usize (len s - end_offset)
        /\ ulen s' = usize (ulen s - end_offset)).
Proof.
  intros end_offset Halt Hglob Hend.
  unfold advance_global.
  rewrite (altglobal_is_anyglob _ Halt), Hglob. fold end_offset.
  destruct ((nth 0 (ovector (mdata s)) 0 =? end_offset)
            && (end_offset =? ulen s)) eqn:E.
  - apply andb_true_iff in E as [E1 E2].
    apply Z.eqb_eq in E1, E2. destruct (Hend E1 E2).
  - eexists. split; [reflexivity|]. cbn [pp len ulen dat_datctl].
    split; [reflexivity|]. split; [reflexivity|].
    intros Hc. rewrite Hc, Z.mul_1_r. split; reflexivity.
Qed.

Lemma altglobal_shrinks_view_witness :
  exists s',
    advance_global sample_h 8 (at_match CTL_ALTGLOBAL 5 5 0 2 3) = Again s'
    /\ pp s' = 3
    /\ dat_datctl s' = dat_datctl (at_match CTL_ALTGLOBAL 5 5 0 2 3)
    /\ (code_unit_size 8 = 1 -> len s' = 2 /\ ulen s' = 2).
Proof.
  apply (altglobal_shrinks_view sample_h 8 (at_match CTL_ALTGLOBAL 5 5 0 2 3)).
  - vm_compute; reflexivity.
  - vm_compute; reflexivity.
  - vm_compute; discriminate.
Defined.

(** C6, counterexample: a /G turn leaves a search offset of 2 at 2, so
    that a data line [abcde\=offset=2] finds one match and then fails with
    a bad offset; and in 16-bit mode the byte length shrinks by the match
    end and the code unit length by twice that, wrapping around. *)
Lemma altglobal_keeps_offset :
  next_view (advance_global sample_h 8 (at_match CTL_ALTGLOBAL 5 5 2 2 3))
  = Some (3, 2, 2, 2)
  /\ reports_of (empty_pattern_run 8 CTL_ALTGLOBAL 1 50 "abcde\=offset=2")
     = Some [Match_line 0 2 2; Failed_line (-33)]
  /\ next_view (advance_global sample_h 16 (at_match CTL_ALTGLOBAL 10 5 2 2 3))
     = Some (6, 7, 2 ^ 64 - 1, 2).
Proof. repeat split; vm_compute; reflexivity. Qed.

(** Why the text behind the match needs a subject that does not end in a
    lead byte: in UTF mode the data line [a\xc3\=aftertext] makes a
    subject of the two bytes 0x61 0xC3 at the end of the buffer, and to
    print the text behind the empty match at 0 [pchars8] calls [utf82ord]
    at the byte 0xC3, which reads the byte behind it, outside the
    allocation, before the count is compared with the length. *)
Lemma aftertext_reads_beyond :
  process_data sample_h (empty_match_engine sample_h) 8 in_place false
    (fun _ _ _ => []) 50 (line_of "a\xc3\=aftertext")
    (first_line_statics (PCRE2_UTF sample_h) 0 1)
  = Some (Data_undefined Out_of_bounds [Match_report (Match_line 0 0 0)]).
Proof. vm_compute. reflexivity. Qed.

(** C1 (as the code has it): against a pattern that matches the empty
    string everywhere, a /g loop over a subject of [N] code units, each of
    them a character, returns after 2 N + 1 turns with exactly the N + 1
    match reports of the positions 0 .. N, when the subject holds no CR LF
    pair under a newline convention that knows that sequence, no UTF-8
    continuation byte where UTF-8 is decoded and no low surrogate where
    UTF-16 is, and, where the text behind the match is printed, is shorter
    than 2^31 code units and does not end in a UTF-8 lead byte.  Every turn
    of such a loop stops it or leaves fewer turns to go: after an empty
    match the offset stays and the retry is armed, after the retry the
    offset moves on. *)
Theorem global_empty_matches (h : pcre2_h) (test_mode : Z) (utf : bool)
    (nl : Z) (big_endian : bool) (m : dmem) (N : Z) (s : gstate) :
  header_ok h -> empty_run h test_mode utf nl m N s ->
  offset (dat_datctl s) = 0 -> g_notempty s = 0 ->
  (exists s',
     global_loop h (empty_match_engine h) test_mode utf nl big_endian m
       (S (2 * Z.to_nat N)) s = Some (Returned PR_OK s')
     /\ match_lines (glog s')
        = match_lines (glog s)
          ++ map (fun k => Match_line 0 k k) (seqZ 0 (N + 1)))
  /\ (forall t, empty_run h test_mode utf nl m N t ->
      exists t',
        global_turn h (empty_match_engine h) test_mode utf nl big_endian m t
        = Break t'
        \/ (global_turn h (empty_match_engine h) test_mode utf nl big_endian
              m t = Again t'
            /\ empty_run h test_mode utf nl m N t'
            /\ 0 <= turns_left N t' < turns_left N t
            /\ ((offset (dat_datctl t') = offset (dat_datctl t)
                 /\ g_notempty t = 0 /\ g_notempty t' <> 0)
                \/ (offset (dat_datctl t) < offset (dat_datctl t')
                    /\ g_notempty t' = 0)))).
Proof.
  intros Hh Hrun Hoff Hg. split.
  - pose proof (er_N _ _ _ _ _ _ _ Hrun) as HN.
    destruct (run_from h test_mode utf nl big_endian m N Hh
                (Z.to_nat N) s Hrun Hg) as (s' & Hloop & Hlines).
    { rewrite Hoff, Z.sub_0_r. reflexivity. }
    exists s'. split; [exact Hloop|].
    rewrite Hlines, Hoff, Z2Nat.id by lia. reflexivity.
  - intros t Ht.
    destruct (turn_defined h test_mode utf nl big_endian m N Hh t Ht)
      as (t' & [Hturn | Hturn]); exists t'.
    + right. split; [exact Hturn|].
      exact (turn_progress h test_mode utf nl big_endian m N Hh t t' Ht Hturn).
    + left. exact Hturn.
Qed.

Lemma global_empty_matches_witness :
  exists s',
    global_loop sample_h (empty_match_engine sample_h) 8 true 1 false
      abc_buffer 7 (at_match (Z.lor CTL_GLOBAL CTL_AFTERTEXT) 3 3 0 0 0)
    = Some (Returned PR_OK s')
    /\ match_lines (glog s')
       = [Match_line 0 0 0; Match_line 0 1 1; Match_line 0 2 2;
          Match_line 0 3 3].
Proof.
  apply (global_empty_matches sample_h 8 true 1 false abc_buffer 3
           (at_match (Z.lor CTL_GLOBAL CTL_AFTERTEXT) 3 3 0 0 0)).
  - constructor; vm_compute; first [discriminate | reflexivity].
  - assert (Hk : forall k, 0 <= k < 3 -> k = 0 \/ k = 1 \/ k = 2)
      by (intros; lia).
    constructor; try (vm_compute; intuition (discriminate || lia));
      try (left; reflexivity).
    intros _ _ k Hr. destruct (Hk k Hr) as [-> | [-> | ->]];
      vm_compute; discriminate.
  - reflexivity.
  - reflexivity.
Defined.

(** C1, counterexample: under the CRLF convention the subject CR LF, of
    two code units, gets two reports and not three, the position between
    the two being stepped over; and over [abc] the turn after the empty
    match at 0 goes round with the search offset still 0. *)
Lemma global_crlf_skips_position :
  reports_of (empty_pattern_run 8 CTL_GLOBAL PCRE2_NEWLINE_CRLF 20 "\r\n")
  = Some [Match_line 0 0 0; Match_line 0 2 2]
  /\ next_view (global_turn sample_h (empty_match_engine sample_h) 8 false 1
                  false abc_buffer (at_match CTL_GLOBAL 3 3 0 0 0))
     = Some (0, 3, 3, 0).
Proof. split; vm_compute; reflexivity. Qed.

End GlobalFacts.

(** ** The 32-bit converter *)

Module Width32Facts.
Import Codec Width Width32 CodecTerms CodecFacts WidthFacts DataLineFacts.

(** The loop over the text of [cs]: the code points are stored one by
    one. *)
Lemma to32_loop_text (utf : bool) : forall cs fuel pp rest extra,
  Forall (fun c => 0 <= c <= 0x7fffffff) cs ->
  (utf = true -> Forall (fun c => c <= 0x10ffff) cs) ->
  0 <= extra ->
  to32_loop (length cs + fuel) (utf8_text cs ++ rest) utf
    (Z.of_nat (length (utf8_text cs)) + extra) pp
  = to32_loop fuel rest utf extra (pp ++ cs).
Proof.
  induction cs as [|c cs IH]; intros fuel pp rest extra Hcs Hutf Hextra.
  - cbn [utf8_text map concat app length Nat.add]. rewrite app_nil_r.
    reflexivity.
  - apply Forall_cons in Hcs as [Hc Hcs].
    rewrite utf8_text_cons, <- app_assoc, length_app.
    destruct (ord2utf8_return c Hc) as [Hn Hpos].
    cbn [length Nat.add to32_loop].
    destruct (Z.gtb_spec (Z.of_nat (length (snd (ord2utf8 c))
                                    + length (utf8_text cs)) + extra) 0)
      as [_ | Hle]; [|lia].
    cbn [negb]. rewrite utf82ord_ord2utf8 by exact Hc.
    destruct (Z.leb_spec (fst (ord2utf8 c)) 0) as [Hle | _]; [lia|].
    change (default 0 (Some c)) with c.
    assert (Hbig : utf && (c >? 0x10ffff) = false).
    { destruct utf; [|reflexivity]. cbn [andb].
      specialize (Hutf eq_refl). apply Forall_cons in Hutf as [Hu _].
      destruct (Z.gtb_spec c 0x10ffff); [lia | reflexivity]. }
    rewrite Hbig.
    assert (Hadv : advance (Z.to_nat (fst (ord2utf8 c)))
                     (snd (ord2utf8 c) ++ utf8_text cs ++ rest)
                   = utf8_text cs ++ rest).
    { unfold advance. rewrite Hn, Nat2Z.id. apply drop_app_length. }
    rewrite Hadv.
    replace (Z.of_nat (length (snd (ord2utf8 c)) + length (utf8_text cs))
             + extra - fst (ord2utf8 c))
      with (Z.of_nat (length (utf8_text cs)) + extra) by lia.
    rewrite IH; trivial.
    + rewrite <- app_assoc. reflexivity.
    + intros ->. specialize (Hutf eq_refl).
      apply Forall_cons in Hutf as [_ Hu]. exact Hu.
Qed.

Lemma text_bytes_cover (cs : list Z) :
  Forall (fun c => 0 <= c <= 0x7fffffff) cs ->
  (length cs <= length (utf8_text cs))%nat.
Proof.
  induction 1 as [|c cs Hc Hcs IH]; [cbn; lia|].
  rewrite utf8_text_cons, length_app. cbn [length].
  destruct (ord2utf8_return c Hc). lia.
Qed.

(** X1: [to32] turns the UTF-8 text of the code points [cs] back into [cs]:
    it returns their number and stores them followed by a zero, in non-UTF
    mode for every code point up to 0x7fffffff, in UTF mode when none is
    above 0x10FFFF, and the buffer size it leaves holds the items and the
    zero.  The text is short enough for [4*len + 4] to be an [int]. *)
Theorem to32_inverts_utf8_text (size : Z) (utf : bool) (cs : list Z) :
  Forall (fun c => 0 <= c <= 0x7fffffff) cs ->
  (utf = true -> Forall (fun c => c <= 0x10ffff) cs) ->
  4 * Z.of_nat (length (utf8_text cs)) + 4 < 2 ^ 31 ->
  exists r,
    to32 size (utf8_text cs) utf (Z.of_nat (length (utf8_text cs))) = Some r
    /\ to32_rc r = Z.of_nat (length cs)
    /\ to32_units r = cs ++ [0]
    /\ 4 * Z.of_nat (length (to32_units r)) <= to32_size r.
Proof.
  intros Hcs Hutf Hint. unfold to32. rewrite Nat2Z.id.
  rewrite MachineFacts.sint_small by lia.
  pose proof (text_bytes_cover cs Hcs) as Hlen.
  pose proof (to32_loop_text utf cs (length (utf8_text cs) - length cs) []
                [] 0 Hcs Hutf ltac:(lia)) as E.
  rewrite app_nil_r, Z.add_0_r in E.
  replace (length cs + (length (utf8_text cs) - length cs))%nat
    with (length (utf8_text cs)) in E by lia.
  rewrite E.
  assert (E0 : forall fuel, to32_loop fuel [] utf 0 ([] ++ cs)
                            = Some (Z.of_nat (length cs), cs ++ [0])).
  { intros []; reflexivity. }
  rewrite E0. eexists. split; [reflexivity|]. cbn [to32_rc to32_units to32_size].
  repeat split. rewrite length_app. cbn [length].
  destruct (Z.ltb_spec size (4 * Z.of_nat (length (utf8_text cs)) + 4));
    [destruct (Z.ltb_spec (4 * Z.of_nat (length (utf8_text cs)) + 4) 256)|];
    lia.
Qed.

Lemma to32_inverts_utf8_text_witness :
  exists r,
    to32 0 (utf8_text [0x41; 0x20AC; 0x10FFFF]) true 8 = Some r
    /\ to32_rc r = 3
    /\ to32_units r = [0x41; 0x20AC; 0x10FFFF; 0]
    /\ 4 * Z.of_nat (length (to32_units r)) <= to32_size r.
Proof.
  apply (to32_inverts_utf8_text 0 true [0x41; 0x20AC; 0x10FFFF]).
  - repeat constructor; lia.
  - intros _. repeat constructor; lia.
  - vm_compute. reflexivity.
Defined.

(** In UTF mode the first code point above 0x10FFFF ends the call. *)
Lemma to32_loop_reject : forall cs fuel pp rest extra c,
  Forall (fun c => 0 <= c <= 0x10ffff) cs -> 0x10ffff < c <= 0x7fffffff ->
  0 <= extra ->
  to32_loop (S (length cs + fuel)) (utf8_text (cs ++ [c]) ++ rest) true
    (Z.of_nat (length (utf8_text (cs ++ [c]))) + extra) pp
  = Some (-2, pp ++ cs).
Proof.
  intros cs fuel pp rest extra c Hcs Hc Hextra.
  assert (Ht : utf8_text (cs ++ [c]) = utf8_text cs ++ snd (ord2utf8 c)).
  { unfold utf8_text. rewrite map_app, concat_app. cbn [map concat].
    rewrite app_nil_r. reflexivity. }
  rewrite Ht, <- app_assoc, length_app, Nat2Z.inj_add, <- Z.add_assoc.
  replace (S (length cs + fuel)) with (length cs + S fuel)%nat by lia.
  destruct (ord2utf8_return c ltac:(lia)) as [Hn Hpos].
  rewrite to32_loop_text; try lia.
  - cbn [to32_loop].
    destruct (Z.gtb_spec (Z.of_nat (length (snd (ord2utf8 c))) + extra) 0)
      as [_ | Hle]; [|lia].
    cbn [negb]. rewrite utf82ord_ord2utf8 by lia.
    destruct (Z.leb_spec (fst (ord2utf8 c)) 0) as [Hle | _]; [lia|].
    change (default 0 (Some c)) with c. cbn [andb].
    destruct (Z.gtb_spec c 0x10ffff); [reflexivity | lia].
  - eapply Forall_impl; [exact Hcs|]. cbv beta. intros; lia.
  - intros _. eapply Forall_impl; [exact Hcs|]. cbv beta. intros; lia.
Qed.

(** X2: in UTF mode [to32] returns -2 for a text whose first code
    point above 0x10FFFF comes after code points within the range, which
    are the items it has stored by then. *)
Theorem to32_rejects_beyond_unicode (size : Z) (cs : list Z) (c : Z)
    (more : list Z) :
  Forall (fun c => 0 <= c <= 0x10ffff) cs -> 0x10ffff < c <= 0x7fffffff ->
  exists r,
    to32 size (utf8_text (cs ++ [c]) ++ more) true
      (Z.of_nat (length (utf8_text (cs ++ [c]) ++ more))) = Some r
    /\ to32_rc r = -2 /\ to32_units r = cs.
Proof.
  intros Hcs Hc. unfold to32. rewrite Nat2Z.id, length_app, Nat2Z.inj_add.
  assert (Hlen : (S (length cs) <= length (utf8_text (cs ++ [c])))%nat).
  { assert (H : Forall (fun c => 0 <= c <= 0x7fffffff) (cs ++ [c])).
    { apply Forall_app. split.
      - eapply Forall_impl; [exact Hcs|]. cbv beta. intros; lia.
      - repeat constructor; lia. }
    apply text_bytes_cover in H. rewrite length_app in H. cbn in H. lia. }
  replace (length (utf8_text (cs ++ [c])) + length more)%nat
    with (S (length cs + (length (utf8_text (cs ++ [c])) + length more
                          - S (length cs))))%nat by lia.
  rewrite to32_loop_reject by (trivial; lia).
  eexists. split; [reflexivity|]. split; reflexivity.
Qed.

Lemma to32_rejects_beyond_unicode_witness :
  exists r,
    to32 0 (utf8_text ([0x41] ++ [0x110000]) ++ [0x42]) true
      (Z.of_nat (length (utf8_text ([0x41] ++ [0x110000]) ++ [0x42])))
    = Some r
    /\ to32_rc r = -2 /\ to32_units r = [0x41].
Proof.
  apply (to32_rejects_beyond_unicode 0 [0x41] 0x110000 [0x42]).
  - repeat constructor; lia.
  - lia.
Defined.

(** The 16-bit loop over the text of code points of one item each. *)
Lemma to16_loop_text (utf : bool) : forall cs fuel pp rest extra,
  Forall (fun c => 0 <= c <= 0xffff) cs -> 0 <= extra ->
  to16_loop (length cs + fuel) (utf8_text cs ++ rest) utf
    (Z.of_nat (length (utf8_text cs)) + extra) pp
  = to16_loop fuel rest utf extra (pp ++ cs).
Proof.
  induction cs as [|c cs IH]; intros fuel pp rest extra Hcs Hextra.
  - cbn [utf8_text map concat app length Nat.add]. rewrite app_nil_r.
    reflexivity.
  - apply Forall_cons in Hcs as [Hc Hcs].
    rewrite utf8_text_cons, <- app_assoc, length_app.
    destruct (ord2utf8_return c ltac:(lia)) as [Hn Hpos].
    cbn [length Nat.add to16_loop].
    destruct (Z.gtb_spec (Z.of_nat (length (snd (ord2utf8 c))
                                    + length (utf8_text cs)) + extra) 0)
      as [_ | Hle]; [|lia].
    cbn [negb]. rewrite utf82ord_ord2utf8 by lia.
    destruct (Z.leb_spec (fst (ord2utf8 c)) 0) as [Hle | _]; [lia|].
    change (default 0 (Some c)) with c.
    destruct (Z.gtb_spec c 0x10ffff); [lia|].
    destruct (Z.ltb_spec c 0x10000); [|lia].
    assert (Hadv : advance (Z.to_nat (fst (ord2utf8 c)))
                     (snd (ord2utf8 c) ++ utf8_text cs ++ rest)
                   = utf8_text cs ++ rest).
    { unfold advance. rewrite Hn, Nat2Z.id. apply drop_app_length. }
    rewrite Hadv.
    replace (Z.of_nat (length (snd (ord2utf8 c)) + length (utf8_text cs))
             + extra - fst (ord2utf8 c))
      with (Z.of_nat (length (utf8_text cs)) + extra) by lia.
    unfold u16. rewrite Z.mod_small by lia.
    rewrite IH by (trivial; lia).
    rewrite <- app_assoc. reflexivity.
Qed.

(** X3: both converters return -1 when, after well-formed text,
    the next byte within the length is a continuation byte standing alone;
    the code points before it are what has been stored. *)
Theorem converters_reject_malformed (size16 size32 : Z) (utf : bool)
    (cs : list Z) (b : Z) (rest : list Z) :
  Forall (fun c => 0 <= c <= 0xffff) cs -> 0x80 <= b <= 0xBF ->
  let text := utf8_text cs ++ b :: rest in
  (exists r, to16 size16 text utf (Z.of_nat (length text)) = Some r
             /\ to16_rc r = -1 /\ to16_units r = cs)
  /\ (exists r, to32 size32 text utf (Z.of_nat (length text)) = Some r
                /\ to32_rc r = -1 /\ to32_units r = cs).
Proof.
  intros Hcs Hb text.
  assert (Hwide : Forall (fun c => 0 <= c <= 0x7fffffff) cs).
  { eapply Forall_impl; [exact Hcs|]. cbv beta. intros; lia. }
  pose proof (text_bytes_cover cs Hwide) as Hlen.
  assert (Hl : length text
               = (length cs + S (length (utf8_text cs) - length cs
                                 + length rest))%nat).
  { subst text. rewrite length_app. cbn [length]. lia. }
  assert (Hz : Z.of_nat (length text)
               = Z.of_nat (length (utf8_text cs))
                 + Z.of_nat (S (length rest))).
  { subst text. rewrite length_app. cbn [length]. lia. }
  pose proof (utf82ord_continuation b rest Hb) as Hbad.
  split.
  - unfold to16. rewrite Nat2Z.id, Hz, Hl. subst text.
    rewrite to16_loop_text by (trivial; lia).
    cbn [to16_loop].
    destruct (Z.gtb_spec (Z.of_nat (S (length rest))) 0); [|lia].
    cbn [negb]. destruct (utf82ord (b :: rest)) as [n v]. cbn [fst] in Hbad.
    subst n. change (0 <=? 0) with true. cbv iota.
    eexists. split; [reflexivity|]. split; reflexivity.
  - unfold to32. rewrite Nat2Z.id, Hz, Hl. subst text.
    rewrite to32_loop_text; trivial; try lia.
    + cbn [to32_loop].
      destruct (Z.gtb_spec (Z.of_nat (S (length rest))) 0); [|lia].
      cbn [negb]. destruct (utf82ord (b :: rest)) as [n v]. cbn [fst] in Hbad.
      subst n. change (0 <=? 0) with true. cbv iota.
      eexists. split; [reflexivity|]. split; reflexivity.
    + intros _. eapply Forall_impl; [exact Hcs|]. cbv beta. intros; lia.
Qed.

Lemma converters_reject_malformed_witness :
  (exists r, to16 0 (utf8_text [0x41] ++ 0x80 :: [0x42]) false 3 = Some r
             /\ to16_rc r = -1 /\ to16_units r = [0x41])
  /\ (exists r, to32 0 (utf8_text [0x41] ++ 0x80 :: [0x42]) false 3 = Some r
                /\ to32_rc r = -1 /\ to32_units r = [0x41]).
Proof.
  apply (converters_reject_malformed 0 0 false [0x41] 0x80 [0x42]).
  - repeat constructor; lia.
  - lia.
Defined.

(** The items of [to16] never outnumber the bytes read. *)
Lemma to16_points_length (utf : bool) : forall cs pp,
  Forall (fun c => 0 <= c <= 0x7fffffff) cs ->
  (length (snd (to16_points utf cs pp))
   <= length pp + length (utf8_text cs) + 1)%nat.
Proof.
  induction cs as [|c cs IH]; intros pp Hcs.
  - cbn. rewrite length_app. cbn. lia.
  - apply Forall_cons in Hcs as [Hc Hcs].
    rewrite utf8_text_cons, length_app. cbn [to16_points].
    destruct (ord2utf8_return c Hc) as [Hn Hpos].
    destruct (Z.gtb_spec c 0x10ffff); [cbn; lia|].
    destruct (Z.ltb_spec c 0x10000) as [Hbmp | Hsup].
    + specialize (IH (pp ++ [c]) Hcs). rewrite length_app in IH.
      cbn [length] in IH. lia.
    + destruct utf; cbn [negb]; [|cbn; lia].
      specialize (IH (pp ++ units16 c) Hcs). rewrite length_app in IH.
      assert (Hu : length (units16 c) = 2%nat).
      { unfold units16. destruct (Z.ltb_spec c 0x10000); [lia | reflexivity]. }
      assert (Hfour : (4 <= length (snd (ord2utf8 c)))%nat).
      { destruct (table1_index_class c Hc) as (k & Hk & Hi & Hlt & _).
        rewrite (ord2utf8_bytes c k Hc Hi). cbn [snd length].
        rewrite digits_length.
        destruct k as [|[|[|k]]]; cbn in Hlt; lia. }
      lia.
Qed.

(** X4: whatever [to16] returns for the UTF-8 text of code points,
    the items it has stored, the closing zero included, fit the buffer size
    it leaves: two bytes each within [pbuffer16_size].  The text is short
    enough for [2*len + 2] to be an [int]. *)
Theorem to16_fits_buffer (size : Z) (utf : bool) (cs : list Z) :
  Forall (fun c => 0 <= c <= 0x7fffffff) cs ->
  2 * Z.of_nat (length (utf8_text cs)) + 2 < 2 ^ 31 ->
  exists r,
    to16 size (utf8_text cs) utf (Z.of_nat (length (utf8_text cs))) = Some r
    /\ 2 * Z.of_nat (length (to16_units r)) <= to16_size r.
Proof.
  intros Hcs _.
  destruct (to16_points_run size utf cs Hcs) as (r & Hr & E).
  exists r. split; [exact Hr|].
  pose proof (to16_points_length utf cs [] Hcs) as Hlen.
  rewrite <- E in Hlen. cbn [snd length] in Hlen.
  unfold to16 in Hr.
  destruct (to16_loop _ _ _ _ _) as [[rc units]|]; [|discriminate].
  injection Hr as <-. cbn [to16_units to16_size] in *.
  destruct (Z.ltb_spec size (2 * Z.of_nat (length (utf8_text cs)) + 2));
    [destruct (Z.ltb_spec (2 * Z.of_nat (length (utf8_text cs)) + 2) 256)|];
    lia.
Qed.

Lemma to16_fits_buffer_witness :
  exists r,
    to16 0 (utf8_text [0x10000; 0x41])  true
      (Z.of_nat (length (utf8_text [0x10000; 0x41]))) = Some r
    /\ 2 * Z.of_nat (length (to16_units r)) <= to16_size r.
Proof.
  apply (to16_fits_buffer 0 true [0x10000; 0x41]).
  - repeat constructor; lia.
  - vm_compute. reflexivity.
Defined.

End Width32Facts.

(** ** Rendering *)

Module RenderFacts.
Import Codec DataLine Render CodecTerms CodecFacts WidthFacts.

Lemma format_02x_byte (c : Z) :
  0 <= c < 256 -> length (format_02x c) = 2%nat.
Proof.
  intros Hc. apply Nat.eqb_eq.
  apply (below_forall (fun c => Nat.eqb (length (format_02x c)) 2) 256);
    [vm_compute; reflexivity | exact Hc].
Qed.

(** X5: given a file, [pchar] returns the number of characters it
    writes, for every 32-bit value and under either printability policy;
    given no file it writes nothing and returns the same number for a
    printable value and for a value below 0x100, and 0 for the others. *)
Theorem pchar_returns_width (locale_set : bool) (isprint : Z -> bool)
    (c : Z) (utf : bool) :
  0 <= c < 2 ^ 32 ->
  fst (pchar locale_set isprint c utf true)
  = Z.of_nat (length (snd (pchar locale_set isprint c utf true)))
  /\ snd (pchar locale_set isprint c utf false) = []
  /\ fst (pchar locale_set isprint c utf false)
     = if PRINTOK locale_set isprint c || (c <? 0x100)
       then fst (pchar locale_set isprint c utf true) else 0.
Proof.
  intros Hc. unfold pchar.
  destruct (PRINTOK locale_set isprint c); cbn [orb fst snd length].
  - repeat split.
  - destruct (Z.ltb_spec c 0x100) as [Hb | Hw].
    + destruct utf; cbn [fst snd]; rewrite ?length_app, ?length_app;
        cbn [length bytes_of_string]; rewrite ?length_app;
        rewrite format_02x_byte by lia; repeat split.
    + repeat split.
Qed.

Lemma pchar_returns_width_witness :
  fst (pchar false (fun _ => false) 0x20AC true true)
  = Z.of_nat (length (snd (pchar false (fun _ => false) 0x20AC true true)))
  /\ snd (pchar false (fun _ => false) 0x20AC true false) = []
  /\ fst (pchar false (fun _ => false) 0x20AC true false)
     = if PRINTOK false (fun _ => false) 0x20AC || (0x20AC <? 0x100)
       then fst (pchar false (fun _ => false) 0x20AC true true) else 0.
Proof.
  apply (pchar_returns_width false (fun _ => false) 0x20AC true). lia.
Defined.

Section Strings.
Variable locale_set : bool.
Variable isprint : Z -> bool.
Variable f : bool.

Local Abbreviation pchar' := (pchar locale_set isprint).

Lemma low_16 (c : Z) : 0 <= c < 0x10000 -> Z.land c 0xffff = c.
Proof.
  intros Hc. change 0xffff with (2 ^ 16 - 1).
  rewrite land_low_mask by lia. apply Z.mod_small. lia.
Qed.

(** The two items of a code point above 0xFFFF, and the way back. *)
Lemma units16_pair (c : Z) :
  0x10000 <= c <= 0x10ffff ->
  exists hi lo,
    units16 c = [hi; lo] /\ 0xD800 <= hi < 0xDC00 /\ 0xDC00 <= lo <= 0xDFFF
    /\ Z.shiftl (Z.land hi 0x3ff) 10 + Z.land lo 0x3ff + 0x10000 = c.
Proof.
  intros Hc. unfold units16.
  destruct (Z.ltb_spec c 0x10000); [lia|].
  set (v := c - 0x10000). assert (Hv : 0 <= v < 2 ^ 20) by (subst v; lia).
  assert (Hhi : 0 <= v / 2 ^ 10 < 2 ^ 10).
  { split; [apply Z.div_pos; lia | apply Z.div_lt_upper_bound; lia]. }
  assert (Hlo : 0 <= v mod 2 ^ 10 < 2 ^ 10) by (apply Z.mod_pos_bound; lia).
  rewrite Z.shiftr_div_pow2 by lia.
  replace (Z.land v 0x3FF) with (v mod 2 ^ 10)
    by (symmetry; apply (land_low_mask v 10); lia).
  rewrite (lor_disjoint_add 0xD800 _ 10), (lor_disjoint_add 0xDC00 _ 10);
    try lia; try reflexivity.
  eexists. eexists. split; [reflexivity|].
  split; [lia|]. split; [lia|].
  change 0x3ff with (2 ^ 10 - 1). rewrite !land_low_mask by lia.
  replace (0xD800 + v / 2 ^ 10) with (v / 2 ^ 10 + 54 * 2 ^ 10) by lia.
  replace (0xDC00 + v mod 2 ^ 10) with (v mod 2 ^ 10 + 55 * 2 ^ 10) by lia.
  rewrite !Z.mod_add by lia. rewrite !Z.mod_small by lia.
  rewrite Z.shiftl_mul_pow2 by lia.
  pose proof (Z.div_mod v (2 ^ 10) ltac:(lia)). lia.
Qed.

Lemma pchars16_as_pchars32 : forall cs fuel16 fuel32 rest16 rest32 y o,
  Forall (fun c => 0 <= c <= 0x10ffff /\ ~ (0xD800 <= c < 0xDC00)) cs ->
  (length (flat_map units16 cs) <= fuel16)%nat ->
  (length cs <= fuel32)%nat ->
  pchars16_loop locale_set isprint fuel16 (flat_map units16 cs ++ rest16)
    (Z.of_nat (length (flat_map units16 cs))) true f y o
  = pchars32_loop locale_set isprint fuel32 (cs ++ rest32)
      (Z.of_nat (length cs)) true f y o.
Proof.
  induction cs as [|c cs IH]; intros fuel16 fuel32 rest16 rest32 y o Hcs H16 H32.
  - destruct fuel16, fuel32; reflexivity.
  - apply Forall_cons in Hcs as [[Hc Hns] Hcs].
    cbn [flat_map] in *. rewrite length_app in *.
    destruct fuel32 as [|fuel32]; [cbn in H32; lia|].
    cbn [length] in H32.
    destruct (Z.ltb_spec c 0x10000) as [Hbmp | Hsup].
    + assert (Hu : units16 c = [c]).
      { unfold units16. destruct (Z.ltb_spec c 0x10000); [reflexivity | lia]. }
      rewrite Hu in *. cbn [length app Nat.add] in *.
      destruct fuel16 as [|fuel16]; [lia|].
      cbn [pchars16_loop pchars32_loop].
      rewrite !Nat2Z.inj_succ.
      destruct (Z.gtb_spec (Z.succ (Z.of_nat (length (flat_map units16 cs)))) 0);
        [|lia].
      destruct (Z.gtb_spec (Z.succ (Z.of_nat (length cs))) 0); [|lia].
      cbn [negb peek hd advance skipn]. rewrite low_16 by lia.
      assert (Hno : (c >=? 0xD800) && (c <? 0xDC00) = false).
      { destruct (Z.geb_spec c 0xD800), (Z.ltb_spec c 0xDC00);
          try reflexivity. lia. }
      cbn [andb]. rewrite Hno. cbn [andb].
      destruct (pchar' c true f) as [n w].
      replace (Z.succ (Z.of_nat (length (flat_map units16 cs))) - 1)
        with (Z.of_nat (length (flat_map units16 cs))) by lia.
      replace (Z.succ (Z.of_nat (length cs)) - 1)
        with (Z.of_nat (length cs)) by lia.
      apply IH; trivial; lia.
    + destruct (units16_pair c ltac:(lia))
        as (hi & lo & Hu & Hhi & Hlo & Hback).
      rewrite Hu in *. cbn [length app Nat.add] in *.
      destruct fuel16 as [|fuel16]; [lia|].
      cbn [pchars16_loop pchars32_loop].
      rewrite !Nat2Z.inj_succ.
      destruct (Z.gtb_spec
                  (Z.succ (Z.succ (Z.of_nat (length (flat_map units16 cs))))) 0);
        [|lia].
      destruct (Z.gtb_spec (Z.succ (Z.of_nat (length cs))) 0); [|lia].
      cbn [negb peek hd advance skipn]. rewrite !low_16 by lia.
      destruct (Z.geb_spec hi 0xD800); [|lia].
      destruct (Z.ltb_spec hi 0xDC00); [|lia].
      destruct (Z.gtb_spec
                  (Z.succ (Z.succ (Z.of_nat (length (flat_map units16 cs)))) - 1)
                  0); [|lia].
      destruct (Z.geb_spec lo 0xDC00); [|lia].
      destruct (Z.leb_spec lo 0xDFFF); [|lia].
      cbn [andb]. rewrite Hback. rewrite u32_small by lia.
      destruct (pchar' c true f) as [n w].
      replace (Z.succ (Z.succ (Z.of_nat (length (flat_map units16 cs)))) - 1 - 1)
        with (Z.of_nat (length (flat_map units16 cs))) by lia.
      replace (Z.succ (Z.of_nat (length cs)) - 1)
        with (Z.of_nat (length cs)) by lia.
      apply IH; trivial; lia.
Qed.

Lemma pchars8_as_pchars32 : forall cs fuel8 fuel32 rest8 rest32 y o,
  Forall (fun c => 0 <= c <= 0x7fffffff) cs ->
  (length (utf8_text cs) <= fuel8)%nat -> (length cs <= fuel32)%nat ->
  pchars8_loop locale_set isprint fuel8 (utf8_text cs ++ rest8)
    (Z.of_nat (length (utf8_text cs))) true f y o
  = pchars32_loop locale_set isprint fuel32 (cs ++ rest32)
      (Z.of_nat (length cs)) true f y o.
Proof.
  induction cs as [|c cs IH]; intros fuel8 fuel32 rest8 rest32 y o Hcs H8 H32.
  - destruct fuel8, fuel32; reflexivity.
  - apply Forall_cons in Hcs as [Hc Hcs].
    rewrite utf8_text_cons, <- app_assoc, length_app in *.
    destruct (ord2utf8_return c Hc) as [Hn Hpos].
    destruct fuel32 as [|fuel32]; [cbn in H32; lia|].
    destruct fuel8 as [|fuel8]; [lia|].
    cbn [length] in H32. cbn [length pchars8_loop pchars32_loop app].
    destruct (Z.gtb_spec (Z.of_nat (length (snd (ord2utf8 c))
                                    + length (utf8_text cs))) 0); [|lia].
    rewrite Nat2Z.inj_succ.
    destruct (Z.gtb_spec (Z.succ (Z.of_nat (length cs))) 0); [|lia].
    cbn [negb peek hd advance skipn].
    rewrite utf82ord_ord2utf8 by exact Hc.
    destruct (Z.gtb_spec (fst (ord2utf8 c)) 0); [|lia].
    destruct (Z.leb_spec (fst (ord2utf8 c))
                (Z.of_nat (length (snd (ord2utf8 c))
                           + length (utf8_text cs)) - 1 + 1)); [|lia].
    cbn [andb]. change (default 0 (Some c)) with c.
    destruct (pchar' c true f) as [n w].
    assert (Hadv : drop (Z.to_nat (fst (ord2utf8 c)))
                     (snd (ord2utf8 c) ++ utf8_text cs ++ rest8)
                   = utf8_text cs ++ rest8).
    { rewrite Hn, Nat2Z.id. apply drop_app_length. }
    unfold advance. rewrite Hadv, skipn_O.
    replace (Z.of_nat (length (snd (ord2utf8 c)) + length (utf8_text cs)) - 1
             - (fst (ord2utf8 c) - 1))
      with (Z.of_nat (length (utf8_text cs))) by lia.
    replace (Z.succ (Z.of_nat (length cs)) - 1)
      with (Z.of_nat (length cs)) by lia.
    apply IH; trivial; lia.
Qed.

End Strings.

(** X6: in UTF mode [pchars16] over the 16-bit items of code points
    writes and returns what [pchars32] does over the code points
    themselves, provided none of them is a high surrogate: every surrogate
    pair is put together again before it is printed. *)
Theorem pchars16_joins_pairs (locale_set : bool) (isprint : Z -> bool)
    (f : bool) (cs : list Z) :
  Forall (fun c => 0 <= c <= 0x10ffff /\ ~ (0xD800 <= c < 0xDC00)) cs ->
  pchars16 locale_set isprint (flat_map units16 cs)
    (Z.of_nat (length (flat_map units16 cs))) true f
  = pchars32 locale_set isprint cs (Z.of_nat (length cs)) true f.
Proof.
  intros Hcs. unfold pchars16, pchars32.
  destruct (Z.ltb_spec (Z.of_nat (length (flat_map units16 cs))) 0); [lia|].
  destruct (Z.ltb_spec (Z.of_nat (length cs)) 0); [lia|].
  rewrite !Nat2Z.id.
  pose proof (pchars16_as_pchars32 locale_set isprint f cs
                (length (flat_map units16 cs)) (length cs) [] [] 0 [] Hcs
                ltac:(lia) ltac:(lia)) as E.
  rewrite !app_nil_r in E. exact E.
Qed.

Lemma pchars16_joins_pairs_witness :
  pchars16 false (fun _ => false) (flat_map units16 [0x41; 0x1F600; 0xDC00])
    (Z.of_nat (length (flat_map units16 [0x41; 0x1F600; 0xDC00]))) true true
  = pchars32 false (fun _ => false) [0x41; 0x1F600; 0xDC00]
      (Z.of_nat (length [0x41; 0x1F600; 0xDC00])) true true.
Proof.
  apply (pchars16_joins_pairs false (fun _ => false) true
           [0x41; 0x1F600; 0xDC00]).
  repeat constructor; lia.
Defined.

(** X7: in UTF mode [pchars8] over the UTF-8 text of code points
    writes and returns what [pchars32] does over the code points: each
    sequence is decoded and printed as one character. *)
Theorem pchars8_decodes_text (locale_set : bool) (isprint : Z -> bool)
    (f : bool) (cs : list Z) :
  Forall (fun c => 0 <= c <= 0x7fffffff) cs ->
  pchars8 locale_set isprint (utf8_text cs)
    (Z.of_nat (length (utf8_text cs))) true f
  = pchars32 locale_set isprint cs (Z.of_nat (length cs)) true f.
Proof.
  intros Hcs. unfold pchars8, pchars32.
  destruct (Z.ltb_spec (Z.of_nat (length (utf8_text cs))) 0); [lia|].
  destruct (Z.ltb_spec (Z.of_nat (length cs)) 0); [lia|].
  rewrite !Nat2Z.id.
  pose proof (pchars8_as_pchars32 locale_set isprint f cs
                (length (utf8_text cs)) (length cs) [] [] 0 [] Hcs
                ltac:(lia) ltac:(lia)) as E.
  rewrite !app_nil_r in E. exact E.
Qed.

Lemma pchars8_decodes_text_witness :
  pchars8 false (fun _ => false) (utf8_text [0x41; 0x20AC])
    (Z.of_nat (length (utf8_text [0x41; 0x20AC]))) true true
  = pchars32 false (fun _ => false) [0x41; 0x20AC]
      (Z.of_nat (length [0x41; 0x20AC])) true true.
Proof.
  apply (pchars8_decodes_text false (fun _ => false) true [0x41; 0x20AC]).
  repeat constructor; lia.
Defined.

End RenderFacts.

(** ** The decoder on arbitrary bytes *)

Module DecoderFacts.
Import Codec CodecTerms ByteTerms CodecFacts.

Lemma lead_loop_range : forall n i d, i <= lead_loop n i d <= i + Z.of_nat n.
Proof.
  induction n as [|n IH]; intros i d; cbn [lead_loop]; [lia|].
  destruct (Z.land d 0x80 =? 0); [lia|].
  specialize (IH (i + 1) (u32 (Z.shiftl d 1))). lia.
Qed.

Lemma cont_loop_early : forall n j s d l r,
  0 <= j -> cont_loop n j s d l = inl r -> - (j + Z.of_nat n) <= r <= - (j + 1).
Proof.
  induction n as [|n IH]; intros j s d l r Hj H; cbn [cont_loop] in H.
  - discriminate.
  - destruct (negb (Z.land (peek l) 0xc0 =? 0x80)).
    + injection H as <-. lia.
    + apply IH in H; lia.
Qed.

(** What [utf82ord] returns and when it stores a value. *)
Lemma utf82ord_stores (bytes : list Z) :
  - 6 <= fst (utf82ord bytes) <= 6
  /\ (fst (utf82ord bytes) <= 0 -> snd (utf82ord bytes) = None)
  /\ (0 < fst (utf82ord bytes) -> exists d, snd (utf82ord bytes) = Some d).
Proof.
  unfold utf82ord.
  pose proof (lead_loop_range 7 (-1) (peek bytes)) as Hi.
  set (i := lead_loop 7 (-1) (peek bytes)) in *.
  destruct (Z.eqb_spec i (-1)) as [E | Hne].
  - cbn [fst snd]. repeat split; try lia. eauto.
  - destruct (Z.eqb_spec i 0) as [E0 | Hn0]; cbn [orb].
    + cbn [fst snd]. repeat split; try lia.
    + destruct (Z.eqb_spec i 6) as [E6 | Hn6].
      * cbn [fst snd]. repeat split; try lia.
      * destruct (cont_loop _ _ _ _ _) as [r | d] eqn:E.
        -- apply cont_loop_early in E; [|lia].
           cbn [fst snd]. rewrite Z2Nat.id in E by lia.
           repeat split; try lia.
        -- destruct (negb (table1_index d =? i)); cbn [fst snd].
           ++ repeat split; try lia.
           ++ repeat split; try lia. eauto.
Qed.

(** X8: whatever the bytes, [utf82ord] returns a number from -6 to 6;
    it stores a value exactly when the return is positive, and the value is
    then one that [ord2utf8] accepts. *)
Theorem utf82ord_return_range (bytes : list Z) :
  - 6 <= fst (utf82ord bytes) <= 6
  /\ (fst (utf82ord bytes) <= 0 -> snd (utf82ord bytes) = None)
  /\ (0 < fst (utf82ord bytes) -> exists d, snd (utf82ord bytes) = Some d).
Proof. exact (utf82ord_stores bytes). Qed.

Lemma digits_mod n : forall a v,
  0 <= v < P6 n -> digits n (a * P6 n + v) = digits n v.
Proof.
  induction n as [|n IH]; intros a v Hv; [reflexivity|].
  cbn [digits]. rewrite P6_S in *. pose proof (P6_pos n) as Hp.
  assert (Hq : (a * (64 * P6 n) + v) / 64 = a * P6 n + v / 64).
  { replace (a * (64 * P6 n) + v) with (v + (a * P6 n) * 64) by lia.
    rewrite Z.div_add by lia. lia. }
  assert (Hr : (a * (64 * P6 n) + v) mod 64 = v mod 64).
  { replace (a * (64 * P6 n) + v) with (v + (a * P6 n) * 64) by lia.
    apply Z.mod_add. lia. }
  rewrite Hq, Hr, IH; [reflexivity|].
  split; [apply Z.div_pos; lia | apply Z.div_lt_upper_bound; lia].
Qed.

Lemma continuation_byte (c : Z) :
  0 <= c < 256 -> Z.land c 0xc0 = 0x80 -> 128 <= c < 192.
Proof.
  intros Hc H.
  pose proof (below_forall continuation_canonical 256
                ltac:(vm_compute; reflexivity) c Hc) as Hx.
  unfold continuation_canonical in Hx. rewrite H in Hx.
  change (0x80 =? 0x80) with true in Hx. cbv iota in Hx.
  apply andb_prop in Hx as [H1 H2].
  apply Z.leb_le in H1. apply Z.ltb_lt in H2. lia.
Qed.

(** The continuation bytes that the loop accepts are the digits of what it
    adds. *)
Lemma cont_loop_accepts n : forall j s d0 l d,
  s = 6 * Z.of_nat n -> 0 <= d0 -> d0 mod P6 n = 0 -> d0 + P6 n <= 2 ^ 32 ->
  Forall (fun x => 0 <= x < 256) l ->
  cont_loop n j s d0 l = inr d ->
  exists v, 0 <= v < P6 n /\ d = d0 + v /\ take n l = digits n v.
Proof.
  induction n as [|n IH]; intros j s d0 l d Hs Hd Hm Hb Hl H.
  - cbn [cont_loop] in H. injection H as <-. exists 0.
    rewrite P6_0. repeat split; try lia. 
  - cbn [cont_loop] in H.
    destruct (Z.eqb_spec (Z.land (peek l) 0xc0) 0x80) as [Hc | Hc];
      cbn [negb] in H; [|discriminate].
    destruct l as [|c l]; [cbn in Hc; discriminate|].
    cbn [peek hd advance skipn] in *. rewrite skipn_O in H.
    apply Forall_cons in Hl as [Hcr Hl].
    pose proof (continuation_byte c Hcr Hc) as Hc'.
    set (x := c - 128). assert (Hx : 0 <= x < 64) by (subst x; lia).
    replace c with (128 + x) in * by (subst x; lia).
    rewrite land_3f_continuation in H by exact Hx.
    pose proof (P6_pos n) as Hp. rewrite P6_S in Hm, Hb.
    replace (s - 6) with (6 * Z.of_nat n) in H by lia.
    rewrite Z.shiftl_mul_pow2 in H by lia. fold (P6 n) in H.
    rewrite u32_small in H by nia.
    rewrite (lor_disjoint_add d0 (x * P6 n) (6 * Z.of_nat (S n))) in H.
    + apply IH in H; trivial; try lia.
      * destruct H as (v & Hv & -> & Ht).
        exists (x * P6 n + v). rewrite P6_S. split; [nia|].
        split; [lia|]. rewrite digits_cons, digits_mod by exact Hv.
        cbn [take]. rewrite Ht. f_equal. f_equal.
        rewrite Z.div_add_l by lia. rewrite Z.div_small by lia.
        rewrite Z.add_0_r. symmetry. apply Z.mod_small. exact Hx.
      * rewrite Z.add_mod, Z.mod_mul, Z.add_0_r, Z.mod_mod by lia.
        replace d0 with (d0 / (64 * P6 n) * 64 * P6 n).
        { apply Z.mod_mul. lia. }
        pose proof (Z.div_mod d0 (64 * P6 n) ltac:(lia)). nia.
      * nia.
    + lia.
    + fold (P6 (S n)). rewrite P6_S. nia.
    + fold (P6 (S n)). rewrite P6_S. exact Hm.
Qed.

(** The bytes that [utf82ord] accepts are those that [ord2utf8] writes. *)
Lemma utf82ord_canonical (b : Z) (rest : list Z) (n d : Z) :
  Forall (fun x => 0 <= x < 256) (b :: rest) ->
  utf82ord (b :: rest) = (n, Some d) ->
  1 <= n <= 6 /\ 0 <= d <= 0x7fffffff
  /\ ord2utf8 d = (n, take (Z.to_nat n) (b :: rest)).
Proof.
  intros Hbytes H. apply Forall_cons in Hbytes as [Hb Hrest].
  pose proof (below_forall lead_canonical 256 ltac:(vm_compute; reflexivity)
                b Hb) as Hlead.
  unfold lead_canonical in Hlead. cbv zeta in Hlead.
  unfold utf82ord in H. cbn [peek hd advance skipn] in H.
  pose proof (lead_loop_range 7 (-1) b) as Hi.
  set (i := lead_loop 7 (-1) b) in *.
  destruct (Z.eqb_spec i (-1)) as [E | Hne].
  - injection H as <- <-. apply Z.ltb_lt in Hlead.
    split; [lia|]. split; [lia|].
    assert (Hk : table1_index b = Z.of_nat 0).
    { unfold table1_index, utf8_table1. cbn [table1_scan].
      destruct (Z.leb_spec b 0x7f); [reflexivity | lia]. }
    rewrite (ord2utf8_bytes b 0 ltac:(lia) Hk).
    change (tbl utf8_table2 (Z.of_nat 0)) with 0.
    rewrite P6_0, Z.div_1_r. cbn [digits Z.of_nat Z.add].
    pose proof (ascii_ok_all b ltac:(lia)) as Ha.
    unfold ascii_ok in Ha. apply andb_prop in Ha as [_ Ha2].
    apply Z.eqb_eq in Ha2. rewrite Ha2. reflexivity.
  - destruct (Z.eqb_spec i 0) as [E0 | Hn0]; cbn [orb] in H; [discriminate|].
    destruct (Z.eqb_spec i 6) as [E6 | Hn6]; cbv iota in H; [discriminate|].
    destruct (Z.leb_spec 1 i); [|lia]. destruct (Z.leb_spec i 5); [|lia].
    cbn [andb] in Hlead. apply andb_prop in Hlead as [Hhi Hlor].
    apply Z.ltb_lt in Hhi. apply Z.eqb_eq in Hlor.
    set (k := Z.to_nat i) in *.
    assert (Hik : i = Z.of_nat k) by (subst k; lia).
    assert (Hk15 : (1 <= k <= 5)%nat) by lia.
    set (hi := Z.land b (tbl utf8_table3 i)) in *.
    assert (Hhi0 : 0 <= hi).
    { subst hi. apply Z.land_nonneg. left. lia. }
    pose proof (P6_pos k) as Hp.
    assert (Hpk : P6 k * 2 ^ (6 - i) = 2 ^ (5 * i + 6)).
    { unfold P6. rewrite <- Z.pow_add_r by lia. f_equal. lia. }
    assert (Hcap : 2 ^ (5 * i + 6) <= 2 ^ 31)
      by (apply Z.pow_le_mono_r; lia).
    rewrite Z.shiftl_mul_pow2 in H by lia.
    replace (2 ^ (6 * i)) with (P6 k) in H by (unfold P6; f_equal; lia).
    rewrite u32_small in H by nia.
    rewrite skipn_O in H.
    destruct (cont_loop k 0 (6 * i) (hi * P6 k) rest) as [r | dd] eqn:E;
      [discriminate|].
    apply cont_loop_accepts in E; trivial; try lia; try nia;
      [|apply Z.mod_mul; lia].
    destruct E as (v & Hv & -> & Ht).
    destruct (Z.eqb_spec (table1_index (hi * P6 k + v)) i) as [Hidx | Hidx];
      cbn [negb] in H; [|discriminate].
    injection H as <- <-.
    split; [lia|]. split; [nia|].
    rewrite Hik in Hidx.
    rewrite (ord2utf8_bytes (hi * P6 k + v) k ltac:(nia) Hidx).
    rewrite digits_mod by exact Hv.
    rewrite Z.div_add_l, (Z.div_small v) by lia. rewrite Z.add_0_r.
    rewrite <- Hik, Hlor, u8_small by lia.
    replace (Z.to_nat (i + 1)) with (S k) by lia.
    cbn [take]. rewrite Ht. reflexivity.
Qed.

(** X9: a sequence that [utf82ord] accepts is the one [ord2utf8]
    writes for the value: from one to six bytes, a value of at most
    0x7fffffff, and [ord2utf8] of the value returns the same count and
    exactly the bytes that were consumed.  So no value has two sequences
    that decode to it. *)
Theorem utf82ord_accepts_canonical (b : Z) (rest : list Z) (n d : Z) :
  Forall (fun x => 0 <= x < 256) (b :: rest) ->
  utf82ord (b :: rest) = (n, Some d) ->
  1 <= n <= 6 /\ 0 <= d <= 0x7fffffff
  /\ ord2utf8 d = (n, take (Z.to_nat n) (b :: rest)).
Proof. exact (utf82ord_canonical b rest n d). Qed.

Lemma utf82ord_accepts_canonical_witness :
  1 <= 3 <= 6 /\ 0 <= 0x20AC <= 0x7fffffff
  /\ ord2utf8 0x20AC = (3, take (Z.to_nat 3) (0xE2 :: [0x82; 0xAC; 0x41])).
Proof.
  apply (utf82ord_accepts_canonical 0xE2 [0x82; 0xAC; 0x41] 3 0x20AC).
  - repeat constructor; lia.
  - vm_compute. reflexivity.
Defined.

End DecoderFacts.

(** ** Looking modifiers up *)

Module TableFacts.
Import DataLine Modifiers TableTerms.

Lemma length_bytes_of_string (s : string) :
  length (bytes_of_string s) = String.length s.
Proof.
  unfold bytes_of_string. rewrite length_map.
  induction s as [|a s IH]; cbn; [reflexivity | f_equal; exact IH].
Qed.

Lemma strlen_name (m : modstruct) :
  strlen (name m) = Z.of_nat (length (name_bytes m)).
Proof. unfold strlen, name_bytes. rewrite length_bytes_of_string. reflexivity. Qed.

Lemma nth_skip_1 (p : list Z) (k : nat) : nth k (skipn 1 p) 0 = nth (S k) p 0.
Proof. destruct p as [|c p]; [destruct k|]; reflexivity. Qed.

Lemma peek_nth (p : list Z) : peek p = nth 0 p 0.
Proof. destruct p; reflexivity. Qed.

(** [strncmp] reads its first argument up to the count only. *)
Lemma strncmp_ext : forall n p p' t,
  (forall k, (k < n)%nat -> nth k p 0 = nth k p' 0) ->
  strncmp p t n = strncmp p' t n.
Proof.
  induction n as [|n IH]; intros p p' t H; [reflexivity|].
  cbn [strncmp]. rewrite !peek_nth, (H 0%nat) by lia.
  destruct (negb (nth 0 p' 0 =? nth 0 t 0)); [reflexivity|].
  destruct (nth 0 p' 0 =? 0); [reflexivity|].
  apply IH. intros k Hk. unfold advance. rewrite !nth_skip_1.
  apply H. lia.
Qed.

Section Lookup.
Variable h : pcre2_h.

Lemma scan_chop_ext : forall fuel p p' len bot top,
  (forall k, (k < Z.to_nat len)%nat -> nth k p 0 = nth k p' 0) ->
  scan_chop h fuel p len bot top = scan_chop h fuel p' len bot top.
Proof.
  induction fuel as [|fuel IH]; intros p p' len bot top H; [reflexivity|].
  cbn [scan_chop]. destruct (negb (top >? bot)); [reflexivity|].
  destruct (modlist h !! Z.to_nat ((bot + top) / 2)) as [m|]; [|reflexivity].
  rewrite (strncmp_ext _ p p').
  - destruct (_ && _); [reflexivity|].
    destruct (_ >? 0); apply IH; exact H.
  - intros k Hk. apply H. destruct (len <? strlen (name m)) eqn:E; [exact Hk|].
    apply Z.ltb_ge in E. lia.
Qed.

Lemma table_found : forallb (found_at h) (seq 0 (length (modlist h))) = true.
Proof. vm_compute. reflexivity. Qed.

Lemma table_well_named : forallb well_named (modlist h) = true.
Proof. vm_compute. reflexivity. Qed.

Lemma entry_well_named (m : modstruct) :
  In m (modlist h) ->
  Forall (fun c => name_char c = true) (name_bytes m)
  /\ (0 < length (name_bytes m))%nat.
Proof.
  intros Hin. pose proof table_well_named as H.
  rewrite forallb_forall in H. specialize (H m Hin).
  unfold well_named in H. apply andb_prop in H as [H1 H2].
  split.
  - apply List.Forall_forall. rewrite forallb_forall in H1. exact H1.
  - apply Z.ltb_lt in H2. rewrite strlen_name in H2. lia.
Qed.

Lemma entry_in (i : nat) (m : modstruct) :
  modlist h !! i = Some m -> In m (modlist h).
Proof.
  intros H. apply list_elem_of_In. eapply list_elem_of_lookup_2. exact H.
Qed.

(** X10: every entry of the table is found by its name: when the
    text at [p] starts with the name of the entry at index [i] and the
    length given is that of the name, [scan_modifiers] returns [i],
    whatever follows the name. *)
Theorem scan_modifiers_finds_entry (i : nat) (m : modstruct)
    (rest : list Z) :
  modlist h !! i = Some m ->
  scan_modifiers h (name_bytes m ++ rest) (strlen (name m)) = Z.of_nat i.
Proof.
  intros Hm. unfold scan_modifiers.
  rewrite (scan_chop_ext _ _ (name_bytes m)).
  - pose proof table_found as H. rewrite forallb_forall in H.
    specialize (H i). unfold found_at in H. rewrite Hm in H.
    apply Z.eqb_eq, H. apply in_seq.
    apply lookup_lt_Some in Hm. lia.
  - intros k Hk. rewrite strlen_name, Nat2Z.id in Hk.
    apply app_nth1. exact Hk.
Qed.

Lemma strncmp_equal : forall n p t,
  strncmp p t n = 0 -> length t = n -> Forall (fun c => c <> 0) t ->
  take n p = t.
Proof.
  induction n as [|n IH]; intros p t H Hlen Hnz.
  - destruct t; [reflexivity | discriminate].
  - destruct t as [|b t]; [discriminate|].
    apply Forall_cons in Hnz as [Hb Hnz].
    cbn [strncmp] in H. unfold peek, advance in H.
    destruct p as [|a p]; cbn [hd skipn] in H.
    + destruct (Z.eqb_spec 0 b); [congruence|]. cbn [negb] in H. lia.
    + destruct (Z.eqb_spec a b) as [-> | E]; cbn [negb] in H; [|lia].
      destruct (Z.eqb_spec b 0); [contradiction|].
      rewrite !skipn_O in H.
      cbn [take]. f_equal. apply IH; trivial.
      cbn in Hlen. lia.
Qed.

Lemma scan_chop_sound : forall fuel p len bot top,
  0 <= bot ->
  scan_chop h fuel p len bot top = -1
  \/ exists m,
       bot <= scan_chop h fuel p len bot top < top
       /\ modlist h !! Z.to_nat (scan_chop h fuel p len bot top) = Some m
       /\ len = strlen (name m)
       /\ strncmp p (name_bytes m) (Z.to_nat len) = 0.
Proof.
  induction fuel as [|fuel IH]; intros p len bot top Hbot; [left; reflexivity|].
  cbn [scan_chop].
  destruct (Z.gtb_spec top bot) as [Hgt | Hle]; cbn [negb]; [|left; reflexivity].
  assert (Hmid : bot <= (bot + top) / 2 < top).
  { split; [apply Z.div_le_lower_bound; lia|].
    apply Z.div_lt_upper_bound; lia. }
  destruct (modlist h !! Z.to_nat ((bot + top) / 2)) as [m|] eqn:Em;
    [|left; reflexivity].
  destruct (Z.eqb_spec (strncmp p (bytes_of_string (name m))
              (Z.to_nat (if len <? strlen (name m) then len
                         else strlen (name m)))) 0) as [Ec | Ec];
    cbn [andb].
  - destruct (Z.eqb_spec len (strlen (name m))) as [El | El].
    + right. exists m. split; [exact Hmid|]. split; [exact Em|].
      split; [exact El|]. rewrite <- El, Z.ltb_irrefl in Ec. exact Ec.
    + destruct (_ >? 0).
      * destruct (IH p len ((bot + top) / 2 + 1) top ltac:(lia))
          as [-> | (m' & Hr & H)]; [left; reflexivity|].
        right. exists m'. split; [lia | exact H].
      * destruct (IH p len bot ((bot + top) / 2) Hbot)
          as [-> | (m' & Hr & H)]; [left; reflexivity|].
        right. exists m'. split; [lia | exact H].
  - destruct (_ >? 0).
    + destruct (IH p len ((bot + top) / 2 + 1) top ltac:(lia))
        as [-> | (m' & Hr & H)]; [left; reflexivity|].
      right. exists m'. split; [lia | exact H].
    + destruct (IH p len bot ((bot + top) / 2) Hbot)
        as [-> | (m' & Hr & H)]; [left; reflexivity|].
      right. exists m'. split; [lia | exact H].
Qed.

(** X11: [scan_modifiers] returns -1 or the index of an entry whose
    name is exactly the [len] characters at [p]; nothing but a full name
    is found, no prefix of one and no name with more behind it. *)
Theorem scan_modifiers_exact (p : list Z) (len : Z) :
  scan_modifiers h p len = -1
  \/ exists m,
       0 <= scan_modifiers h p len < MODLISTCOUNT h
       /\ modlist h !! Z.to_nat (scan_modifiers h p len) = Some m
       /\ len = strlen (name m)
       /\ take (Z.to_nat len) p = name_bytes m.
Proof.
  unfold scan_modifiers.
  destruct (scan_chop_sound (S (length (modlist h))) p len 0
              (MODLISTCOUNT h) ltac:(lia)) as [-> | (m & Hr & Hm & Hl & Hc)];
    [left; reflexivity|].
  right. exists m. split; [exact Hr|]. split; [exact Hm|].
  split; [exact Hl|].
  destruct (entry_well_named m (entry_in _ _ Hm)) as [Hn _].
  apply strncmp_equal; trivial.
  - rewrite Hl, strlen_name, Nat2Z.id. reflexivity.
  - eapply Forall_impl; [exact Hn|]. cbv beta. intros c Hc0 ->.
    vm_compute in Hc0. discriminate.
Qed.

End Lookup.

Lemma scan_modifiers_finds_entry_witness :
  scan_modifiers Global.sample_h
    (name_bytes (M "offset" MOD_DAT MOD_INT 0 DO_offset)
     ++ bytes_of_string "=12")
    (strlen (name (M "offset" MOD_DAT MOD_INT 0 DO_offset)))
  = Z.of_nat 51.
Proof.
  apply (scan_modifiers_finds_entry Global.sample_h 51
           (M "offset" MOD_DAT MOD_INT 0 DO_offset) (bytes_of_string "=12")).
  vm_compute. reflexivity.
Defined.

End TableFacts.

(** ** Decoding modifier strings *)

Module DecodeFacts.
Import DataLine Modifiers Global DataLineTerms TableTerms TableFacts.

Lemma name_char_plain (c : Z) :
  name_char c = true ->
  isspace c = false /\ c <> 44 /\ c <> 0 /\ c <> 61 /\ c <> 45 /\ c <> 10.
Proof.
  unfold name_char, isspace. intros H.
  apply orb_prop in H as [H | H].
  - apply andb_prop in H as [H1 H2]. apply Z.leb_le in H1, H2.
    repeat split; lia.
  - apply Z.eqb_eq in H. subst c. repeat split; lia.
Qed.

Lemma isdigit_plain (c : Z) :
  isdigit c = true ->
  isspace c = false /\ c <> 44 /\ c <> 0 /\ c <> 61 /\ 48 <= c <= 57.
Proof.
  unfold isdigit, isspace. intros H.
  apply andb_prop in H as [H1 H2]. apply Z.leb_le in H1, H2.
  repeat split; lia.
Qed.


Lemma skip_sep_item (commas : bool) (c : Z) (p : list Z) :
  in_item c -> skip_sep commas (c :: p) = c :: p.
Proof.
  intros (Hs & Hc & _). cbn [skip_sep]. rewrite Hs.
  destruct (Z.eqb_spec c 44); [contradiction|].
  rewrite andb_false_r. reflexivity.
Qed.

Lemma item_end_app (w rest : list Z) :
  Forall in_item w -> item_end (w ++ rest) = item_end rest.
Proof.
  induction 1 as [|c w (Hs & Hc & Hz) Hw IH]; [reflexivity|].
  cbn [app item_end]. rewrite Hs.
  destruct (Z.eqb_spec c 0); [contradiction|].
  destruct (Z.eqb_spec c 44); [contradiction|]. exact IH.
Qed.

Lemma item_end_shorter (v : list Z) : (length (item_end v) <= length v)%nat.
Proof.
  induction v as [|c v IH]; [reflexivity|].
  cbn [item_end]. destruct (_ || _); cbn [length]; lia.
Qed.

Lemma name_end_found : forall (w : list Z) (n : nat) (v : list Z),
  Forall (fun c => c <> 61) w -> (length w < n)%nat ->
  name_end n (w ++ 61 :: v) = 61 :: v.
Proof.
  induction w as [|c w IH]; intros n v Hw Hn.
  - destruct n; [cbn in Hn; lia | reflexivity].
  - apply Forall_cons in Hw as [Hc Hw].
    destruct n; [cbn in Hn; lia|]. cbn [app name_end].
    destruct (Z.eqb_spec c 61); [contradiction|].
    apply IH; [exact Hw | cbn in Hn; lia].
Qed.

Lemma name_end_whole : forall (w rest : list Z),
  Forall (fun c => c <> 61) w -> name_end (length w) (w ++ rest) = rest.
Proof.
  induction w as [|c w IH]; intros rest Hw.
  - destruct rest; reflexivity.
  - apply Forall_cons in Hw as [Hc Hw]. cbn [length app name_end].
    destruct (Z.eqb_spec c 61); [contradiction|]. apply IH. exact Hw.
Qed.

Section Decoding.
Variable h : pcre2_h.

Lemma name_in_item (m : modstruct) :
  In m (modlist h) ->
  Forall in_item (name_bytes m) /\ Forall (fun c => c <> 61) (name_bytes m)
  /\ exists c w, name_bytes m = c :: w /\ name_char c = true.
Proof.
  intros Hin. destruct (entry_well_named h m Hin) as [Hn Hlen].
  split; [|split].
  - eapply Forall_impl; [exact Hn|]. cbv beta. intros c Hc.
    destruct (name_char_plain c Hc) as (? & ? & ? & _). repeat split; trivial.
  - eapply Forall_impl; [exact Hn|]. cbv beta. intros c Hc.
    destruct (name_char_plain c Hc) as (? & ? & ? & ? & _). trivial.
  - destruct (name_bytes m) as [|c w]; [cbn in Hlen; lia|].
    apply Forall_cons in Hn as [Hc _]. eauto.
Qed.



Lemma name_end_closed (w tail : list Z) :
  Forall (fun c => c <> 61) w -> closes_name tail ->
  name_end (Z.to_nat (distance (w ++ tail) (item_end tail))) (w ++ tail)
  = tail.
Proof.
  intros Hw Hc. unfold distance. rewrite Nat2Z.id, length_app.
  pose proof (item_end_shorter tail) as Hle.
  destruct tail as [|c tail].
  - cbn [item_end length]. rewrite Nat.add_0_r, Nat.sub_0_r.
    apply name_end_whole. exact Hw.
  - destruct Hc as [-> | Hsep].
    + apply name_end_found; [exact Hw|].
      assert (length (item_end (61%Z :: tail)) <= length tail)%nat.
      { cbn [item_end]. change (61 =? 0) with false.
        change (61 =? 44) with false. change (isspace 61) with false.
        cbn [orb]. apply item_end_shorter. }
      cbn [length] in *. lia.
    + assert (E : item_end (c :: tail) = c :: tail).
      { cbn [item_end].
        destruct Hsep as [-> | [-> | ->]]; rewrite ?orb_true_r; reflexivity. }
      rewrite E.
      replace (length w + length (c :: tail) - length (c :: tail))%nat
        with (length w) by lia.
      apply name_end_whole. exact Hw.
Qed.

Lemma in_lookup (m : modstruct) :
  In m (modlist h) -> exists i, modlist h !! i = Some m.
Proof. intros H. apply list_elem_of_In in H. apply list_elem_of_lookup_1 in H. exact H. Qed.

(** The way to the entry of a named item: past an optional minus, the name
    is looked up and the item is handed on with the entry found. *)
Lemma decode_named_item (fuel : nat) (c : ctx) (first : bool) (s : mstate)
    (m : modstruct) (off : bool) (tail : list Z) :
  In m (modlist h) -> closes_name tail ->
  decode_items h (S fuel) c
    ((if off then [45] else []) ++ name_bytes m ++ tail) first s
  = match full_name_item h m c off (name_bytes m ++ tail) tail
            (item_end tail) s with
    | inl r => Some r
    | inr (p, s) => decode_items h fuel c p first s
    end.
Proof.
  intros Hin Hc.
  destruct (name_in_item m Hin) as (Hitem & Hne & c0 & w & Hname & Hc0).
  destruct (name_char_plain c0 Hc0) as (Hs0 & H44 & H0 & H61 & H45 & _).
  destruct (in_lookup m Hin) as (i & Hi).
  set (text := name_bytes m ++ tail).
  assert (Htext : text = c0 :: w ++ tail) by (subst text; rewrite Hname; reflexivity).
  assert (Hep : item_end text = item_end tail)
    by (subst text; apply item_end_app; exact Hitem).
  assert (Hpp : name_end (Z.to_nat (distance text (item_end tail))) text = tail)
    by (subst text; apply name_end_closed; assumption).
  assert (Hd : distance text tail = strlen (name m)).
  { subst text. unfold distance. rewrite length_app, strlen_name. f_equal. lia. }
  assert (Hscan : scan_modifiers h text (strlen (name m)) = Z.of_nat i)
    by (subst text; apply scan_modifiers_finds_entry; exact Hi).
  cbn [decode_items].
  destruct off; cbn [app].
  - assert (Hminus : in_item 45)
      by (unfold in_item; split; [vm_compute; reflexivity | lia]).
    rewrite !(skip_sep_item _ 45) by exact Hminus.
    cbn [peek hd advance skipn]. change (45 =? 44) with false.
    change (45 =? 0) with false. change (45 =? 45) with true. cbv iota.
    rewrite skipn_O.
    assert (Hep' : item_end (45 :: text) = item_end tail).
    { cbn [item_end]. change (45 =? 0) with false.
      change (45 =? 44) with false. change (isspace 45) with false.
      cbn [orb]. exact Hep. }
    rewrite Hep', Hpp, Hd, Hscan.
    destruct (Z.ltb_spec (Z.of_nat i) 0); [lia|].
    rewrite Nat2Z.id, Hi. reflexivity.
  - fold text. rewrite Htext.
    assert (Hfirst : in_item c0) by (unfold in_item; tauto).
    rewrite !(skip_sep_item _ c0) by exact Hfirst.
    cbn [peek hd]. rewrite <- Htext.
    destruct (Z.eqb_spec c0 44); [contradiction|].
    destruct (Z.eqb_spec c0 0); [contradiction|].
    destruct (Z.eqb_spec c0 45); [contradiction|].
    rewrite Hep, Hpp, Hd, Hscan.
    destruct (Z.ltb_spec (Z.of_nat i) 0); [lia|].
    rewrite Nat2Z.id, Hi. reflexivity.
Qed.

(** X12: a minus sign in front of a modifier that takes a value is
    refused, in every context and whatever the value: the message names
    the modifier and nothing is changed. *)
Theorem minus_refused_for_values (c : ctx) (s : mstate) (m : modstruct)
    (v : list Z) :
  In m (modlist h) -> is_flag m = false ->
  decode_modifiers h (45 :: name_bytes m ++ 61 :: v) c s
  = Some (Done false (msay (Minus_not_valid (name m)) s)).
Proof.
  intros Hin Hflag. unfold decode_modifiers.
  rewrite (decode_named_item _ c true s m true (61 :: v) Hin);
    [|left; reflexivity].
  unfold full_name_item. fold (is_flag m). rewrite Hflag.
  cbn [negb andb peek hd]. change (61 =? 61) with true. reflexivity.
Qed.


Lemma strtoul_digits_all : forall ds acc,
  Forall (fun d => isdigit d = true) ds ->
  strtoul_digits ds acc = (decimal ds acc, []).
Proof.
  induction ds as [|d ds IH]; intros acc Hds; [reflexivity|].
  apply Forall_cons in Hds as [Hd Hds]. cbn [strtoul_digits].
  rewrite Hd. rewrite IH by exact Hds. reflexivity.
Qed.

Lemma strtoul_decimal (d : Z) (ds : list Z) :
  Forall (fun d => isdigit d = true) (d :: ds) ->
  decimal (d :: ds) 0 < 2 ^ 32 ->
  strtoul (d :: ds) = (decimal (d :: ds) 0, []).
Proof.
  intros Hds Hv. pose proof Hds as Hall.
  apply Forall_cons in Hds as [Hd Hds].
  destruct (isdigit_plain d Hd) as (Hs & _ & _ & _ & Hr).
  unfold strtoul. cbn [skip_space]. rewrite Hs. cbn [peek hd].
  destruct (Z.eqb_spec d 45); [lia|]. destruct (Z.eqb_spec d 43); [lia|].
  cbn [orb]. cbv iota. cbn [peek hd]. rewrite Hd. cbn [negb].
  rewrite strtoul_digits_all by exact Hall.
  assert (H0 : 0 <= decimal (d :: ds) 0).
  { pose proof (DataLineFacts.decimal_mono (d :: ds) 0 Hall ltac:(lia)). lia. }
  destruct (Z.gtb_spec (decimal (d :: ds) 0) (2 ^ 64 - 1)); [lia|].
  rewrite CodecFacts.u32_small by lia. reflexivity.
Qed.

(** X13: a data modifier that takes a number ([jitstack], [offset],
    [ovector]) followed by [=] and decimal digits of a value below 2^32 is
    accepted wherever there is a data control block: the value is stored
    in the member of the modifier, where it is read back, and the block is
    the only thing that changes. *)
Theorem number_modifier_stores_value (c : ctx) (s : mstate) (d : datctl)
    (m : modstruct) (d0 : Z) (ds : list Z) :
  In m (modlist h) -> which m = MOD_DAT -> type m = MOD_INT ->
  dctl s = Some d ->
  Forall (fun x => isdigit x = true) (d0 :: ds) ->
  decimal (d0 :: ds) 0 < 2 ^ 32 ->
  exists n d',
    offset_ m = At n
    /\ datctl_store32 n (decimal (d0 :: ds) 0) d = Some d'
    /\ datctl_load32 n d' = Some (decimal (d0 :: ds) 0)
    /\ decode_modifiers h (name_bytes m ++ 61 :: d0 :: ds) c s
       = Some (Done true (set_dctl (Some d') s)).
Proof.
  intros Hin Hwhich Htype Hd Hds Hv.
  assert (Hstore : exists n d',
            offset_ m = At n
            /\ datctl_store32 n (decimal (d0 :: ds) 0) d = Some d'
            /\ datctl_load32 n d' = Some (decimal (d0 :: ds) 0)).
  { clear - Hin Hwhich Htype.
    repeat (destruct Hin as [<- | Hin]; [| ]); try contradiction;
      try (cbv in Hwhich; discriminate); try (cbv in Htype; discriminate);
      eexists; eexists; (split; [reflexivity|]); split; reflexivity. }
  destruct Hstore as (n & d' & Ho & Hst & Hld).
  exists n, d'. split; [exact Ho|]. split; [exact Hst|]. split; [exact Hld|].
  unfold decode_modifiers.
  rewrite (decode_named_item _ c true s m false (61 :: d0 :: ds) Hin);
    [|left; reflexivity].
  unfold full_name_item.
  assert (Hflag : modkind_eqb (type m) MOD_CTL || modkind_eqb (type m) MOD_OPT
                  = false) by (rewrite Htype; reflexivity).
  rewrite Hflag. cbn [negb andb peek hd advance skipn].
  change (61 =? 61) with true. cbn [negb andb]. rewrite ?skipn_O.
  unfold check_modifier. rewrite Hwhich, Hd.
  unfold apply_modifier. rewrite Htype, Ho.
  pose proof Hds as Hall. apply Forall_cons in Hds as [Hd0 _].
  cbn [peek hd]. rewrite Hd0. cbn [negb].
  rewrite strtoul_decimal by assumption.
  unfold store_field. rewrite Hd. cbn [mbind option_bind]. rewrite Hst.
  cbn [or_wild peek hd ends_item]. change (0 =? 0) with true.
  unfold mbind, option_bind. cbn [or_wild peek hd]. unfold ends_item.
  change (0 =? 0) with true. rewrite !orb_true_r. cbn [negb].
  destruct (length (name_bytes m ++ 61 :: d0 :: ds)); reflexivity.
Qed.

(** X14: a flag that belongs to patterns only is refused where there
    is no pattern control block, and one that belongs to data lines only
    where there is no data control block: the message names the modifier
    and nothing else is written. *)
Theorem flag_refused_out_of_place (c : ctx) (s : mstate) (m : modstruct)
    (tail : list Z) :
  In m (modlist h) -> is_flag m = true -> ends_item (peek tail) = true ->
  (which m = MOD_PAT /\ pctl s = None) \/ (which m = MOD_DAT /\ dctl s = None) ->
  decode_modifiers h (name_bytes m ++ tail) c s
  = Some (Done false (msay (Not_valid_here (name m)) s)).
Proof.
  intros Hin Hflag Htail Hplace. unfold decode_modifiers.
  assert (Hc : closes_name tail).
  { destruct tail as [|x tail]; [exact I|]. cbn [peek hd] in Htail.
    unfold ends_item in Htail. cbn [closes_name].
    destruct (Z.eqb_spec x 44); [tauto|].
    destruct (Z.eqb_spec x 10);
      [subst x; do 3 right; vm_compute; reflexivity|].
    destruct (Z.eqb_spec x 0); [tauto|]. discriminate. }
  rewrite (decode_named_item _ c true s m false tail Hin Hc).
  unfold full_name_item. fold (is_flag m). rewrite Hflag, Htail.
  cbn [negb andb]. unfold check_modifier.
  destruct Hplace as [[-> ->] | [-> ->]]; reflexivity.
Qed.

(** X15: a modifier string of white space and commas only, the empty
    one among them, is accepted and changes nothing. *)
Theorem decode_blank (p : list Z) (c : ctx) (s : mstate) :
  Forall (fun x => isspace x || (x =? 44) = true) p ->
  decode_modifiers h p c s = Some (Done true s).
Proof.
  intros Hp. unfold decode_modifiers.
  assert (Hsuffix : forall l, Forall (fun x => isspace x || (x =? 44) = true) l ->
            Forall (fun x => isspace x || (x =? 44) = true) (skip_sep false l)).
  { induction 1 as [|x l Hx Hl IH]; [constructor|].
    cbn [skip_sep]. destruct (isspace x) eqn:E; cbn [orb andb]; [exact IH|].
    constructor; [rewrite E; exact Hx | exact Hl]. }
  assert (Hall : forall l, Forall (fun x => isspace x || (x =? 44) = true) l ->
            skip_sep true l = []).
  { induction 1 as [|x l Hx Hl IH]; [reflexivity|].
    cbn [skip_sep]. rewrite andb_true_l, Hx. exact IH. }
  cbn [decode_items]. rewrite (Hall _ (Hsuffix _ Hp)). reflexivity.
Qed.

End Decoding.

Lemma decode_blank_witness :
  decode_modifiers sample_h (bytes_of_string " , ,") CTX_DAT
    (ModifierTerms.pattern_state zero_patctl Samples.no_compile_context
       Samples.no_match_context)
  = Some (Done true (ModifierTerms.pattern_state zero_patctl
                       Samples.no_compile_context Samples.no_match_context)).
Proof.
  apply (decode_blank sample_h (bytes_of_string " , ,") CTX_DAT).
  vm_compute. repeat constructor.
Defined.

Lemma minus_refused_for_values_witness :
  decode_modifiers sample_h
    (45 :: name_bytes (M "offset" MOD_DAT MOD_INT 0 DO_offset)
        ++ 61 :: bytes_of_string "3")
    CTX_DAT
    (ModifierTerms.pattern_state zero_patctl Samples.no_compile_context
       Samples.no_match_context)
  = Some (Done false
            (msay (Minus_not_valid "offset")
               (ModifierTerms.pattern_state zero_patctl
                  Samples.no_compile_context Samples.no_match_context))).
Proof.
  apply (minus_refused_for_values sample_h CTX_DAT _
           (M "offset" MOD_DAT MOD_INT 0 DO_offset) (bytes_of_string "3")).
  - vm_compute. tauto.
  - reflexivity.
Defined.

Lemma number_modifier_stores_value_witness :
  exists n d',
    offset_ (M "offset" MOD_DAT MOD_INT 0 DO_offset) = At n
    /\ datctl_store32 n (decimal (49 :: [50]) 0) zero_datctl = Some d'
    /\ datctl_load32 n d' = Some (decimal (49 :: [50]) 0)
    /\ decode_modifiers sample_h
         (name_bytes (M "offset" MOD_DAT MOD_INT 0 DO_offset)
          ++ 61 :: 49 :: [50]) CTX_DAT
         {| pctl := None; dctl := Some zero_datctl;
            pat_context := Samples.no_compile_context;
            default_pat_context := Samples.no_compile_context;
            dat_context := Samples.no_match_context;
            default_dat_context := Samples.no_match_context;
            c1index := fresh_c1index; outfile := [] |}
       = Some (Done true
                 (set_dctl (Some d')
                    {| pctl := None; dctl := Some zero_datctl;
                       pat_context := Samples.no_compile_context;
                       default_pat_context := Samples.no_compile_context;
                       dat_context := Samples.no_match_context;
                       default_dat_context := Samples.no_match_context;
                       c1index := fresh_c1index; outfile := [] |})).
Proof.
  apply (number_modifier_stores_value sample_h CTX_DAT _ zero_datctl
           (M "offset" MOD_DAT MOD_INT 0 DO_offset) 49 [50]).
  - vm_compute. tauto.
  - reflexivity.
  - reflexivity.
  - reflexivity.
  - repeat constructor.
  - vm_compute. reflexivity.
Defined.

Lemma flag_refused_out_of_place_witness :
  decode_modifiers sample_h
    (name_bytes (M "caseless" MOD_PAT MOD_OPT (PCRE2_CASELESS sample_h)
                   PO_options) ++ [])
    CTX_DAT
    {| pctl := None; dctl := Some zero_datctl;
       pat_context := Samples.no_compile_context;
       default_pat_context := Samples.no_compile_context;
       dat_context := Samples.no_match_context;
       default_dat_context := Samples.no_match_context;
       c1index := fresh_c1index; outfile := [] |}
  = Some (Done false
            (msay (Not_valid_here "caseless")
               {| pctl := None; dctl := Some zero_datctl;
                  pat_context := Samples.no_compile_context;
                  default_pat_context := Samples.no_compile_context;
                  dat_context := Samples.no_match_context;
                  default_dat_context := Samples.no_match_context;
                  c1index := fresh_c1index; outfile := [] |})).
Proof.
  apply (flag_refused_out_of_place sample_h CTX_DAT _
           (M "caseless" MOD_PAT MOD_OPT (PCRE2_CASELESS sample_h) PO_options)
           []).
  - vm_compute. tauto.
  - reflexivity.
  - reflexivity.
  - left. split; reflexivity.
Defined.

End DecodeFacts.

(** ** The encoder on plain characters and simple escapes *)

Module EncoderFacts.
Import Codec DataLine CodecTerms EncoderTerms.
Import MachineFacts CodecFacts WidthFacts DataLineFacts.

Lemma insert_behind {A : Type} (l1 : list A) (x y : A) (l2 : list A) :
  <[length l1 := y]> (l1 ++ x :: l2) = l1 ++ y :: l2.
Proof.
  induction l1 as [|z l1 IH]; cbn; [reflexivity | f_equal; exact IH].
Qed.

Lemma code_unit_size_mode (test_mode : Z) :
  test_mode = 8 \/ test_mode = 16 \/ test_mode = 32 ->
  code_unit_size test_mode = ptr_width test_mode /\
  (ptr_width test_mode = 1 \/ ptr_width test_mode = 2
   \/ ptr_width test_mode = 4).
Proof.
  intros [-> | [-> | ->]]; vm_compute; auto.
Qed.

Section Cells.
Variable test_mode : Z.
Variable utf : bool.
Variable allocator : option nat -> Z -> option bool.
Variables (a : nat) (size nl w : Z).
Hypothesis Hw : w = code_unit_size test_mode.
Hypothesis Hpos : 0 < w.

(** One store through the pointer of the active width fills the first free
    cell. *)
Lemma store_cell_writing (c x : Z) (text written junk : list Z) :
  Z.of_nat (length (written ++ x :: junk)) * w = size ->
  0 <= c < 2 ^ (8 * w) ->
  store_cell test_mode w c (writing a size nl w text written (x :: junk))
  = inr (writing a size nl w text (written ++ [c]) junk).
Proof.
  intros Hsize Hc. unfold store_cell, writing.
  cbn [mem dbuffer q dbuffer_size cells set_q set_mem p start_dup needlen out].
  rewrite length_app in Hsize. cbn [length] in Hsize.
  destruct (Z.leb_spec 0 (Z.of_nat (length written) * w)); [|nia].
  destruct (Z.leb_spec (Z.of_nat (length written) * w + w) size); [|nia].
  cbn [andb]. rewrite <- Hw, Z.div_mul, Nat2Z.id by lia.
  rewrite Z.mod_small by exact Hc. rewrite insert_behind.
  rewrite length_app, <- app_assoc. cbn [length app].
  replace (Z.of_nat (length written + 1)) with (Z.of_nat (length written) + 1)
    by lia.
  rewrite Z.mul_add_distr_r, Z.mul_1_l. reflexivity.
Qed.

Lemma store_all_writing (text : list Z) : forall us written junk,
  Forall (fun u => 0 <= u < 2 ^ (8 * w)) us ->
  (length us <= length junk)%nat ->
  Z.of_nat (length (written ++ junk)) * w = size ->
  store_all test_mode w us (writing a size nl w text written junk)
  = Continue (writing a size nl w text (written ++ us)
                (drop (length us) junk)).
Proof.
  induction us as [|u us IH]; intros written junk Hus Hroom Hsize.
  - cbn [store_all length]. rewrite app_nil_r, skipn_O. reflexivity.
  - apply Forall_cons in Hus as [Hu Hus].
    destruct junk as [|x junk]; [cbn in Hroom; lia|].
    cbn [store_all]. unfold store.
    rewrite store_cell_writing by trivial.
    rewrite IH; trivial.
    + rewrite <- app_assoc. reflexivity.
    + cbn in Hroom. lia.
    + rewrite <- Hsize, !length_app. cbn [length]. f_equal. lia.
Qed.

Lemma store_writing (c : Z) (text written junk : list Z) :
  0 <= c < 2 ^ (8 * w) -> (1 <= length junk)%nat ->
  Z.of_nat (length (written ++ junk)) * w = size ->
  store test_mode w c (writing a size nl w text written junk)
  = Continue (writing a size nl w text (written ++ [c]) (drop 1 junk)).
Proof.
  intros Hc Hroom Hsize.
  destruct junk as [|x junk]; [cbn in Hroom; lia|].
  unfold store. rewrite store_cell_writing by trivial. reflexivity.
Qed.

End Cells.

Lemma digits_range n : forall v, Forall (fun x => 128 <= x < 192) (digits n v).
Proof.
  induction n as [|n IH]; intros v; cbn [digits]; [constructor|].
  apply Forall_app. split; [apply IH|].
  constructor; [|constructor].
  pose proof (Z.mod_pos_bound v 64 ltac:(lia)). lia.
Qed.

Lemma ord2utf8_byte_range (c : Z) :
  0 <= c <= 0x7fffffff ->
  Forall (fun x => 0 <= x < 2 ^ (8 * 1)) (snd (ord2utf8 c)).
Proof.
  intros Hc. destruct (table1_index_class c Hc) as (k & _ & Hi & _).
  rewrite (ord2utf8_bytes c k Hc Hi). cbn [snd].
  change (2 ^ (8 * 1)) with 256. constructor.
  - unfold u8. apply Z.mod_pos_bound. lia.
  - eapply Forall_impl; [apply digits_range|]. cbn. lia.
Qed.

Lemma units16_range (c : Z) :
  0 <= c <= 0x10ffff ->
  Forall (fun x => 0 <= x < 2 ^ (8 * 2)) (units16 c).
Proof.
  intros Hc. change (2 ^ (8 * 2)) with 65536.
  destruct (Z.ltb_spec c 0x10000) as [Hlow | Hhigh].
  - unfold units16. destruct (Z.ltb_spec c 0x10000); [|lia].
    constructor; [lia | constructor].
  - rewrite <- surrogate_units_small by lia.
    unfold u16. repeat constructor; apply Z.mod_pos_bound; lia.
Qed.

Lemma character_units_range (test_mode : Z) (utf : bool) (c : Z) :
  test_mode = 8 \/ test_mode = 16 \/ test_mode = 32 ->
  0 <= c <= character_max test_mode utf ->
  Forall (fun u => 0 <= u < 2 ^ (8 * ptr_width test_mode))
    (character_units test_mode utf c).
Proof.
  unfold character_max, character_units.
  intros [-> | [-> | ->]] Hc; destruct utf;
    cbn [PCRE8_MODE PCRE16_MODE] in *;
    repeat match goal with
           | H : context [?x =? ?y] |- _ =>
               let b := eval vm_compute in (x =? y) in
               change (x =? y) with b in H; cbv iota in H
           | |- context [?x =? ?y] =>
               let b := eval vm_compute in (x =? y) in
               change (x =? y) with b; cbv iota
           end.
  - apply ord2utf8_byte_range. lia.
  - constructor; [|constructor]. change (2 ^ (8 * ptr_width 8)) with 256. lia.
  - apply units16_range. lia.
  - constructor; [|constructor]. change (2 ^ (8 * ptr_width 16)) with 65536. lia.
  - constructor; [|constructor].
    change (2 ^ (8 * ptr_width 32)) with 4294967296. lia.
  - constructor; [|constructor].
    change (2 ^ (8 * ptr_width 32)) with 4294967296. lia.
Qed.

Ltac decide_tests :=
  repeat match goal with
         | H : context [?x =? ?y] |- _ =>
             let b := eval vm_compute in (x =? y) in
             match b with
             | true => idtac
             | false => idtac
             end;
             change (x =? y) with b in H; cbv iota in H
         | |- context [?x =? ?y] =>
             let b := eval vm_compute in (x =? y) in
             match b with
             | true => idtac
             | false => idtac
             end;
             change (x =? y) with b; cbv iota
         end.

(** A character of the mode is stored as its code units, behind what has
    been written. *)
Lemma commit_writing (test_mode : Z) (utf : bool) (a : nat) (size nl c : Z)
    (text written junk : list Z) :
  test_mode = 8 \/ test_mode = 16 \/ test_mode = 32 ->
  0 <= c <= character_max test_mode utf ->
  (length (character_units test_mode utf c) <= length junk)%nat ->
  Z.of_nat (length (written ++ junk)) * ptr_width test_mode = size ->
  commit test_mode utf c
    (writing a size nl (ptr_width test_mode) text written junk)
  = Continue (writing a size nl (ptr_width test_mode) text
                (written ++ character_units test_mode utf c)
                (drop (length (character_units test_mode utf c)) junk)).
Proof.
  intros Hmode Hplain Hroom Hsize.
  pose proof (character_units_range test_mode utf c Hmode Hplain) as Hrange.
  revert Hplain Hroom Hsize Hrange.
  unfold character_max, character_units, commit.
  destruct Hmode as [-> | [-> | ->]]; destruct utf;
    cbn [PCRE8_MODE PCRE16_MODE]; decide_tests;
    intros Hc Hroom Hsize Hrange.
  - destruct (Z.gtb_spec c 0x7fffffff); [lia|].
    apply store_all_writing; trivial; reflexivity.
  - destruct (Z.gtb_spec c 0xff); [lia|].
    apply store_writing; trivial; try reflexivity.
    apply Forall_cons in Hrange as [Hu _]. exact Hu.
  - destruct (Z.gtb_spec c 0x10ffff); [lia|].
    unfold units16 in *.
    destruct (Z.geb_spec c 0x10000), (Z.ltb_spec c 0x10000); try lia.
    + rewrite u32_small by lia.
      apply store_all_writing; trivial; reflexivity.
    + apply store_writing; trivial; try reflexivity.
      apply Forall_cons in Hrange as [Hu _]. exact Hu.
  - destruct (Z.gtb_spec c 0xffff); [lia|].
    apply store_writing; trivial; try reflexivity.
    apply Forall_cons in Hrange as [Hu _]. exact Hu.
  - apply store_writing; trivial; try reflexivity.
    apply Forall_cons in Hrange as [Hu _]. exact Hu.
  - apply store_writing; trivial; try reflexivity.
    apply Forall_cons in Hrange as [Hu _]. exact Hu.
Qed.

Section Scanning.
Variable test_mode : Z.
Variable utf : bool.
Variable allocator : option nat -> Z -> option bool.
Variables (a : nat) (size nl : Z).
Hypothesis Hmode : test_mode = 8 \/ test_mode = 16 \/ test_mode = 32.

Local Abbreviation w := (ptr_width test_mode).
Local Abbreviation scan := (scan_loop test_mode utf allocator).
Local Abbreviation units := (character_units test_mode utf).

Lemma plain_range (c : Z) :
  plain test_mode utf c -> 0 < c <= 0x7fffffff /\ c <> 92.
Proof.
  unfold plain, character_max. intros [Hc Hne]. split; [|exact Hne].
  destruct utf; [destruct (test_mode =? PCRE16_MODE)|]; lia.
Qed.

(** A byte that is a character by itself goes to [commit] as it is. *)
Lemma scan_single (c : Z) (rest written junk : list Z) (fuel : nat) :
  utf = false \/ c < 0xc0 -> c <> 0 -> c <> 92 ->
  scan (S fuel) (writing a size nl w (c :: rest) written junk)
  = match commit test_mode utf c (writing a size nl w rest written junk) with
    | Continue s' => scan fuel s'
    | r => Some r
    end.
Proof.
  intros Hone H0 Hne. cbn [scan_loop writing p peek hd].
  destruct (Z.eqb_spec c 0); [contradiction|].
  change (set_p (advance 1 (c :: rest)) _)
    with (writing a size nl w rest written junk).
  unfold scan_body. cbn [start_dup writing].
  assert (E : (if c =? 93 then @None dptr else None) = None)
    by (destruct (c =? 93); reflexivity).
  rewrite E. destruct (Z.eqb_spec c 92); [contradiction|]. cbn [negb].
  assert (E' : utf && HASUTF8EXTRALEN c = false).
  { destruct Hone as [-> | Hlt]; [reflexivity|].
    unfold HASUTF8EXTRALEN. destruct (Z.geb_spec c 0xc0); [lia|].
    apply andb_false_r. }
  rewrite E'.
  destruct (commit test_mode utf c (writing a size nl w rest written junk));
    reflexivity.
Qed.

(** One turn of the loop takes one plain character of the line and stores
    its code units. *)
Lemma scan_character (c : Z) (rest written junk : list Z) (fuel : nat) :
  plain test_mode utf c ->
  (length (units c) <= length junk)%nat ->
  Z.of_nat (length (written ++ junk)) * w = size ->
  scan (S fuel)
    (writing a size nl w (line_text utf [c] ++ rest) written junk)
  = scan fuel
      (writing a size nl w rest (written ++ units c)
         (drop (length (units c)) junk)).
Proof.
  intros Hplain Hroom Hsize.
  destruct (plain_range c Hplain) as [Hc Hne].
  assert (Hcommit := fun text =>
    commit_writing test_mode utf a size nl c text written junk
      Hmode ltac:(unfold plain in Hplain; lia) Hroom Hsize).
  assert (Hcases : (utf = true /\ line_text utf [c] = snd (ord2utf8 c))
                   \/ (utf = false /\ line_text utf [c] = [c])).
  { unfold line_text. destruct utf; [left | right]; split; trivial.
    change (utf8_text [c]) with (snd (ord2utf8 c) ++ []).
    apply app_nil_r. }
  destruct Hcases as [[Hutf ->] | [Hutf ->]].
  - destruct (ord2utf8_shape c ltac:(lia)) as [[Hlt E] | (b & t & E & Hb & Ht)].
    + rewrite E. cbn [app].
      rewrite scan_single by (auto; lia). rewrite Hcommit. reflexivity.
    + pose proof (utf82ord_ord2utf8 c rest ltac:(lia)) as Hback.
      destruct (ord2utf8_return c ltac:(lia)) as [Hlen _].
      rewrite E in *. cbn [app] in *.
      cbn [scan_loop writing p peek hd].
      destruct (Z.eqb_spec b 0); [lia|].
      change (set_p (advance 1 (b :: t ++ rest)) _)
        with (writing a size nl w (t ++ rest) written junk).
      unfold scan_body. cbn [start_dup writing].
      assert (E1 : (if b =? 93 then @None dptr else None) = None)
        by (destruct (b =? 93); reflexivity).
      rewrite E1. destruct (Z.eqb_spec b 92); [lia|]. cbn [negb].
      assert (E2 : utf && HASUTF8EXTRALEN b = true).
      { rewrite Hutf. unfold HASUTF8EXTRALEN.
        destruct (Z.geb_spec b 0xc0); [reflexivity | lia]. }
      rewrite E2.
      unfold GETUTF8INC. cbn [p writing]. rewrite Hback, Hlen. cbn [length].
      replace (Z.to_nat (Z.of_nat (S (length t)) - 1)) with (length t) by lia.
      unfold advance. rewrite drop_app_length.
      change (set_p rest _) with (writing a size nl w rest written junk).
      rewrite Hcommit. reflexivity.
  - cbn [app]. rewrite scan_single by (auto; lia).
    rewrite Hcommit. reflexivity.
Qed.

Lemma line_text_cons (c : Z) (cs : list Z) :
  line_text utf (c :: cs) = line_text utf [c] ++ line_text utf cs.
Proof.
  unfold line_text. destruct utf; [|reflexivity].
  rewrite utf8_text_cons. change (utf8_text [c]) with (snd (ord2utf8 c) ++ []).
  rewrite app_nil_r. reflexivity.
Qed.

(** The loop takes a stretch of plain characters in as many turns and
    stores the code units of each in order. *)
Lemma scan_text (tail : list Z) (k : nat) : forall cs written junk,
  Forall (plain test_mode utf) cs ->
  (length (subject_text test_mode utf cs) <= length junk)%nat ->
  Z.of_nat (length (written ++ junk)) * w = size ->
  scan (length cs + k)
    (writing a size nl w (line_text utf cs ++ tail) written junk)
  = scan k
      (writing a size nl w tail (written ++ subject_text test_mode utf cs)
         (drop (length (subject_text test_mode utf cs)) junk)).
Proof.
  induction cs as [|c cs IH]; intros written junk Hcs Hroom Hsize.
  - unfold line_text, subject_text.
    destruct utf; cbn [utf8_text concat map flat_map app length Nat.add];
      rewrite app_nil_r, skipn_O; reflexivity.
  - apply Forall_cons in Hcs as [Hc Hcs].
    unfold subject_text in *. cbn [flat_map] in *.
    rewrite length_app in Hroom.
    rewrite line_text_cons, <- app_assoc. cbn [length Nat.add].
    rewrite scan_character by (trivial; lia).
    rewrite IH; trivial.
    + rewrite <- app_assoc, drop_drop, length_app. reflexivity.
    + rewrite length_drop. lia.
    + rewrite <- Hsize, !length_app, length_drop. f_equal. lia.
Qed.

Lemma scan_end (k : nat) (written junk : list Z) :
  scan k (writing a size nl w [] written junk)
  = Some (EndOfLine (writing a size nl w [] written junk)).
Proof. destruct k; reflexivity. Qed.

(** A backslash followed by an equals sign ends the subject, and the scan
    stops behind the two. *)
Lemma scan_equals (k : nat) (rest written junk : list Z) :
  scan (S k) (writing a size nl w (92 :: 61 :: rest) written junk)
  = Some (EndString (writing a size nl w rest written junk)).
Proof. reflexivity. Qed.

(** A backslash followed by the letter of a control character stores that
    character. *)
Lemma scan_escape (e v : Z) (k : nat) (rest written junk : list Z) :
  In (e, v) control_escapes ->
  (1 <= length junk)%nat ->
  Z.of_nat (length (written ++ junk)) * w = size ->
  scan (S k) (writing a size nl w (92 :: e :: rest) written junk)
  = scan k (writing a size nl w rest (written ++ [v]) (drop 1 junk)).
Proof.
  intros Hin Hroom Hsize.
  assert (Hv : 0 <= v <= character_max test_mode utf /\
               character_units test_mode utf v = [v]).
  { unfold character_max, character_units, control_escapes in *.
    cbn [In] in Hin.
    destruct Hmode as [Hm | [Hm | Hm]]; rewrite Hm; destruct utf;
      cbn [PCRE8_MODE PCRE16_MODE]; decide_tests;
      repeat (destruct Hin as [Hin | Hin];
              [injection Hin as <- <-; split; [lia | reflexivity]|]);
      contradiction. }
  destruct Hv as [Hv Hu].
  pose proof (commit_writing test_mode utf a size nl v rest written junk
                Hmode Hv) as Hcommit.
  rewrite Hu in Hcommit. specialize (Hcommit Hroom Hsize).
  transitivity
    (match commit test_mode utf v (writing a size nl w rest written junk) with
     | Continue s' => scan k s'
     | r => Some r
     end); [|rewrite Hcommit; reflexivity].
  unfold control_escapes in Hin. cbn [In] in Hin.
  repeat (destruct Hin as [Hin | Hin];
          [injection Hin as <- <-; reflexivity|]).
  contradiction.
Qed.

Lemma hexval_range (d : Z) :
  isxdigit d = true ->
  0 <= hexval d < 16 /\ 0 < d < 128 /\ d <> 123 /\ isspace d = false.
Proof.
  unfold hexval, isxdigit, isdigit, tolower, isspace. intros H.
  destruct (Z.leb_spec 48 d), (Z.leb_spec d 57), (Z.leb_spec 97 d),
    (Z.leb_spec d 102), (Z.leb_spec 65 d), (Z.leb_spec d 70),
    (Z.leb_spec d 90), (Z.eqb_spec d 32), (Z.leb_spec 9 d),
    (Z.leb_spec d 13); cbn [andb orb] in *; try discriminate; try lia;
    repeat split; try lia; reflexivity.
Qed.

Lemma read_hex_two (h1 h2 : Z) (rest : list Z) :
  isxdigit h1 = true -> isxdigit h2 = true ->
  read_hex 2 (h1 :: h2 :: rest) 0 0 = (hexval h1 * 16 + hexval h2, rest).
Proof.
  intros H1 H2.
  destruct (hexval_range h1 H1) as [R1 _].
  destruct (hexval_range h2 H2) as [R2 _].
  cbn [read_hex peek hd]. change (0 <? 2) with true. rewrite H1.
  cbn [andb]. change (advance 1 (h1 :: h2 :: rest)) with (h2 :: rest).
  cbn [peek hd]. change (0 + 1 <? 2) with true. rewrite H2. cbn [andb].
  change (advance 1 (h2 :: rest)) with rest.
  rewrite Z.mul_0_l, Z.add_0_l, (u32_small (hexval h1)) by lia.
  rewrite u32_small by lia. reflexivity.
Qed.

(** A backslash, an x and two hex digits store one code unit, the value of
    the two digits, in every mode. *)
Lemma scan_hex_byte (h1 h2 : Z) (k : nat) (rest written junk : list Z) :
  isxdigit h1 = true -> isxdigit h2 = true ->
  (1 <= length junk)%nat ->
  Z.of_nat (length (written ++ junk)) * w = size ->
  scan (S k) (writing a size nl w (92 :: 120 :: h1 :: h2 :: rest) written junk)
  = scan k (writing a size nl w rest
              (written ++ [hexval h1 * 16 + hexval h2]) (drop 1 junk)).
Proof.
  intros H1 H2 Hroom Hsize.
  destruct (hexval_range h1 H1) as (R1 & _ & Hbrace & _).
  destruct (hexval_range h2 H2) as [R2 _].
  set (c := hexval h1 * 16 + hexval h2).
  assert (Hstore :
    (if utf && (test_mode =? PCRE8_MODE)
     then store test_mode 1 c (writing a size nl w rest written junk)
     else commit test_mode utf c (writing a size nl w rest written junk))
    = Continue (writing a size nl w rest (written ++ [c]) (drop 1 junk))).
  { assert (Hu : 0 <= c <= character_max test_mode utf
                 /\ (utf && (test_mode =? PCRE8_MODE) = false ->
                     character_units test_mode utf c = [c])).
    { unfold character_max, character_units, units16.
      destruct Hmode as [Hm | [Hm | Hm]]; rewrite Hm; destruct utf;
        cbn [PCRE8_MODE PCRE16_MODE andb]; decide_tests;
        (split; [lia|]); intros E; try discriminate; try reflexivity.
      destruct (Z.ltb_spec c 0x10000); [reflexivity | lia]. }
    destruct Hu as [Hc Hu].
    destruct (utf && (test_mode =? PCRE8_MODE)) eqn:E.
    - apply andb_prop in E as [_ E]. apply Z.eqb_eq in E.
      revert Hsize. rewrite E. change (ptr_width PCRE8_MODE) with 1.
      intros Hsize. apply store_writing; trivial; try reflexivity.
      change (2 ^ (8 * 1)) with 256. lia.
    - pose proof (commit_writing test_mode utf a size nl c rest written junk
                    Hmode Hc) as Hcommit.
      rewrite (Hu eq_refl) in Hcommit. apply Hcommit; trivial. }
  transitivity
    (match hex_escape test_mode utf 0
             (writing a size nl w (h1 :: h2 :: rest) written junk) with
     | Continue s' => scan k s'
     | r => Some r
     end).
  - cbn [scan_loop writing p peek hd]. change (92 =? 0) with false.
    cbv iota.
    change (set_p (advance 1 (92 :: 120 :: h1 :: h2 :: rest)) _)
      with (writing a size nl w (120 :: h1 :: h2 :: rest) written junk).
    unfold scan_body. change (92 =? 93) with false. cbv iota.
    change (negb (92 =? 92)) with false. cbv iota.
    unfold escape. cbn [writing p peek hd].
    change (set_p (advance 1 (120 :: h1 :: h2 :: rest)) _)
      with (writing a size nl w (h1 :: h2 :: rest) written junk).
    cbn [writing p peek hd].
    destruct (Z.eqb_spec h1 123); [contradiction|].
    destruct (hex_escape test_mode utf 0 _); reflexivity.
  - unfold hex_escape. cbn [writing p].
    rewrite read_hex_two by trivial.
    change (set_p rest _) with (writing a size nl w rest written junk).
    fold c. rewrite Hstore. reflexivity.
Qed.

Lemma read_octal_two (d2 d3 c0 : Z) (rest : list Z) :
  48 <= d2 <= 55 -> 48 <= d3 <= 55 -> 0 <= c0 < 8 ->
  read_octal 3 (d2 :: d3 :: rest) 0 c0
  = (c0 * 64 + (d2 - 48) * 8 + (d3 - 48), rest).
Proof.
  intros H2 H3 H0.
  assert (Hd : forall d, 48 <= d <= 55 ->
            isdigit d && negb (d =? 56) && negb (d =? 57) = true).
  { intros d Hd. unfold isdigit.
    destruct (Z.leb_spec 48 d), (Z.leb_spec d 57), (Z.eqb_spec d 56),
      (Z.eqb_spec d 57); try lia; reflexivity. }
  cbn [read_octal peek hd]. change (0 <? 2) with true.
  rewrite <- !andb_assoc. cbn [andb]. rewrite !andb_assoc, (Hd d2 H2).
  change (advance 1 (d2 :: d3 :: rest)) with (d3 :: rest). cbn [peek hd].
  change (0 + 1 <? 2) with true.
  rewrite <- !andb_assoc. cbn [andb]. rewrite !andb_assoc, (Hd d3 H3).
  change (advance 1 (d3 :: rest)) with rest.
  change (0 + 1 + 1 <? 2) with false. cbn [andb].
  rewrite (u32_small (c0 * 8 + d2 - 48)) by lia.
  rewrite u32_small by lia. f_equal. lia.
Qed.

(** A backslash and three octal digits store the character of that value,
    as a plain character of the value would be stored. *)
Lemma scan_octal (d1 d2 d3 : Z) (k : nat) (rest written junk : list Z) :
  48 <= d1 <= 55 -> 48 <= d2 <= 55 -> 48 <= d3 <= 55 ->
  (d1 - 48) * 64 + (d2 - 48) * 8 + (d3 - 48) <= character_max test_mode utf ->
  (length (units ((d1 - 48) * 64 + (d2 - 48) * 8 + (d3 - 48)))
   <= length junk)%nat ->
  Z.of_nat (length (written ++ junk)) * w = size ->
  scan (S k) (writing a size nl w (92 :: d1 :: d2 :: d3 :: rest) written junk)
  = scan k (writing a size nl w rest
              (written ++ units ((d1 - 48) * 64 + (d2 - 48) * 8 + (d3 - 48)))
              (drop (length (units ((d1 - 48) * 64 + (d2 - 48) * 8
                                    + (d3 - 48)))) junk)).
Proof.
  intros H1 H2 H3 Hmax Hroom Hsize.
  set (c := (d1 - 48) * 64 + (d2 - 48) * 8 + (d3 - 48)) in *.
  pose proof (commit_writing test_mode utf a size nl c rest written junk
                Hmode ltac:(unfold c in *; lia) Hroom Hsize) as Hcommit.
  transitivity
    (match (let '(c, p1) := read_octal 3 (d2 :: d3 :: rest) 0 (u32 (d1 - 48)) in
            commit test_mode utf c
              (set_p p1 (writing a size nl w (d2 :: d3 :: rest) written junk)))
     with
     | Continue s' => scan k s'
     | r => Some r
     end).
  - assert (Hd1 : d1 = 48 \/ d1 = 49 \/ d1 = 50 \/ d1 = 51 \/ d1 = 52
                  \/ d1 = 53 \/ d1 = 54 \/ d1 = 55) by lia.
    clear Hcommit Hmax Hroom. clearbody c.
    repeat (destruct Hd1 as [Hd1 | Hd1]; [rewrite Hd1; reflexivity|]).
    rewrite Hd1. reflexivity.
  - rewrite (u32_small (d1 - 48)) by lia.
    rewrite read_octal_two by lia.
    change (set_p rest _) with (writing a size nl w rest written junk).
    fold c. rewrite Hcommit. reflexivity.
Qed.

End Scanning.

Lemma cstring_clean (l : list Z) :
  Forall (fun x => x <> 0) l -> cstring l = l.
Proof.
  induction 1 as [|x l Hx Hl IH]; cbn [cstring]; [reflexivity|].
  destruct (Z.eqb_spec x 0); [contradiction|]. rewrite IH. reflexivity.
Qed.

Lemma rtrim_clean (l : list Z) :
  isspace (List.last l 0) = false -> rtrim l = l.
Proof.
  induction l as [|c l IH]; [reflexivity|].
  intros H. destruct l as [|x l].
  - cbn [rtrim]. cbn [List.last] in H. rewrite H. reflexivity.
  - change (List.last (c :: x :: l) 0) with (List.last (x :: l) 0) in H.
    change (rtrim (c :: x :: l))
      with (match rtrim (x :: l) with
            | [] => if isspace c then [] else [c]
            | t => c :: t
            end).
    rewrite (IH H). reflexivity.
Qed.

Lemma skip_space_clean (l : list Z) :
  isspace (hd 0 l) = false -> skip_space l = l.
Proof.
  destruct l as [|c l]; [reflexivity|]. cbn [hd skip_space].
  intros ->. reflexivity.
Qed.

Lemma last_behind (l1 l2 : list Z) (d : Z) :
  l2 <> [] -> List.last (l1 ++ l2) d = List.last l2 d.
Proof.
  intros Hne. induction l1 as [|x l1 IH]; [reflexivity|].
  cbn [app]. destruct (l1 ++ l2) eqn:E.
  - apply app_eq_nil in E as [_ E]. contradiction.
  - rewrite <- IH. reflexivity.
Qed.

Lemma last_of_all (P : Z -> Prop) (l : list Z) (d : Z) :
  Forall P l -> l <> [] -> P (List.last l d).
Proof.
  induction 1 as [|x l Hx Hl IH]; intros Hne; [contradiction|].
  destruct l as [|y l]; [exact Hx|].
  change (List.last (x :: y :: l) d) with (List.last (y :: l) d).
  apply IH. discriminate.
Qed.

Lemma high_byte_no_space (b : Z) : 128 <= b -> isspace b = false.
Proof.
  intros Hb. destruct (isspace b) eqn:E; [|reflexivity].
  apply isspace_ascii in E. lia.
Qed.

Lemma line_text_app (utf : bool) (cs1 cs2 : list Z) :
  line_text utf (cs1 ++ cs2) = line_text utf cs1 ++ line_text utf cs2.
Proof.
  unfold line_text, utf8_text. destruct utf; [|reflexivity].
  rewrite map_app, concat_app. reflexivity.
Qed.

(** The bytes of one character: the character itself, or a lead byte and
    continuation bytes. *)
Lemma character_text (utf : bool) (c : Z) :
  0 < c <= 0x7fffffff ->
  line_text utf [c] = [c] \/
  exists b t, line_text utf [c] = b :: t /\ 0xc0 <= b < 256
              /\ Forall (fun x => 128 <= x) t.
Proof.
  intros Hc. unfold line_text. destruct utf; [|left; reflexivity].
  change (utf8_text [c]) with (snd (ord2utf8 c) ++ []). rewrite app_nil_r.
  destruct (ord2utf8_shape c ltac:(lia)) as [[_ E] | (b & t & E & Hb & Ht)].
  - left. exact E.
  - right. exists b, t. auto.
Qed.

Lemma line_text_no_nul (utf : bool) (cs : list Z) :
  Forall (fun c => 0 < c <= 0x7fffffff) cs ->
  Forall (fun x => x <> 0) (line_text utf cs).
Proof.
  intros Hcs. unfold line_text. destruct utf.
  - apply utf8_text_no_nul. exact Hcs.
  - eapply Forall_impl; [exact Hcs|]. cbn. lia.
Qed.

Lemma line_text_hd (utf : bool) (cs tail : list Z) :
  Forall (fun c => 0 < c <= 0x7fffffff) cs ->
  isspace (hd 0 cs) = false -> isspace (hd 0 tail) = false ->
  isspace (hd 0 (line_text utf cs ++ tail)) = false.
Proof.
  intros Hcs Hhd Htail. destruct cs as [|c cs].
  - unfold line_text. destruct utf; exact Htail.
  - apply Forall_cons in Hcs as [Hc Hcs].
    change (c :: cs) with ([c] ++ cs). rewrite line_text_app, <- app_assoc.
    destruct (character_text utf c Hc) as [-> | (b & t & -> & Hb & _)].
    + exact Hhd.
    + cbn [app hd]. apply high_byte_no_space. lia.
Qed.

Lemma line_text_last (utf : bool) (front cs : list Z) :
  Forall (fun c => 0 < c <= 0x7fffffff) cs ->
  isspace (List.last cs 0) = false -> isspace (List.last front 0) = false ->
  isspace (List.last (front ++ line_text utf cs) 0) = false.
Proof.
  intros Hcs Hlast Hfront.
  destruct cs as [|c0 cs0] using rev_ind.
  - unfold line_text. destruct utf; cbn [utf8_text concat map];
      rewrite app_nil_r; exact Hfront.
  - apply Forall_app in Hcs as [_ Hc]. apply Forall_cons in Hc as [Hc _].
    rewrite line_text_app, !app_assoc.
    rewrite last_last in Hlast.
    destruct (character_text utf c0 Hc) as [-> | (b & t & -> & Hb & Ht)].
    + rewrite last_last. exact Hlast.
    + rewrite last_behind by discriminate.
      apply (last_of_all (fun x => isspace x = false)); [|discriminate].
      constructor; [apply high_byte_no_space; lia|].
      eapply Forall_impl; [exact Ht|]. cbn. apply high_byte_no_space.
Qed.

(** Well-formed text passes the validation loop. *)
Lemma utf8_check_text : forall fuel cs n,
  Forall (fun c => 0 < c <= 0x7fffffff) cs -> 0 < n ->
  0 < utf8_check fuel (utf8_text cs) n.
Proof.
  induction fuel as [|fuel IH]; intros cs n Hcs Hn; [exact Hn|].
  cbn [utf8_check]. destruct (Z.gtb_spec n 0); [|lia].
  destruct Hcs as [|c cs Hc Hcs]; [exact Hn|].
  rewrite utf8_text_cons.
  pose proof (peek_text_nonzero c (utf8_text cs) Hc) as Hp.
  destruct (Z.eqb_spec (peek (snd (ord2utf8 c) ++ utf8_text cs)) 0);
    [contradiction|].
  cbn [andb negb]. rewrite utf82ord_ord2utf8 by lia. cbn [fst].
  destruct (ord2utf8_return c ltac:(lia)) as [Hlen Hpos].
  unfold advance. rewrite Hlen, Nat2Z.id, drop_app_length.
  apply IH; trivial. lia.
Qed.

Lemma pow2_cells (cus k : Z) :
  cus = 1 \/ cus = 2 \/ cus = 4 -> 2 <= k ->
  Z.of_nat (Z.to_nat (2 ^ k / cus)) * cus = 2 ^ k.
Proof.
  intros Hcus Hk.
  assert (E : 2 ^ k = 2 ^ (k - 2) * 4).
  { change 4 with (2 ^ 2). rewrite <- Z.pow_add_r by lia. f_equal. lia. }
  pose proof (Z.pow_pos_nonneg 2 (k - 2) ltac:(lia) ltac:(lia)) as Hp.
  rewrite E. destruct Hcus as [-> | [-> | ->]].
  - rewrite Z.div_1_r. lia.
  - replace (2 ^ (k - 2) * 4) with (2 ^ (k - 2) * 2 * 2) by lia.
    rewrite Z.div_mul by lia. lia.
  - rewrite Z.div_mul by lia. lia.
Qed.

Section Growing.
Variable test_mode : Z.
Variable allocator : option nat -> Z -> option bool.
Variable needlen : Z.
Variable o : list diag.
Hypothesis Hmode : test_mode = 8 \/ test_mode = 16 \/ test_mode = 32.
Hypothesis Halloc : forall a n, allocator a n <> None.
Hypothesis Hneed : 0 <= needlen < 2 ^ 62.

(** The loop that grows [dbuffer] before the scan doubles the allocation
    until the line fits, and stops. *)
Lemma first_grow_grown : forall (d fuel : nat) (m : dmem) (a : nat) (k : Z),
  dbuffer m = Some a -> 14 <= k <= 62 -> dbuffer_size m = 2 ^ k ->
  Z.of_nat (length (cells m)) * code_unit_size test_mode = 2 ^ k ->
  (Z.to_nat (62 - k) <= d)%nat -> (d < fuel)%nat ->
  exists m' a' k',
    first_grow test_mode allocator fuel needlen m o = Some (inl (m', o)) /\
    dbuffer m' = Some a' /\ 14 <= k' <= 62 /\ dbuffer_size m' = 2 ^ k' /\
    Z.of_nat (length (cells m')) * code_unit_size test_mode = 2 ^ k' /\
    needlen < 2 ^ k'.
Proof.
  destruct (code_unit_size_mode test_mode Hmode) as [Hcus Hw].
  induction d as [|d IH]; intros fuel m a k Ha Hk Hsize Hcells Hd Hfuel;
    (destruct fuel as [|fuel]; [lia|]); cbn [first_grow];
    rewrite Ha, Hsize; cbn [orb];
    destruct (Z.geb_spec needlen (2 ^ k)) as [Hge | Hlt]; cbn [negb];
    try (exists m, a, k; repeat split; trivial; lia).
  - assert (k < 62); [|lia].
    apply (Z.pow_lt_mono_r_iff 2); lia.
  - assert (Hk' : k < 62) by (apply (Z.pow_lt_mono_r_iff 2); lia).
    assert (E : usize (2 ^ k * 2) = 2 ^ (k + 1)).
    { rewrite Z.pow_add_r, Z.pow_1_r by lia. apply usize_small.
      pose proof (Z.pow_pos_nonneg 2 k ltac:(lia) ltac:(lia)).
      assert (2 ^ k < 2 ^ 62) by (apply Z.pow_lt_mono_r; lia). lia. }
    rewrite E. unfold realloc. rewrite Ha.
    destruct (allocator (Some a) (2 ^ (k + 1))) as [moved|] eqn:Hal;
      [|exfalso; exact (Halloc _ _ Hal)].
    eapply IH; cbn [dbuffer dbuffer_size cells]; try reflexivity; try lia.
    rewrite length_resize, Hcus. apply pow2_cells; [exact Hw | lia].
Qed.

Lemma first_grow_ok (m : dmem) :
  buffer_ok test_mode m ->
  exists m' a' k',
    first_grow test_mode allocator 128 needlen m o = Some (inl (m', o)) /\
    dbuffer m' = Some a' /\ 14 <= k' <= 62 /\ dbuffer_size m' = 2 ^ k' /\
    Z.of_nat (length (cells m')) * code_unit_size test_mode = 2 ^ k' /\
    needlen < 2 ^ k'.
Proof.
  destruct (code_unit_size_mode test_mode Hmode) as [Hcus Hw].
  intros [-> | (a & k & Ha & Hk & Hsize & Hcells)].
  - change 128%nat with (S 127). unfold initial_dmem.
    cbn [first_grow dbuffer dbuffer_size orb negb].
    change (usize (2 ^ 14 * 2)) with (2 ^ 15). unfold realloc.
    cbn [dbuffer cells].
    destruct (allocator None (2 ^ 15)) as [moved|] eqn:Hal;
      [|exfalso; exact (Halloc _ _ Hal)].
    eapply (first_grow_grown 47 127 _ O 15);
      cbn [dbuffer dbuffer_size cells]; try reflexivity; try lia.
    rewrite length_resize, Hcus. apply pow2_cells; [exact Hw | lia].
  - eapply (first_grow_grown 48 128 m a k); trivial; lia.
Qed.

End Growing.

Lemma moved_subject (l U rest : list Z) (to n : nat) :
  l = U ++ rest -> (to + n <= length l)%nat -> (length U <= n)%nat ->
  take (length U) (drop to (take to l ++ take n l ++ drop (to + n) l)) = U
  /\ length (take to l ++ take n l ++ drop (to + n) l) = length l.
Proof.
  intros El Hto Hn. split.
  - rewrite drop_app_length' by (rewrite length_take; lia).
    rewrite take_app_le by (rewrite length_take; lia).
    rewrite take_take, Nat.min_l by exact Hn.
    rewrite El. apply take_app_length.
  - rewrite !length_app, !length_take, length_drop. lia.
Qed.

(** [ENDSTRING]: the terminator is stored, and the subject is moved so
    that it ends where the buffer ends. *)
Lemma end_string_writing (test_mode : Z) (posix : bool) (a : nat)
    (size nl : Z) (text U junk : list Z) (by_eq : bool) :
  test_mode = 8 \/ test_mode = 16 \/ test_mode = 32 ->
  (posix = true -> test_mode = 8) ->
  (1 <= length junk)%nat ->
  Z.of_nat (length (U ++ junk)) * ptr_width test_mode = size ->
  exists m' pp,
    end_string test_mode posix
      (writing a size nl (ptr_width test_mode) text U junk) by_eq
    = Subject m' pp (Z.of_nat (length U) * code_unit_size test_mode)
        (Z.of_nat (length U)) (if by_eq then Some text else None) [] /\
    subject_units test_mode m' pp (Z.of_nat (length U)) = U /\
    pp + Z.of_nat (length U) * code_unit_size test_mode
      + (if posix then 1 else 0) = size /\
    dbuffer m' = Some a /\ dbuffer_size m' = size /\
    length (cells m') = length (U ++ junk).
Proof.
  intros Hmode Hposix Hroom Hsize.
  destruct (code_unit_size_mode test_mode Hmode) as [Hcus Hw].
  destruct junk as [|x j]; [cbn in Hroom; lia|].
  assert (Hpos : 0 < ptr_width test_mode) by lia.
  unfold end_string.
  rewrite (store_cell_writing test_mode a size nl (ptr_width test_mode)
             (eq_sym Hcus) Hpos 0 x text U j Hsize)
    by (split; [lia | apply Z.pow_pos_nonneg; lia]).
  unfold move_to_end, subject_units.
  cbn [writing q mem p out dbuffer dbuffer_size cells].
  rewrite Hcus, Z.div_mul by lia.
  set (c := if posix then 1 else 0).
  set (l := (U ++ [0]) ++ j).
  rewrite length_app in Hsize. cbn [length] in Hsize.
  assert (Hl : length l = (length U + S (length j))%nat).
  { unfold l. rewrite !length_app. cbn [length]. lia. }
  assert (Hn : Z.to_nat ((Z.of_nat (length U) * ptr_width test_mode + c)
                         / ptr_width test_mode)
               = (length U + (if posix then 1 else 0))%nat).
  { unfold c. destruct posix.
    - rewrite (Hposix eq_refl). change (ptr_width 8) with 1.
      rewrite Z.div_1_r. lia.
    - rewrite Z.add_0_r, Z.div_mul by lia. lia. }
  assert (Hto : Z.to_nat ((size - Z.of_nat (length U) * ptr_width test_mode
                           - c) / ptr_width test_mode)
                = (S (length j) - (if posix then 1 else 0))%nat).
  { unfold c. rewrite <- Hsize. destruct posix.
    - rewrite (Hposix eq_refl). change (ptr_width 8) with 1.
      rewrite Z.div_1_r. lia.
    - replace (Z.of_nat (length U + S (length j)) * ptr_width test_mode
               - Z.of_nat (length U) * ptr_width test_mode - 0)
        with (Z.of_nat (S (length j)) * ptr_width test_mode) by lia.
      rewrite Z.div_mul by lia. lia. }
  eexists _, _. split; [reflexivity|].
  rewrite Hn, Hto, Nat2Z.id.
  destruct (moved_subject l U ([0] ++ j)
              (S (length j) - (if posix then 1 else 0))
              (length U + (if posix then 1 else 0)))
    as [Hsub Hlen].
  { unfold l. rewrite <- app_assoc. reflexivity. }
  { rewrite Hl. destruct posix; lia. }
  { lia. }
  split; [exact Hsub|]. split; [lia|].
  split; [reflexivity|]. split; [reflexivity|].
  cbn [cells]. rewrite Hlen, Hl, length_app. cbn [length]. reflexivity.
Qed.

(** From a line that the preliminaries leave as it is, and that the scan
    turns into the code units [U], to the subject that is handed on. *)
Lemma encode_run (test_mode : Z) (utf : bool)
    (allocator : option nat -> Z -> option bool) (posix : bool) (m : dmem)
    (L U rest : list Z) (by_eq : bool) :
  test_mode = 8 \/ test_mode = 16 \/ test_mode = 32 ->
  (posix = true -> test_mode = 8) ->
  (forall a n, allocator a n <> None) ->
  buffer_ok test_mode m ->
  rtrim (cstring L) = L -> skip_space L = L ->
  (utf = true -> 0 < utf8_check (length L) L 1) ->
  Z.of_nat (length L) < 2 ^ 60 -> (length U <= length L)%nat ->
  (forall a size nl junk,
     (length U < length junk)%nat ->
     Z.of_nat (length junk) * ptr_width test_mode = size ->
     scan_loop test_mode utf allocator (length L)
       (writing a size nl (ptr_width test_mode) L [] junk)
     = Some ((if by_eq then EndString else EndOfLine)
               (writing a size nl (ptr_width test_mode) rest U
                  (drop (length U) junk)))) ->
  exists m' pp,
    encode_data_line test_mode utf allocator posix L m
    = Some (Subject m' pp (Z.of_nat (length U) * code_unit_size test_mode)
              (Z.of_nat (length U)) (if by_eq then Some rest else None) [])
    /\ subject_units test_mode m' pp (Z.of_nat (length U)) = U
    /\ pp + Z.of_nat (length U) * code_unit_size test_mode
         + (if posix then 1 else 0) = dbuffer_size m'
    /\ buffer_ok test_mode m'.
Proof.
  intros Hmode Hposix Halloc Hbuf Hclean Hskip Hcheck Hlen HU Hscan.
  destruct (code_unit_size_mode test_mode Hmode) as [Hcus Hw].
  unfold encode_data_line. rewrite Hclean, Hskip.
  assert (E : utf && (utf8_check (length L) L 1 <=? 0) = false).
  { destruct utf; [|reflexivity]. specialize (Hcheck eq_refl).
    destruct (Z.leb_spec (utf8_check (length L) L 1) 0); [lia | reflexivity]. }
  rewrite E.
  assert (Hneed : 0 <= Z.of_nat (length L) * code_unit_size test_mode
                  < 2 ^ 62).
  { change (2 ^ 62) with (2 ^ 60 * 4). rewrite Hcus. nia. }
  rewrite usize_small by (change (2 ^ 64) with (2 ^ 62 * 4); lia).
  destruct (first_grow_ok test_mode allocator _ [] Hmode Halloc Hneed m Hbuf)
    as (m1 & a1 & k1 & Hg & Ha1 & Hk1 & Hs1 & Hc1 & Hlt).
  rewrite Hg. destruct m1 as [db sz cl].
  cbn [dbuffer dbuffer_size cells] in Ha1, Hs1, Hc1. subst db sz.
  rewrite Hcus in Hc1, Hlt.
  assert (Hroom : (length U < length cl)%nat) by nia.
  change {| p := L; q := 0; start_dup := None;
            needlen := Z.of_nat (length L) * code_unit_size test_mode;
            mem := {| dbuffer := Some a1; dbuffer_size := 2 ^ k1;
                      cells := cl |};
            out := [] |}
    with (writing a1 (2 ^ k1)
            (Z.of_nat (length L) * code_unit_size test_mode)
            (ptr_width test_mode) L [] cl).
  rewrite (Hscan a1 (2 ^ k1) _ cl Hroom Hc1).
  assert (Hcells : length (U ++ drop (length U) cl) = length cl)
    by (rewrite length_app, length_drop; lia).
  destruct (end_string_writing test_mode posix a1 (2 ^ k1)
              (Z.of_nat (length L) * code_unit_size test_mode)
              rest U (drop (length U) cl) by_eq Hmode Hposix)
    as (m' & pp & He & Hsub & Hpp & Hdb & Hsz & Hl).
  { rewrite length_drop. lia. }
  { rewrite Hcells. exact Hc1. }
  exists m', pp. split; [destruct by_eq; rewrite He; reflexivity|].
  split; [exact Hsub|]. split; [rewrite Hsz; exact Hpp|].
  right. exists a1, k1. rewrite Hl, Hcells, Hcus. auto.
Qed.

Lemma subject_text_length (test_mode : Z) (utf : bool) (cs : list Z) :
  Forall (plain test_mode utf) cs ->
  (length (subject_text test_mode utf cs) <= length (line_text utf cs))%nat
  /\ (length cs <= length (line_text utf cs))%nat.
Proof.
  induction 1 as [|c cs Hc Hcs [IH1 IH2]].
  - unfold line_text. destruct utf; cbn; lia.
  - change (c :: cs) with ([c] ++ cs). rewrite line_text_app.
    unfold subject_text in *. cbn [flat_map app]. rewrite !length_app.
    cbn [length].
    assert (Hr : 0 < c <= 0x7fffffff).
    { destruct Hc as [Hc _]. unfold character_max in Hc.
      destruct utf; [destruct (test_mode =? PCRE16_MODE)|]; lia. }
    assert (Hone : (length (character_units test_mode utf c)
                    <= length (line_text utf [c]))%nat
                   /\ (1 <= length (line_text utf [c]))%nat);
      [|lia].
    unfold character_units, line_text. destruct utf; [|cbn; lia].
    change (utf8_text [c]) with (snd (ord2utf8 c) ++ []). rewrite app_nil_r.
    destruct (ord2utf8_return c ltac:(lia)) as [Hn Hp].
    split; [|lia].
    destruct (test_mode =? PCRE8_MODE); [lia|].
    destruct (test_mode =? PCRE16_MODE); [|cbn [length]; lia].
    unfold units16. destruct (Z.ltb_spec c 0x10000); cbn [length]; [lia|].
    destruct (table1_index_class c ltac:(lia)) as (k & Hk & Hi & Hlt & _).
    rewrite (ord2utf8_bytes c k ltac:(lia) Hi). cbn [snd length].
    rewrite digits_length.
    destruct k as [|[|[|k]]]; cbn in Hlt; lia.
Qed.

Lemma plain_all_range (test_mode : Z) (utf : bool) (cs : list Z) :
  Forall (plain test_mode utf) cs -> Forall (fun c => 0 < c <= 0x7fffffff) cs.
Proof.
  intros H. eapply Forall_impl; [exact H|]. cbn. intros c [Hc _].
  unfold character_max in Hc.
  destruct utf; [destruct (test_mode =? PCRE16_MODE)|]; lia.
Qed.

(** The preliminaries of [process_data] leave a line of characters that
    neither starts nor ends with white space as it is. *)
Lemma line_ready (utf : bool) (cs : list Z) (fuel : nat) :
  Forall (fun c => 0 < c <= 0x7fffffff) cs ->
  isspace (hd 0 cs) = false -> isspace (List.last cs 0) = false ->
  rtrim (cstring (line_text utf cs)) = line_text utf cs
  /\ skip_space (line_text utf cs) = line_text utf cs
  /\ (utf = true -> 0 < utf8_check fuel (line_text utf cs) 1).
Proof.
  intros Hr Hhd Hlast. split; [|split].
  - rewrite cstring_clean by (apply line_text_no_nul; exact Hr).
    apply rtrim_clean.
    apply (line_text_last utf [] cs Hr Hlast). reflexivity.
  - apply skip_space_clean.
    rewrite <- (app_nil_r (line_text utf cs)).
    apply line_text_hd; trivial.
  - intros ->. apply utf8_check_text; [exact Hr | lia].
Qed.

(** X16: a data line of plain characters becomes the subject that
    holds the code units of each character in order: the line itself at
    8-bit width, one unit per character at 32-bit width and without UTF, one
    unit or a surrogate pair per character under UTF at 16-bit width.  For
    every data line of characters of the mode that holds no backslash and
    neither starts nor ends with white space, with an allocator that does
    not fail and [dbuffer] as the program or an earlier line of this kind
    left it, the encoder yields a subject without a message and without
    modifiers; the subject ends where the buffer ends (one byte before it
    under the POSIX interface), and [dbuffer] is again as such a line
    leaves it. *)
Theorem plain_line_encodes (test_mode : Z) (utf : bool)
    (allocator : option nat -> Z -> option bool) (posix : bool) (m : dmem)
    (cs : list Z) :
  test_mode = 8 \/ test_mode = 16 \/ test_mode = 32 ->
  (posix = true -> test_mode = 8) ->
  (forall a n, allocator a n <> None) ->
  buffer_ok test_mode m ->
  Forall (plain test_mode utf) cs ->
  isspace (hd 0 cs) = false -> isspace (List.last cs 0) = false ->
  Z.of_nat (length (line_text utf cs)) < 2 ^ 60 ->
  exists m' pp ulen,
    encode_data_line test_mode utf allocator posix (line_text utf cs) m
    = Some (Subject m' pp (ulen * code_unit_size test_mode) ulen None [])
    /\ subject_units test_mode m' pp ulen = subject_text test_mode utf cs
    /\ pp + ulen * code_unit_size test_mode + (if posix then 1 else 0)
       = dbuffer_size m'
    /\ buffer_ok test_mode m'.
Proof.
  intros Hmode Hposix Halloc Hbuf Hcs Hhd Hlast Hlen.
  pose proof (plain_all_range test_mode utf cs Hcs) as Hr.
  destruct (subject_text_length test_mode utf cs Hcs) as [HU Hn].
  destruct (encode_run test_mode utf allocator posix m (line_text utf cs)
              (subject_text test_mode utf cs) [] false Hmode Hposix Halloc Hbuf)
    as (m' & pp & H); trivial.
  - apply (line_ready utf cs O); trivial.
  - apply (line_ready utf cs O); trivial.
  - apply (line_ready utf cs _); trivial.
  - intros a size nl junk Hroom Hsize.
    replace (length (line_text utf cs))
      with (length cs + (length (line_text utf cs) - length cs))%nat by lia.
    rewrite <- (app_nil_r (line_text utf cs)) at 2.
    rewrite (scan_text test_mode utf allocator a size nl Hmode); trivial;
      [|lia].
    apply scan_end.
  - exists m', pp, (Z.of_nat (length (subject_text test_mode utf cs))).
    exact H.
Qed.

Lemma plain_line_encodes_witness :
  exists m' pp ulen,
    encode_data_line 16 true Samples.moving false
      (line_text true [0x41; 0x20AC; 0x1F600]) initial_dmem
    = Some (Subject m' pp (ulen * code_unit_size 16) ulen None [])
    /\ subject_units 16 m' pp ulen = subject_text 16 true [0x41; 0x20AC; 0x1F600]
    /\ pp + ulen * code_unit_size 16 + 0 = dbuffer_size m'
    /\ buffer_ok 16 m'.
Proof.
  apply (plain_line_encodes 16 true Samples.moving false initial_dmem
           [0x41; 0x20AC; 0x1F600]).
  - right. left. reflexivity.
  - discriminate.
  - discriminate.
  - left. reflexivity.
  - repeat constructor; vm_compute; congruence.
  - reflexivity.
  - reflexivity.
  - vm_compute. reflexivity.
Defined.

(** X17: a backslash followed by an equals sign ends the subject, and
    what follows the two is handed on as the data modifiers.  For plain
    characters [cs] that do not start with white space and modifier
    characters [ms] that do not end with it, the line [cs \= ms] yields the
    subject of [cs] and the modifier text [ms], without a message. *)
Theorem modifiers_split_off (test_mode : Z) (utf : bool)
    (allocator : option nat -> Z -> option bool) (posix : bool) (m : dmem)
    (cs ms : list Z) :
  test_mode = 8 \/ test_mode = 16 \/ test_mode = 32 ->
  (posix = true -> test_mode = 8) ->
  (forall a n, allocator a n <> None) ->
  buffer_ok test_mode m ->
  Forall (plain test_mode utf) cs -> isspace (hd 0 cs) = false ->
  Forall (fun c => 0 < c <= 0x7fffffff) ms ->
  isspace (List.last ms 0) = false ->
  Z.of_nat (length (line_text utf cs ++ 92 :: 61 :: line_text utf ms))
    < 2 ^ 60 ->
  exists m' pp ulen,
    encode_data_line test_mode utf allocator posix
      (line_text utf cs ++ 92 :: 61 :: line_text utf ms) m
    = Some (Subject m' pp (ulen * code_unit_size test_mode) ulen
              (Some (line_text utf ms)) [])
    /\ subject_units test_mode m' pp ulen = subject_text test_mode utf cs.
Proof.
  intros Hmode Hposix Halloc Hbuf Hcs Hhd Hms Hlast Hlen.
  pose proof (plain_all_range test_mode utf cs Hcs) as Hr.
  destruct (subject_text_length test_mode utf cs Hcs) as [HU Hn].
  assert (EL : line_text utf cs ++ 92 :: 61 :: line_text utf ms
               = line_text utf (cs ++ 92 :: 61 :: ms)).
  { change (92 :: 61 :: ms) with ([92; 61] ++ ms).
    rewrite !line_text_app. destruct utf; reflexivity. }
  assert (Hall : Forall (fun c => 0 < c <= 0x7fffffff) (cs ++ 92 :: 61 :: ms)).
  { apply Forall_app. split; [exact Hr|].
    constructor; [lia|]. constructor; [lia | exact Hms]. }
  assert (Hhd' : isspace (hd 0 (cs ++ 92 :: 61 :: ms)) = false)
    by (destruct cs; [reflexivity | exact Hhd]).
  assert (Hlast' : isspace (List.last (cs ++ 92 :: 61 :: ms) 0) = false).
  { rewrite last_behind by discriminate.
    destruct ms; [reflexivity | exact Hlast]. }
  destruct (encode_run test_mode utf allocator posix m
              (line_text utf cs ++ 92 :: 61 :: line_text utf ms)
              (subject_text test_mode utf cs) (line_text utf ms) true
              Hmode Hposix Halloc Hbuf)
    as (m' & pp & H & Hsub & _); trivial.
  - rewrite EL. apply (line_ready utf _ O); trivial.
  - rewrite EL. apply (line_ready utf _ O); trivial.
  - rewrite EL. apply (line_ready utf _ _); trivial.
  - rewrite length_app. lia.
  - intros a size nl junk Hroom Hsize.
    rewrite length_app. cbn [length].
    replace (length (line_text utf cs) + S (S (length (line_text utf ms))))%nat
      with (length cs + S (length (line_text utf cs) - length cs
                           + S (length (line_text utf ms))))%nat by lia.
    rewrite (scan_text test_mode utf allocator a size nl Hmode)
      by (trivial; lia).
    apply scan_equals.
  - exists m', pp, (Z.of_nat (length (subject_text test_mode utf cs))).
    auto.
Qed.

Lemma modifiers_split_off_witness :
  exists m' pp ulen,
    encode_data_line 8 true Samples.in_place false
      (line_text true [0x61; 0xE9] ++ 92 :: 61 :: line_text true [0x67])
      initial_dmem
    = Some (Subject m' pp (ulen * code_unit_size 8) ulen
              (Some (line_text true [0x67])) [])
    /\ subject_units 8 m' pp ulen = subject_text 8 true [0x61; 0xE9].
Proof.
  apply (modifiers_split_off 8 true Samples.in_place false initial_dmem
           [0x61; 0xE9] [0x67]).
  - left. reflexivity.
  - discriminate.
  - discriminate.
  - left. reflexivity.
  - repeat constructor; vm_compute; congruence.
  - reflexivity.
  - repeat constructor; vm_compute; congruence.
  - reflexivity.
  - vm_compute. reflexivity.
Defined.

(** X18: a backslash followed by one of the letters a, b, e, f, n, r,
    t, v stands for the control character BEL, BS, ESC, FF, LF, CR, HT, VT,
    and two backslashes stand for one.  A line of plain characters with one
    such escape in it yields the subject of the characters before it, the
    one code unit of the control character, and the subject of the
    characters after it. *)
Theorem control_escape_encodes (test_mode : Z) (utf : bool)
    (allocator : option nat -> Z -> option bool) (posix : bool) (m : dmem)
    (cs1 cs2 : list Z) (e v : Z) :
  test_mode = 8 \/ test_mode = 16 \/ test_mode = 32 ->
  (posix = true -> test_mode = 8) ->
  (forall a n, allocator a n <> None) ->
  buffer_ok test_mode m ->
  In (e, v) control_escapes ->
  Forall (plain test_mode utf) cs1 -> Forall (plain test_mode utf) cs2 ->
  isspace (hd 0 cs1) = false -> isspace (List.last cs2 0) = false ->
  Z.of_nat (length (line_text utf cs1 ++ 92 :: e :: line_text utf cs2))
    < 2 ^ 60 ->
  exists m' pp ulen,
    encode_data_line test_mode utf allocator posix
      (line_text utf cs1 ++ 92 :: e :: line_text utf cs2) m
    = Some (Subject m' pp (ulen * code_unit_size test_mode) ulen None [])
    /\ subject_units test_mode m' pp ulen
       = subject_text test_mode utf cs1 ++ v :: subject_text test_mode utf cs2.
Proof.
  intros Hmode Hposix Halloc Hbuf Hin Hcs1 Hcs2 Hhd Hlast Hlen.
  pose proof (plain_all_range test_mode utf cs1 Hcs1) as Hr1.
  pose proof (plain_all_range test_mode utf cs2 Hcs2) as Hr2.
  destruct (subject_text_length test_mode utf cs1 Hcs1) as [HU1 Hn1].
  destruct (subject_text_length test_mode utf cs2 Hcs2) as [HU2 Hn2].
  assert (He : 0 < e < 128 /\ isspace e = false /\ line_text utf [e] = [e]).
  { unfold control_escapes in Hin. cbn [In] in Hin.
    repeat (destruct Hin as [Hin | Hin];
            [injection Hin as <- <-;
             repeat split; try lia; destruct utf; reflexivity|]).
    contradiction. }
  destruct He as (He & Hsp & Ete).
  assert (EL : line_text utf cs1 ++ 92 :: e :: line_text utf cs2
               = line_text utf (cs1 ++ 92 :: e :: cs2)).
  { change (92 :: e :: cs2) with ([92] ++ [e] ++ cs2).
    rewrite !line_text_app, Ete. destruct utf; reflexivity. }
  assert (Hall : Forall (fun c => 0 < c <= 0x7fffffff) (cs1 ++ 92 :: e :: cs2)).
  { apply Forall_app. split; [exact Hr1|].
    constructor; [lia|]. constructor; [lia | exact Hr2]. }
  assert (Hhd' : isspace (hd 0 (cs1 ++ 92 :: e :: cs2)) = false)
    by (destruct cs1; [reflexivity | exact Hhd]).
  assert (Hlast' : isspace (List.last (cs1 ++ 92 :: e :: cs2) 0) = false).
  { rewrite last_behind by discriminate.
    destruct cs2; [exact Hsp | exact Hlast]. }
  destruct (encode_run test_mode utf allocator posix m
              (line_text utf cs1 ++ 92 :: e :: line_text utf cs2)
              (subject_text test_mode utf cs1
                 ++ v :: subject_text test_mode utf cs2) [] false
              Hmode Hposix Halloc Hbuf)
    as (m' & pp & H & Hsub & _); trivial.
  - rewrite EL. apply (line_ready utf _ O); trivial.
  - rewrite EL. apply (line_ready utf _ O); trivial.
  - rewrite EL. apply (line_ready utf _ _); trivial.
  - rewrite !length_app. cbn [length]. lia.
  - intros a size nl junk Hroom Hsize.
    rewrite length_app in Hroom. cbn [length] in Hroom.
    rewrite length_app. cbn [length].
    replace (length (line_text utf cs1) + S (S (length (line_text utf cs2))))%nat
      with (length cs1
            + S (length cs2
                 + (length (line_text utf cs1) - length cs1
                    + S (length (line_text utf cs2) - length cs2))))%nat
      by lia.
    rewrite (scan_text test_mode utf allocator a size nl Hmode)
      by (trivial; lia).
    rewrite (scan_escape test_mode utf allocator a size nl Hmode e v); trivial.
    2: { rewrite length_drop. lia. }
    2: { rewrite <- Hsize, !length_app, length_drop. cbn [length]. f_equal.
         lia. }
    rewrite <- (app_nil_r (line_text utf cs2)).
    rewrite (scan_text test_mode utf allocator a size nl Hmode); trivial.
    2: { rewrite !length_drop. lia. }
    2: { rewrite <- Hsize, !length_app, !length_drop. cbn [length]. f_equal.
         lia. }
    rewrite scan_end. rewrite !drop_drop, <- !app_assoc. cbn [app].
    repeat f_equal. rewrite length_app. cbn [length]. lia.
  - exists m', pp,
      (Z.of_nat (length (subject_text test_mode utf cs1
                         ++ v :: subject_text test_mode utf cs2))).
    auto.
Qed.

Lemma control_escape_encodes_witness :
  exists m' pp ulen,
    encode_data_line 32 false Samples.in_place false
      (line_text false [0x61] ++ 92 :: 110 :: line_text false [0x62])
      initial_dmem
    = Some (Subject m' pp (ulen * code_unit_size 32) ulen None [])
    /\ subject_units 32 m' pp ulen
       = subject_text 32 false [0x61] ++ 10 :: subject_text 32 false [0x62].
Proof.
  apply (control_escape_encodes 32 false Samples.in_place false initial_dmem
           [0x61] [0x62] 110 10).
  - right. right. reflexivity.
  - discriminate.
  - discriminate.
  - left. reflexivity.
  - vm_compute. tauto.
  - repeat constructor; vm_compute; congruence.
  - repeat constructor; vm_compute; congruence.
  - reflexivity.
  - reflexivity.
  - vm_compute. reflexivity.
Defined.

Lemma ascii_text (utf : bool) (c : Z) :
  0 <= c < 128 -> line_text utf [c] = [c].
Proof.
  intros Hc. unfold line_text. destruct utf; [|reflexivity].
  change (utf8_text [c]) with (snd (ord2utf8 c) ++ []). rewrite app_nil_r.
  pose proof (below_forall
    (fun x => match snd (ord2utf8 x) with
              | [y] => y =? x
              | _ => false
              end) 128 ltac:(vm_compute; reflexivity) c Hc) as H.
  cbv beta in H. destruct (snd (ord2utf8 c)) as [|y [|z t]]; try discriminate.
  apply Z.eqb_eq in H. rewrite H. reflexivity.
Qed.

(** X19: a backslash, an x and two hex digits stand for one code
    unit, the value of the two digits, in every mode: in 8-bit UTF mode the
    byte is stored as it is and not as the UTF-8 form of the character,
    which lets a subject be built byte by byte.  A line of plain characters
    with one such escape in it yields the subject of the characters before
    it, that one code unit, and the subject of the characters after it; no
    third hex digit is read. *)
Theorem hex_escape_is_one_unit (test_mode : Z) (utf : bool)
    (allocator : option nat -> Z -> option bool) (posix : bool) (m : dmem)
    (cs1 cs2 : list Z) (h1 h2 : Z) :
  test_mode = 8 \/ test_mode = 16 \/ test_mode = 32 ->
  (posix = true -> test_mode = 8) ->
  (forall a n, allocator a n <> None) ->
  buffer_ok test_mode m ->
  isxdigit h1 = true -> isxdigit h2 = true ->
  Forall (plain test_mode utf) cs1 -> Forall (plain test_mode utf) cs2 ->
  isspace (hd 0 cs1) = false -> isspace (List.last cs2 0) = false ->
  Z.of_nat (length (line_text utf cs1
                      ++ 92 :: 120 :: h1 :: h2 :: line_text utf cs2))
    < 2 ^ 60 ->
  exists m' pp ulen,
    encode_data_line test_mode utf allocator posix
      (line_text utf cs1 ++ 92 :: 120 :: h1 :: h2 :: line_text utf cs2) m
    = Some (Subject m' pp (ulen * code_unit_size test_mode) ulen None [])
    /\ subject_units test_mode m' pp ulen
       = subject_text test_mode utf cs1
         ++ (hexval h1 * 16 + hexval h2) :: subject_text test_mode utf cs2.
Proof.
  intros Hmode Hposix Halloc Hbuf H1 H2 Hcs1 Hcs2 Hhd Hlast Hlen.
  pose proof (plain_all_range test_mode utf cs1 Hcs1) as Hr1.
  pose proof (plain_all_range test_mode utf cs2 Hcs2) as Hr2.
  destruct (subject_text_length test_mode utf cs1 Hcs1) as [HU1 Hn1].
  destruct (subject_text_length test_mode utf cs2 Hcs2) as [HU2 Hn2].
  destruct (hexval_range h1 H1) as (_ & Ha1 & _ & _).
  destruct (hexval_range h2 H2) as (_ & Ha2 & _ & Hsp2).
  assert (EL : line_text utf cs1 ++ 92 :: 120 :: h1 :: h2 :: line_text utf cs2
               = line_text utf (cs1 ++ 92 :: 120 :: h1 :: h2 :: cs2)).
  { change (92 :: 120 :: h1 :: h2 :: cs2)
      with ([92] ++ [120] ++ [h1] ++ [h2] ++ cs2).
    rewrite !line_text_app, !ascii_text by lia. reflexivity. }
  assert (Hall : Forall (fun c => 0 < c <= 0x7fffffff)
                   (cs1 ++ 92 :: 120 :: h1 :: h2 :: cs2)).
  { apply Forall_app. split; [exact Hr1|].
    repeat (constructor; [lia|]). exact Hr2. }
  assert (Hhd' : isspace (hd 0 (cs1 ++ 92 :: 120 :: h1 :: h2 :: cs2)) = false)
    by (destruct cs1; [reflexivity | exact Hhd]).
  assert (Hlast' : isspace (List.last (cs1 ++ 92 :: 120 :: h1 :: h2 :: cs2) 0)
                   = false).
  { rewrite last_behind by discriminate.
    destruct cs2; [exact Hsp2 | exact Hlast]. }
  destruct (encode_run test_mode utf allocator posix m
              (line_text utf cs1 ++ 92 :: 120 :: h1 :: h2 :: line_text utf cs2)
              (subject_text test_mode utf cs1
                 ++ (hexval h1 * 16 + hexval h2)
                    :: subject_text test_mode utf cs2) [] false
              Hmode Hposix Halloc Hbuf)
    as (m' & pp & H & Hsub & _); trivial.
  - rewrite EL. apply (line_ready utf _ O); trivial.
  - rewrite EL. apply (line_ready utf _ O); trivial.
  - rewrite EL. apply (line_ready utf _ _); trivial.
  - rewrite !length_app. cbn [length]. lia.
  - intros a size nl junk Hroom Hsize.
    rewrite length_app in Hroom. cbn [length] in Hroom.
    rewrite length_app. cbn [length].
    replace (length (line_text utf cs1)
             + S (S (S (S (length (line_text utf cs2))))))%nat
      with (length cs1
            + S (length cs2
                 + (length (line_text utf cs1) - length cs1
                    + S (S (S (length (line_text utf cs2) - length cs2))))))%nat
      by lia.
    rewrite (scan_text test_mode utf allocator a size nl Hmode)
      by (trivial; lia).
    rewrite (scan_hex_byte test_mode utf allocator a size nl Hmode h1 h2);
      trivial.
    2: { rewrite length_drop. lia. }
    2: { rewrite <- Hsize, !length_app, length_drop. cbn [length]. f_equal.
         lia. }
    rewrite <- (app_nil_r (line_text utf cs2)).
    rewrite (scan_text test_mode utf allocator a size nl Hmode); trivial.
    2: { rewrite !length_drop. lia. }
    2: { rewrite <- Hsize, !length_app, !length_drop. cbn [length]. f_equal.
         lia. }
    rewrite scan_end. rewrite !drop_drop, <- !app_assoc. cbn [app].
    repeat f_equal. rewrite length_app. cbn [length]. lia.
  - exists m', pp,
      (Z.of_nat (length (subject_text test_mode utf cs1
                         ++ (hexval h1 * 16 + hexval h2)
                            :: subject_text test_mode utf cs2))).
    auto.
Qed.

Lemma hex_escape_is_one_unit_witness :
  exists m' pp ulen,
    encode_data_line 8 true Samples.in_place false
      (line_text true [0x61] ++ 92 :: 120 :: 101 :: 57 :: line_text true [0x7A])
      initial_dmem
    = Some (Subject m' pp (ulen * code_unit_size 8) ulen None [])
    /\ subject_units 8 m' pp ulen
       = subject_text 8 true [0x61]
         ++ (hexval 101 * 16 + hexval 57) :: subject_text 8 true [0x7A].
Proof.
  apply (hex_escape_is_one_unit 8 true Samples.in_place false initial_dmem
           [0x61] [0x7A] 101 57).
  - left. reflexivity.
  - discriminate.
  - discriminate.
  - left. reflexivity.
  - reflexivity.
  - reflexivity.
  - repeat constructor; vm_compute; congruence.
  - repeat constructor; vm_compute; congruence.
  - reflexivity.
  - reflexivity.
  - vm_compute. reflexivity.
Defined.

(** X20: a backslash and three octal digits stand for the character of
    that value, which is stored as a plain character of the value would be:
    in 8-bit UTF mode as its UTF-8 form, unlike the byte of a [\x] escape.
    A line of plain characters with one such escape in it, of a value that
    the mode can hold, yields the subject of the characters before it, the
    code units of that character, and the subject of the characters after
    it; no fourth digit is read. *)
Theorem octal_escape_is_character (test_mode : Z) (utf : bool)
    (allocator : option nat -> Z -> option bool) (posix : bool) (m : dmem)
    (cs1 cs2 : list Z) (d1 d2 d3 : Z) :
  test_mode = 8 \/ test_mode = 16 \/ test_mode = 32 ->
  (posix = true -> test_mode = 8) ->
  (forall a n, allocator a n <> None) ->
  buffer_ok test_mode m ->
  48 <= d1 <= 55 -> 48 <= d2 <= 55 -> 48 <= d3 <= 55 ->
  (d1 - 48) * 64 + (d2 - 48) * 8 + (d3 - 48) <= character_max test_mode utf ->
  Forall (plain test_mode utf) cs1 -> Forall (plain test_mode utf) cs2 ->
  isspace (hd 0 cs1) = false -> isspace (List.last cs2 0) = false ->
  Z.of_nat (length (line_text utf cs1
                      ++ 92 :: d1 :: d2 :: d3 :: line_text utf cs2))
    < 2 ^ 60 ->
  exists m' pp ulen,
    encode_data_line test_mode utf allocator posix
      (line_text utf cs1 ++ 92 :: d1 :: d2 :: d3 :: line_text utf cs2) m
    = Some (Subject m' pp (ulen * code_unit_size test_mode) ulen None [])
    /\ subject_units test_mode m' pp ulen
       = subject_text test_mode utf cs1
         ++ character_units test_mode utf
              ((d1 - 48) * 64 + (d2 - 48) * 8 + (d3 - 48))
         ++ subject_text test_mode utf cs2.
Proof.
  intros Hmode Hposix Halloc Hbuf H1 H2 H3 Hmax Hcs1 Hcs2 Hhd Hlast Hlen.
  pose proof (plain_all_range test_mode utf cs1 Hcs1) as Hr1.
  pose proof (plain_all_range test_mode utf cs2 Hcs2) as Hr2.
  destruct (subject_text_length test_mode utf cs1 Hcs1) as [HU1 Hn1].
  destruct (subject_text_length test_mode utf cs2 Hcs2) as [HU2 Hn2].
  set (v := (d1 - 48) * 64 + (d2 - 48) * 8 + (d3 - 48)) in *.
  assert (Hsp3 : isspace d3 = false).
  { unfold isspace. destruct (Z.eqb_spec d3 32); [lia|].
    destruct (Z.leb_spec 9 d3), (Z.leb_spec d3 13); try lia; reflexivity. }
  assert (Hv : (length (character_units test_mode utf v) <= 3)%nat).
  { unfold character_units, units16.
    destruct utf; [|cbn; lia].
    destruct (test_mode =? PCRE8_MODE).
    - assert (Hv9 : 0 <= v < 512) by (unfold v; lia).
      pose proof (below_forall
        (fun x => (length (snd (ord2utf8 x)) <=? 3)%nat) 512
        ltac:(vm_compute; reflexivity) v Hv9) as Hb.
      cbv beta in Hb. apply Nat.leb_le in Hb. exact Hb.
    - destruct (test_mode =? PCRE16_MODE); [|cbn; lia].
      destruct (v <? 0x10000); cbn; lia. }
  assert (EL : line_text utf cs1 ++ 92 :: d1 :: d2 :: d3 :: line_text utf cs2
               = line_text utf (cs1 ++ 92 :: d1 :: d2 :: d3 :: cs2)).
  { change (92 :: d1 :: d2 :: d3 :: cs2)
      with ([92] ++ [d1] ++ [d2] ++ [d3] ++ cs2).
    rewrite !line_text_app, !ascii_text by lia. reflexivity. }
  assert (Hall : Forall (fun c => 0 < c <= 0x7fffffff)
                   (cs1 ++ 92 :: d1 :: d2 :: d3 :: cs2)).
  { apply Forall_app. split; [exact Hr1|].
    repeat (constructor; [lia|]). exact Hr2. }
  assert (Hhd' : isspace (hd 0 (cs1 ++ 92 :: d1 :: d2 :: d3 :: cs2)) = false)
    by (destruct cs1; [reflexivity | exact Hhd]).
  assert (Hlast' : isspace (List.last (cs1 ++ 92 :: d1 :: d2 :: d3 :: cs2) 0)
                   = false).
  { rewrite last_behind by discriminate.
    destruct cs2; [exact Hsp3 | exact Hlast]. }
  destruct (encode_run test_mode utf allocator posix m
              (line_text utf cs1 ++ 92 :: d1 :: d2 :: d3 :: line_text utf cs2)
              (subject_text test_mode utf cs1
                 ++ character_units test_mode utf v
                 ++ subject_text test_mode utf cs2) [] false
              Hmode Hposix Halloc Hbuf)
    as (m' & pp & H & Hsub & _); trivial.
  - rewrite EL. apply (line_ready utf _ O); trivial.
  - rewrite EL. apply (line_ready utf _ O); trivial.
  - rewrite EL. apply (line_ready utf _ _); trivial.
  - rewrite !length_app. cbn [length]. lia.
  - intros a size nl junk Hroom Hsize.
    rewrite !length_app in Hroom.
    rewrite length_app. cbn [length].
    replace (length (line_text utf cs1)
             + S (S (S (S (length (line_text utf cs2))))))%nat
      with (length cs1
            + S (length cs2
                 + (length (line_text utf cs1) - length cs1
                    + S (S (S (length (line_text utf cs2) - length cs2))))))%nat
      by lia.
    rewrite (scan_text test_mode utf allocator a size nl Hmode)
      by (trivial; lia).
    rewrite (scan_octal test_mode utf allocator a size nl Hmode d1 d2 d3);
      trivial.
    2: { rewrite length_drop. fold v. lia. }
    2: { rewrite <- Hsize, !length_app, length_drop. cbn [length]. f_equal.
         lia. }
    fold v. rewrite <- (app_nil_r (line_text utf cs2)).
    rewrite (scan_text test_mode utf allocator a size nl Hmode); trivial.
    2: { rewrite !length_drop. lia. }
    2: { rewrite <- Hsize, !length_app, !length_drop. cbn [length]. f_equal.
         lia. }
    rewrite scan_end. rewrite !drop_drop, <- !app_assoc. cbn [app].
    repeat f_equal. rewrite !length_app. lia.
  - exists m', pp,
      (Z.of_nat (length (subject_text test_mode utf cs1
                         ++ character_units test_mode utf v
                         ++ subject_text test_mode utf cs2))).
    auto.
Qed.

Lemma octal_escape_is_character_witness :
  exists m' pp ulen,
    encode_data_line 8 true Samples.in_place false
      (line_text true [0x61] ++ 92 :: 51 :: 53 :: 49 :: line_text true [0x7A])
      initial_dmem
    = Some (Subject m' pp (ulen * code_unit_size 8) ulen None [])
    /\ subject_units 8 m' pp ulen
       = subject_text 8 true [0x61]
         ++ character_units 8 true ((51 - 48) * 64 + (53 - 48) * 8 + (49 - 48))
         ++ subject_text 8 true [0x7A].
Proof.
  apply (octal_escape_is_character 8 true Samples.in_place false initial_dmem
           [0x61] [0x7A] 51 53 49).
  - left. reflexivity.
  - discriminate.
  - discriminate.
  - left. reflexivity.
  - lia.
  - lia.
  - lia.
  - vm_compute. congruence.
  - repeat constructor; vm_compute; congruence.
  - repeat constructor; vm_compute; congruence.
  - reflexivity.
  - reflexivity.
  - vm_compute. reflexivity.
Defined.

End EncoderFacts.

(** ** The validation of a data line in UTF mode *)

Module ValidationFacts.
Import Codec DataLine Modifiers Global CodecTerms DataLineTerms Samples.
Import MachineFacts CodecFacts WidthFacts DataLineFacts DecoderFacts.
Import EncoderFacts.

(** Once [n] is not positive the loop is over. *)
Lemma utf8_check_stops (fuel : nat) (q : list Z) (n : Z) :
  n <= 0 -> utf8_check fuel q n = n.
Proof.
  intros Hn. destruct fuel as [|fuel]; [reflexivity|]. cbn [utf8_check].
  destruct (Z.gtb_spec n 0); [lia | reflexivity].
Qed.

(** What the validation loop lets through is the text of code points: every
    turn takes off the bytes that [ord2utf8] writes for the value read. *)
Lemma checked_text : forall fuel l n,
  Forall (fun x => 0 < x < 256) l -> (length l <= fuel)%nat -> 0 < n ->
  0 < utf8_check fuel l n ->
  exists cs, Forall (fun c => 0 < c <= 0x7fffffff) cs /\ l = utf8_text cs.
Proof.
  induction fuel as [|fuel IH]; intros l n Hl Hfuel Hn H.
  - destruct l; [|cbn in Hfuel; lia]. exists []. split; [constructor | reflexivity].
  - destruct l as [|b rest]; [exists []; split; [constructor | reflexivity]|].
    pose proof Hl as Hl0. apply Forall_cons in Hl0 as [Hb _].
    cbn [utf8_check peek hd] in H.
    destruct (Z.gtb_spec n 0); [|lia].
    destruct (Z.eqb_spec b 0); [lia|]. cbn [andb negb] in H.
    destruct (utf82ord_stores (b :: rest)) as (_ & _ & Hstore).
    destruct (utf82ord (b :: rest)) as [k v] eqn:E. cbn [fst snd] in *.
    destruct (Z.le_gt_cases k 0) as [Hk | Hk].
    { rewrite utf8_check_stops in H by exact Hk. lia. }
    destruct (Hstore ltac:(lia)) as [d ->].
    destruct (utf82ord_canonical b rest k d) as (Hk6 & Hd & Hord); trivial.
    { eapply Forall_impl; [exact Hl|]. cbn. lia. }
    destruct (ord2utf8_return d Hd) as [Hlen _].
    rewrite Hord in Hlen. cbn [fst snd] in Hlen.
    assert (Hd0 : d <> 0).
    { intros ->. vm_compute in Hord. injection Hord as <- Hb0.
      cbn in Hb0. injection Hb0 as Hb0. lia. }
    rewrite length_take in Hlen.
    destruct (IH (advance (Z.to_nat k) (b :: rest)) k) as (cs & Hcs & Ecs);
      trivial.
    + unfold advance. apply Forall_drop. exact Hl.
    + unfold advance. rewrite length_drop. cbn [length] in *. lia.
    + exists (d :: cs). split; [constructor; [lia | exact Hcs]|].
      rewrite utf8_text_cons, <- Ecs.
      replace (snd (ord2utf8 d)) with (take (Z.to_nat k) (b :: rest))
        by (rewrite Hord; reflexivity).
      unfold advance. symmetry. apply take_drop.
Qed.

(** A C string holds no zero, and trimming keeps what holds of all. *)
Lemma cstring_bytes (l : list Z) :
  Forall (fun x => 0 <= x < 256) l -> Forall (fun x => 0 < x < 256) (cstring l).
Proof.
  induction 1 as [|x l Hx Hl IH]; cbn [cstring]; [constructor|].
  destruct (Z.eqb_spec x 0); constructor; [lia | exact IH].
Qed.

(** What [rtrim] takes off is white space. *)
Lemma rtrim_split (l : list Z) :
  exists sp, l = rtrim l ++ sp /\ Forall (fun c => isspace c = true) sp.
Proof.
  induction l as [|c l (sp & E & Hsp)].
  - exists []. split; [reflexivity | constructor].
  - cbn [rtrim]. destruct (rtrim l) as [|t ts] eqn:Er.
    + destruct (isspace c) eqn:Hc.
      * exists (c :: l). split; [reflexivity|].
        constructor; [exact Hc|]. rewrite E. exact Hsp.
      * exists l. split; [reflexivity|]. rewrite E. exact Hsp.
    + exists sp. split; [|exact Hsp]. rewrite E at 1. reflexivity.
Qed.

(** What [skip_space] steps over is white space. *)
Lemma skip_space_split (l : list Z) :
  exists sp, l = sp ++ skip_space l /\ Forall (fun c => isspace c = true) sp.
Proof.
  induction l as [|c l (sp & E & Hsp)].
  - exists []. split; [reflexivity | constructor].
  - cbn [skip_space]. destruct (isspace c) eqn:Hc.
    + exists (c :: sp). split; [cbn [app]; f_equal; exact E|].
      constructor; trivial.
    + exists []. split; [reflexivity | constructor].
Qed.

Lemma utf8_text_app (cs1 cs2 : list Z) :
  utf8_text (cs1 ++ cs2) = utf8_text cs1 ++ utf8_text cs2.
Proof. unfold utf8_text. rewrite map_app, concat_app. reflexivity. Qed.

(** White space is its own text. *)
Lemma spaces_text (sp : list Z) :
  Forall (fun c => isspace c = true) sp ->
  utf8_text sp = sp /\ Forall (fun c => 0 < c <= 0x7fffffff) sp.
Proof.
  induction 1 as [|c sp Hc Hsp [IH1 IH2]]; [split; [reflexivity | constructor]|].
  apply isspace_ascii in Hc.
  split; [|constructor; [lia | exact IH2]].
  rewrite utf8_text_cons, IH1.
  destruct (ord2utf8_shape c ltac:(lia)) as [[_ ->] | (f & t & E & Hf & Ht)];
    [reflexivity|].
  pose proof (ascii_text true c ltac:(lia)) as Ha.
  unfold EncoderTerms.line_text in Ha.
  change (utf8_text [c]) with (snd (ord2utf8 c) ++ []) in Ha.
  rewrite app_nil_r, E in Ha. injection Ha as -> _. lia.
Qed.

(** A line whose trimmed text is the text of code points is itself one. *)
Lemma trimmed_text (l : list Z) (cs : list Z) :
  Forall (fun c => 0 < c <= 0x7fffffff) cs ->
  skip_space (rtrim l) = utf8_text cs ->
  exists cs', Forall (fun c => 0 < c <= 0x7fffffff) cs' /\ l = utf8_text cs'.
Proof.
  intros Hcs E.
  destruct (rtrim_split l) as (sp2 & E2 & Hsp2).
  destruct (skip_space_split (rtrim l)) as (sp1 & E1 & Hsp1).
  destruct (spaces_text sp1 Hsp1) as [T1 F1].
  destruct (spaces_text sp2 Hsp2) as [T2 F2].
  exists (sp1 ++ cs ++ sp2). split.
  - apply Forall_app. split; [exact F1|]. apply Forall_app. split; trivial.
  - rewrite !utf8_text_app, T1, T2, <- E, app_assoc, <- E1. exact E2.
Qed.

(** C9: under UTF and the native interface, a data line of bytes that is
    not the UTF-8 text of code points, whatever is wrong with it (a
    continuation byte standing alone, a sequence cut short or longer than
    its value needs, a byte 0xFE or 0xFF), is answered by the message about
    invalid UTF-8 input: the encoder leaves [dbuffer] as it found it and
    makes no subject, and [process_data] returns [PR_OK], so that the next
    line is read. *)
Theorem malformed_utf_line_rejected (h : pcre2_h) (e : engine)
    (test_mode : Z) (allocator : option nat -> Z -> option bool)
    (big_endian : bool) (regexec_lines : dmem -> Z -> datctl -> list report)
    (fuel : nat) (g : statics) (buffer : list Z) :
  flagged (pat_control (st_pat_patctl g)) CTL_POSIX = false ->
  flagged (compile_options g) (PCRE2_UTF h) = true ->
  Forall (fun x => 0 <= x < 256) buffer ->
  (forall cs, Forall (fun c => 0 < c <= 0x7fffffff) cs ->
              cstring buffer <> utf8_text cs) ->
  encode_data_line test_mode true allocator false buffer (st_dbuffer g)
  = Some (Rejected (st_dbuffer g) [Invalid_utf8_input])
  /\ process_data h e test_mode allocator big_endian regexec_lines fuel
       buffer g
     = Some (Data_done PR_OK [Encoder_line Invalid_utf8_input]).
Proof.
  intros Hposix Hutf Hbytes Hbad.
  assert (E : encode_data_line test_mode true allocator false buffer
                (st_dbuffer g)
              = Some (Rejected (st_dbuffer g) [Invalid_utf8_input])).
  { unfold encode_data_line. cbv zeta. cbn [andb].
    set (p0 := skip_space (rtrim (cstring buffer))).
    destruct (Z.leb_spec (utf8_check (length p0) p0 1) 0) as [_ | Hpass];
      [reflexivity|].
    exfalso.
    assert (Hp0 : Forall (fun x => 0 < x < 256) p0).
    { destruct (rtrim_split (cstring buffer)) as (sp2 & E2 & _).
      destruct (skip_space_split (rtrim (cstring buffer))) as (sp1 & E1 & _).
      pose proof (cstring_bytes buffer Hbytes) as Hc.
      rewrite E2 in Hc. apply Forall_app in Hc as [Hc _].
      rewrite E1 in Hc. apply Forall_app in Hc as [_ Hc]. exact Hc. }
    destruct (checked_text (length p0) p0 1 Hp0 ltac:(lia) ltac:(lia) Hpass)
      as (cs & Hcs & Ecs).
    destruct (trimmed_text (cstring buffer) cs Hcs Ecs) as (cs' & Hcs' & E').
    exact (Hbad cs' Hcs' E'). }
  split; [exact E|].
  unfold process_data. cbv zeta. rewrite Hposix, Hutf. cbn [negb andb].
  rewrite E. reflexivity.
Qed.

Lemma malformed_utf_line_rejected_witness :
  encode_data_line 8 true in_place false [0x61; 0xC0; 0x80; 0x62] initial_dmem
  = Some (Rejected initial_dmem [Invalid_utf8_input])
  /\ process_data sample_h (empty_match_engine sample_h) 8 in_place false
       (fun _ _ _ => []) 0 [0x61; 0xC0; 0x80; 0x62]
       (first_line_statics (PCRE2_UTF sample_h) 0 1)
     = Some (Data_done PR_OK [Encoder_line Invalid_utf8_input]).
Proof.
  apply (malformed_utf_line_rejected sample_h (empty_match_engine sample_h)
           8 in_place false (fun _ _ _ => []) 0
           (first_line_statics (PCRE2_UTF sample_h) 0 1)
           [0x61; 0xC0; 0x80; 0x62]).
  - vm_compute. reflexivity.
  - vm_compute. reflexivity.
  - repeat constructor; lia.
  - intros cs Hcs E.
    pose proof (utf8_check_text 4 cs 1 Hcs ltac:(lia)) as Hpass.
    rewrite <- E in Hpass. vm_compute in Hpass. discriminate.
Defined.

End ValidationFacts.

(** ** The matching loop for any engine *)

Module DriverFacts.
Import DataLine Modifiers Global GlobalTerms DriverTerms.
Import MachineFacts CodecFacts.

Section AnyEngine.
Variable h : pcre2_h.
Variable e : engine.
Variable test_mode : Z.
Variable utf : bool.
Variable newline_convention : Z.
Variable big_endian : bool.
Variable m : dmem.

Local Abbreviation turn :=
  (global_turn h e test_mode utf newline_convention big_endian m).

Lemma matched_keeps_datctl (capcount : Z) (s s' : gstate) :
  matched h e test_mode utf m capcount s = Again s' ->
  dat_datctl s' = dat_datctl s.
Proof.
  unfold matched.
  destruct (capcount >? sint (oveccount (dat_datctl s)));
    destruct (flagged (dat_control (dat_datctl s)) CTL_ANYGLOB);
    destruct (flagged (dat_control (dat_datctl s)) CTL_ALLCAPTURES);
    cbn [andb];
    try destruct (fst (pattern_info_capturecount e) <? 0);
    try match goal with
        | |- context [capture_lines ?a ?b ?c ?d ?n ?i ?t] =>
            destruct (capture_lines a b c d n i t) as [lines [f|]]
        end;
    intros H; try discriminate; injection H as <-; reflexivity.
Qed.

Lemma fake_match_keeps_datctl (s s' : gstate) :
  fake_match test_mode utf newline_convention big_endian m s = Again s' ->
  dat_datctl s' = dat_datctl s.
Proof.
  unfold fake_match.
  repeat match goal with
         | |- context [if ?b then _ else _] => destruct b
         | |- context [match ?x with inl _ => _ | inr _ => _ end] => destruct x
         end;
    intros H; try discriminate; injection H as <-; reflexivity.
Qed.

Lemma advance_global_break (s : gstate) :
  Z.land (dat_control (dat_datctl s)) CTL_ANYGLOB = 0 ->
  advance_global h test_mode s = Break s.
Proof.
  intros H. unfold advance_global. rewrite H. reflexivity.
Qed.

(** Without /g and /G no turn of the loop asks for another. *)
Lemma turn_not_again (s s' : gstate) :
  Z.land (dat_control (dat_datctl s)) CTL_ANYGLOB = 0 -> turn s <> Again s'.
Proof.
  intros H. unfold global_turn.
  set (s0 := if oveccount (dat_datctl s) <=? max_oveccount s then _ else _).
  assert (H0 : dat_datctl s0 = dat_datctl s)
    by (unfold s0; destruct (_ <=? _); reflexivity).
  set (call := if flagged (dat_control (dat_datctl s)) CTL_DFA then _ else _).
  assert (Hcall : dat_datctl (snd call) = dat_datctl s).
  { unfold call. destruct (flagged _ CTL_DFA).
    - destruct (pcre2_dfa_match _ _ _ _ _ _ _ _) as [rc md].
      destruct (rc =? 0); exact H0.
    - destruct (pcre2_match _ _ _ _ _ _ _) as [rc md].
      destruct (rc =? 0); exact H0. }
  destruct call as [capcount s1]. cbn [snd] in Hcall.
  destruct (capcount >=? 0).
  - destruct (matched h e test_mode utf m capcount s1) as [s2| | |] eqn:Em;
      try discriminate.
    apply matched_keeps_datctl in Em.
    rewrite advance_global_break by (rewrite Em, Hcall; exact H).
    discriminate.
  - destruct (capcount =? PCRE2_ERROR_PARTIAL h);
      [destruct (PCHARSV_reads _ _ _ _ _ _); discriminate|].
    destruct (negb (g_notempty s1 =? 0)).
    + destruct (fake_match _ _ _ _ _ s1) as [s2| | |] eqn:Ef; try discriminate.
      apply fake_match_keeps_datctl in Ef.
      rewrite advance_global_break by (rewrite Ef, Hcall; exact H).
      discriminate.
    + unfold failed.
      repeat match goal with
             | |- context [if ?b then _ else _] => destruct b
             end; discriminate.
Qed.

(** So the loop is over after its first turn: by a return, or by the
    undefined behaviour of a read outside the buffer. *)
Lemma loop_one_turn (s : gstate) :
  Z.land (dat_control (dat_datctl s)) CTL_ANYGLOB = 0 ->
  exists r, forall fuel,
    global_loop h e test_mode utf newline_convention big_endian m (S fuel) s
    = Some r.
Proof.
  intros H.
  destruct (turn s) as [s1 | s1 | rc s1 | f s1] eqn:Et.
  - exfalso. exact (turn_not_again s s1 H Et).
  - exists (Returned PR_OK s1). intros fuel. cbn [global_loop].
    rewrite Et. reflexivity.
  - exists (Returned rc s1). intros fuel. cbn [global_loop].
    rewrite Et. reflexivity.
  - exists (Faulted f s1). intros fuel. cbn [global_loop].
    rewrite Et. reflexivity.
Qed.

Lemma clear_anyglob (w : Z) : Z.land (clear_bits w CTL_ANYGLOB) CTL_ANYGLOB = 0.
Proof.
  unfold clear_bits. rewrite <- Z.land_assoc.
  change (Z.land (u32 (Z.lnot CTL_ANYGLOB)) CTL_ANYGLOB) with 0.
  apply Z.land_0_r.
Qed.

Lemma not_flagged (w bits : Z) : flagged w bits = false -> Z.land w bits = 0.
Proof.
  unfold flagged. destruct (Z.eqb_spec (Z.land w bits) 0); [trivial|].
  discriminate.
Qed.

(** X21: without the global modifiers the matching loop is over after
    one turn, whatever the engine answers: with neither /g nor /G among the
    data controls, or with an ovector count below 1, which makes the
    harness drop the two, the first turn ends the loop, by a return or by
    the undefined behaviour of printing subject text at offsets outside the
    buffer; the loop is not entered again. *)
Theorem one_turn_without_global (pp0 len0 ulen0 : Z) (d : datctl) (c : patctl)
    (md : match_data) (max_ovec dfa_count : Z) :
  flagged (dat_control d) CTL_ANYGLOB = false \/ oveccount d < 1 ->
  exists r, forall fuel,
    run_matches h e test_mode utf newline_convention big_endian m (S fuel)
      pp0 len0 ulen0 d c md max_ovec dfa_count = Some r.
Proof.
  intros Hd. unfold run_matches.
  set (drop_glob := flagged (dat_control d) CTL_ANYGLOB && (oveccount d <? 1)).
  set (d' := if drop_glob then _ else d).
  assert (H : Z.land (dat_control d') CTL_ANYGLOB = 0).
  { unfold d', drop_glob.
    destruct (flagged (dat_control d) CTL_ANYGLOB) eqn:Ef.
    - destruct Hd as [Hd | Hd]; [discriminate|].
      destruct (Z.ltb_spec (oveccount d) 1); [|lia].
      cbn [andb set_dat_control dat_control]. apply clear_anyglob.
    - cbn [andb]. apply not_flagged. exact Ef. }
  apply loop_one_turn. exact H.
Qed.

End AnyEngine.

Lemma one_turn_without_global_witness :
  exists r, forall fuel,
    run_matches sample_h (empty_match_engine sample_h) 8 false 0 false
      initial_dmem (S fuel) 0 0 0 zero_datctl zero_patctl
      (match_data_create 0) 0 0 = Some r.
Proof.
  apply (one_turn_without_global sample_h (empty_match_engine sample_h)
           8 false 0 false initial_dmem 0 0 0 zero_datctl zero_patctl
           (match_data_create 0) 0 0).
  left. reflexivity.
Defined.

(** X22: in 8-bit UTF mode the fake match that follows a failed retry
    reads outside the buffer when it has to step over a UTF-8 character of
    more than one byte near the end of the subject.  The [else] that is
    meant for the 16-bit loop belongs to the [if] inside the 8-bit loop, so
    at a continuation byte the 8-bit loop goes on with the 16-bit loop,
    which reads the two bytes at twice the offset.  With the subject ending
    where the buffer ends, as the encoder places it, with a newline
    convention that does not know CR LF, a continuation byte at the offset
    behind the empty match and fewer than two bytes of subject at twice
    that offset, the read is outside the allocation. *)
Theorem fake_match_reads_beyond (nl : Z) (big_endian : bool) (m : dmem)
    (s : gstate) :
  crlf_aware nl = false ->
  0 <= pp s -> pp s + ulen s = dbuffer_size m ->
  0 <= offset (dat_datctl s) -> offset (dat_datctl s) + 1 < ulen s ->
  ulen s < 2 ^ 63 ->
  Z.land (nth (Z.to_nat (pp s + (offset (dat_datctl s) + 1))) (cells m) 0) 0xc0
    = 0x80 ->
  ulen s < 2 * (offset (dat_datctl s) + 1) + 2 ->
  fake_match 8 true nl big_endian m s = Astray Out_of_bounds s.
Proof.
  intros Hnl Hpp Hend Hstart Hlt Hbig Hcont Hhalf.
  unfold fake_match. unfold crlf_aware in Hnl. rewrite Hnl.
  cbn [andb negb]. change (8 =? PCRE32_MODE) with false.
  change (8 =? PCRE8_MODE) with true. cbv iota. cbn [negb].
  rewrite usize_small by lia.
  destruct (Z.to_nat (ulen s)) as [|[|fuel]] eqn:Efuel; [lia | lia |].
  cbn [skip_continuation].
  destruct (Z.ltb_spec (offset (dat_datctl s) + 1) (ulen s)); [|lia].
  cbn [negb]. unfold byte_at.
  destruct (Z.leb_spec 0 (pp s + (offset (dat_datctl s) + 1))); [|lia].
  destruct (Z.leb_spec (pp s + (offset (dat_datctl s) + 1) + 1)
              (dbuffer_size m)); [|lia].
  cbn [andb]. rewrite Hcont. change (0x80 =? 0x80) with true. cbn [negb].
  cbn [skip_low_surrogates].
  destruct (Z.ltb_spec (offset (dat_datctl s) + 1) (ulen s)); [|lia].
  cbn [negb]. unfold half_at.
  destruct (Z.leb_spec 0 (pp s + 2 * (offset (dat_datctl s) + 1))); [|lia].
  destruct (Z.leb_spec (pp s + 2 * (offset (dat_datctl s) + 1) + 2)
              (dbuffer_size m)); [lia|].
  reflexivity.
Qed.

Lemma fake_match_reads_beyond_witness :
  fake_match 8 true 0 false
    {| dbuffer := Some O; dbuffer_size := 3; cells := [0x61; 0xC3; 0xA9] |}
    (retry_at 0 3 1)
  = Astray Out_of_bounds (retry_at 0 3 1).
Proof.
  apply (fake_match_reads_beyond 0 false
           {| dbuffer := Some O; dbuffer_size := 3;
              cells := [0x61; 0xC3; 0xA9] |} (retry_at 0 3 1));
    vm_compute; congruence.
Defined.

End DriverFacts.

(** ** Small string functions *)

Module StringFacts.
Import DataLine Modifiers DataLineTerms Arguments.
Import MachineFacts DataLineFacts.

(** X23: [strncmpic] compares without regard to the case of ASCII
    letters: over two strings that have [n] bytes each it returns 0 exactly
    when the first [n] bytes of the two agree after [tolower]. *)
Theorem strncmpic_zero_iff : forall (n : nat) (s t : list Z),
  (n <= length s)%nat -> (n <= length t)%nat ->
  strncmpic s t n = 0 <->
  map tolower (take n s) = map tolower (take n t).
Proof.
  induction n as [|n IH]; intros s t Hs Ht.
  - cbn. tauto.
  - destruct s as [|a s]; [cbn in Hs; lia|].
    destruct t as [|b t]; [cbn in Ht; lia|].
    cbn [strncmpic peek hd take map]. unfold advance. cbn [skipn].
    cbn [length] in Hs, Ht. rewrite ?skipn_O.
    destruct (Z.eqb_spec (tolower a - tolower b) 0) as [E | E]; cbn [negb].
    + change (drop 0 s) with s. change (drop 0 t) with t.
      rewrite (IH s t) by lia. split.
      * intros ->. f_equal. lia.
      * intros H. injection H as _ H. exact H.
    + split; [intros H; contradiction|].
      intros H. injection H as H _. lia.
Qed.

Lemma strncmpic_zero_iff_witness :
  strncmpic (bytes_of_string "AnyCRLF"%string) (bytes_of_string "anycrlf"%string) 7 = 0 <->
  map tolower (take 7 (bytes_of_string "AnyCRLF"%string))
  = map tolower (take 7 (bytes_of_string "anycrlf"%string)).
Proof.
  apply (strncmpic_zero_iff 7 (bytes_of_string "AnyCRLF"%string)
           (bytes_of_string "anycrlf"%string)); vm_compute; lia.
Defined.

Lemma skip_space_spaces (ws rest : list Z) :
  Forall (fun c => isspace c = true) ws -> isspace (peek rest) = false ->
  skip_space (ws ++ rest) = rest.
Proof.
  intros Hws Hr. induction Hws as [|c ws Hc Hws IH]; cbn [app].
  - destruct rest as [|c rest]; [reflexivity|].
    cbn [skip_space]. cbn in Hr. rewrite Hr. reflexivity.
  - cbn [skip_space]. rewrite Hc. exact IH.
Qed.

(** X24: [get_value] passes over leading white space and reads the
    decimal number that follows: for white space [ws], decimal digits [ds]
    (at least one) whose value is below 2^31, and a rest that does not
    start with a digit, it returns that value and stops at the rest. *)
Theorem get_value_reads_number (ws ds rest : list Z) :
  Forall (fun c => isspace c = true) ws ->
  Forall (fun d => isdigit d = true) ds -> ds <> [] ->
  isdigit (peek rest) = false ->
  decimal ds 0 < 2 ^ 31 ->
  get_value (ws ++ ds ++ rest) = (decimal ds 0, rest).
Proof.
  intros Hws Hds Hne Hr Hv. unfold get_value.
  rewrite skip_space_spaces; trivial.
  - apply read_decimal_digits; trivial. lia.
  - destruct ds as [|d ds]; [contradiction|].
    apply Forall_cons in Hds as [Hd _]. cbn [app peek hd].
    apply isdigit_range in Hd. unfold isspace.
    destruct (Z.eqb_spec d 32); [lia|].
    destruct (Z.leb_spec 9 d), (Z.leb_spec d 13); try lia; reflexivity.
Qed.

Lemma get_value_reads_number_witness :
  get_value ([32; 9] ++ [52; 50] ++ [44; 55])
  = (decimal [52; 50] 0, [44; 55]).
Proof.
  apply (get_value_reads_number [32; 9] [52; 50] [44; 55]).
  - repeat constructor.
  - repeat constructor.
  - discriminate.
  - reflexivity.
  - vm_compute. reflexivity.
Defined.

End StringFacts.

(** ** A data line from end to end *)

Module ProcessFacts.
Import Codec DataLine Modifiers Global CodecTerms EncoderTerms Samples.
Import MachineFacts CodecFacts EncoderFacts DriverFacts.

(** X25: a data line of plain characters, without data modifiers and
    without /g or /G from the pattern or the defaults, is processed in one
    turn of the matching loop, whatever the engine answers: the encoder
    hands the subject on without writing a message, no modifier is
    decoded, and the matching loop is over after its first turn, by a
    return or by the undefined behaviour of printing subject text at
    offsets outside the buffer; [process_data] ends as the loop does,
    never by leaving the program, and everything it has written by then
    comes from the matching loop. *)
Theorem plain_line_processed (h : pcre2_h) (e : engine) (test_mode : Z)
    (allocator : option nat -> Z -> option bool) (big_endian : bool)
    (regexec_lines : dmem -> Z -> datctl -> list report) (g : statics)
    (cs : list Z) :
  let utf := flagged (compile_options g) (PCRE2_UTF h) in
  let d := set_dat_control
             (or_bits (dat_control (def_datctl g))
                (Z.land (pat_control (st_pat_patctl g)) CTL_ALLPD))
             (def_datctl g) in
  let n := Z.of_nat (length (subject_text test_mode utf cs)) in
  test_mode = 8 \/ test_mode = 16 \/ test_mode = 32 ->
  (forall a n, allocator a n <> None) ->
  buffer_ok test_mode (st_dbuffer g) ->
  flagged (pat_control (st_pat_patctl g)) CTL_POSIX = false ->
  flagged (dat_control d) CTL_ANYGLOB = false ->
  Forall (plain test_mode utf) cs ->
  isspace (hd 0 cs) = false -> isspace (List.last cs 0) = false ->
  Z.of_nat (length (line_text utf cs)) < 2 ^ 60 ->
  exists m' pp0 r,
    encode_data_line test_mode utf allocator false (line_text utf cs)
      (st_dbuffer g)
    = Some (Subject m' pp0 (n * code_unit_size test_mode) n None [])
    /\ forall fuel,
       run_matches h e test_mode utf (code_newline g) big_endian m' (S fuel)
         pp0 (n * code_unit_size test_mode) n d (st_pat_patctl g)
         (st_match_data g) (st_max_oveccount g) (st_dfa_matched g)
       = Some r
       /\ process_data h e test_mode allocator big_endian regexec_lines
            (S fuel) (line_text utf cs) g
          = Some match r with
                 | Returned rc s => Data_done rc (map Match_report (glog s))
                 | Faulted f s =>
                     Data_undefined f (map Match_report (glog s))
                 end.
Proof.
  intros utf d n Hmode Halloc Hbuf Hposix Hglob Hcs Hhd Hlast Hlen.
  pose proof (plain_all_range test_mode utf cs Hcs) as Hr.
  destruct (subject_text_length test_mode utf cs Hcs) as [HU Hn].
  destruct (encode_run test_mode utf allocator false (st_dbuffer g)
              (line_text utf cs) (subject_text test_mode utf cs) [] false
              Hmode ltac:(discriminate) Halloc Hbuf)
    as (m' & pp0 & He & _); trivial.
  - apply (line_ready utf cs O); trivial.
  - apply (line_ready utf cs O); trivial.
  - apply (line_ready utf cs _); trivial.
  - intros a size nl junk Hroom Hsize.
    replace (length (line_text utf cs))
      with (length cs + (length (line_text utf cs) - length cs))%nat by lia.
    rewrite <- (app_nil_r (line_text utf cs)) at 2.
    rewrite (scan_text test_mode utf allocator a size nl Hmode)
      by (trivial; lia).
    apply scan_end.
  - fold n in He.
    assert (Hd : Z.land (dat_control d) CTL_ANYGLOB = 0)
      by (apply not_flagged; exact Hglob).
    set (s0 := {| pp := pp0; len := n * code_unit_size test_mode; ulen := n;
                   g_notempty := 0; gmatched := 0; dat_datctl := d;
                   pat_patctl := st_pat_patctl g; mdata := st_match_data g;
                   max_oveccount := st_max_oveccount g;
                   dfa_matched := st_dfa_matched g;
                   glog := (if Z.land (dat_control d) (Z.lor CTL_DFA CTL_LIMITS)
                               =? Z.lor CTL_DFA CTL_LIMITS
                            then [Limits_ignored] else []) ++ [] |}).
    assert (Hloop : forall fuel,
      run_matches h e test_mode utf (code_newline g) big_endian m' fuel
        pp0 (n * code_unit_size test_mode) n d (st_pat_patctl g)
        (st_match_data g) (st_max_oveccount g) (st_dfa_matched g)
      = global_loop h e test_mode utf (code_newline g) big_endian m' fuel s0).
    { intros fuel. unfold run_matches. rewrite Hglob. cbn [andb].
      reflexivity. }
    destruct (loop_one_turn h e test_mode utf (code_newline g) big_endian m'
                s0 Hd) as (r & Hr1).
    exists m', pp0, r. split; [exact He|].
    intros fuel. rewrite Hloop, Hr1. split; [reflexivity|].
    unfold process_data. rewrite Hposix. cbn [negb andb].
    fold utf. rewrite He. cbn [map app dctl outfile default].
    fold d. unfold id. rewrite Hloop, Hr1.
    destruct r; reflexivity.
Qed.

Lemma plain_line_processed_witness :
  exists m' pp0 r,
    encode_data_line 8 false in_place false [97; 98; 99] initial_dmem
    = Some (Subject m' pp0 3 3 None [])
    /\ forall fuel,
       run_matches sample_h (empty_match_engine sample_h) 8 false 0 false m'
         (S fuel) pp0 3 3 (def_datctl (first_line_statics 0 0 0)) zero_patctl
         (match_data_create DEFAULT_OVECCOUNT) DEFAULT_OVECCOUNT 0
       = Some r
       /\ process_data sample_h (empty_match_engine sample_h) 8 in_place
            false (fun _ _ _ => []) (S fuel) [97; 98; 99]
            (first_line_statics 0 0 0)
          = Some match r with
                 | Returned rc s => Data_done rc (map Match_report (glog s))
                 | Faulted f s =>
                     Data_undefined f (map Match_report (glog s))
                 end.
Proof.
  apply (plain_line_processed sample_h (empty_match_engine sample_h) 8
           in_place false (fun _ _ _ => []) (first_line_statics 0 0 0)
           [97; 98; 99]).
  - left. reflexivity.
  - discriminate.
  - left. reflexivity.
  - reflexivity.
  - reflexivity.
  - repeat constructor; vm_compute; congruence.
  - reflexivity.
  - reflexivity.
  - vm_compute. reflexivity.
Defined.



End ProcessFacts.
